(* ===== verification/_CoqProject ===== *)
-Q . S2P
Prelude.v
Effects.v
Text.v
Json.v
Utf8.v
JsonCodec.v
Stamps.v
HmasTypes.v
StateMachine.v
Metrics.v
World.v
Planning.v
PlanningFacts.v
Utf8Facts.v
Store.v
StoreFacts.v
StoreSync.v
StoreTheorems.v
HmasStore.v
HmasFacts.v
Orchestrator.v
OrchestratorFacts.v
SubmitFacts.v
OrchestratorTheorems.v
Messaging.v
MessagingTheorems.v
Guards.v
GuardsTheorems.v
Http.v
Routes.v
RouteFacts.v
RouteTheorems.v
Regex.v
AgentMessages.v
CoreMetrics.v
AgentCore.v
Logging.v
Scheduler.v
SchedulerTheorems.v
PullOrSteal.v
Commands.v
CommandTheorems.v
FailureInjector.v
Runtime.v
RuntimeFacts.v
TeamFacts.v
LeadFacts.v
RuntimeInvariant.v
RuntimeTheorems.v
GitHubClient.v
GitHubTheorems.v
PeerDiscovery.v
PeerTheorems.v
NatsConnection.v
NatsTheorems.v
ServerMain.v
ServerTheorems.v
PublishFacts.v
Coroutine.v
CoroutineTheorems.v
GrpcAgents.v
GrpcTheorems.v
Housekeeping.v
Concurrency.v
ConcurrencyFacts.v
InterleavingFacts.v
ConcurrencyTheorems.v
BreakerThreads.v
InboxThreads.v
