(* ===== verification/Prelude.v ===== *)
(** * Agamemnon: a verification development

    Agamemnon is the orchestration server of a mesh of worker agents ("myrmidons").  It keeps
    agents, teams, tasks, chaos faults and hierarchical task plans in memory, writes them
    through to GitHub issues, serves them over a REST API, and publishes work and events over
    NATS.  The same repository holds an in-process runtime of agents (a chief architect,
    component leads, module leads, task agents) on a work-stealing scheduler.  This library
    models the C++ of both, under src/src, src/include/agamemnon and
    src/include/agamemnon_agents, as executable functions and step systems, and proves the
    properties they are meant to have.

    ** The program's parts and the files that model them

    - [Prelude] (this file): strings as [std::string], sorting and slicing of listings, the
      iteration order of [std::unordered_map] as a parameter ([HashOrder]), shared lemmas,
      hint databases.
    - [Effects]: the state-and-exception monad every operation is written in (a throw keeps the
      mutations before it), the sources of randomness and time, and [generate_uuid] and
      [now_iso8601] of src/store.cpp.  [Text]: the text functions the sources use ([stoi],
      searching, splitting).  [Stamps]: identifiers and the order of timestamps.
    - [Json]: the value type of nlohmann::json and the documented behaviour of its accessors,
      exceptions included; its text functions [dump] and [parse] are parameters (class
      [JsonText]) with their documented laws ([JsonTextLaws]).  [Utf8]: valid UTF-8, and the
      law of [dump], which throws exactly on a value with a string that is not ([DumpLaw]).
      [JsonCodec]: an instance of them, used by the witnesses.
    - [HmasTypes]: src/hmas_types.cpp, the hierarchical tasks and briefs with their JSON form.
    - [StateMachine]: src/state_machine.cpp, the transition table, and the lifecycle it
      implements as a step relation.
    - [Metrics]: src/metrics.cpp, the Prometheus registry.
    - [World]: the interfaces [IGitHubClient] and [NatsPublisher], the doubles
      [MockGitHubClient] and [FakeNatsPublisher], the data members of [Store], and the state
      of the process over which all operations run.
    - [Planning], [PlanningFacts]: src/planning_breakdown.cpp, the parsing of items and the
      decomposition of a brief into a tree of tasks.  [Utf8Facts]: which texts of tasks and
      plans are valid UTF-8, so that their JSON can be dumped.
    - [Store], [StoreFacts], [StoreSync], [StoreTheorems]: src/store.cpp, the JSON collections:
      hydration from GitHub, write-through, inbound events, reconciliation, every create, read,
      update, delete and list operation.
    - [HmasStore], [HmasFacts]: src/store.cpp, the typed tasks with their index by brief, and
      the briefs.
    - [Orchestrator], [OrchestratorFacts], [SubmitFacts], [OrchestratorTheorems]:
      src/orchestrator.cpp, the life of a brief from submission through delegation, worker
      events, escalation and splitting to completion.
    - [Messaging], [MessagingTheorems]: src/circuit_breaker.cpp, src/dead_letter_queue.cpp and
      the publishing half of src/nats_client.cpp.
    - [Guards], [GuardsTheorems]: src/rate_limiter.cpp, src/auth.cpp, src/github_webhook.cpp,
      include/agamemnon/port_parse.hpp.
    - [Http], [Routes], [RouteFacts], [RouteTheorems]: src/routes.cpp, the validators and
      replies, every handler, the pre-routing handler, the route table and the server built
      from them.
    - [GitHubClient], [GitHubTheorems]: src/github_client.cpp, the GitHub client over libcurl
      with its retries and paging; it implements the interface [IGitHubClient] the stores use.
    - [PeerDiscovery], [PeerTheorems]: src/peer_discovery.cpp, the candidates of a Tailscale
      network and the concurrent search for a NATS server among them.
    - [NatsConnection], [NatsTheorems]: the other half of src/nats_client.cpp, connecting,
      closing, creating streams, subscribing and the callbacks, over nats.c as a parameter
      ([NatsLib], with the documented matching of subjects as the class [NatsLibLaws]).
    - [ServerMain], [ServerTheorems]: src/server_main.cpp, from the environment through the wiring
      of all components to the way out, with the reconciliation thread and the signal handler as
      a step system; src/healthcheck_main.cpp.  [PublishFacts]: what the whole server publishes.
    - [Concurrency]: every handler of src/orchestrator.cpp that changes tasks as the tree of its
      atomic actions (one call of the store or of the publisher each), and pools of such
      programs interleaved action by action; [ConcurrencyFacts] (programs alone, termination of
      pools, a calculus of what one program keeps and pursues among others, budgets),
      [InterleavingFacts] (the handlers in that calculus), [ConcurrencyTheorems].
      [BreakerThreads]: the circuit breaker of [Messaging] cut at its atomic loads and stores.

    The agent runtime:

    - [Regex]: the part of [std::regex] the sources use, as expressions with an executable
      matcher, and the language an expression denotes.
    - [AgentMessages]: src/core/message.cpp and src/agents/agent_envelope.cpp, messages,
      responses, deadlines and the envelope of the orchestration layer.
    - [CoreMetrics]: src/core/metrics.cpp, counters and the bounded map of send times.
    - [AgentCore]: src/agents/agent_core.cpp, the three inboxes of an agent, backpressure,
      fairness and cancellation, over any queue with the laws [ConcurrentQueueLaws], which hold
      with other operations in flight; theorems about one thread may use [QuiescentQueueLaws] too.
      [InboxThreads]: delivery and fetching cut at their queue operations, among threads.
    - [Commands], [CommandTheorems]: the command validators and executors of
      src/agents/task_agent.cpp and src/agents/task_execution_strategy.cpp, and the error
      sanitizer of core/error_sanitizer.hpp.
    - [FailureInjector]: src/core/failure_injector.cpp.
    - [Logging]: src/concurrency/logger.cpp, thread contexts, correlation scopes, formatting.
    - [Scheduler], [SchedulerTheorems], [PullOrSteal]: src/concurrency, the worker threads with
      their queues, stealing, shutdown, and the awaitables that take work.
    - [Runtime]: coordination state, router, agents and the step relation of the system
      (src/agents, agents/coordination_state.hpp, agents/lead_agent_base.hpp,
      core/in_process_router.hpp); [RuntimeFacts], [LeadFacts] and [TeamFacts] are its lemmas,
      [RuntimeInvariant] its invariant, [RuntimeTheorems] its theorems.
    - [Coroutine], [CoroutineTheorems]: concurrency/task.hpp and
      src/concurrency/scheduler_accessor.cpp, coroutine frames, promises, symmetric transfer,
      [get()] and the owning task objects, run by threads and by pools of workers.
    - [GrpcAgents], [GrpcTheorems]: the parts of the agents under ENABLE_GRPC, registration,
      heartbeat threads, goals and tasks as YAML, polling threads; the services they call are
      arbitrary ([Network]).
    - [Housekeeping]: correlation ids, the report of the runtime's metrics, the scheduler's
      destructor and CPU pinning, the server's request timer.

    ** How the parts interact

    A request passes [Routes.pre_routing] (authentication, then rate limiting), is routed by
    the table to a handler, validated, and handed to [Store] or [Orchestrator]; the handler
    publishes through the [NatsPublisher] of the world and answers.  The orchestrator works on
    the store's HMAS collection and publishes dispatches; worker events come back through
    [on_myrmidon_completion], [on_myrmidon_started] and [on_myrmidon_failed], which
    [ServerMain.go_online] subscribes and [NatsConnection.deliver] calls.  GitHub events
    enter through [Routes.post_webhook] or [reconcile_from_github].  Theorems about the store
    and the orchestrator hold for every implementation of the two interfaces, also ones that
    throw, unless the statement says otherwise; [GitHubTheorems] instantiates one of them with
    the client over HTTP.

    In the runtime a lead ([lead_processMessage], against the interface [LeadAgent] with an
    instance per kind of lead) turns a goal into messages; the router puts them in the inboxes
    of the receivers ([AgentCore]) or, when an agent has a scheduler, into jobs; task agents run
    the validated commands ([Commands]) and answer; the lead counts answers and failures in its
    [CoordinationState] and reports.

    ** What the theorems show

    - Store: every entity is stored under its own id whatever operations run and whichever
      throw; updates never touch protected fields or other entities; tasks are isolated by
      team; listings are pages of the collection in key order independent of hash order;
      inbound edits commute (last writer wins) and textual timestamp order is chronological;
      a restarted server recovers what it persisted; one malformed issue blocks a collection.
    - Plans and orchestration: the state machine refines the lifecycle; the decomposition
      covers exactly the brief; the index by brief equals a scan and every write keeps it;
      submission stores the plan (given texts in UTF-8, without which dump throws); completion, claims, failures and escalations do what the
      protocol says and release exactly the children whose blockers are done; task JSON and
      item annotations round-trip.  Two flaws are proved: sequential modules after the first
      are never released, and a failed split leaves orphans.
    - Concurrent handlers: run alone a program is the handler it was cut from; every pool of
      requests finishes; no interleaving of worker events, delegations and escalations loses,
      invents or reshapes a task or takes one back to Pending; completions that race release every
      child whose blockers are done.  Flaws: a "started" event or a split that read a task before
      its completion overwrites it, two completions can dispatch a child twice, and a subtask split
      off a completed task is never delegated.
    - Messaging: the breaker opens at its threshold and stays open for the probe interval, and
      threads that share it neither trip it early nor miss the trip (flaws: half-open lets every
      attempt through, a stale store half-opens a circuit that a success closed); a publish the breaker admits makes one to three attempts and succeeds exactly when the broker
      accepted the last one, and dead-letters the message otherwise; the dead-letter queue keeps
      the newest messages; callback contexts and subscriptions correspond one to one and none is
      left after close, if no connect overwrote an open connection (which leaks it, a flaw).
    - Server: start-up refuses without a key and otherwise takes its settings from the
      environment, except the payload limit, which registering the routes overwrites (a flaw);
      every event from the broker runs the handler of its subject once; everything the server
      publishes lies in a stream it created and outside what it subscribes to; a signal ends the
      process in a bounded number of steps with its thread joined.  Flaws: a failed bind exits
      with 0, the health check reads PORT differently, a signal before [listen] can be lost.
    - Guards and routes: buckets stay within their capacity and a client's rate is bounded;
      signatures and ports are accepted exactly when valid; unauthenticated requests change
      nothing; nothing unvalidated reaches the store and rejected requests change nothing; no
      response leaks an internal field; routing does not depend on registration order.

    - GitHub over HTTP: a request makes at most three attempts with the delays of the code; the
      paged listing returns every issue when each page is answered within them; a store
      restarted over the client then recovers its state.  Flaw: a page that is not ends the listing
      without an error, and the collection counts as loaded.
    - Discovery: the search ends after a bounded number of steps, publishes at most one result,
      returns only a server that answered and finds one that answers; candidates are addresses of other machines.
    - Commands: nothing accepted contains one of ten shell characters, and a dollar sign only in
      an arithmetic expansion; the two validators agree except on sleeps.  Newlines pass, which
      is a flaw, and so do parentheses.
    - Agents: inboxes neither lose nor invent messages up to their limit, also when threads
      deliver and fetch at the same time (the limit is then soft by the number of senders); a task agent answers
      every message once; a goal given to a healthy team ends, in whatever order its members
      run, with the sum of its numbers; failures are counted and the last one is reported;
      every agent stays well-formed under every sequence of calls.  Flaws: a busy HIGH inbox
      starves the others, a failed worker's refusal is summed as a result, a failure followed by
      a success is not reported, an exception of a scheduled message ends the process.
    - Scheduler: no work is lost, duplicated or invented under any interleaving; shutdown ends
      when nothing is submitted meanwhile, with every item run or in a queue whose last dequeue
      failed, and every item run when there is one worker.  Flaws: work submitted by
      draining work can be lost, a thief keeps the correlation id of what it stole, an await that
      sees shutdown drops the work it took.
    - Coroutines: a task got by ordinary code gives what nested calls give, to any depth, and a
      pool of workers runs a submitted task to its end under every schedule; every frame is owned
      once.  Flaw: [get()] on a worker resumes a running coroutine when the body awaits.
    - Distributed agents: leads delegate a goal's subtasks in turn, track and poll for what was
      accepted; every failed poll is recorded once, and the lead ends in ERROR exactly when all
      subtasks failed, under every interleaving; a task agent runs a command once and reports its
      outcome.  Flaws: successes are never recorded, a refused goal is not reported, a
      second heartbeat start terminates, a poll can outlive its client.
    - Metrics and logging: the map of send times is bounded; correlation ids are version 4 UUIDs; the formatter fills placeholders
      from the left; envelopes survive the transport.

    ** Modelling decisions

    Machine integers are [Z] with their wrap-around written where it can occur ([wrap32],
    [stoul], the breaker's counter, sums of results, metric counters).  [double] arithmetic of the rate limiter is rational
    arithmetic followed by a rounding function.  A store operation is atomic: the code holds the
    collection's mutex around its body; the handlers of the orchestrator are not, and
    [Concurrency] interleaves them between store operations.  Atomics of the breaker are
    sequentially consistent.  Loops over lists are structural; the only fuel is in
    [deps_loop] and [slice_loop], where it is the length of the text and of the list, proved
    enough ([deps_loop_fuel], [slice_loop_spec]), in the regex matcher, where it is the length of
    the text (a star's body consumes; [matches_agrees] shows it enough), in the page loop of the
    GitHub listing, whose bound is an argument and any bound above the number of pages is shown
    enough, and in the retry loops of the NATS and GitHub clients, which the code bounds itself.
    Threads of the scheduler and of the discovery interleave step by step; agents interleave
    message by message, a coroutine driven to its end where it is awaited ([Runtime]), which is
    what [CoroutineTheorems] shows of coroutines got by ordinary code.  The body of a coroutine is
    a tree of code between suspensions; the chain of frames a destructor frees is bounded by the
    number of frames.  [join] of a heartbeat thread is three steps of it, proved enough
    ([join_suffices]).  What a scheduled piece of work does is a parameter.  Clocks and random engines are streams of readings.

    ** What is not modelled

    nats.c, libcurl, OpenSSL, prometheus-cpp, cpp-httplib, moodycamel's queue, nlohmann's text
    functions, the shell, sockets, [std::stod] and the user-supplied [std::regex] of discovery
    are parameters, and so are the namespace [network] and the protobuf messages behind
    ENABLE_GRPC, which are not in the repository.  Not modelled: console output, the
    interleaving of threads inside a store operation, a publish or a REST handler other than those
    of the orchestrator, relaxed memory orders, data races on plain members, C++
    concepts and deleted or defaulted members, src/main.cpp and src/version_info.cpp (which print
    and return constants), and src/auth_middleware.hpp, an earlier check nothing includes. *)

From stdpp Require Export base tactics list strings gmap pretty sorting.
From stdpp Require Export fin_maps.
From Stdlib Require Export Ascii ZArith Lia.

#[export] Set Warnings "-clear-no-such-hyp".

(** ** Automation of the development *)

Create HintDb agamemnon discriminated.
#[export] Hint Constants Opaque : agamemnon.
Create Rewrite HintDb agamemnon.

(** Case analysis on the scrutinee of the first match or conditional of the goal
    (or of an hypothesis), keeping the equation. *)
Ltac case_goal :=
  match goal with
  | |- context [ match ?x with _ => _ end ] =>
      lazymatch x with
      | context [ match _ with _ => _ end ] => fail
      | _ => let H := fresh "Hc" in destruct x eqn:H
      end
  end.

Ltac case_hyp H0 :=
  match type of H0 with
  | context [ match ?x with _ => _ end ] =>
      lazymatch x with
      | context [ match _ with _ => _ end ] => fail
      | _ => let H := fresh "Hc" in destruct x eqn:H
      end
  end.

(** ** Strings as std::string

    A C++ [std::string] is a sequence of bytes; [Stdlib]'s [string] is a sequence of 8-bit
    [ascii] characters, ordered by [String.leb] (lexicographic on unsigned bytes, as
    [std::string::operator<]). *)


(** [std::string::npos] is [None]; [find pat s from] is [s.find(pat, from)]. *)
Definition str_find (pat s : string) (from : nat) : option nat := String.index from pat s.

(** [s.substr(pos)] and [s.substr(pos, n)]; both clamp at the end of [s]. *)
Definition str_substr (s : string) (pos n : nat) : string := String.substring pos n s.
Definition str_drop (s : string) (pos : nat) : string :=
  String.substring pos (String.length s - pos) s.

(** [s.starts_with(p)], also spelled [s.rfind(p, 0) == 0] in the sources. *)
Definition starts_with (p s : string) : bool := String.prefix p s.

(** [s.empty()]. *)
Definition str_empty (s : string) : bool := match s with "" => true | _ => false end.

(** [s[i]], out of range is the null character (the sources only read in range). *)
Definition str_at (s : string) (i : nat) : ascii :=
  match String.get i s with Some c => c | None => Ascii.zero end.

(** [std::to_string] on an integer. *)
Definition to_string (z : Z) : string := pretty z.

Definition byte_of (c : ascii) : Z := Z.of_N (N_of_ascii c).

(** The C locale's classification functions of <cctype>. *)
Definition isdigit (c : ascii) : bool := (48 <=? byte_of c)%Z && (byte_of c <=? 57)%Z.
Definition isspace (c : ascii) : bool :=
  (byte_of c =? 32)%Z || ((9 <=? byte_of c)%Z && (byte_of c <=? 13)%Z).
Definition isxdigit (c : ascii) : bool :=
  isdigit c || ((65 <=? byte_of c)%Z && (byte_of c <=? 70)%Z)
  || ((97 <=? byte_of c)%Z && (byte_of c <=? 102)%Z).
Definition tolower (c : ascii) : ascii :=
  if (65 <=? byte_of c)%Z && (byte_of c <=? 90)%Z
  then ascii_of_N (Z.to_N (byte_of c + 32)) else c.

Fixpoint str_map (f : ascii -> ascii) (s : string) : string :=
  match s with "" => "" | String c s => String (f c) (str_map f s) end.

(** Boolean equality of strings, [operator==]. *)
Definition str_eqb (a b : string) : bool := bool_decide (a = b).

(** ** Hash maps

    [std::unordered_map] iterates in an unspecified order: the order is a parameter, and
    theorems about code that iterates hold for every order. *)

Class HashOrder := { hash_order : forall {A}, gmap string A -> list (string * A) }.

Class HashOrderLaw `{!HashOrder} :=
  { hash_order_perm {A} (m : gmap string A) : hash_order m ≡ₚ map_to_list m }.

(** One admissible order. *)
Definition list_order : HashOrder := {| hash_order := fun _ m => map_to_list m |}.
Definition list_order_law : @HashOrderLaw list_order :=
  @Build_HashOrderLaw list_order (fun A m => Permutation_refl _).

(** Another one: the order backwards. *)
Definition rev_order : HashOrder := {| hash_order := fun _ m => reverse (map_to_list m) |}.
Definition rev_order_law : @HashOrderLaw rev_order :=
  @Build_HashOrderLaw rev_order (fun A m => reverse_Permutation _).

(** [std::sort] on (key, value) pairs by key. *)
Definition key_le {A} (x y : string * A) : Prop := String.le x.1 y.1.
#[global] Instance key_le_dec {A} : RelDecision (@key_le A) :=
  fun x y => decide (String.le x.1 y.1).
Definition sort_by_key {A} (l : list (string * A)) : list (string * A) := merge_sort key_le l.

(** [for (i = offset; i < v.size() && out.size() < limit; ++i) out.push_back(v[i])]. *)
Fixpoint slice_loop {A} (fuel : nat) (v out : list A) (i limit : Z) : list A :=
  match fuel with
  | O => out
  | S fuel =>
      if (i <? Z.of_nat (length v))%Z && (Z.of_nat (length out) <? limit)%Z then
        match v !! Z.to_nat i with
        | Some x => slice_loop fuel v (out ++ [x]) (i + 1) limit
        | None => out
        end
      else out
  end.
(** The loop runs at most [v.size()] times. *)
Definition slice {A} (v : list A) (limit offset : Z) : list A :=
  slice_loop (length v) v [] offset limit.

(** ** Lemmas on sorting and slicing *)

#[global] Instance key_le_trans {A} : Transitive (@key_le A).
Proof. intros x y z. unfold key_le. apply (transitivity (R := String.le)). Qed.
#[global] Instance key_le_total {A} : Total (@key_le A).
Proof. intros x y. unfold key_le. apply (total String.le). Qed.

Lemma sort_by_key_perm {A} (l : list (string * A)) : sort_by_key l ≡ₚ l.
Proof. apply merge_sort_Permutation. Qed.

(** Sorting by unique keys does not depend on the order of the input. *)
Lemma sort_by_key_unique {A} (l k : list (string * A)) :
  l ≡ₚ k -> NoDup l.*1 -> sort_by_key l = sort_by_key k.
Proof.
  intros Hp Hnd. eapply (Sorted_unique_strong key_le).
  - intros [k1 v1] [k2 v2] H1 H2 Hle1 Hle2. unfold key_le in *; simpl in *.
    assert (k1 = k2) as -> by (apply (anti_symm String.le); done).
    f_equal. rewrite !sort_by_key_perm in H1, H2. rewrite <- Hp in H2.
    apply list_elem_of_lookup in H1 as [i1 H1], H2 as [i2 H2].
    assert (i1 = i2) as ->; [|congruence].
    eapply NoDup_lookup; [apply Hnd| |]; rewrite list_lookup_fmap; [rewrite H1|rewrite H2]; done.
  - apply Sorted_merge_sort, _.
  - apply Sorted_merge_sort, _.
  - by rewrite !sort_by_key_perm.
Qed.

Lemma slice_loop_spec {A} fuel (v out : list A) i limit :
  (0 <= i)%Z -> length v - Z.to_nat i <= fuel ->
  slice_loop fuel v out i limit
  = out ++ take (Z.to_nat limit - length out) (drop (Z.to_nat i) v).
Proof.
  revert out i; induction fuel as [|fuel IH]; intros out i Hi Hf; simpl.
  - rewrite drop_ge by lia. by rewrite take_nil, app_nil_r.
  - destruct (i <? Z.of_nat (length v))%Z eqn:E1; simpl.
    2: { rewrite drop_ge by lia. by rewrite take_nil, app_nil_r. }
    destruct (Z.of_nat (length out) <? limit)%Z eqn:E2.
    2: { replace (Z.to_nat limit - length out) with 0 by lia. by rewrite take_0, app_nil_r. }
    destruct (lookup_lt_is_Some_2 v (Z.to_nat i)) as [x Hx]; [lia|].
    rewrite Hx, IH by lia. rewrite (drop_S v x _ Hx), length_app; simpl.
    destruct (Z.to_nat limit - length out) as [|n] eqn:E; [lia|].
    replace (Z.to_nat limit - (length out + 1)) with n by lia.
    replace (Z.to_nat (i + 1)) with (S (Z.to_nat i)) by lia.
    simpl. by rewrite <- app_assoc.
Qed.

Lemma slice_spec {A} (v : list A) limit offset :
  (0 <= offset)%Z ->
  slice v limit offset = take (Z.to_nat limit) (drop (Z.to_nat offset) v).
Proof. intros. unfold slice. rewrite slice_loop_spec by lia. simpl. by rewrite Nat.sub_0_r. Qed.

Lemma Permutation_filter_list {A} (p : A -> bool) (l k : list A) :
  l ≡ₚ k -> List.filter p l ≡ₚ List.filter p k.
Proof.
  induction 1 as [|x l k _ IH|x y l|l1 l2 l3 _ IH1 _ IH2]; simpl; [done|by destruct (p x); rewrite ?IH| |].
  - destruct (p x), (p y); try done. apply perm_swap.
  - by rewrite IH1.
Qed.

(** A property of every value of a map, by evaluation. *)
Lemma map_check {A} (p : A -> bool) (m : gmap string A) :
  forallb (fun kv => p kv.2) (map_to_list m) = true -> forall k x, m !! k = Some x -> p x = true.
Proof.
  intros H k x Hx%elem_of_map_to_list. rewrite forallb_forall in H.
  by apply (H (k, x)), list_elem_of_In.
Qed.

(** ** Lemmas on strings *)

Lemma str_eqb_true a b : str_eqb a b = true <-> a = b.
Proof. unfold str_eqb. by rewrite bool_decide_eq_true. Qed.

Lemma str_eqb_false a b : str_eqb a b = false <-> a <> b.
Proof. unfold str_eqb. by rewrite bool_decide_eq_false. Qed.

Lemma str_eqb_refl a : str_eqb a a = true.
Proof. by apply str_eqb_true. Qed.

Lemma str_empty_true s : str_empty s = true <-> s = "".
Proof. by destruct s. Qed.

Lemma str_empty_false s : str_empty s = false <-> s <> "".
Proof. by destruct s. Qed.

Lemma str_app_cons c (a b : string) : String c a +:+ b = String c (a +:+ b).
Proof. done. Qed.

Lemma str_app_nil_l (a : string) : "" +:+ a = a.
Proof. done. Qed.

Lemma str_app_assoc (a b c : string) : (a +:+ b) +:+ c = a +:+ (b +:+ c).
Proof. induction a as [|x a IH]; [done|]. by rewrite !str_app_cons, IH. Qed.

Lemma str_app_nil_r (a : string) : a +:+ "" = a.
Proof. induction a as [|x a IH]; [done|]. by rewrite str_app_cons, IH. Qed.

Lemma str_app_length (a b : string) :
  String.length (a +:+ b) = String.length a + String.length b.
Proof. induction a as [|x a IH]; [done|]. rewrite str_app_cons. simpl. by rewrite IH. Qed.

Lemma substring_app_exact (a b : string) :
  String.substring 0 (String.length a) (a +:+ b) = a.
Proof.
  induction a as [|x a IH]; [by destruct b|]. rewrite str_app_cons. simpl. by rewrite IH.
Qed.

Lemma substring_app_skip (a b : string) n :
  String.substring (String.length a) n (a +:+ b) = String.substring 0 n b.
Proof. induction a as [|x a IH]; [done|]. rewrite str_app_cons. simpl. done. Qed.

Lemma substring_full (s : string) : String.substring 0 (String.length s) s = s.
Proof. rewrite <- (str_app_nil_r s) at 2. apply substring_app_exact. Qed.

Lemma str_prefix_app (a b : string) : String.prefix a (a +:+ b) = true.
Proof.
  induction a as [|x a IH]; [by destruct b|]. rewrite str_app_cons. simpl.
  by destruct (ascii_dec x x).
Qed.

(** ** Updates of a list at one place *)

Lemma sum_insert {A} (f : A -> nat) (l : list A) i x y :
  l !! i = Some x -> sum_list_with f (<[i := y]> l) + f x = sum_list_with f l + f y.
Proof.
  intros Hx. rewrite insert_take_drop by (by eapply lookup_lt_Some).
  rewrite <- (take_drop_middle l i x Hx) at 3. rewrite !sum_list_with_app. simpl. lia.
Qed.

Lemma flat_map_insert {A B} (f : A -> list B) (l : list A) i x y :
  l !! i = Some x -> f x ++ flat_map f (<[i := y]> l) ≡ₚ f y ++ flat_map f l.
Proof.
  intros Hx. pose proof (lookup_lt_Some _ _ _ Hx) as Hi. rewrite insert_take_drop by done.
  rewrite <- (take_drop_middle l i x Hx) at 3. rewrite !flat_map_app. simpl. solve_Permutation.
Qed.

(** One element more at that place, and one less. *)
Lemma flat_map_gain {A B} (f : A -> list B) (l : list A) i x y b :
  l !! i = Some x -> f y ≡ₚ b :: f x -> flat_map f (<[i := y]> l) ≡ₚ b :: flat_map f l.
Proof.
  intros Hx Hy. pose proof (flat_map_insert f l i x y Hx) as H. rewrite Hy in H. simpl in H.
  rewrite Permutation_middle in H. by apply Permutation_app_inv_l in H.
Qed.

Lemma flat_map_loss {A B} (f : A -> list B) (l : list A) i x y b :
  l !! i = Some x -> f x ≡ₚ b :: f y -> flat_map f l ≡ₚ b :: flat_map f (<[i := y]> l).
Proof.
  intros Hx Hy. pose proof (flat_map_insert f l i x y Hx) as H. rewrite Hy in H. simpl in H.
  rewrite Permutation_middle in H. apply Permutation_app_inv_l in H. by symmetry.
Qed.

#[export] Hint Rewrite str_app_assoc str_app_nil_r : agamemnon.
