(* ===== verification/Effects.v ===== *)
(** * Effects: exceptions, state and the ambient sources of nondeterminism

    The C++ code mutates objects in place and throws.  An operation is a function from the
    state of the objects it can reach to the new state together with its outcome: a value, or
    the exception it threw.  A throw keeps every mutation performed before it, as in C++.
    [Env] holds what the process reads from its surroundings (random draws, the clock); the
    helpers [generate_uuid] and [now_iso8601] of src/store.cpp are modelled over it. *)

From S2P Require Import Prelude.

(** The exception classes the modelled code throws or lets through; every one of them derives
    from [std::exception].  [type_error] is nlohmann::json's, with its documented id (302: the
    value has another type; 305/306: object accessor on a non-object; 316: invalid UTF-8 in
    [dump]). *)
Inductive exn :=
| type_error (id : Z)
| parse_error
| invalid_argument (what : string)
| out_of_range (what : string)
| runtime_error (what : string).

#[global] Instance exn_eq_dec : EqDecision exn.
Proof. solve_decision. Defined.

(** ** The monad *)

Definition M (S A : Type) : Type := S -> S * (exn + A).

#[global] Instance M_ret S : MRet (M S) := fun A a s => (s, inr a).
#[global] Instance M_bind S : MBind (M S) := fun A B f m s =>
  match m s with
  | (s', inr a) => f a s'
  | (s', inl e) => (s', inl e)
  end.

Definition throw {S A} (e : exn) : M S A := fun s => (s, inl e).
Definition get {S} : M S S := fun s => (s, inr s).
Definition gets {S A} (f : S -> A) : M S A := fun s => (s, inr (f s)).
Definition modify {S} (f : S -> S) : M S unit := fun s => (f s, inr tt).

(** [try { m } catch (const std::exception& e) { h(e) }]. *)
Definition try_catch {S A} (m : M S A) (h : exn -> M S A) : M S A := fun s =>
  match m s with
  | (s', inl e) => h e s'
  | r => r
  end.

(** [if (b) { m }]. *)
Definition when {S} (b : bool) (m : M S unit) : M S unit := if b then m else mret tt.

(** A range-based for loop, [for (auto& x : l) body(x)], stopping at the first throw. *)
Fixpoint for_each {S A} (l : list A) (body : A -> M S unit) : M S unit :=
  match l with
  | [] => mret tt
  | x :: l => body x ;; for_each l body
  end.

(** A pure computation that may throw, run where it stands. *)
Definition of_result {S A} (r : exn + A) : M S A := fun s => (s, r).

(** An operation on a part of the state, given by a projection and an update. *)
Definition zoom {S T A} (g : S -> T) (u : T -> S -> S) (m : M T A) : M S A := fun s =>
  match m (g s) with (t, r) => (u t s, r) end.

(** The exception monad alone, for the pure helpers that throw. *)
Definition result (A : Type) : Type := exn + A.
#[global] Instance result_ret : MRet result := fun A a => inr a.
#[global] Instance result_bind : MBind result := fun A B f m =>
  match m with inl e => inl e | inr a => f a end.

Fixpoint result_map {A B} (f : A -> result B) (l : list A) : result (list B) :=
  match l with
  | [] => inr []
  | x :: l => y ← f x; ys ← result_map f l; inr (y :: ys)
  end.

Lemma result_bind_inr {A B} (m : result A) (f : A -> result B) a :
  m = inr a -> (m ≫= f) = f a.
Proof. by intros ->. Qed.

(** Run the first step of a pure computation whose outcome is found by evaluation. *)
Ltac rbind := refine (eq_trans (result_bind_inr _ _ _ _) _); [reflexivity|]; cbv beta.
Ltac rbind_by tac := refine (eq_trans (result_bind_inr _ _ _ _) _); [tac|]; cbv beta.

(** ** The environment of the process *)

Record Env := {
  draws : nat -> Z;     (* the random engine: its successive raw outputs *)
  draw_i : nat;         (* how many were consumed *)
  clock : nat -> Z;     (* successive readings of std::chrono::system_clock: seconds in the server, nanoseconds in the agent runtime *)
  clock_i : nat;        (* how many readings were made *)
}.

Class HasEnv (S : Type) := {
  env_of : S -> Env;
  with_env : Env -> S -> S;
  env_of_with_env e s : env_of (with_env e s) = e;
  with_env_with_env e e' s : with_env e (with_env e' s) = with_env e s;
  with_env_env_of s : with_env (env_of s) s = s;
}.

#[export] Hint Rewrite @env_of_with_env @with_env_with_env @with_env_env_of : agamemnon.

#[global] Program Instance env_has_env : HasEnv Env :=
  {| env_of := id; with_env := fun e _ => e |}.
Solve Obligations with done.

Definition draw_next (e : Env) : Env :=
  {| draws := draws e; draw_i := S (draw_i e); clock := clock e; clock_i := clock_i e |}.
Definition clock_next (e : Env) : Env :=
  {| draws := draws e; draw_i := draw_i e; clock := clock e; clock_i := S (clock_i e) |}.

Section env.
Context {S : Type} `{!HasEnv S}.

(** [std::uniform_int_distribution(lo, hi)(rng)]: some value of the interval; every
    sequence of values of the interval is produced by some [draws]. *)
Definition uniform (lo hi : Z) : M S Z := fun s =>
  let e := env_of s in
  (with_env (draw_next e) s, inr (lo + draws e (draw_i e) mod (hi - lo + 1))%Z).

(** The lambda [hex] of [generate_uuid]. *)
Definition hex (v : Z) : ascii :=
  ascii_of_N (Z.to_N (if (v <? 10)%Z then 48 + v else 97 + v - 10)%Z).

Fixpoint hex_run (n : nat) : M S string :=
  match n with
  | O => mret ""
  | Datatypes.S n => v ← uniform 0 15; s ← hex_run n; mret (String (hex v) s)
  end.

Definition generate_uuid : M S string :=
  a ← hex_run 8;
  b ← hex_run 4;
  c ← hex_run 3;
  v ← uniform 8 11;
  d ← hex_run 3;
  e ← hex_run 12;
  mret (a +:+ "-" +:+ b +:+ "-4" +:+ c +:+ "-" +:+ String (hex v) d +:+ "-" +:+ e).

(** The proleptic Gregorian calendar of [gmtime_r]: days since 1970-01-01 to (y, m, d). *)
Definition civil_from_days (z : Z) : Z * Z * Z :=
  (let z := z + 719468 in
   let era := z / 146097 in
   let doe := z mod 146097 in
   let yoe := (doe - doe / 1460 + doe / 36524 - doe / 146096) / 365 in
   let doy := doe - (365 * yoe + yoe / 4 - yoe / 100) in
   let mp := (5 * doy + 2) / 153 in
   let d := doy - (153 * mp + 2) / 5 + 1 in
   let m := if mp <? 10 then mp + 3 else mp - 9 in
   let y := yoe + era * 400 + (if m <=? 2 then 1 else 0) in
   (y, m, d))%Z.

(** Two-digit decimal fields of [std::put_time] (%m %d %H %M %S). *)
Definition two_digits (n : Z) : string :=
  String (ascii_of_N (Z.to_N (48 + n / 10))) (String (ascii_of_N (Z.to_N (48 + n mod 10))) "").

(** [std::put_time(&tm, "%Y-%m-%dT%H:%M:%SZ")] of a time in seconds since the epoch. *)
Definition iso8601 (t : Z) : string :=
  let '(y, m, d) := civil_from_days (t / 86400)%Z in
  let s := (t mod 86400)%Z in
  to_string y +:+ "-" +:+ two_digits m +:+ "-" +:+ two_digits d +:+ "T"
  +:+ two_digits (s / 3600) +:+ ":" +:+ two_digits (s / 60 mod 60) +:+ ":"
  +:+ two_digits (s mod 60) +:+ "Z".

Definition now_iso8601 : M S string := fun s =>
  let e := env_of s in
  (with_env (clock_next e) s, inr (iso8601 (clock e (clock_i e)))).

End env.

(** ** Lemmas: running a computation *)

Section run.
Context {S : Type}.
Implicit Types s : S.

Lemma run_ret {A} (a : A) s : mret (M := M S) a s = (s, inr a).
Proof. done. Qed.

Lemma run_bind {A B} (m : M S A) (f : A -> M S B) s :
  (m ≫= f) s = match m s with (s', inr a) => f a s' | (s', inl e) => (s', inl e) end.
Proof. done. Qed.

Lemma run_bind_inr {A B} (m : M S A) (f : A -> M S B) s s' a :
  m s = (s', inr a) -> (m ≫= f) s = f a s'.
Proof. intros H. by rewrite run_bind, H. Qed.

Lemma run_bind_inl {A B} (m : M S A) (f : A -> M S B) s s' e :
  m s = (s', inl e) -> (m ≫= f) s = (s', inl e).
Proof. intros H. by rewrite run_bind, H. Qed.

Lemma run_gets {A} (f : S -> A) s : gets f s = (s, inr (f s)).
Proof. done. Qed.

Lemma run_modify (f : S -> S) s : modify f s = (f s, inr tt).
Proof. done. Qed.

Lemma run_throw {A} e s : throw (A := A) e s = (s, inl e).
Proof. done. Qed.

Lemma run_of_result {A} (r : exn + A) s : of_result r s = (s, r).
Proof. done. Qed.

Lemma run_when_true (m : M S unit) s : when true m s = m s.
Proof. done. Qed.

Lemma run_when_false (m : M S unit) s : when false m s = (s, inr tt).
Proof. done. Qed.

(** An invariant of the body is an invariant of the loop. *)
Lemma for_each_inv {A} (P : S -> Prop) (l : list A) body s :
  P s -> (forall x s, x ∈ l -> P s -> P (fst (body x s))) -> P (fst (for_each l body s)).
Proof.
  revert s; induction l as [|x l IH]; intros s HP Hb; [done|].
  simpl. rewrite run_bind. specialize (Hb x s) as Hx.
  destruct (body x s) as [s' [e|[]]]; simpl in *; [apply Hx; set_solver|].
  apply IH; [apply Hx; set_solver|]. intros y t Hy. apply Hb. set_solver.
Qed.

Lemma for_each_app {A} (l k : list A) body s :
  for_each (l ++ k) body s = (for_each l body ;; for_each k body) s.
Proof.
  revert s; induction l as [|x l IH]; intros s; [done|].
  simpl. rewrite !run_bind. destruct (body x s) as [s' [e|[]]]; [done|].
  by rewrite IH, !run_bind.
Qed.
End run.

#[export] Hint Rewrite @run_ret @run_gets @run_modify @run_throw @run_of_result
  @run_when_true @run_when_false : agamemnon.

(** ** Two-state properties of computations

    [moves R m]: every run of [m], whether it returns or throws, takes a state to a state
    related to it by [R].  With [R] a preorder the property is compositional; the invariant
    [I] is the relation [keeping I]. *)

Definition moves {S A} (R : relation S) (m : M S A) : Prop := forall s, R s (fst (m s)).
Definition keeping {S} (I : S -> Prop) : relation S := fun s s' => I s -> I s'.

#[global] Instance keeping_preorder {S} (I : S -> Prop) : PreOrder (keeping I).
Proof. split; unfold keeping; [by intros ??|by intros ? ? ?; auto]. Qed.

Section moves.
Context {S : Type} (R : relation S) `{!PreOrder R}.

Lemma moves_ret {A} (a : A) : moves R (mret (M := M S) a).
Proof. intros s. simpl. reflexivity. Qed.
Lemma moves_throw {A} e : moves R (throw (A := A) e).
Proof. intros s. simpl. reflexivity. Qed.
Lemma moves_gets {A} (f : S -> A) : moves R (gets f).
Proof. intros s. simpl. reflexivity. Qed.
Lemma moves_get : moves R (@get S).
Proof. intros s. simpl. reflexivity. Qed.
Lemma moves_of_result {A} (r : exn + A) : moves R (of_result r).
Proof. intros s. simpl. reflexivity. Qed.
Lemma moves_modify (f : S -> S) : (forall s, R s (f s)) -> moves R (modify f).
Proof. intros H s. apply H. Qed.
Lemma moves_bind {A B} (m : M S A) (f : A -> M S B) :
  moves R m -> (forall a, moves R (f a)) -> moves R (m ≫= f).
Proof.
  intros Hm Hf s. rewrite run_bind. specialize (Hm s). destruct (m s) as [s' [e|a]]; [done|].
  etransitivity; [apply Hm|apply Hf].
Qed.
Lemma moves_bind_result {A B} (r : exn + A) (f : A -> M S B) :
  (forall a, r = inr a -> moves R (f a)) -> moves R (of_result r ≫= f).
Proof.
  intros Hf s. rewrite run_bind, run_of_result. destruct r; simpl; [reflexivity|by apply Hf].
Qed.
Lemma moves_try {A} (m : M S A) h :
  moves R m -> (forall e, moves R (h e)) -> moves R (try_catch m h).
Proof.
  intros Hm Hh s. unfold try_catch. specialize (Hm s). destruct (m s) as [s' [e|a]]; [|done].
  etransitivity; [apply Hm|apply Hh].
Qed.
Lemma moves_when b m : moves R m -> moves R (when b m).
Proof. intros Hm. destruct b; [done|apply moves_ret]. Qed.
Lemma moves_for_each_in {A} (l : list A) body :
  (forall x, x ∈ l -> moves R (body x)) -> moves R (for_each l body).
Proof.
  induction l as [|x l IH]; intros Hb; [apply moves_ret|].
  apply moves_bind; [apply Hb; left|]. intros _. apply IH. intros y Hy. apply Hb. by right.
Qed.
Lemma moves_for_each {A} (l : list A) body :
  (forall x, moves R (body x)) -> moves R (for_each l body).
Proof. intros Hb. by apply moves_for_each_in. Qed.
End moves.

(** Split a [moves] goal along the program's structure; what remains is about [modify] and
    the calls the hint database does not know. *)
Ltac moves_step :=
  lazymatch goal with
  | |- forall _, _ => intro
  | |- moves _ (mret _) => apply moves_ret; typeclasses eauto
  | |- moves _ (throw _) => apply moves_throw; typeclasses eauto
  | |- moves _ (gets _) => apply moves_gets; typeclasses eauto
  | |- moves _ get => apply moves_get; typeclasses eauto
  | |- moves _ (of_result _) => apply moves_of_result; typeclasses eauto
  | |- moves _ (mbind _ (of_result _)) => apply moves_bind_result; [typeclasses eauto|]
  | |- moves _ (mbind _ _) => apply moves_bind; [typeclasses eauto| |]
  | |- moves _ (try_catch _ _) => apply moves_try; [typeclasses eauto| |]
  | |- moves _ (when _ _) => apply moves_when; [typeclasses eauto|]
  | |- moves _ (for_each _ _) => apply moves_for_each; [typeclasses eauto|]
  | |- moves _ (let _ := _ in _) => cbv zeta
  | |- moves _ (match ?x with _ => _ end) => destruct x eqn:?
  | |- moves _ _ => solve [auto 4 with agamemnon nocore]
  end.
Ltac moves := repeat moves_step.

(** A run that returns, and its sequencing. *)
Definition returns {S A} (m : M S A) (s : S) : Prop := exists s' a, m s = (s', inr a).

Lemma returns_bind {S A B} (m : M S A) (f : A -> M S B) s :
  returns m s -> (forall s' a, m s = (s', inr a) -> returns (f a) s') -> returns (m ≫= f) s.
Proof. intros (s' & a & H) Hf. unfold returns. rewrite (run_bind_inr _ _ _ _ _ H). by apply Hf. Qed.

Lemma returns_step {S A B} (m : M S A) (f : A -> M S B) s s' a :
  m s = (s', inr a) -> returns (f a) s' -> returns (m ≫= f) s.
Proof. intros H Hf. unfold returns. by rewrite (run_bind_inr _ _ _ _ _ H). Qed.

Lemma returns_of_result {S A} (r : exn + A) (s : S) : (exists a, r = inr a) -> returns (of_result r) s.
Proof. intros [a ->]. by exists s, a. Qed.

(** [mstep] runs the computation of the goal as far as its head steps compute. *)
Ltac mstep :=
  repeat (rewrite run_bind || rewrite run_ret || rewrite run_gets || rewrite run_modify
          || rewrite run_throw || rewrite run_of_result || rewrite run_when_true
          || rewrite run_when_false; cbv beta iota zeta).

(** ** Lemmas: identifiers and time *)

Definition draw_skip (n : nat) (e : Env) : Env :=
  {| draws := draws e; draw_i := n + draw_i e; clock := clock e; clock_i := clock_i e |}.

(** The [k]-th of the next draws of [uniform lo hi]. *)
Definition draw_at (lo hi : Z) (k : nat) (e : Env) : Z :=
  (lo + draws e (k + draw_i e) mod (hi - lo + 1))%Z.

(** The text [hex_run n] produces from the draws [k], ..., [k + n - 1]. *)
Fixpoint hex_text (n k : nat) (e : Env) : string :=
  match n with
  | O => ""
  | S n => String (hex (draw_at 0 15 k e)) (hex_text n (S k) e)
  end.

(** The identifier [generate_uuid] returns from an environment; it makes 31 draws. *)
Definition uuid_of (e : Env) : string :=
  hex_text 8 0 e +:+ "-" +:+ hex_text 4 8 e +:+ "-4" +:+ hex_text 3 12 e +:+ "-"
  +:+ String (hex (draw_at 8 11 15 e)) (hex_text 3 16 e) +:+ "-" +:+ hex_text 12 19 e.

Definition time_of (e : Env) : string := iso8601 (clock e (clock_i e)).

Lemma draw_skip_skip n m e : draw_skip n (draw_skip m e) = draw_skip (n + m) e.
Proof. unfold draw_skip; simpl. f_equal. lia. Qed.

Lemma hex_text_skip n k m e : hex_text n k (draw_skip m e) = hex_text n (k + m) e.
Proof.
  revert k; induction n as [|n IH]; intros k; [done|]. cbn [hex_text].
  rewrite IH. do 2 f_equal. unfold draw_at; simpl. do 2 f_equal. f_equal. lia.
Qed.

Lemma draw_at_skip lo hi k m e : draw_at lo hi k (draw_skip m e) = draw_at lo hi (k + m) e.
Proof. unfold draw_at; simpl. do 3 f_equal. lia. Qed.

Lemma draw_at_bounds lo hi k e : (lo <= hi -> lo <= draw_at lo hi k e <= hi)%Z.
Proof. unfold draw_at. pose proof (Z.mod_pos_bound (draws e (k + draw_i e)) (hi - lo + 1)). lia. Qed.

Lemma hex_text_length n k e : String.length (hex_text n k e) = n.
Proof. revert k; induction n as [|n IH]; intros k; simpl; [done|by rewrite IH]. Qed.

Section env_lemmas.
Context {S : Type} `{!HasEnv S}.
Implicit Types s : S.

Lemma run_uniform lo hi s :
  uniform lo hi s = (with_env (draw_skip 1 (env_of s)) s, inr (draw_at lo hi 0 (env_of s))).
Proof. done. Qed.

Lemma run_hex_run n s :
  hex_run n s = (with_env (draw_skip n (env_of s)) s, inr (hex_text n 0 (env_of s))).
Proof.
  revert s; induction n as [|n IH]; intros s.
  - simpl. rewrite run_ret. replace (draw_skip 0 (env_of s)) with (env_of s) by by destruct (env_of s).
    by rewrite with_env_env_of.
  - cbn [hex_run]. rewrite run_bind, run_uniform. cbv beta iota. rewrite run_bind, IH.
    rewrite with_env_with_env, env_of_with_env, draw_skip_skip, hex_text_skip. cbv beta iota.
    rewrite run_ret. by replace (n + 1) with (Datatypes.S n) by lia.
Qed.

Lemma run_generate_uuid s :
  generate_uuid s = (with_env (draw_skip 31 (env_of s)) s, inr (uuid_of (env_of s))).
Proof.
  unfold generate_uuid.
  repeat (rewrite run_bind, ?run_hex_run, ?run_uniform, ?with_env_with_env, ?env_of_with_env,
            ?hex_text_skip, ?draw_at_skip, ?draw_skip_skip; cbv beta iota).
  by rewrite run_ret.
Qed.

Lemma run_now s :
  now_iso8601 s = (with_env (clock_next (env_of s)) s, inr (time_of (env_of s))).
Proof. done. Qed.

End env_lemmas.

#[export] Hint Rewrite @run_generate_uuid @run_now : agamemnon.
