(* ===== verification/Text.v ===== *)
(** * Text scanning: the parts of <string>, <cctype> and [std::stoi] the sources use

    Scanning loops of the C++ ([while (j < s.size() && std::isdigit(s[j])) ++j;] and
    [s.find(...)]) are written on the suffix of the string that starts at the loop's index. *)

From S2P Require Import Prelude Effects.

(** The longest prefix of digits and what follows it. *)
Fixpoint take_digits (s : string) : string * string :=
  match s with
  | "" => ("", "")
  | String c r =>
      if isdigit c then (String c (take_digits r).1, (take_digits r).2) else ("", s)
  end.

(** The suffix at [s.find_first_not_of(...)] for a set given as a predicate; "" for npos. *)
Fixpoint skip_while (p : ascii -> bool) (s : string) : string :=
  match s with
  | "" => ""
  | String c r => if p c then skip_while p r else s
  end.

(** The suffix that follows the first occurrence of [pat], None for npos. *)
Fixpoint after_first (pat s : string) : option string :=
  if String.prefix pat s then Some (str_drop s (String.length pat))
  else match s with "" => None | String _ r => after_first pat r end.

(** The text before the first occurrence of [pat], None for npos. *)
Fixpoint before_first (pat s : string) : option string :=
  if String.prefix pat s then Some ""
  else match s with "" => None | String c r => String c <$> before_first pat r end.

(** No newline is directly followed by a back quote. *)
Fixpoint no_nl_tick (s : string) : bool :=
  match s with
  | String c ((String d _) as r) =>
      negb (bool_decide (c = "010"%char) && bool_decide (d = "`"%char)) && no_nl_tick r
  | _ => true
  end.

(** The text before the first [c], None when [c] does not occur. *)
Fixpoint before_char (c : ascii) (s : string) : option string :=
  match s with
  | "" => None
  | String d r => if decide (c = d) then Some "" else String d <$> before_char c r
  end.

(** The value of a string of digits, most significant first. *)
Fixpoint digits_value (acc : Z) (s : string) : Z :=
  match s with
  | "" => acc
  | String c r => digits_value (10 * acc + (byte_of c - 48))%Z r
  end.

(** [std::stoi(s)]: leading white space, an optional sign, at least one digit
    ([std::invalid_argument] otherwise), the rest ignored; [std::out_of_range] outside [int]. *)
Definition stoi (s : string) : result Z :=
  let s := skip_while isspace s in
  let '(neg, s) := match s with
                   | String "-" r => (true, r)
                   | String "+" r => (false, r)
                   | _ => (false, s)
                   end in
  let '(ds, _) := take_digits s in
  if str_empty ds then inl (invalid_argument "stoi") else
  let v := (if neg then - digits_value 0 ds else digits_value 0 ds)%Z in
  if (v <? - 2 ^ 31)%Z || (2 ^ 31 - 1 <? v)%Z then inl (out_of_range "stoi") else inr v.

Fixpoint str_forall (p : ascii -> bool) (s : string) : bool :=
  match s with "" => true | String c r => p c && str_forall p r end.

(** [s.substr(0, s.find_last_not_of(...) + 1)]. *)
Fixpoint drop_trailing (p : ascii -> bool) (s : string) : string :=
  match s with
  | "" => ""
  | String c r => if p c && str_empty (drop_trailing p r) then "" else String c (drop_trailing p r)
  end.

(** What a C function that takes [s.c_str()] reads. *)
Definition c_str (s : string) : string := default s (before_char Ascii.zero s).

(** Texts with a separator between each two, written as a loop with an index in the sources. *)
Fixpoint join (sep : string) (l : list string) : string :=
  match l with
  | [] => ""
  | [x] => x
  | x :: l => x +:+ sep +:+ join sep l
  end.

(** ** Lemmas *)

Lemma take_digits_app ds c r :
  str_forall isdigit ds = true -> isdigit c = false ->
  take_digits (ds +:+ String c r) = (ds, String c r).
Proof.
  induction ds as [|d ds IH]; intros Hd Hc.
  - rewrite str_app_nil_l. simpl. by rewrite Hc.
  - rewrite str_app_cons. simpl in *. apply andb_prop in Hd as [-> Hd]. by rewrite IH.
Qed.

Lemma take_digits_all ds : str_forall isdigit ds = true -> take_digits ds = (ds, "").
Proof.
  induction ds as [|d ds IH]; intros Hd; [done|].
  simpl in *. apply andb_prop in Hd as [-> Hd]. by rewrite IH.
Qed.

Lemma take_digits_length s : String.length (take_digits s).2 <= String.length s.
Proof. induction s as [|c r IH]; simpl; [done|]. destruct (isdigit c); simpl; lia. Qed.

Lemma skip_while_length p s : String.length (skip_while p s) <= String.length s.
Proof. induction s as [|c r IH]; simpl; [done|]. destruct (p c); simpl; lia. Qed.

Lemma after_first_eq pat s :
  after_first pat s =
  if String.prefix pat s then Some (str_drop s (String.length pat))
  else match s with "" => None | String _ r => after_first pat r end.
Proof. by destruct s. Qed.

Lemma str_drop_app p s : str_drop (p +:+ s) (String.length p) = s.
Proof.
  unfold str_drop. rewrite substring_app_skip, str_app_length.
  replace (_ + _ - _) with (String.length s) by lia. apply substring_full.
Qed.

Lemma after_first_prefix pat s : after_first pat (pat +:+ s) = Some s.
Proof. by rewrite after_first_eq, str_prefix_app, str_drop_app. Qed.

Lemma after_first_skip c pat a s :
  str_forall (fun d => negb (bool_decide (c = d))) a = true ->
  after_first (String c pat) (a +:+ String c pat +:+ s) = Some s.
Proof.
  induction a as [|d a IH]; intros H.
  - rewrite str_app_nil_l. apply after_first_prefix.
  - simpl in H. apply andb_prop in H as [Hd H].
    apply negb_true_iff, bool_decide_eq_false in Hd.
    rewrite str_app_cons, after_first_eq. simpl. destruct (ascii_dec c d) as [|_]; [done|]. by apply IH.
Qed.

Lemma before_first_eq pat s :
  before_first pat s =
  if String.prefix pat s then Some ""
  else match s with "" => None | String c r => String c <$> before_first pat r end.
Proof. by destruct s. Qed.

Lemma before_first_fence s r :
  no_nl_tick s = true ->
  before_first (String "010" "```") (s +:+ String "010" "```" +:+ r) = Some s.
Proof.
  induction s as [|c s IH]; intros H.
  { by rewrite str_app_nil_l, before_first_eq, str_prefix_app. }
  assert (no_nl_tick s = true) as Hs.
  { destruct s; [done|]. simpl in H. by apply andb_prop in H as [_ ?]. }
  specialize (IH Hs). rewrite str_app_cons.
  destruct (String.prefix (String "010" "```") (String c (s +:+ String "010" "```" +:+ r))) eqn:E.
  - exfalso. cbn [String.prefix] in E. destruct (ascii_dec "010" c) as [<-|]; [|done].
    destruct s as [|d s]; [done|]. rewrite str_app_cons in E. cbn [String.prefix] in E.
    destruct (ascii_dec "`" d) as [<-|]; [|done]. by simpl in H.
  - rewrite before_first_eq, E. by rewrite IH.
Qed.

Lemma before_char_app c s r :
  str_forall (fun d => negb (bool_decide (c = d))) s = true ->
  before_char c (s +:+ String c r) = Some s.
Proof.
  induction s as [|d s IH]; intros H.
  - rewrite str_app_nil_l. simpl. by rewrite decide_True.
  - rewrite str_app_cons. simpl in *. apply andb_prop in H as [Hd H].
    apply negb_true_iff, bool_decide_eq_false in Hd. by rewrite decide_False, IH.
Qed.

Lemma str_forall_app p a b : str_forall p (a +:+ b) = str_forall p a && str_forall p b.
Proof.
  induction a as [|c a IH]; [done|]. rewrite str_app_cons. simpl. by rewrite IH, andb_assoc.
Qed.

Lemma str_forall_impl (p q : ascii -> bool) s :
  (forall c, p c = true -> q c = true) -> str_forall p s = true -> str_forall q s = true.
Proof.
  intros Hpq. induction s as [|c s IH]; simpl; [done|].
  intros [Hp Hs]%andb_prop. by rewrite Hpq, IH.
Qed.

Lemma digits_value_app acc a b :
  digits_value acc (a +:+ b) = digits_value (digits_value acc a) b.
Proof.
  revert acc; induction a as [|c a IH]; intros acc; [done|]. rewrite str_app_cons. simpl. done.
Qed.

Lemma digits_value_nonneg acc s : str_forall isdigit s = true -> (0 <= acc)%Z -> (0 <= digits_value acc s)%Z.
Proof.
  revert acc. induction s as [|c s IH]; intros acc Hs Ha; [done|]. cbn in Hs |- *.
  apply andb_prop in Hs as [Hc Hs]. apply IH; [done|]. unfold isdigit in Hc. lia.
Qed.

(** A string of digits denotes a value within [int] or throws. *)
Lemma stoi_digits ds :
  ds <> "" -> str_forall isdigit ds = true ->
  stoi ds = if (2 ^ 31 - 1 <? digits_value 0 ds)%Z then inl (out_of_range "stoi")
            else inr (digits_value 0 ds).
Proof.
  intros Hne Hd. destruct ds as [|c r]; [done|].
  assert (Hc : isdigit c = true) by (simpl in Hd; by apply andb_prop in Hd as [? _]).
  assert (Hsp : isspace c = false) by (unfold isdigit, isspace in *; lia).
  unfold stoi. simpl (skip_while isspace (String c r)). rewrite Hsp.
  assert (Hsel : match String c r with
                 | String "-" r => (true, r) | String "+" r => (false, r)
                 | _ => (false, String c r) end = (false, String c r)).
  { clear -Hc. destruct c as [[] [] [] [] [] [] [] []]; try reflexivity; discriminate Hc. }
  rewrite Hsel, take_digits_all by done. cbv beta iota.
  simpl str_empty. cbv iota.
  pose proof (digits_value_nonneg 0 (String c r) Hd ltac:(lia)) as Hpos.
  destruct (digits_value 0 (String c r) <? - 2 ^ 31)%Z eqn:E; [lia|]. done.
Qed.
