(* ===== verification/Json.v ===== *)
(** * JSON values

    The entity model of the server is JSON: [using json = nlohmann::json].  This file gives the
    value type (RFC 8259, with nlohmann's three number kinds collapsed to integers and binary
    floats) and the documented behaviour of the accessors the sources call, exceptions
    included.  An object is nlohmann's default [std::map]: keys unique and in order.  The two
    textual operations [dump] and [parse] are third-party code: they are parameters (class
    [JsonText]) with the documented laws in [JsonTextLaws]. *)

From S2P Require Import Prelude Effects Text.

Unset Elimination Schemes.
Inductive json :=
| JNull
| JBool (b : bool)
| JInt (z : Z)
| JFloat (m e : Z)              (* m * 2^e *)
| JStr (s : string)
| JArr (l : list json)
| JObj (l : list (string * json)).
Set Elimination Schemes.

Definition json_ind (P : json -> Prop)
    (Hnull : P JNull) (Hbool : forall b, P (JBool b)) (Hint : forall z, P (JInt z))
    (Hfloat : forall m e, P (JFloat m e)) (Hstr : forall s, P (JStr s))
    (Harr : forall l, Forall P l -> P (JArr l))
    (Hobj : forall l, Forall (fun kv => P (snd kv)) l -> P (JObj l)) : forall j, P j :=
  fix F j :=
    match j with
    | JNull => Hnull
    | JBool b => Hbool b
    | JInt z => Hint z
    | JFloat m e => Hfloat m e
    | JStr s => Hstr s
    | JArr l => Harr l ((fix FL l : Forall P l :=
        match l with [] => Forall_nil_2 _ | x :: l => Forall_cons_2 _ _ _ (F x) (FL l) end) l)
    | JObj l => Hobj l ((fix FO l : Forall (fun kv => P (snd kv)) l :=
        match l with [] => Forall_nil_2 _ | kv :: l => Forall_cons_2 _ _ _ (F (snd kv)) (FO l) end) l)
    end.

#[global] Instance json_inhabited : Inhabited json := populate JNull.

(** ** Objects *)

Definition str_ltb (a b : string) : bool := negb (String.leb b a).

Fixpoint obj_get (k : string) (l : list (string * json)) : option json :=
  match l with
  | [] => None
  | (k', v) :: l => if str_eqb k k' then Some v else obj_get k l
  end.

(** [obj[k] = v] on a [std::map]: overwrite, or insert at the key's place. *)
Fixpoint obj_set (k : string) (v : json) (l : list (string * json)) : list (string * json) :=
  match l with
  | [] => [(k, v)]
  | (k', v') :: l' =>
      if str_eqb k k' then (k, v) :: l'
      else if str_ltb k k' then (k, v) :: l
      else (k', v') :: obj_set k v l'
  end.

(** [obj.erase(k)]. *)
Definition obj_erase (k : string) (l : list (string * json)) : list (string * json) :=
  List.filter (fun kv => negb (str_eqb k (fst kv))) l.

(** [json{{k1, v1}, {k2, v2}, ...}]. *)
Definition jobj (l : list (string * json)) : json :=
  JObj (foldl (fun acc kv => obj_set kv.1 kv.2 acc) [] l).

(** ** Accessors *)

Definition is_null (j : json) : bool := match j with JNull => true | _ => false end.
Definition is_object (j : json) : bool := match j with JObj _ => true | _ => false end.
Definition is_array (j : json) : bool := match j with JArr _ => true | _ => false end.
Definition is_string (j : json) : bool := match j with JStr _ => true | _ => false end.
Definition is_number_integer (j : json) : bool := match j with JInt _ => true | _ => false end.

(** [j.empty()]. *)
Definition jempty (j : json) : bool :=
  match j with JNull | JArr [] | JObj [] => true | _ => false end.

(** [j.contains(k)]: false on a value that is not an object. *)
Definition contains (k : string) (j : json) : bool :=
  match j with JObj l => bool_decide (is_Some (obj_get k l)) | _ => false end.

(** [j[k]] for reading: 305 on a non-object; the sources guard it by [contains]. *)
Definition at_key (k : string) (j : json) : result json :=
  match j with
  | JObj l => inr (default JNull (obj_get k l))
  | _ => inl (type_error 305)
  end.

(** [j[k] = v]: a null value becomes an object first; 305 on any other non-object. *)
Definition set_key (k : string) (v : json) (j : json) : result json :=
  match j with
  | JNull => inr (JObj [(k, v)])
  | JObj l => inr (JObj (obj_set k v l))
  | _ => inl (type_error 305)
  end.

(** [j == "s"]. *)
Definition is_str (s : string) (j : json) : bool :=
  match j with JStr t => str_eqb s t | _ => false end.

(** [j.get<std::string>()]. *)
Definition get_string (j : json) : result string :=
  match j with JStr s => inr s | _ => inl (type_error 302) end.

(** Conversion to a 32-bit [int]. *)
Definition wrap32 (z : Z) : Z := ((z + 2 ^ 31) mod 2 ^ 32 - 2 ^ 31)%Z.

(** [j.get<int>()]: any number, converted by [static_cast] (truncation), or a boolean. *)
Definition get_int (j : json) : result Z :=
  match j with
  | JInt z => inr (wrap32 z)
  | JFloat m e => inr (wrap32 (if (0 <=? e)%Z then m * 2 ^ e else Z.quot m (2 ^ (- e)))%Z)
  | JBool b => inr (if b then 1 else 0)%Z
  | _ => inl (type_error 302)
  end.

(** [j.value(k, default)]: 306 on a non-object, 302 when the value has another type. *)
Definition value_with {A} (conv : json -> result A) (k : string) (d : A) (j : json) : result A :=
  match j with
  | JObj l => match obj_get k l with Some v => conv v | None => inr d end
  | _ => inl (type_error 306)
  end.
Definition value_str (k d : string) (j : json) : result string := value_with get_string k d j.
Definition value_int (k : string) (d : Z) (j : json) : result Z := value_with get_int k d j.
Definition value_json (k : string) (d : json) (j : json) : result json := value_with inr k d j.

(** The elements of an array iterated by [for (auto& x : j)], once [j.is_array()]. *)
Definition elements_of (j : json) : list json := match j with JArr l => l | _ => [] end.

(** [j.items()] of an object. *)
Definition items (j : json) : list (string * json) := match j with JObj l => l | _ => [] end.

(** ** Well-formed values: what the library can hold *)

Fixpoint keys_sorted (l : list (string * json)) : bool :=
  match l with
  | kv1 :: ((kv2 :: _) as l') => str_ltb kv1.1 kv2.1 && keys_sorted l'
  | _ => true
  end.

Fixpoint wf_json (j : json) : bool :=
  match j with
  | JInt z => (- 2 ^ 63 <=? z)%Z && (z <? 2 ^ 64)%Z
  | JArr l => forallb wf_json l
  | JObj l => keys_sorted l && forallb (fun kv => wf_json kv.2) l
  | _ => true
  end.

(** ** Text *)

Class JsonText := {
  dump : Z -> json -> option string;      (* dump(indent), [-1] for [dump()]; None: throws 316 *)
  parse : string -> option json;          (* None: throws parse_error *)
}.

Definition jdump `{JsonText} (indent : Z) (j : json) : result string :=
  match dump indent j with Some s => inr s | None => inl (type_error 316) end.
Definition jparse `{JsonText} (s : string) : result json :=
  match parse s with Some j => inr j | None => inl parse_error end.

(** The documented laws: [parse] inverts [dump] and returns well-formed values, and the
    pretty-printer (control characters are escaped inside strings, and a line of the output
    starts with indentation, a bracket or a brace) never emits a newline followed by a back
    quote. *)
Class JsonTextLaws `{!JsonText} := {
  parse_dump i j s : wf_json j = true -> dump i j = Some s -> parse s = Some j;
  parse_wf s j : parse s = Some j -> wf_json j = true;
  dump_no_fence j s : dump 2 j = Some s -> no_nl_tick s = true;
}.

(** ** Lemmas *)

Lemma obj_get_set_eq k v l : obj_get k (obj_set k v l) = Some v.
Proof.
  induction l as [|[k' v'] l IH]; simpl; [by rewrite str_eqb_refl|].
  destruct (str_eqb k k') eqn:E; simpl; [by rewrite str_eqb_refl|].
  destruct (str_ltb k k'); simpl; [by rewrite str_eqb_refl|]. by rewrite E.
Qed.

Lemma obj_get_set_ne k k' v l : k <> k' -> obj_get k (obj_set k' v l) = obj_get k l.
Proof.
  intros Hne. assert (str_eqb k k' = false) as Hf by by apply str_eqb_false.
  induction l as [|[k1 v1] l IH]; simpl; [by rewrite Hf|].
  destruct (str_eqb k' k1) eqn:E; simpl.
  - apply str_eqb_true in E as ->. by rewrite Hf.
  - destruct (str_ltb k' k1); simpl; [by rewrite Hf|]. by rewrite IH.
Qed.

Lemma obj_get_erase_eq k l : obj_get k (obj_erase k l) = None.
Proof.
  induction l as [|[k' v'] l IH]; simpl; [done|].
  destruct (str_eqb k k') eqn:E; simpl; [done|]. by rewrite E.
Qed.

Lemma obj_get_erase_ne k k' l : k <> k' -> obj_get k (obj_erase k' l) = obj_get k l.
Proof.
  intros Hne. induction l as [|[k1 v1] l IH]; simpl; [done|].
  destruct (str_eqb k' k1) eqn:E; simpl; [|by rewrite IH].
  apply str_eqb_true in E as ->. rewrite IH. by destruct (str_eqb k k1) eqn:E2;
    [apply str_eqb_true in E2|].
Qed.

Lemma contains_obj k l : contains k (JObj l) = true <-> is_Some (obj_get k l).
Proof. simpl. by rewrite bool_decide_eq_true. Qed.

Lemma contains_true k j : contains k j = true <-> exists l v, j = JObj l /\ obj_get k l = Some v.
Proof.
  split.
  - destruct j; simpl; try done. intros H%bool_decide_eq_true. destruct H as [v ?]. eauto.
  - intros (l & v & -> & H). simpl. rewrite bool_decide_eq_true. eauto.
Qed.

Lemma get_int_JInt z : (- 2 ^ 31 <= z < 2 ^ 31)%Z -> get_int (JInt z) = inr z.
Proof. intros H. unfold get_int, wrap32. rewrite Z.mod_small by lia. f_equal. lia. Qed.

#[export] Hint Rewrite obj_get_set_eq : agamemnon.
