(* ===== verification/Utf8.v ===== *)
(** * UTF-8 text in JSON values

    [json::dump] with its default error handler throws [type_error.316] on a string that is not
    valid UTF-8 and returns the text otherwise.  This file gives the check (RFC 3629: no overlong
    form, no surrogate, nothing above U+10FFFF), its extension to JSON values, and the law of
    [dump] the orchestrator's theorems are stated against. *)

From S2P Require Import Prelude Effects Text Json.

(** ** Strings *)

Definition byte_in (lo hi : Z) (c : ascii) : bool := (lo <=? byte_of c)%Z && (byte_of c <=? hi)%Z.
Definition is_ascii : ascii -> bool := byte_in 0 127.
Definition is_cont : ascii -> bool := byte_in 128 191.

(** The multi-byte sequences: the second byte's range depends on the first one. *)
Definition utf8_2 (a b : ascii) : bool := byte_in 194 223 a && is_cont b.
Definition utf8_3 (a b c : ascii) : bool :=
  (if (byte_of a =? 224)%Z then byte_in 160 191 b
   else if (byte_of a =? 237)%Z then byte_in 128 159 b
   else byte_in 225 239 a && is_cont b) && is_cont c.
Definition utf8_4 (a b c d : ascii) : bool :=
  (if (byte_of a =? 240)%Z then byte_in 144 191 b
   else if (byte_of a =? 244)%Z then byte_in 128 143 b
   else byte_in 241 243 a && is_cont b) && is_cont c && is_cont d.

Fixpoint utf8 (s : string) : bool :=
  match s with
  | "" => true
  | String a r =>
      if is_ascii a then utf8 r else
      match r with
      | "" => false
      | String b r =>
          if utf8_2 a b then utf8 r else
          match r with
          | "" => false
          | String c r =>
              if utf8_3 a b c then utf8 r else
              match r with
              | "" => false
              | String d r => utf8_4 a b c d && utf8 r
              end
          end
      end
  end.

Lemma utf8_app a b : utf8 a = true -> utf8 b = true -> utf8 (a +:+ b) = true.
Proof.
  intros Ha Hb. revert Ha. remember (String.length a) as n eqn:En. revert a En.
  induction (lt_wf n) as [n _ IH]; intros [|c1 a] -> H; [done|].
  rewrite str_app_cons. cbn [utf8] in *. destruct (is_ascii c1).
  { apply (IH (String.length a)); simpl; auto with lia. }
  destruct a as [|c2 a]; [done|]. rewrite str_app_cons. destruct (utf8_2 c1 c2).
  { apply (IH (String.length a)); simpl; auto with lia. }
  destruct a as [|c3 a]; [done|]. rewrite str_app_cons. destruct (utf8_3 c1 c2 c3).
  { apply (IH (String.length a)); simpl; auto with lia. }
  destruct a as [|c4 a]; [done|]. rewrite str_app_cons. apply andb_prop in H as [-> H].
  apply (IH (String.length a)); simpl; auto with lia.
Qed.

Lemma utf8_ascii s : str_forall is_ascii s = true -> utf8 s = true.
Proof.
  induction s as [|c s IH]; [done|]. cbn [str_forall utf8]. intros [-> H]%andb_prop. by apply IH.
Qed.

(** ** Values *)

Fixpoint utf8_json (j : json) : bool :=
  match j with
  | JStr s => utf8 s
  | JArr l => forallb utf8_json l
  | JObj l => forallb (fun kv => utf8 kv.1 && utf8_json kv.2) l
  | _ => true
  end.

Definition utf8_fields (l : list (string * json)) : bool :=
  forallb (fun kv => utf8 kv.1 && utf8_json kv.2) l.

Lemma utf8_obj_set k v l :
  utf8 k = true -> utf8_json v = true -> utf8_fields l = true -> utf8_fields (obj_set k v l) = true.
Proof.
  intros Hk Hv. induction l as [|[k' v'] l IH]; cbn; [by rewrite Hk, Hv|].
  intros [H Hl]%andb_prop. destruct (str_eqb k k'); cbn; [by rewrite Hk, Hv|].
  destruct (str_ltb k k'); cbn; [by rewrite Hk, Hv, H|]. rewrite H. by apply IH.
Qed.

Lemma utf8_jobj l : utf8_fields l = true -> utf8_json (jobj l) = true.
Proof.
  unfold jobj. cbn [utf8_json]. fold utf8_fields. intros H.
  assert (G : forall acc, utf8_fields acc = true ->
    utf8_fields (foldl (fun acc kv => obj_set kv.1 kv.2 acc) acc l) = true); [|by apply (G [])].
  induction l as [|[k v] l IH]; intros acc Ha; [done|]. cbn in H.
  apply andb_prop in H as [[Hk Hv]%andb_prop H]. cbn [foldl]. apply IH; [done|]. by apply utf8_obj_set.
Qed.

Lemma utf8_set_key k v j j' :
  utf8 k = true -> utf8_json v = true -> utf8_json j = true -> set_key k v j = inr j' ->
  utf8_json j' = true.
Proof.
  intros Hk Hv Hj. destruct j; try done; intros [= <-]; [cbn; by rewrite Hk, Hv|].
  by apply utf8_obj_set.
Qed.

(** ** The law of [dump] *)

(** [dump] returns exactly on the values whose strings and keys are valid UTF-8. *)
Class DumpLaw `{!JsonText} := dump_iff i j : is_Some (dump i j) <-> utf8_json j = true.

Lemma jdump_utf8 `{!JsonText, !DumpLaw} i j : utf8_json j = true -> exists s, jdump i j = inr s.
Proof. intros Hj%(dump_iff i). unfold jdump. destruct Hj as [s ->]. eauto. Qed.
