(* ===== verification/JsonCodec.v ===== *)
(** * An implementation of the JSON text interface

    [JsonText] and [JsonTextLaws] abstract nlohmann's [dump] and [parse]; this file gives a
    concrete injective codec that satisfies the laws, so that every theorem stated against the
    interface can be run on concrete values.  The text is the binary numeral of the value's
    code, and [dump] refuses a value with invalid UTF-8. *)

From S2P Require Import Prelude Effects Text Json Utf8.
From stdpp Require Import countable.

(** ** Values as trees *)

Definition leaf : Type := unit + bool + Z + (Z * Z) + string.

Fixpoint json_to_tree (j : json) : gen_tree leaf :=
  match j with
  | JNull => GenLeaf (inl (inl (inl (inl tt))))
  | JBool b => GenLeaf (inl (inl (inl (inr b))))
  | JInt z => GenLeaf (inl (inl (inr z)))
  | JFloat m e => GenLeaf (inl (inr (m, e)))
  | JStr s => GenLeaf (inr s)
  | JArr l => GenNode 0 (map json_to_tree l)
  | JObj l => GenNode 1 (map (fun kv => GenNode 2 [GenLeaf (inr kv.1); json_to_tree kv.2]) l)
  end.

Fixpoint tree_to_json (t : gen_tree leaf) : json :=
  match t with
  | GenLeaf (inl (inl (inl (inl _)))) => JNull
  | GenLeaf (inl (inl (inl (inr b)))) => JBool b
  | GenLeaf (inl (inl (inr z))) => JInt z
  | GenLeaf (inl (inr (m, e))) => JFloat m e
  | GenLeaf (inr s) => JStr s
  | GenNode 0 l => JArr (map tree_to_json l)
  | GenNode _ l =>
      JObj (map (fun t => match t with
                          | GenNode _ [GenLeaf (inr k); v] => (k, tree_to_json v)
                          | _ => ("", JNull)
                          end) l)
  end.

Lemma map_map_id {A B} (f : A -> B) (g : B -> A) l :
  Forall (fun x => g (f x) = x) l -> map g (map f l) = l.
Proof. induction 1 as [|x l Hx _ IH]; simpl; [done|]. by rewrite Hx, IH. Qed.

Lemma tree_to_json_to_tree j : tree_to_json (json_to_tree j) = j.
Proof.
  induction j as [| | | | |l IH|l IH] using json_ind; simpl; try done; f_equal.
  - by apply map_map_id.
  - apply map_map_id. revert IH. apply List.Forall_impl. intros [k v] H; simpl in *. by rewrite H.
Qed.

#[global] Instance json_eq_dec : EqDecision json.
Proof.
  refine (fun a b => cast_if (decide (json_to_tree a = json_to_tree b))); [|congruence].
  by rewrite <- (tree_to_json_to_tree a), <- (tree_to_json_to_tree b), e.
Defined.

#[global] Instance json_countable : Countable json :=
  inj_countable' json_to_tree tree_to_json tree_to_json_to_tree.

(** ** Binary numerals *)

Fixpoint pos_to_text (p : positive) : string :=
  match p with
  | xH => ""
  | xO p => String "0" (pos_to_text p)
  | xI p => String "1" (pos_to_text p)
  end.

Fixpoint text_to_pos (s : string) : option positive :=
  match s with
  | "" => Some xH
  | String "0" r => xO <$> text_to_pos r
  | String "1" r => xI <$> text_to_pos r
  | _ => None
  end.

Lemma text_to_pos_to_text p : text_to_pos (pos_to_text p) = Some p.
Proof. induction p as [p IH|p IH|]; simpl; by rewrite ?IH. Qed.

Lemma pos_to_text_binary p :
  str_forall (fun c => bool_decide (c = "0"%char) || bool_decide (c = "1"%char)) (pos_to_text p) = true.
Proof. induction p; simpl; done. Qed.

Lemma no_nl_tick_forall p s :
  str_forall p s = true -> p "010"%char = false -> no_nl_tick s = true.
Proof.
  intros Hs Hp. induction s as [|c [|d s] IH]; [done..|]. cbn [str_forall] in Hs.
  apply andb_prop in Hs as [Hc Hs]. specialize (IH Hs). cbn [no_nl_tick] in *.
  assert (c <> "010"%char) by (intros ->; congruence). by rewrite bool_decide_false.
Qed.

(** ** The instance *)

Definition codec : JsonText := {|
  dump := fun _ j => if utf8_json j then Some (pos_to_text (encode j)) else None;
  parse := fun s =>
    p ← text_to_pos s; j ← decode p; if wf_json j then Some j else None;
|}.

Lemma codec_laws : @JsonTextLaws codec.
Proof.
  split.
  - intros i j s Hw. simpl. destruct (utf8_json j); [|done]. intros [= <-]. rewrite text_to_pos_to_text. simpl. rewrite decode_encode. simpl.
    by rewrite Hw.
  - intros s j. simpl. intros (p & _ & H)%bind_Some. apply bind_Some in H as (j' & _ & H).
    case_match; by simplify_eq.
  - intros j s. simpl. destruct (utf8_json j); [|done]. intros [= <-]. eapply no_nl_tick_forall; [apply pos_to_text_binary|done].
Qed.

Lemma codec_dump_law : @DumpLaw codec.
Proof. intros i j. simpl. destruct (utf8_json j); split; try done; by intros []. Qed.
