(* ===== verification/Stamps.v ===== *)
(** * Identifiers and timestamps

    The two helpers every creation uses, [generate_uuid] and [now_iso8601] of src/store.cpp:
    the shape of identifiers, and the order of timestamps.  The store compares timestamps as
    text ([local_ts >= updated_at] in [apply_github_event]); that this is chronological order
    rests on the fixed width of the fields and on the calendar. *)

From S2P Require Import Prelude Effects Text Json.

(** ** Checking a range by evaluation *)

(** [f] on the [n] integers from [z] on. *)
Fixpoint check_from (n : nat) (z : Z) (f : Z -> bool) : bool :=
  match n with
  | O => true
  | S n => if f z then check_from n (z + 1) f else false
  end.

Lemma check_from_spec n z f x :
  check_from n z f = true -> (z <= x < z + Z.of_nat n)%Z -> f x = true.
Proof.
  revert z; induction n as [|n IH]; intros z; cbn [check_from]; [lia|].
  destruct (f z) eqn:E; [|done]. intros H Hx. destruct (decide (x = z)) as [->|]; [done|].
  apply (IH (z + 1)%Z); [done|lia].
Qed.

(** ** Strict order of strings *)

Definition slt (a b : string) : Prop := String.compare a b = Lt.

Lemma compare_self s : String.compare s s = Eq.
Proof. induction s as [|c s IH]; [done|]. cbn. unfold Ascii.compare. by rewrite N.compare_refl. Qed.

Lemma slt_leb a b : slt a b -> str_ltb a b = true.
Proof.
  unfold slt, str_ltb, String.leb. intros H. rewrite String.compare_antisym, H. done.
Qed.

Lemma slt_common a x y : slt x y -> slt (a +:+ x) (a +:+ y).
Proof.
  unfold slt. intros H. induction a as [|c a IH]; [done|]. rewrite !str_app_cons. cbn.
  unfold Ascii.compare. by rewrite N.compare_refl.
Qed.

Lemma slt_prefix a b x y : String.length a = String.length b -> slt a b -> slt (a +:+ x) (b +:+ y).
Proof.
  unfold slt. revert b; induction a as [|c a IH]; intros [|d b]; try done. cbn [String.length].
  intros [= Hl]. rewrite !str_app_cons. cbn. destruct (Ascii.compare c d); [by apply IH|done|done].
Qed.

Lemma two_digits_length n : String.length (two_digits n) = 2.
Proof. done. Qed.

Lemma two_digits_slt a b : (0 <= a < b)%Z -> (b < 100)%Z -> slt (two_digits a) (two_digits b).
Proof.
  intros Ha Hb.
  assert (H : check_from 100 0 (fun a => check_from 100 0 (fun b =>
                implb (a <? b)%Z (match String.compare (two_digits a) (two_digits b) with Lt => true | _ => false end)))
              = true) by (vm_compute; reflexivity).
  pose proof (check_from_spec _ _ _ a H ltac:(lia)) as H1.
  pose proof (check_from_spec _ _ _ b H1 ltac:(lia)) as H2. cbv beta in H2.
  unfold slt. destruct (a <? b)%Z eqn:E; [|lia]. by destruct (String.compare _ _).
Qed.

(** A field followed by the rest: the field decides, or the rest does. *)
Lemma slt_field a b x y :
  (0 <= a < 100)%Z -> (0 <= b < 100)%Z -> (a < b)%Z \/ (a = b /\ slt x y) ->
  slt (two_digits a +:+ x) (two_digits b +:+ y).
Proof.
  intros Ha Hb [H|[-> H]]; [|by apply slt_common].
  apply slt_prefix; [done|]. apply two_digits_slt; lia.
Qed.

(** ** The calendar *)

(** A date as one number, in calendar order. *)
Definition date_key (z : Z) : Z := let '(y, m, d) := civil_from_days z in (y * 10000 + m * 100 + d)%Z.

(** The intermediate quantities of [civil_from_days]: the year of a day of the 400-year era
    (years start in March), the first day of a year, and the month and day of a day of the year
    as one number (10000 counts a year). *)
Definition year_of_era (doe : Z) : Z := ((doe - doe / 1460 + doe / 36524 - doe / 146096) / 365)%Z.
Definition year_start (y : Z) : Z := (365 * y + y / 4 - y / 100)%Z.
Definition day_of_year (doe : Z) : Z := (doe - year_start (year_of_era doe))%Z.
Definition month_day (doy : Z) : Z :=
  (let mp := (5 * doy + 2) / 153 in
   let d := doy - (153 * mp + 2) / 5 + 1 in
   if mp <? 10 then (mp + 3) * 100 + d else 10000 + (mp - 9) * 100 + d)%Z.

(** The days of a year: month and day are in range, and increase. *)
Definition day_ok (doy : Z) : bool :=
  (let mp := (5 * doy + 2) / 153 in
   let d := doy - (153 * mp + 2) / 5 + 1 in
   (0 <=? mp) && (mp <=? 11) && (1 <=? d) && (d <=? 31) &&
   ((doy =? 365) || (month_day doy <? month_day (doy + 1))))%Z.

Lemma year_days_ok doy : (0 <= doy <= 365)%Z -> day_ok doy = true.
Proof.
  intros H. assert (Hc : check_from 366 0 day_ok = true) by (vm_compute; reflexivity).
  apply (check_from_spec _ _ _ doy Hc). lia.
Qed.

Lemma century_cases doe : (0 <= doe < 146097)%Z ->
  (doe / 146096 = 0 \/ doe = 146096)%Z /\
  (doe / 36524 = 0 \/ doe / 36524 = 1 \/ doe / 36524 = 2 \/ doe / 36524 = 3 \/ doe = 146096)%Z.
Proof. intros H. Z.div_mod_to_equations; lia. Qed.

Lemma day_of_year_bounds doe : (0 <= doe < 146097)%Z -> (0 <= day_of_year doe <= 365)%Z.
Proof.
  intros H. destruct (century_cases doe H) as [[Hc| ->] Hb]; [|vm_compute; split; discriminate].
  unfold day_of_year, year_start, year_of_era. rewrite Hc.
  set (Y := ((doe - doe / 1460 + doe / 36524 - 0) / 365)%Z).
  assert (Y / 100 = doe / 36524)%Z.
  { unfold Y. destruct Hb as [Hb|[Hb|[Hb|[Hb|Hb]]]]; rewrite Hb in *; Z.div_mod_to_equations; lia. }
  destruct Hb as [Hb|[Hb|[Hb|[Hb|Hb]]]]; rewrite Hb in *; unfold Y in *; Z.div_mod_to_equations; lia.
Qed.

Lemma year_of_era_bounds doe : (0 <= doe < 146097)%Z -> (0 <= year_of_era doe <= 399)%Z.
Proof.
  intros H. destruct (century_cases doe H) as [[Hc| ->] _]; [|vm_compute; split; discriminate].
  unfold year_of_era. rewrite Hc. Z.div_mod_to_equations; lia.
Qed.

Lemma year_of_era_mono doe : (0 <= doe)%Z -> (doe + 1 < 146097)%Z ->
  (year_of_era doe <= year_of_era (doe + 1))%Z.
Proof.
  intros H H1. destruct (century_cases (doe + 1) ltac:(lia)) as [[Hc|He] _].
  - assert (Hc0 : (doe / 146096 = 0)%Z) by (Z.div_mod_to_equations; lia).
    unfold year_of_era. rewrite Hc, Hc0. apply Z.div_le_mono; [lia|]. Z.div_mod_to_equations; lia.
  - rewrite He. assert (doe = 146095)%Z as -> by lia. vm_compute. discriminate.
Qed.

(** A date from its era, year and day, and the ranges of its fields. *)
Lemma civil_spec z :
  let era := ((z + 719468) / 146097)%Z in
  let doe := ((z + 719468) mod 146097)%Z in
  (0 <= day_of_year doe <= 365 /\
   date_key z = (400 * era + year_of_era doe) * 10000 + month_day (day_of_year doe))%Z /\
  let '(_, m, d) := civil_from_days z in (1 <= m <= 12 /\ 1 <= d <= 31)%Z.
Proof.
  cbv zeta. pose proof (Z.mod_pos_bound (z + 719468) 146097 ltac:(lia)) as Hm.
  set (doe := ((z + 719468) mod 146097)%Z) in *. pose proof (day_of_year_bounds doe Hm) as Hd.
  pose proof (year_days_ok _ Hd) as Hok. unfold day_ok in Hok.
  unfold date_key, civil_from_days, month_day. fold doe. fold (year_of_era doe).
  fold (year_start (year_of_era doe)). fold (day_of_year doe). cbv zeta in *.
  set (mp := ((5 * day_of_year doe + 2) / 153)%Z) in *.
  destruct (mp <? 10)%Z eqn:E; destruct (_ <=? 2)%Z eqn:E2; lia.
Qed.

Lemma month_day_bounds doy : (0 <= doy <= 365)%Z -> (301 <= month_day doy <= 10229)%Z.
Proof.
  intros H. assert (Hc : check_from 366 0 (fun x => (301 <=? month_day x) && (month_day x <=? 10229))%Z = true)
    by (vm_compute; reflexivity).
  pose proof (check_from_spec _ _ _ doy Hc ltac:(lia)) as Hx. cbv beta in Hx. lia.
Qed.

Lemma date_key_step z : (date_key z < date_key (z + 1))%Z.
Proof.
  destruct (civil_spec z) as [[Hd ->] _], (civil_spec (z + 1)) as [[Hd' ->] _].
  replace (z + 1 + 719468)%Z with (z + 719468 + 1)%Z in * by lia. set (x := (z + 719468)%Z) in *.
  pose proof (Z.mod_pos_bound x 146097 ltac:(lia)) as Hm. pose proof (Z.div_mod x 146097 ltac:(lia)) as Hx.
  pose proof (month_day_bounds _ Hd). pose proof (month_day_bounds _ Hd').
  pose proof (year_of_era_bounds _ Hm) as Hy.
  destruct (decide (x mod 146097 + 1 = 146097)%Z) as [He|Hne].
  - assert ((x + 1) / 146097 = x / 146097 + 1)%Z as -> by (symmetry; apply Z.div_unique with 0%Z; lia).
    pose proof (year_of_era_bounds _ (Z.mod_pos_bound (x + 1) 146097 ltac:(lia))). lia.
  - assert ((x + 1) / 146097 = x / 146097)%Z as -> by (symmetry; apply Z.div_unique with (x mod 146097 + 1)%Z; lia).
    assert ((x + 1) mod 146097 = x mod 146097 + 1)%Z as Hs
      by (symmetry; apply Z.mod_unique with (x / 146097)%Z; lia).
    rewrite Hs in *. set (doe := (x mod 146097)%Z) in *.
    pose proof (year_of_era_mono doe ltac:(lia) ltac:(lia)) as Hle.
    destruct (decide (year_of_era (doe + 1) = year_of_era doe)) as [Heq|]; [|lia].
    assert (Hday : day_of_year (doe + 1) = (day_of_year doe + 1)%Z) by (unfold day_of_year; rewrite Heq; lia).
    rewrite Hday in *. pose proof (year_days_ok _ Hd) as Hok. unfold day_ok in Hok. lia.
Qed.

Lemma date_key_lt z z' : (z < z')%Z -> (date_key z < date_key z')%Z.
Proof.
  intros H. assert (Hn : forall n : nat, (date_key z < date_key (z + 1 + Z.of_nat n))%Z).
  { pose proof date_key_step as Hs. intros n; induction n as [|n IH]; [rewrite Z.add_0_r; apply Hs|].
    etransitivity; [apply IH|]. replace (z + 1 + Z.of_nat (S n))%Z with (z + 1 + Z.of_nat n + 1)%Z by lia.
    apply Hs. }
  specialize (Hn (Z.to_nat (z' - z - 1))). by replace (z + 1 + _)%Z with z' in Hn by lia.
Qed.

(** ** Years *)

Lemma year_digits y : (1000 <= y < 10000)%Z ->
  to_string y = two_digits (y / 100) +:+ two_digits (y mod 100).
Proof.
  intros Hy.
  assert (H : check_from (Z.to_nat 9000) 1000 (fun y => str_eqb (to_string y)
                (two_digits (y / 100) +:+ two_digits (y mod 100))) = true) by (vm_compute; reflexivity).
  apply str_eqb_true. apply (check_from_spec _ _ _ y H). lia.
Qed.

(** The last second whose year has four digits. *)
Definition year_10000 : Z := 253402300800.

Lemma year_range t y m d :
  (0 <= t < year_10000)%Z -> civil_from_days (t / 86400) = (y, m, d) ->
  (1000 <= y < 10000 /\ 1 <= m <= 12 /\ 1 <= d <= 31)%Z.
Proof.
  intros Ht Hc. pose proof (civil_spec (t / 86400)) as Hd. cbv zeta in Hd. rewrite Hc in Hd.
  destruct Hd as [_ Hd].
  assert (Hlo : (date_key 0 <= date_key (t / 86400))%Z).
  { destruct (decide (t / 86400 = 0)%Z) as [->|]; [lia|]. apply Z.lt_le_incl, date_key_lt.
    pose proof (Z.div_pos t 86400). lia. }
  assert (Hhi : (date_key (t / 86400) < date_key 2932897)%Z).
  { apply date_key_lt. apply Z.div_lt_upper_bound; [lia|]. unfold year_10000 in Ht. lia. }
  change (date_key 0) with 19700101%Z in Hlo. change (date_key 2932897) with 100000101%Z in Hhi.
  unfold date_key in Hlo, Hhi. rewrite Hc in Hlo, Hhi. lia.
Qed.

Lemma date_slt t t' y m d y' m' d' x x' :
  (0 <= t < year_10000)%Z -> (0 <= t' < year_10000)%Z ->
  civil_from_days (t / 86400) = (y, m, d) -> civil_from_days (t' / 86400) = (y', m', d') ->
  (t / 86400 < t' / 86400)%Z \/ (t / 86400 = t' / 86400)%Z /\ slt x x' ->
  slt (to_string y +:+ "-" +:+ two_digits m +:+ "-" +:+ two_digits d +:+ x)
      (to_string y' +:+ "-" +:+ two_digits m' +:+ "-" +:+ two_digits d' +:+ x').
Proof.
  intros Ht Ht' Hc Hc' H.
  destruct (year_range t y m d Ht Hc) as (Hy & Hm & Hd).
  destruct (year_range t' y' m' d' Ht' Hc') as (Hy' & Hm' & Hd').
  rewrite !year_digits by lia. rewrite !str_app_assoc.
  assert (Hk : (y < y')%Z \/ (y = y' /\ ((m < m')%Z \/ (m = m' /\ ((d < d')%Z \/ (d = d' /\ slt x x')))))).
  { destruct H as [Hlt|[Heq Hs]].
    - apply date_key_lt in Hlt. unfold date_key in Hlt. rewrite Hc, Hc' in Hlt. lia.
    - rewrite Heq, Hc' in Hc. injection Hc as -> -> ->. auto 7. }
  clear H. pose proof (Z.div_mod y 100 ltac:(lia)). pose proof (Z.div_mod y' 100 ltac:(lia)).
  pose proof (Z.mod_pos_bound y 100 ltac:(lia)). pose proof (Z.mod_pos_bound y' 100 ltac:(lia)).
  assert (Hrest : (y = y' -> slt ("-" +:+ two_digits m +:+ "-" +:+ two_digits d +:+ x)
                               ("-" +:+ two_digits m' +:+ "-" +:+ two_digits d' +:+ x'))).
  { intros ->. destruct Hk as [|[_ Hk]]; [lia|]. apply slt_common, slt_field; [lia|lia|].
    destruct Hk as [?|[-> Hk]]; [by left|right]. split; [done|]. apply slt_common, slt_field; [lia|lia|].
    destruct Hk as [?|[-> ?]]; [by left|by right]. }
  destruct (decide (y = y')) as [->|Hne].
  - apply slt_common, slt_common. by apply Hrest.
  - assert (y < y')%Z by (destruct Hk as [|[-> _]]; [done|done]).
    apply slt_field; [lia|lia|]. destruct (decide (y / 100 = y' / 100)%Z) as [He|]; [|lia].
    right. split; [done|]. apply slt_field; lia.
Qed.

Lemma clock_slt s s' : (0 <= s < s')%Z -> (s' < 86400)%Z ->
  slt (two_digits (s / 3600) +:+ ":" +:+ two_digits (s / 60 mod 60) +:+ ":" +:+ two_digits (s mod 60) +:+ "Z")
      (two_digits (s' / 3600) +:+ ":" +:+ two_digits (s' / 60 mod 60) +:+ ":" +:+ two_digits (s' mod 60) +:+ "Z").
Proof.
  intros Hs Hs'.
  assert (H : forall x, (0 <= x < 86400 -> 0 <= x / 3600 < 24 /\ 0 <= x / 60 mod 60 < 60 /\ 0 <= x mod 60 < 60 /\
                x = x / 3600 * 3600 + x / 60 mod 60 * 60 + x mod 60)%Z).
  { intros x Hx. pose proof (Z.div_mod x 60 ltac:(lia)). pose proof (Z.mod_pos_bound x 60 ltac:(lia)).
    pose proof (Z.div_mod (x / 60) 60 ltac:(lia)). pose proof (Z.mod_pos_bound (x / 60) 60 ltac:(lia)).
    rewrite Z.div_div in * by lia. change (60 * 60)%Z with 3600%Z in *. lia. }
  destruct (H s) as (H1 & H2 & H3 & H4); [lia|]. destruct (H s') as (H1' & H2' & H3' & H4'); [lia|].
  apply slt_field; [lia|lia|].
  destruct (decide (s / 3600 = s' / 3600)%Z); [right|left; lia]. split; [done|].
  apply slt_common, slt_field; [lia|lia|].
  destruct (decide (s / 60 mod 60 = s' / 60 mod 60)%Z); [right|left; lia]. split; [done|].
  apply slt_common, slt_field; lia.
Qed.

Lemma iso8601_slt t t' : (0 <= t < t')%Z -> (t' < year_10000)%Z -> slt (iso8601 t) (iso8601 t').
Proof.
  intros Ht Ht'. unfold iso8601.
  destruct (civil_from_days (t / 86400)) as [[y m] d] eqn:Hc.
  destruct (civil_from_days (t' / 86400)) as [[y' m'] d'] eqn:Hc'.
  apply (date_slt t t'); [lia|lia|done|done|].
  pose proof (Z.div_le_mono t t' 86400 ltac:(lia) ltac:(lia)).
  destruct (decide (t / 86400 = t' / 86400)%Z) as [He|]; [right|left; lia]. split; [done|].
  pose proof (Z.div_mod t 86400 ltac:(lia)). pose proof (Z.div_mod t' 86400 ltac:(lia)).
  pose proof (Z.mod_pos_bound t 86400 ltac:(lia)). pose proof (Z.mod_pos_bound t' 86400 ltac:(lia)).
  apply slt_common, clock_slt; lia.
Qed.

(** ** Theorems *)

(** Two times of the years 1970 to 9999 are in the order of their texts: the textual
    comparison the store makes between timestamps decides which one is later. *)
Lemma timestamps_chronological (t t' : Z) :
  (0 <= t < year_10000)%Z -> (0 <= t' < year_10000)%Z ->
  (str_ltb (iso8601 t) (iso8601 t') = true <-> (t < t')%Z).
Proof.
  intros Ht Ht'. split.
  - intros H. destruct (Z.lt_trichotomy t t') as [|[->|Hgt]]; [done| |].
    + unfold str_ltb in H. apply negb_true_iff in H. unfold String.leb in H.
      by rewrite compare_self in H.
    + pose proof (iso8601_slt t' t ltac:(lia) ltac:(lia)) as Hs. unfold str_ltb, String.leb, slt in *.
      by rewrite Hs in H.
  - intros Hlt. apply slt_leb, iso8601_slt; lia.
Qed.

Lemma timestamps_chronological_witness :
  str_ltb (iso8601 1767225599) (iso8601 1767225600) = true.
Proof. apply timestamps_chronological; unfold year_10000; lia. Defined.

(** The template of a version 4 UUID: [x] any lower-case hexadecimal digit, [y] a variant digit. *)
Definition fits (c u : ascii) : bool :=
  if decide (c = "x"%char) then isxdigit u && bool_decide (tolower u = u)
  else if decide (c = "y"%char) then existsb (fun v => bool_decide (u = v)) ["8"; "9"; "a"; "b"]%char
  else bool_decide (c = u).

Fixpoint fits_template (t u : string) : bool :=
  match t, u with
  | "", "" => true
  | String c t, String d u => fits c d && fits_template t u
  | _, _ => false
  end.

Lemma fits_app a b u v : fits_template a u = true -> fits_template b v = true ->
  fits_template (a +:+ b) (u +:+ v) = true.
Proof.
  revert u; induction a as [|c a IH]; intros [|d u]; try done. rewrite !str_app_cons. cbn.
  intros [H1 H2]%andb_prop H. by rewrite H1, IH.
Qed.

Fixpoint xs (n : nat) : string := match n with O => "" | S n => String "x" (xs n) end.

Lemma fits_hex v : (0 <= v <= 15)%Z -> fits "x" (hex v) = true.
Proof.
  intros Hv. assert (H : check_from 16 0 (fun v => fits "x" (hex v)) = true) by (vm_compute; reflexivity).
  apply (check_from_spec _ _ _ v H). lia.
Qed.

Lemma fits_variant v : (8 <= v <= 11)%Z -> fits "y" (hex v) = true.
Proof.
  intros Hv. assert (H : check_from 4 8 (fun v => fits "y" (hex v)) = true) by (vm_compute; reflexivity).
  apply (check_from_spec _ _ _ v H). lia.
Qed.

Lemma fits_hex_text n k e : fits_template (xs n) (hex_text n k e) = true.
Proof.
  revert k; induction n as [|n IH]; intros k; [done|]. cbn [xs hex_text fits_template].
  rewrite fits_hex by (apply draw_at_bounds; lia). apply IH.
Qed.

(** Whatever the random engine yields, [generate_uuid] returns a version 4 UUID in its
    canonical text form. *)
Lemma uuid_v4 {S} `{!HasEnv S} (s : S) :
  exists s' u, generate_uuid s = (s', inr u) /\
    fits_template "xxxxxxxx-xxxx-4xxx-yxxx-xxxxxxxxxxxx" u = true.
Proof.
  eexists _, _. split; [apply run_generate_uuid|]. unfold uuid_of.
  change "xxxxxxxx-xxxx-4xxx-yxxx-xxxxxxxxxxxx"
    with (xs 8 +:+ "-" +:+ xs 4 +:+ "-4" +:+ xs 3 +:+ "-" +:+ String "y" (xs 3) +:+ "-" +:+ xs 12).
  repeat (apply fits_app; [first [apply fits_hex_text|reflexivity]|]); try apply fits_hex_text.
  apply fits_app.
  - cbn [fits_template]. rewrite fits_variant by (apply draw_at_bounds; lia). apply fits_hex_text.
  - apply fits_app; [reflexivity|apply fits_hex_text].
Qed.
