(* ===== verification/HmasTypes.v ===== *)
(** * HMAS data types and their JSON form

    include/agamemnon/hmas_types.hpp and src/hmas_types.cpp: the four layers, the task states,
    tasks, briefs and escalation records, their conversions to and from JSON, and the
    role-addressed subjects of the mesh. *)

From S2P Require Import Prelude Effects Json.

Inductive HmasLayer := L0_ChiefArchitect | L1_ComponentLead | L2_ModuleLead | L3_TaskAgent.

Inductive TaskState :=
  Pending | Decomposing | Delegated | InProgress | Escalated | Completed | Failed.

#[global] Instance HmasLayer_eq_dec : EqDecision HmasLayer.
Proof. solve_decision. Defined.
#[global] Instance TaskState_eq_dec : EqDecision TaskState.
Proof. solve_decision. Defined.

Record EscalationRecord := {
  e_task_id : string;
  e_reason : string;
  e_escalated_at : string;
  e_from_layer : HmasLayer;
}.

Record HmasTask := {
  t_id : string;
  t_brief_id : string;
  t_parent_task_id : string;
  t_layer : HmasLayer;
  t_state : TaskState;
  t_subject : string;
  t_description : string;
  t_repo : string;
  t_module : string;
  t_issue : Z;
  t_assigned_lead_id : string;
  t_blocked_by : list string;
  t_child_task_ids : list string;
  t_escalations : list EscalationRecord;
  t_created_at : string;
  t_completed_at : string;
}.

Record TaskBrief := {
  b_id : string;
  b_title : string;
  b_description : string;
  b_repos : list string;
  b_modules : gmap string (list string);
  b_impls : gmap string (gmap string (list string));
}.

#[global] Instance EscalationRecord_eq_dec : EqDecision EscalationRecord.
Proof. solve_decision. Defined.
#[global] Instance HmasTask_eq_dec : EqDecision HmasTask.
Proof. solve_decision. Defined.

(** Assignments to one field, [task.f = v]. *)
Definition set_state (s : TaskState) (t : HmasTask) : HmasTask :=
  {| t_id := t_id t; t_brief_id := t_brief_id t; t_parent_task_id := t_parent_task_id t;
     t_layer := t_layer t; t_state := s; t_subject := t_subject t;
     t_description := t_description t; t_repo := t_repo t; t_module := t_module t;
     t_issue := t_issue t; t_assigned_lead_id := t_assigned_lead_id t;
     t_blocked_by := t_blocked_by t; t_child_task_ids := t_child_task_ids t;
     t_escalations := t_escalations t; t_created_at := t_created_at t;
     t_completed_at := t_completed_at t |}.
Definition set_completed_at (c : string) (t : HmasTask) : HmasTask :=
  {| t_id := t_id t; t_brief_id := t_brief_id t; t_parent_task_id := t_parent_task_id t;
     t_layer := t_layer t; t_state := t_state t; t_subject := t_subject t;
     t_description := t_description t; t_repo := t_repo t; t_module := t_module t;
     t_issue := t_issue t; t_assigned_lead_id := t_assigned_lead_id t;
     t_blocked_by := t_blocked_by t; t_child_task_ids := t_child_task_ids t;
     t_escalations := t_escalations t; t_created_at := t_created_at t; t_completed_at := c |}.
Definition set_lead (l : string) (t : HmasTask) : HmasTask :=
  {| t_id := t_id t; t_brief_id := t_brief_id t; t_parent_task_id := t_parent_task_id t;
     t_layer := t_layer t; t_state := t_state t; t_subject := t_subject t;
     t_description := t_description t; t_repo := t_repo t; t_module := t_module t;
     t_issue := t_issue t; t_assigned_lead_id := l;
     t_blocked_by := t_blocked_by t; t_child_task_ids := t_child_task_ids t;
     t_escalations := t_escalations t; t_created_at := t_created_at t;
     t_completed_at := t_completed_at t |}.
Definition set_edges (blocked children : list string) (t : HmasTask) : HmasTask :=
  {| t_id := t_id t; t_brief_id := t_brief_id t; t_parent_task_id := t_parent_task_id t;
     t_layer := t_layer t; t_state := t_state t; t_subject := t_subject t;
     t_description := t_description t; t_repo := t_repo t; t_module := t_module t;
     t_issue := t_issue t; t_assigned_lead_id := t_assigned_lead_id t;
     t_blocked_by := blocked; t_child_task_ids := children;
     t_escalations := t_escalations t; t_created_at := t_created_at t;
     t_completed_at := t_completed_at t |}.
Definition set_escalations (l : list EscalationRecord) (t : HmasTask) : HmasTask :=
  {| t_id := t_id t; t_brief_id := t_brief_id t; t_parent_task_id := t_parent_task_id t;
     t_layer := t_layer t; t_state := t_state t; t_subject := t_subject t;
     t_description := t_description t; t_repo := t_repo t; t_module := t_module t;
     t_issue := t_issue t; t_assigned_lead_id := t_assigned_lead_id t;
     t_blocked_by := t_blocked_by t; t_child_task_ids := t_child_task_ids t;
     t_escalations := l; t_created_at := t_created_at t; t_completed_at := t_completed_at t |}.

Definition push_blocked (b : string) (t : HmasTask) : HmasTask :=
  set_edges (t_blocked_by t ++ [b]) (t_child_task_ids t) t.
Definition push_child (c : string) (t : HmasTask) : HmasTask :=
  set_edges (t_blocked_by t) (t_child_task_ids t ++ [c]) t.

(** ** Names *)

Definition hmas_layer_to_string (layer : HmasLayer) : string :=
  match layer with
  | L0_ChiefArchitect => "L0_ChiefArchitect"
  | L1_ComponentLead => "L1_ComponentLead"
  | L2_ModuleLead => "L2_ModuleLead"
  | L3_TaskAgent => "L3_TaskAgent"
  end.

Definition task_state_to_string (state : TaskState) : string :=
  match state with
  | Pending => "Pending"
  | Decomposing => "Decomposing"
  | Delegated => "Delegated"
  | InProgress => "InProgress"
  | Escalated => "Escalated"
  | Completed => "Completed"
  | Failed => "Failed"
  end.

Definition hmas_layer_from_string (s : string) : result HmasLayer :=
  if str_eqb s "L0_ChiefArchitect" then inr L0_ChiefArchitect else
  if str_eqb s "L1_ComponentLead" then inr L1_ComponentLead else
  if str_eqb s "L2_ModuleLead" then inr L2_ModuleLead else
  if str_eqb s "L3_TaskAgent" then inr L3_TaskAgent else
  inl (invalid_argument ("Unknown HmasLayer: " +:+ s)).

Definition task_state_from_string (s : string) : result TaskState :=
  if str_eqb s "Pending" then inr Pending else
  if str_eqb s "Decomposing" then inr Decomposing else
  if str_eqb s "Delegated" then inr Delegated else
  if str_eqb s "InProgress" then inr InProgress else
  if str_eqb s "Escalated" then inr Escalated else
  if str_eqb s "Completed" then inr Completed else
  if str_eqb s "Failed" then inr Failed else
  inl (invalid_argument ("Unknown TaskState: " +:+ s)).

(** ** To JSON *)

Definition strings_to_json (l : list string) : json := JArr (map JStr l).

Definition escalation_record_to_json (rec : EscalationRecord) : json :=
  jobj [("task_id", JStr (e_task_id rec)); ("reason", JStr (e_reason rec));
        ("escalated_at", JStr (e_escalated_at rec));
        ("from_layer", JStr (hmas_layer_to_string (e_from_layer rec)))].

Definition hmas_task_fields (task : HmasTask) : list (string * json) :=
  [("id", JStr (t_id task)); ("brief_id", JStr (t_brief_id task));
   ("parent_task_id", JStr (t_parent_task_id task));
   ("layer", JStr (hmas_layer_to_string (t_layer task)));
   ("state", JStr (task_state_to_string (t_state task)));
   ("subject", JStr (t_subject task)); ("description", JStr (t_description task));
   ("repo", JStr (t_repo task)); ("module", JStr (t_module task));
   ("issue", JInt (t_issue task)); ("assigned_lead_id", JStr (t_assigned_lead_id task));
   ("blocked_by", strings_to_json (t_blocked_by task));
   ("child_task_ids", strings_to_json (t_child_task_ids task));
   ("created_at", JStr (t_created_at task)); ("completed_at", JStr (t_completed_at task));
   ("escalations", JArr (map escalation_record_to_json (t_escalations task)))].

Definition hmas_task_to_json (task : HmasTask) : json := jobj (hmas_task_fields task).

Section hash.
Context `{!HashOrder}.

(** [for (auto& [k, v] : m) obj[k] = f(v)] into a fresh object. *)
Definition map_to_obj {A} (f : A -> json) (m : gmap string A) : json :=
  jobj (map (fun kv => (kv.1, f kv.2)) (hash_order m)).

Definition task_brief_to_json (brief : TaskBrief) : json :=
  jobj [("id", JStr (b_id brief)); ("title", JStr (b_title brief));
        ("description", JStr (b_description brief));
        ("repos", strings_to_json (b_repos brief));
        ("modules", map_to_obj strings_to_json (b_modules brief));
        ("impls", map_to_obj (map_to_obj strings_to_json) (b_impls brief))].
End hash.

(** ** From JSON *)

(** [if (j.contains(k) && j[k].is_array()) for (x : j[k]) out.push_back(conv(x))]. *)
Definition array_field {A} (conv : json -> result A) (k : string) (j : json) : result (list A) :=
  if contains k j then
    v ← at_key k j;
    if is_array v then result_map conv (elements_of v) else inr []
  else inr [].

(** [for (x : arr) m[k].push_back(x.get<std::string>())]: an empty array leaves no entry. *)
Fixpoint push_all (k : string) (arr : list json) (m : gmap string (list string))
  : result (gmap string (list string)) :=
  match arr with
  | [] => inr m
  | x :: arr =>
      s ← get_string x;
      push_all k arr (<[k := default [] (m !! k) ++ [s]]> m)
  end.

Fixpoint push_entries (entries : list (string * json)) (m : gmap string (list string))
  : result (gmap string (list string)) :=
  match entries with
  | [] => inr m
  | (k, v) :: entries =>
      if is_array v then m' ← push_all k (elements_of v) m; push_entries entries m'
      else push_entries entries m
  end.

(** The innermost loop of [brief.impls[repo][mod].push_back(...)]. *)
Fixpoint push_all2 (repo mod_ : string) (arr : list json)
    (m : gmap string (gmap string (list string)))
  : result (gmap string (gmap string (list string))) :=
  match arr with
  | [] => inr m
  | x :: arr =>
      s ← get_string x;
      let inner := default ∅ (m !! repo) in
      push_all2 repo mod_ arr (<[repo := <[mod_ := default [] (inner !! mod_) ++ [s]]> inner]> m)
  end.

Fixpoint push_modules (repo : string) (entries : list (string * json))
    (m : gmap string (gmap string (list string)))
  : result (gmap string (gmap string (list string))) :=
  match entries with
  | [] => inr m
  | (mod_, v) :: entries =>
      if is_array v then m' ← push_all2 repo mod_ (elements_of v) m; push_modules repo entries m'
      else push_modules repo entries m
  end.

Fixpoint push_repos (entries : list (string * json))
    (m : gmap string (gmap string (list string)))
  : result (gmap string (gmap string (list string))) :=
  match entries with
  | [] => inr m
  | (repo, v) :: entries =>
      if is_object v then m' ← push_modules repo (items v) m; push_repos entries m'
      else push_repos entries m
  end.

(** [if (j.contains(k) && j[k].is_object()) body(j[k].items())]. *)
Definition object_field {A} (k : string) (j : json)
    (body : list (string * json) -> A -> result A) (init : A) : result A :=
  if contains k j then
    v ← at_key k j;
    if is_object v then body (items v) init else inr init
  else inr init.

Definition task_brief_from_json (j : json) : result TaskBrief :=
  id ← value_str "id" "" j;
  title ← value_str "title" "" j;
  description ← value_str "description" "" j;
  repos ← array_field get_string "repos" j;
  modules ← object_field "modules" j push_entries ∅;
  impls ← object_field "impls" j push_repos ∅;
  inr {| b_id := id; b_title := title; b_description := description; b_repos := repos;
         b_modules := modules; b_impls := impls |}.

Definition escalation_record_from_json (e : json) : result EscalationRecord :=
  task_id ← value_str "task_id" "" e;
  reason ← value_str "reason" "" e;
  escalated_at ← value_str "escalated_at" "" e;
  layer_name ← value_str "from_layer" "L0_ChiefArchitect" e;
  from_layer ← hmas_layer_from_string layer_name;
  inr {| e_task_id := task_id; e_reason := reason; e_escalated_at := escalated_at;
         e_from_layer := from_layer |}.

Definition hmas_task_from_json (j : json) : result HmasTask :=
  id ← value_str "id" "" j;
  brief_id ← value_str "brief_id" "" j;
  parent_task_id ← value_str "parent_task_id" "" j;
  layer_name ← value_str "layer" "L0_ChiefArchitect" j;
  layer ← hmas_layer_from_string layer_name;
  state_name ← value_str "state" "Pending" j;
  state ← task_state_from_string state_name;
  subject ← value_str "subject" "" j;
  description ← value_str "description" "" j;
  repo ← value_str "repo" "" j;
  module_ ← value_str "module" "" j;
  issue ← value_int "issue" 0 j;
  assigned_lead_id ← value_str "assigned_lead_id" "" j;
  created_at ← value_str "created_at" "" j;
  completed_at ← value_str "completed_at" "" j;
  blocked_by ← array_field get_string "blocked_by" j;
  child_task_ids ← array_field get_string "child_task_ids" j;
  escalations ← array_field escalation_record_from_json "escalations" j;
  inr {| t_id := id; t_brief_id := brief_id; t_parent_task_id := parent_task_id;
         t_layer := layer; t_state := state; t_subject := subject;
         t_description := description; t_repo := repo; t_module := module_; t_issue := issue;
         t_assigned_lead_id := assigned_lead_id; t_blocked_by := blocked_by;
         t_child_task_ids := child_task_ids; t_escalations := escalations;
         t_created_at := created_at; t_completed_at := completed_at |}.

(** ** Mesh wire helpers *)

Definition mesh_role_name (layer : HmasLayer) : string :=
  match layer with
  | L0_ChiefArchitect => "chief-architect"
  | L1_ComponentLead => "component-lead"
  | L2_ModuleLead => "module-lead"
  | L3_TaskAgent => "task-agent"
  end.

Definition mesh_dispatch_subject (domain role task_id : string) : string :=
  "hi.myrmidon." +:+ domain +:+ "." +:+ role +:+ ".task." +:+ task_id.

(** ** Lemmas *)

Lemma layer_roundtrip l : hmas_layer_from_string (hmas_layer_to_string l) = inr l.
Proof. by destruct l. Qed.

Lemma state_roundtrip s : task_state_from_string (task_state_to_string s) = inr s.
Proof. by destruct s. Qed.

Lemma result_map_map {A B C} (f : B -> result C) (g : A -> B) (h : A -> C) l :
  (forall a, f (g a) = inr (h a)) -> result_map f (map g l) = inr (map h l).
Proof. intros H. induction l as [|a l IH]; simpl; [done|]. rewrite H; simpl. by rewrite IH. Qed.

Lemma strings_roundtrip l : result_map get_string (map JStr l) = inr l.
Proof.
  erewrite result_map_map with (h := fun s => s); [|done]. by rewrite map_id.
Qed.

Lemma escalation_roundtrip r : escalation_record_from_json (escalation_record_to_json r) = inr r.
Proof. destruct r as [? ? ? []]; done. Qed.

Lemma escalations_roundtrip l :
  result_map escalation_record_from_json (map escalation_record_to_json l) = inr l.
Proof.
  erewrite result_map_map with (h := fun r => r); [by rewrite map_id|apply escalation_roundtrip].
Qed.

Lemma array_field_jobj {A} (conv : json -> result A) k j l xs :
  contains k j = true -> at_key k j = inr (JArr l) -> result_map conv l = inr xs ->
  array_field conv k j = inr xs.
Proof. intros Hc Ha Hm. unfold array_field. rewrite Hc, Ha. by rewrite <- Hm. Qed.

Lemma hmas_task_roundtrip t :
  (- 2 ^ 31 <= t_issue t < 2 ^ 31)%Z -> hmas_task_from_json (hmas_task_to_json t) = inr t.
Proof.
  intros Hi. unfold hmas_task_from_json.
  do 4 rbind. rbind_by ltac:(apply layer_roundtrip).
  rbind. rbind_by ltac:(apply state_roundtrip).
  do 4 rbind. rbind_by ltac:(by apply (get_int_JInt (t_issue t))).
  do 3 rbind.
  do 2 rbind_by ltac:(eapply array_field_jobj; [reflexivity|reflexivity|apply strings_roundtrip]).
  rbind_by ltac:(eapply array_field_jobj; [reflexivity|reflexivity|apply escalations_roundtrip]).
  by destruct t.
Qed.
