(* ===== verification/StateMachine.v ===== *)
(** * The task state machine

    include/agamemnon/state_machine.hpp and src/state_machine.cpp: the transition table built
    by the constructor, [try_transition] (first candidate whose guard accepts wins) and
    [valid_targets].  The lifecycle a task can follow is stated as a step relation
    ([task_step]) and its reachable states are characterised by rule induction. *)

From S2P Require Import Prelude Effects Json HmasTypes.

Inductive TaskEvent := Submit | Delegate | Start | Escalate | Retry | Complete | Fail_.

#[global] Instance TaskEvent_eq_dec : EqDecision TaskEvent.
Proof. solve_decision. Defined.

Definition task_event_to_string (event : TaskEvent) : string :=
  match event with
  | Submit => "Submit"
  | Delegate => "Delegate"
  | Start => "Start"
  | Escalate => "Escalate"
  | Retry => "Retry"
  | Complete => "Complete"
  | Fail_ => "Fail"
  end.

Section machine.
Context {S : Type} `{!HasEnv S}.

Record Transition := {
  target : TaskState;
  guard : option (HmasTask -> bool);             (* None: always allowed *)
  action : option (HmasTask -> M S HmasTask);    (* None: no side effect *)
}.

(** [table_]: candidate transitions per (from_state, event) key. *)
Definition Table := list ((TaskState * TaskEvent) * list Transition).

Fixpoint table_find (k : TaskState * TaskEvent) (tbl : Table) : option (list Transition) :=
  match tbl with
  | [] => None
  | (k', trs) :: tbl => if decide (k = k') then Some trs else table_find k tbl
  end.

(** [table_[k].push_back(tr)]. *)
Fixpoint table_push (k : TaskState * TaskEvent) (tr : Transition) (tbl : Table) : Table :=
  match tbl with
  | [] => [(k, [tr])]
  | (k', trs) :: tbl =>
      if decide (k = k') then (k', trs ++ [tr]) :: tbl else (k', trs) :: table_push k tr tbl
  end.

(** The constructor's helper lambda [add]. *)
Definition add (from : TaskState) (ev : TaskEvent) (to : TaskState)
    (g : option (HmasTask -> bool)) (a : option (HmasTask -> M S HmasTask)) (tbl : Table) : Table :=
  table_push (from, ev) {| target := to; guard := g; action := a |} tbl.

Definition is_leaf (t : HmasTask) : bool := bool_decide (t_layer t = L3_TaskAgent).
Definition stamp_completed (t : HmasTask) : M S HmasTask :=
  ts ← now_iso8601; mret (set_completed_at ts t).

(** [TaskStateMachine::TaskStateMachine()]. *)
Definition table_ : Table :=
  add Escalated Fail_ Failed None (Some stamp_completed)
  (add InProgress Fail_ Failed None (Some stamp_completed)
  (add InProgress Complete Completed None (Some stamp_completed)
  (add Escalated Retry Delegated None None
  (add InProgress Escalate Escalated None None
  (add Delegated Start InProgress None None
  (add Pending Delegate Delegated (Some is_leaf) None
  (add Decomposing Delegate Delegated None None
  (add Pending Submit Decomposing None None [])))))))).

(** The loop of [try_transition] over the candidates. *)
Fixpoint try_candidates (task : HmasTask) (trs : list Transition) : M S (HmasTask * bool) :=
  match trs with
  | [] => mret (task, false)
  | tr :: trs =>
      if match guard tr with None => true | Some g => g task end then
        let task := set_state (target tr) task in
        match action tr with
        | Some a => task' ← a task; mret (task', true)
        | None => mret (task, true)
        end
      else try_candidates task trs
  end.

(** [bool try_transition(HmasTask& task, TaskEvent event)]: the new value of [task] and the
    returned flag. *)
Definition try_transition (task : HmasTask) (event : TaskEvent) : M S (HmasTask * bool) :=
  match table_find (t_state task, event) table_ with
  | None => mret (task, false)
  | Some trs => try_candidates task trs
  end.

Definition valid_targets (from : TaskState) (event : TaskEvent) : list TaskState :=
  match table_find (from, event) table_ with
  | None => []
  | Some trs => map target trs
  end.

End machine.

(** ** The abstract lifecycle *)

(** The target of an accepted event; the layer only matters for leaves that skip
    decomposition. *)
Definition next_state (s : TaskState) (e : TaskEvent) (l : HmasLayer) : option TaskState :=
  match s, e with
  | Pending, Submit => Some Decomposing
  | Pending, Delegate => if decide (l = L3_TaskAgent) then Some Delegated else None
  | Decomposing, Delegate => Some Delegated
  | Delegated, Start => Some InProgress
  | InProgress, Escalate => Some Escalated
  | Escalated, Retry => Some Delegated
  | InProgress, Complete => Some Completed
  | InProgress, Fail_ => Some Failed
  | Escalated, Fail_ => Some Failed
  | _, _ => None
  end.

Definition terminal (s : TaskState) : bool :=
  match s with Completed | Failed => true | _ => false end.

(** One accepted event at the wall-clock time [ts]. *)
Inductive task_step (ts : string) : HmasTask -> TaskEvent -> HmasTask -> Prop :=
| step_live t e s' :
    next_state (t_state t) e (t_layer t) = Some s' -> terminal s' = false ->
    task_step ts t e (set_state s' t)
| step_end t e s' :
    next_state (t_state t) e (t_layer t) = Some s' -> terminal s' = true ->
    task_step ts t e (set_completed_at ts (set_state s' t)).

(** Tasks reachable from [t0] by accepted events, at any times the clock can show. *)
Inductive task_reach (t0 : HmasTask) : HmasTask -> Prop :=
| reach_here : task_reach t0 t0
| reach_step t e z t' : task_reach t0 t -> task_step (iso8601 z) t e t' -> task_reach t0 t'.

(** The distance from a state to the end of its life, for events that are not retries. *)
Definition phase (s : TaskState) : nat :=
  match s with
  | Pending => 0 | Decomposing => 1 | Delegated => 2 | InProgress => 3
  | Escalated => 4 | Completed => 5 | Failed => 5
  end.

(** ** Lemmas *)

Lemma iso8601_nonempty z : iso8601 z <> "".
Proof.
  unfold iso8601. destruct (civil_from_days (z / 86400)) as [[y m] d].
  intros H%(f_equal String.length). rewrite !str_app_length in H. simpl in H. lia.
Qed.

Section machine_lemmas.
Context {S : Type} `{!HasEnv S}.
Implicit Types s : S.

(** The two passes of the concrete machine agree with [next_state]. *)
Lemma try_transition_spec (t : HmasTask) (e : TaskEvent) s :
  try_transition t e s =
  match next_state (t_state t) e (t_layer t) with
  | None => (s, inr (t, false))
  | Some s' =>
      if terminal s'
      then (with_env (clock_next (env_of s)) s,
            inr (set_completed_at (time_of (env_of s)) (set_state s' t), true))
      else (s, inr (set_state s' t, true))
  end.
Proof.
  unfold try_transition. destruct t as [? ? ? ly st ? ? ? ? ? ? ? ? ? ? ?]; simpl.
  destruct st, e; try reflexivity; destruct ly; reflexivity.
Qed.

Lemma try_transition_total t e s :
  exists s' t' b, try_transition t e s = (s', inr (t', b)).
Proof. rewrite try_transition_spec. repeat case_match; eauto. Qed.

(** The machine takes exactly the steps of the lifecycle. *)
Lemma try_transition_step t e s :
  match try_transition t e s with
  | (_, inr (t', true)) => task_step (time_of (env_of s)) t e t'
  | (s', inr (t', false)) => t' = t /\ s' = s /\ next_state (t_state t) e (t_layer t) = None
  | (_, inl _) => False
  end.
Proof.
  rewrite try_transition_spec.
  destruct (next_state _ _ _) as [s'|] eqn:En; [|done].
  destruct (terminal s') eqn:Et; by constructor.
Qed.
End machine_lemmas.

Lemma next_state_terminal s e l : terminal s = true -> next_state s e l = None.
Proof. by destruct s. Qed.

(** The fields an event can touch. *)
Lemma task_step_frame ts t e t' :
  task_step ts t e t' ->
  t' = set_completed_at (t_completed_at t') (set_state (t_state t') t) /\
  (t_completed_at t' = t_completed_at t \/ t_completed_at t' = ts).
Proof. destruct 1; destruct t; simpl; auto. Qed.

Lemma task_reach_inv t0 t :
  t_state t0 = Pending -> t_completed_at t0 = "" -> task_reach t0 t ->
  t_id t = t_id t0 /\ t_layer t = t_layer t0 /\
  (t_completed_at t <> "" <-> terminal (t_state t) = true).
Proof.
  intros Hs Hc. induction 1 as [|t e z t' _ (Hi & Hl & Hd) Hstep].
  - by rewrite Hs, Hc.
  - destruct Hstep as [t e s' Hn Ht|t e s' Hn Ht]; simpl.
    + split; [done|]. split; [done|]. rewrite Ht. split; [|done].
      intros Hne%Hd. by rewrite (next_state_terminal _ _ _ Hne) in Hn.
    + split; [done|]. split; [done|]. rewrite Ht. split; [done|]. intros _. apply iso8601_nonempty.
Qed.
