(* ===== verification/Metrics.v ===== *)
(** * The Prometheus registry

    include/agamemnon/metrics.hpp and src/metrics.cpp.  A prometheus-cpp family is a table from
    label values to metrics ([Add] returns the metric of the labels, creating it at 0); a
    counter or gauge is its value.  The text serializer is third-party and not modelled. *)

From S2P Require Import Prelude Effects Text.
From Stdlib Require Import QArith.
Close Scope Q_scope.

Record MetricsRegistry := {
  http_requests_total_ : gmap (string * string * string) Z;      (* method, path, status *)
  http_request_duration_seconds_ : gmap (string * string) (list Q);   (* observations *)
  http_errors_total_ : gmap (string * string * string) Z;
  tasks_total_ : Z;
  task_state_transitions_total_ : gmap (string * string) Z;      (* from, to *)
  agents_total_ : Z;
  nats_messages_published_total_ : gmap string Z;                (* subject_prefix *)
  nats_messages_received_total_ : gmap string Z;
  nats_connected_ : Z;
  github_inbound_sync_total_ : gmap string Z;                    (* outcome *)
  process_start_time_seconds_ : Q;
  build_info_ : gmap (string * string) Z;                        (* service, version *)
}.

(** [MetricsRegistry::MetricsRegistry()] at the time [ts]: empty families, the start time, the
    build information, and the connectivity gauge at 0. *)
Definition new_metrics (ts : Q) : MetricsRegistry :=
  {| http_requests_total_ := ∅; http_request_duration_seconds_ := ∅; http_errors_total_ := ∅;
     tasks_total_ := 0; task_state_transitions_total_ := ∅; agents_total_ := 0;
     nats_messages_published_total_ := ∅; nats_messages_received_total_ := ∅;
     nats_connected_ := 0; github_inbound_sync_total_ := ∅; process_start_time_seconds_ := ts;
     build_info_ := {[ ("agamemnon", "0.1.0") := 1 ]} |}%Z.
Definition empty_metrics : MetricsRegistry := new_metrics 0%Q.

(** [family.Add(labels).Increment()]. *)
Definition bump `{Countable K} (k : K) (m : gmap K Z) : gmap K Z :=
  <[k := (default 0 (m !! k) + 1)%Z]> m.

(** The first two dot-separated tokens of a subject. *)
Definition subject_prefix (subject : string) : string :=
  match str_find "." subject 0 with
  | None => subject
  | Some first =>
      match str_find "." subject (S first) with
      | None => subject
      | Some second => str_substr subject 0 second
      end
  end.

Definition upd_metrics (r : MetricsRegistry) (reqs errs : gmap (string * string * string) Z)
    (dur : gmap (string * string) (list Q)) (tasks : Z) (trans : gmap (string * string) Z)
    (agents : Z) (pub recv : gmap string Z) (conn : Z) (sync : gmap string Z) : MetricsRegistry :=
  {| http_requests_total_ := reqs; http_request_duration_seconds_ := dur;
     http_errors_total_ := errs; tasks_total_ := tasks; task_state_transitions_total_ := trans;
     agents_total_ := agents; nats_messages_published_total_ := pub;
     nats_messages_received_total_ := recv; nats_connected_ := conn;
     github_inbound_sync_total_ := sync; process_start_time_seconds_ := process_start_time_seconds_ r;
     build_info_ := build_info_ r |}.

Definition record_request (method path : string) (status_code : Z) (duration_seconds : Q)
    (r : MetricsRegistry) : MetricsRegistry :=
  let key := (method, path, to_string status_code) in
  let obs := default [] (http_request_duration_seconds_ r !! (method, path)) in
  upd_metrics r (bump key (http_requests_total_ r))
    (if (400 <=? status_code)%Z then bump key (http_errors_total_ r) else http_errors_total_ r)
    (<[(method, path) := obs ++ [duration_seconds]]> (http_request_duration_seconds_ r))
    (tasks_total_ r) (task_state_transitions_total_ r) (agents_total_ r)
    (nats_messages_published_total_ r) (nats_messages_received_total_ r) (nats_connected_ r)
    (github_inbound_sync_total_ r).

Definition adjust_task_count (delta : Z) (r : MetricsRegistry) : MetricsRegistry :=
  upd_metrics r (http_requests_total_ r) (http_errors_total_ r) (http_request_duration_seconds_ r)
    (tasks_total_ r + delta)%Z (task_state_transitions_total_ r) (agents_total_ r)
    (nats_messages_published_total_ r) (nats_messages_received_total_ r) (nats_connected_ r)
    (github_inbound_sync_total_ r).

Definition record_task_created (r : MetricsRegistry) : MetricsRegistry :=
  upd_metrics r (http_requests_total_ r) (http_errors_total_ r) (http_request_duration_seconds_ r)
    (tasks_total_ r + 1)%Z (task_state_transitions_total_ r) (agents_total_ r)
    (nats_messages_published_total_ r) (nats_messages_received_total_ r) (nats_connected_ r)
    (github_inbound_sync_total_ r).

Definition record_task_state_change (from_status to_status : string) (r : MetricsRegistry)
  : MetricsRegistry :=
  upd_metrics r (http_requests_total_ r) (http_errors_total_ r) (http_request_duration_seconds_ r)
    (tasks_total_ r) (bump (from_status, to_status) (task_state_transitions_total_ r))
    (agents_total_ r) (nats_messages_published_total_ r) (nats_messages_received_total_ r)
    (nats_connected_ r) (github_inbound_sync_total_ r).

Definition adjust_agent_count (delta : Z) (r : MetricsRegistry) : MetricsRegistry :=
  upd_metrics r (http_requests_total_ r) (http_errors_total_ r) (http_request_duration_seconds_ r)
    (tasks_total_ r) (task_state_transitions_total_ r) (agents_total_ r + delta)%Z
    (nats_messages_published_total_ r) (nats_messages_received_total_ r) (nats_connected_ r)
    (github_inbound_sync_total_ r).

Definition record_nats_publish (subject : string) (r : MetricsRegistry) : MetricsRegistry :=
  upd_metrics r (http_requests_total_ r) (http_errors_total_ r) (http_request_duration_seconds_ r)
    (tasks_total_ r) (task_state_transitions_total_ r) (agents_total_ r)
    (bump (subject_prefix subject) (nats_messages_published_total_ r))
    (nats_messages_received_total_ r) (nats_connected_ r) (github_inbound_sync_total_ r).

Definition record_nats_receive (subject : string) (r : MetricsRegistry) : MetricsRegistry :=
  upd_metrics r (http_requests_total_ r) (http_errors_total_ r) (http_request_duration_seconds_ r)
    (tasks_total_ r) (task_state_transitions_total_ r) (agents_total_ r)
    (nats_messages_published_total_ r)
    (bump (subject_prefix subject) (nats_messages_received_total_ r))
    (nats_connected_ r) (github_inbound_sync_total_ r).

Definition set_nats_connected (connected : bool) (r : MetricsRegistry) : MetricsRegistry :=
  upd_metrics r (http_requests_total_ r) (http_errors_total_ r) (http_request_duration_seconds_ r)
    (tasks_total_ r) (task_state_transitions_total_ r) (agents_total_ r)
    (nats_messages_published_total_ r) (nats_messages_received_total_ r)
    (if connected then 1 else 0)%Z (github_inbound_sync_total_ r).

Definition record_inbound_sync (outcome : string) (r : MetricsRegistry) : MetricsRegistry :=
  upd_metrics r (http_requests_total_ r) (http_errors_total_ r) (http_request_duration_seconds_ r)
    (tasks_total_ r) (task_state_transitions_total_ r) (agents_total_ r)
    (nats_messages_published_total_ r) (nats_messages_received_total_ r) (nats_connected_ r)
    (bump outcome (github_inbound_sync_total_ r)).
