(* ===== verification/World.v ===== *)
(** * The process: its collaborators and its state

    The interfaces the server's components are written against (IGitHubClient of
    include/agamemnon/github_client.hpp, NatsPublisher of include/agamemnon/nats_publisher.hpp),
    the in-memory doubles the repository ships for them, the data members of [Store]
    (include/agamemnon/store.hpp), and the state every operation runs over. *)

From S2P Require Import Prelude Effects Text Json HmasTypes Metrics.

(** ** Interfaces *)

(** [class IGitHubClient], over the state [G] of the remote side; any call may throw. *)
Record IGitHubClient (G : Type) := {
  list_issues : string -> M G (list json);                      (* label *)
  create_issue : string -> string -> string -> M G string;     (* title, body, label *)
  update_issue_body : string -> string -> M G unit;            (* issue number, body *)
  close_issue : string -> M G unit;                            (* issue number *)
}.
Arguments list_issues {G}.
Arguments create_issue {G}.
Arguments update_issue_body {G}.
Arguments close_issue {G}.

(** [class NatsPublisher], over the state [N] of the connection. *)
Record NatsPublisher (N : Type) := {
  publish : string -> string -> M N bool;                       (* subject, payload *)
  publish_log : string -> string -> string -> json -> M N unit; (* subject, level, message, metadata *)
}.
Arguments publish {N}.
Arguments publish_log {N}.

(** ** The in-memory doubles *)

(** [class MockGitHubClient]; the recorded calls and bodies are its observable state. *)
Record MockGitHub := {
  seed_issues : gmap string (list json);
  fail_list_on_label : string;
  calls : list (string * string * string * string);
  created_issues : gmap string (string * string * string);   (* number -> title, body, label *)
  updated_bodies : gmap string string;
  closed_issues : list string;
  next_issue_number_ : Z;
}.

Definition mock_log (c : string * string * string * string) (m : MockGitHub) : MockGitHub :=
  {| seed_issues := seed_issues m; fail_list_on_label := fail_list_on_label m;
     calls := calls m ++ [c]; created_issues := created_issues m;
     updated_bodies := updated_bodies m; closed_issues := closed_issues m;
     next_issue_number_ := next_issue_number_ m |}.

Definition mock_list_issues (label : string) : M MockGitHub (list json) := fun m =>
  let m := mock_log ("list_issues", label, "", "") m in
  if negb (str_empty (fail_list_on_label m)) && str_eqb (fail_list_on_label m) label
  then (m, inl (runtime_error ("simulated GitHub list failure for label: " +:+ label)))
  else (m, inr (default [] (seed_issues m !! label))).

Definition mock_create_issue (title body label : string) : M MockGitHub string := fun m =>
  let m := mock_log ("create_issue", title, body, label) m in
  let num := to_string (next_issue_number_ m + 1) in
  ({| seed_issues := seed_issues m; fail_list_on_label := fail_list_on_label m;
      calls := calls m; created_issues := <[num := (title, body, label)]> (created_issues m);
      updated_bodies := updated_bodies m; closed_issues := closed_issues m;
      next_issue_number_ := next_issue_number_ m + 1 |}, inr num)%Z.

Definition mock_update_issue_body (number body : string) : M MockGitHub unit := fun m =>
  let m := mock_log ("update_issue_body", number, body, "") m in
  ({| seed_issues := seed_issues m; fail_list_on_label := fail_list_on_label m;
      calls := calls m;
      created_issues := alter (fun i => (i.1.1, body, i.2)) number (created_issues m);
      updated_bodies := <[number := body]> (updated_bodies m); closed_issues := closed_issues m;
      next_issue_number_ := next_issue_number_ m |}, inr tt).

Definition mock_close_issue (number : string) : M MockGitHub unit := fun m =>
  let m := mock_log ("close_issue", number, "", "") m in
  ({| seed_issues := seed_issues m; fail_list_on_label := fail_list_on_label m;
      calls := calls m; created_issues := created_issues m; updated_bodies := updated_bodies m;
      closed_issues := closed_issues m ++ [number]; next_issue_number_ := next_issue_number_ m |},
   inr tt).

Definition MockGitHubClient : IGitHubClient MockGitHub :=
  {| list_issues := mock_list_issues; create_issue := mock_create_issue;
     update_issue_body := mock_update_issue_body; close_issue := mock_close_issue |}.

(** [class FakeNatsPublisher]: every message in publication order, and the log subjects. *)
Record FakeNats := {
  published : list (string * string);
  log_calls : list string;
}.

Definition FakeNatsPublisher : NatsPublisher FakeNats :=
  {| publish := fun subject payload n =>
       ({| published := published n ++ [(subject, payload)]; log_calls := log_calls n |}, inr true);
     publish_log := fun subject _ _ _ n =>
       ({| published := published n; log_calls := log_calls n ++ [subject] |}, inr tt) |}.

Definition has_subject (subject : string) (n : FakeNats) : bool :=
  existsb (fun c => str_eqb c.1 subject) (published n).
Definition has_subject_prefix (prefix : string) (n : FakeNats) : bool :=
  existsb (fun c => starts_with prefix c.1) (published n).

(** ** The state of the store *)

(** [enum class Collection]. *)
Inductive Collection := kAgents | kTeams | kTasks | kFaults.
#[global] Instance Collection_eq_dec : EqDecision Collection.
Proof. solve_decision. Defined.

(** A JSON collection of the store: the map, its [*_loaded_] flag and its [*_once_] flag. *)
Record Coll := { c_map : gmap string json; c_loaded : bool; c_once : bool }.

(** [hmas_tasks_] with its secondary index, issue numbers and flags. *)
Record HmasColl := {
  hmas_tasks_ : gmap string HmasTask;
  hmas_tasks_by_brief_ : gmap string (list string);
  hmas_task_issue_numbers_ : gmap string string;
  hmas_tasks_loaded_ : bool;
  hmas_tasks_once_ : bool;
}.

(** [task_briefs_] with its issue numbers and flags. *)
Record BriefColl := {
  task_briefs_ : gmap string TaskBrief;
  brief_issue_numbers_ : gmap string string;
  briefs_loaded_ : bool;
  briefs_once_ : bool;
}.

Record Store := {
  agents_ : Coll;
  teams_ : Coll;
  tasks_ : Coll;
  faults_ : Coll;
  hmas_ : HmasColl;
  briefs_ : BriefColl;
  metrics_ : bool;      (* metrics_ != nullptr *)
}.

Definition empty_coll : Coll := {| c_map := ∅; c_loaded := false; c_once := false |}.

(** A store as constructed; [set_metrics] attached a registry or not. *)
Definition new_store (with_metrics : bool) : Store :=
  {| agents_ := empty_coll; teams_ := empty_coll; tasks_ := empty_coll; faults_ := empty_coll;
     hmas_ := {| hmas_tasks_ := ∅; hmas_tasks_by_brief_ := ∅; hmas_task_issue_numbers_ := ∅;
                 hmas_tasks_loaded_ := false; hmas_tasks_once_ := false |};
     briefs_ := {| task_briefs_ := ∅; brief_issue_numbers_ := ∅; briefs_loaded_ := false;
                   briefs_once_ := false |};
     metrics_ := with_metrics |}.

Definition coll_of (c : Collection) (s : Store) : Coll :=
  match c with
  | kAgents => agents_ s | kTeams => teams_ s | kTasks => tasks_ s | kFaults => faults_ s
  end.

Definition set_coll (c : Collection) (x : Coll) (s : Store) : Store :=
  {| agents_ := if decide (c = kAgents) then x else agents_ s;
     teams_ := if decide (c = kTeams) then x else teams_ s;
     tasks_ := if decide (c = kTasks) then x else tasks_ s;
     faults_ := if decide (c = kFaults) then x else faults_ s;
     hmas_ := hmas_ s; briefs_ := briefs_ s; metrics_ := metrics_ s |}.

Definition set_hmas (x : HmasColl) (s : Store) : Store :=
  {| agents_ := agents_ s; teams_ := teams_ s; tasks_ := tasks_ s; faults_ := faults_ s;
     hmas_ := x; briefs_ := briefs_ s; metrics_ := metrics_ s |}.

Definition set_briefs (x : BriefColl) (s : Store) : Store :=
  {| agents_ := agents_ s; teams_ := teams_ s; tasks_ := tasks_ s; faults_ := faults_ s;
     hmas_ := hmas_ s; briefs_ := x; metrics_ := metrics_ s |}.

(** ** The state of the process *)

Record World (G N : Type) := {
  w_env : Env;
  w_gh : G;
  w_store : Store;
  w_metrics : MetricsRegistry;
  w_nats : N;
}.
Arguments w_env {G N}.
Arguments w_gh {G N}.
Arguments w_store {G N}.
Arguments w_metrics {G N}.
Arguments w_nats {G N}.

Section world.
Context {G N : Type}.

Definition set_env (e : Env) (w : World G N) : World G N :=
  {| w_env := e; w_gh := w_gh w; w_store := w_store w; w_metrics := w_metrics w; w_nats := w_nats w |}.
Definition set_gh (g : G) (w : World G N) : World G N :=
  {| w_env := w_env w; w_gh := g; w_store := w_store w; w_metrics := w_metrics w; w_nats := w_nats w |}.
Definition set_store (s : Store) (w : World G N) : World G N :=
  {| w_env := w_env w; w_gh := w_gh w; w_store := s; w_metrics := w_metrics w; w_nats := w_nats w |}.
Definition set_metrics (m : MetricsRegistry) (w : World G N) : World G N :=
  {| w_env := w_env w; w_gh := w_gh w; w_store := w_store w; w_metrics := m; w_nats := w_nats w |}.
Definition set_nats (n : N) (w : World G N) : World G N :=
  {| w_env := w_env w; w_gh := w_gh w; w_store := w_store w; w_metrics := w_metrics w; w_nats := n |}.

#[global] Program Instance world_has_env : HasEnv (World G N) :=
  {| env_of := w_env; with_env := set_env |}.
Solve Obligations with (intros; simpl; by try match goal with w : World _ _ |- _ => destruct w end).

(** A call on the GitHub client, on the publisher, and an update of the metrics guarded by
    [if (metrics_)]. *)
Definition call_gh {A} (m : M G A) : M (World G N) A := zoom w_gh set_gh m.
Definition call_nats {A} (m : M N A) : M (World G N) A := zoom w_nats set_nats m.
Definition record_metric (f : MetricsRegistry -> MetricsRegistry) : M (World G N) unit :=
  modify (fun w => if metrics_ (w_store w) then set_metrics (f (w_metrics w)) w else w).

(** The map of a collection, its flags, and the assignment [map[id] = j]. *)
Definition map_of (c : Collection) (w : World G N) : gmap string json :=
  c_map (coll_of c (w_store w)).
Definition loaded (c : Collection) (w : World G N) : bool := c_loaded (coll_of c (w_store w)).

Definition put_map (c : Collection) (m : gmap string json) (w : World G N) : World G N :=
  let x := coll_of c (w_store w) in
  set_store (set_coll c {| c_map := m; c_loaded := c_loaded x; c_once := c_once x |} (w_store w)) w.
Definition put_entity (c : Collection) (id : string) (j : json) (w : World G N) : World G N :=
  put_map c (<[id := j]> (map_of c w)) w.
Definition set_loaded (c : Collection) (w : World G N) : World G N :=
  let x := coll_of c (w_store w) in
  set_store (set_coll c {| c_map := c_map x; c_loaded := true; c_once := c_once x |} (w_store w)) w.
Definition set_once (c : Collection) (w : World G N) : World G N :=
  let x := coll_of c (w_store w) in
  set_store (set_coll c {| c_map := c_map x; c_loaded := c_loaded x; c_once := true |} (w_store w)) w.

Definition upd_hmas (f : HmasColl -> HmasColl) (w : World G N) : World G N :=
  set_store (set_hmas (f (hmas_ (w_store w))) (w_store w)) w.
Definition upd_briefs (f : BriefColl -> BriefColl) (w : World G N) : World G N :=
  set_store (set_briefs (f (briefs_ (w_store w))) (w_store w)) w.

(** The process at start: an empty store over the given collaborators. *)
Definition boot (e : Env) (g : G) (with_metrics : bool) (n : N) : World G N :=
  {| w_env := e; w_gh := g; w_store := new_store with_metrics; w_metrics := empty_metrics;
     w_nats := n |}.
End world.

(** The doubles as constructed, and an environment to run them in. *)
Definition mock0 : MockGitHub :=
  {| seed_issues := ∅; fail_list_on_label := ""; calls := []; created_issues := ∅;
     updated_bodies := ∅; closed_issues := []; next_issue_number_ := 0 |}.
Definition nats0 : FakeNats := {| published := []; log_calls := [] |}.
Definition env0 : Env :=
  {| draws := Z.of_nat; draw_i := 0; clock := fun i => (1767225600 + Z.of_nat i)%Z; clock_i := 0 |}.

(** ** Lemmas *)

Lemma coll_of_set_coll c x s : coll_of c (set_coll c x s) = x.
Proof. by destruct c. Qed.

Lemma coll_of_set_coll_ne c c' x s : c <> c' -> coll_of c (set_coll c' x s) = coll_of c s.
Proof. by destruct c, c'. Qed.

Section world_lemmas.
Context {G N : Type}.
Implicit Types w : World G N.

Lemma map_of_put_map c m w : map_of c (put_map c m w) = m.
Proof. unfold map_of, put_map; simpl. by rewrite coll_of_set_coll. Qed.

Lemma map_of_put_map_ne c c' m w : c <> c' -> map_of c (put_map c' m w) = map_of c w.
Proof. intros. unfold map_of, put_map; simpl. by rewrite coll_of_set_coll_ne. Qed.

Lemma loaded_put_map c c' m w : loaded c (put_map c' m w) = loaded c w.
Proof. unfold loaded, put_map. by destruct c, c'. Qed.

Lemma map_of_put_entity c id j w : map_of c (put_entity c id j w) = <[id := j]> (map_of c w).
Proof. apply map_of_put_map. Qed.

Lemma map_of_put_entity_ne c c' id j w : c <> c' -> map_of c (put_entity c' id j w) = map_of c w.
Proof. intros. by apply map_of_put_map_ne. Qed.

Lemma loaded_put_entity c c' id j w : loaded c (put_entity c' id j w) = loaded c w.
Proof. apply loaded_put_map. Qed.

Lemma map_of_set_loaded c c' w : map_of c (set_loaded c' w) = map_of c w.
Proof. by destruct c, c'. Qed.

Lemma map_of_set_once c c' w : map_of c (set_once c' w) = map_of c w.
Proof. by destruct c, c'. Qed.

Lemma loaded_set_loaded c w : loaded c (set_loaded c w) = true.
Proof. by destruct c. Qed.

Lemma map_of_set_env c e w : map_of c (set_env e w) = map_of c w.
Proof. done. Qed.

Lemma map_of_set_gh c g w : map_of c (set_gh g w) = map_of c w.
Proof. done. Qed.

Lemma run_call_gh {A} (m : M G A) w g r : m (w_gh w) = (g, r) -> call_gh m w = (set_gh g w, r).
Proof. intros H. unfold call_gh, zoom. by rewrite H. Qed.

Lemma run_call_nats {A} (m : M N A) w n r : m (w_nats w) = (n, r) -> call_nats m w = (set_nats n w, r).
Proof. intros H. unfold call_nats, zoom. by rewrite H. Qed.
End world_lemmas.

#[export] Hint Rewrite @map_of_put_map @loaded_put_map @map_of_put_entity @loaded_put_entity
  @map_of_set_loaded @map_of_set_once @loaded_set_loaded : agamemnon.
