(* ===== verification/Planning.v ===== *)
(** * Planning breakdown

    include/agamemnon/planning_breakdown.hpp and src/planning_breakdown.cpp: a brief is
    decomposed into an L0 root, an L1 task per repository, an L2 task per module and an L3 task
    per implementation item, linked by parent, child and blocker edges; a second pass wires
    the explicit issue dependencies carried by the items ([parse_impl_ref]). *)

From S2P Require Import Prelude Effects Text Json HmasTypes.

Record ImplRef := { issue : Z; depends_on : list Z; has_explicit_deps : bool }.

(** ** parse_impl_ref *)

Definition is_blank (c : ascii) : bool := bool_decide (c = " "%char) || bool_decide (c = "009"%char).

(** The loop over the text between the marker and the closing parenthesis; every iteration
    consumes at least one character, so the length of the text is enough fuel. *)
Fixpoint deps_loop (fuel : nat) (chunk : string) : result (list Z) :=
  match fuel with
  | O => inr []
  | S fuel =>
      match chunk with
      | "" => inr []
      | String "#" rest =>
          let '(ds, rest') := take_digits rest in
          if str_empty ds then deps_loop fuel rest'
          else n ← stoi ds; ns ← deps_loop fuel rest'; inr (n :: ns)
      | String _ rest => deps_loop fuel rest
      end
  end.

Definition parse_impl_ref (impl_desc : string) : result ImplRef :=
  let none := {| issue := 0; depends_on := []; has_explicit_deps := false |} in
  match skip_while is_blank impl_desc with
  | String "#" rest =>
      let '(ds, rest) := take_digits rest in
      if str_empty ds then inr none else
      n ← stoi ds;
      let plain := {| issue := n; depends_on := []; has_explicit_deps := false |} in
      match after_first "(depends on:" rest with
      | None => inr plain
      | Some rest =>
          match before_char ")" rest with
          | None => inr plain
          | Some chunk =>
              deps ← deps_loop (String.length chunk) chunk;
              inr {| issue := n; depends_on := deps; has_explicit_deps := true |}
          end
      end
  | _ => inr none
  end.

(** ** decompose *)

(** A [HmasTask] as [decompose] first fills it: pending, without edges. *)
Definition new_task (id brief_id parent : string) (layer : HmasLayer)
    (repo mod_ subject description : string) (issue : Z) (ts : string) : HmasTask :=
  {| t_id := id; t_brief_id := brief_id; t_parent_task_id := parent; t_layer := layer;
     t_state := Pending; t_subject := subject; t_description := description; t_repo := repo;
     t_module := mod_; t_issue := issue; t_assigned_lead_id := ""; t_blocked_by := [];
     t_child_task_ids := []; t_escalations := []; t_created_at := ts; t_completed_at := "" |}.

(** [if (!prev.empty()) task.blocked_by.push_back(prev)]. *)
Definition push_blocked_if (prev : string) (t : HmasTask) : HmasTask :=
  if str_empty prev then t else push_blocked prev t.

Section decompose.
Context {S : Type} `{!HasEnv S}.
Context (brief : TaskBrief) (ts : string).

(** L3 per implementation item, under the L2 task [l2_id] at index [l2_idx]. *)
Fixpoint impl_loop (repo mod_ l2_id : string) (l2_idx : nat) (impls : list string)
    (prev_l3_id : string) (tasks : list HmasTask) : M S (list HmasTask) :=
  match impls with
  | [] => mret tasks
  | impl_desc :: impls =>
      id ← generate_uuid;
      ref ← of_result (parse_impl_ref impl_desc);
      let l3 := push_blocked l2_id
        (new_task id (b_id brief) l2_id L3_TaskAgent repo mod_ impl_desc impl_desc
                  (issue ref) ts) in
      let l3 := if has_explicit_deps ref then l3 else push_blocked_if prev_l3_id l3 in
      let tasks := alter (push_child id) l2_idx tasks ++ [l3] in
      impl_loop repo mod_ l2_id l2_idx impls id tasks
  end.

(** [brief.impls.find(repo)] then [find(mod)], with the default item when nothing is listed. *)
Definition impls_of (repo mod_ : string) : list string :=
  match match b_impls brief !! repo with Some m => default [] (m !! mod_) | None => [] end with
  | [] => ["Implement " +:+ mod_]
  | l => l
  end.

(** L2 per module, under the L1 task [l1_id] at index [l1_idx]. *)
Fixpoint module_loop (repo l1_id : string) (l1_idx : nat) (modules : list string)
    (prev_l2_id : string) (tasks : list HmasTask) : M S (list HmasTask) :=
  match modules with
  | [] => mret tasks
  | mod_ :: modules =>
      id ← generate_uuid;
      let l2 := push_blocked_if prev_l2_id (push_blocked l1_id
        (new_task id (b_id brief) l1_id L2_ModuleLead repo mod_
           (b_title brief +:+ " [" +:+ repo +:+ "/" +:+ mod_ +:+ "]")
           ("Lead module implementation: " +:+ mod_ +:+ " in " +:+ repo) 0 ts)) in
      let tasks := alter (push_child id) l1_idx tasks in
      let l2_idx := length tasks in
      tasks ← impl_loop repo mod_ id l2_idx (impls_of repo mod_) "" (tasks ++ [l2]);
      module_loop repo l1_id l1_idx modules id tasks
  end.

Definition modules_of (repo : string) : list string :=
  match default [] (b_modules brief !! repo) with [] => ["core"] | l => l end.

(** L1 per repository, under the root [root_id] at index 0. *)
Fixpoint repo_loop (root_id : string) (repos : list string) (tasks : list HmasTask)
  : M S (list HmasTask) :=
  match repos with
  | [] => mret tasks
  | repo :: repos =>
      id ← generate_uuid;
      let l1 := push_blocked root_id
        (new_task id (b_id brief) root_id L1_ComponentLead repo ""
           (b_title brief +:+ " [" +:+ repo +:+ "]")
           ("Coordinate implementation for repo: " +:+ repo) 0 ts) in
      let tasks := alter (push_child id) 0 tasks in
      let l1_idx := length tasks in
      tasks ← module_loop repo id l1_idx (modules_of repo) "" (tasks ++ [l1]);
      repo_loop root_id repos tasks
  end.

(** [issue_to_idx.emplace(issue, idx)] over the tasks: the first index of an issue wins. *)
Fixpoint issue_index (tasks : list HmasTask) (idx : nat) (m : gmap Z nat) : gmap Z nat :=
  match tasks with
  | [] => m
  | t :: tasks =>
      let m' := if bool_decide (t_layer t = L3_TaskAgent) && negb (t_issue t =? 0)%Z then
                  match m !! t_issue t with Some _ => m | None => <[t_issue t := idx]> m end
                else m in
      issue_index tasks (Datatypes.S idx) m'
  end.

(** One dependency of the task at [idx]: the edges to and from its blocker. *)
Definition wire_dep (issue_to_idx : gmap Z nat) (idx : nat) (dep : Z) (tasks : list HmasTask)
  : list HmasTask :=
  match issue_to_idx !! dep, tasks !! idx with
  | Some j, Some t =>
      match tasks !! j with
      | Some blocker =>
          if decide (t_id blocker = t_id t) then tasks else
          let tasks := if decide (t_id blocker ∈ t_blocked_by t) then tasks
                       else alter (push_blocked (t_id blocker)) idx tasks in
          if decide (t_id t ∈ t_child_task_ids blocker) then tasks
          else alter (push_child (t_id t)) j tasks
      | None => tasks
      end
  | _, _ => tasks
  end.

(** The post-pass [for (auto& t : tasks)]; [todo] indices are left to visit. *)
Fixpoint wire_loop (issue_to_idx : gmap Z nat) (todo : list nat) (tasks : list HmasTask)
  : result (list HmasTask) :=
  match todo with
  | [] => inr tasks
  | idx :: todo =>
      match tasks !! idx with
      | Some t =>
          if bool_decide (t_layer t = L3_TaskAgent) && negb (t_issue t =? 0)%Z then
            ref ← parse_impl_ref (t_subject t);
            wire_loop issue_to_idx todo
              (foldl (fun tasks dep => wire_dep issue_to_idx idx dep tasks) tasks (depends_on ref))
          else wire_loop issue_to_idx todo tasks
      | None => wire_loop issue_to_idx todo tasks
      end
  end.

Definition wire_dependencies (tasks : list HmasTask) : result (list HmasTask) :=
  wire_loop (issue_index tasks 0 ∅) (seq 0 (length tasks)) tasks.
End decompose.

Definition decompose {S} `{!HasEnv S} (brief : TaskBrief) : M S (list HmasTask) :=
  ts ← now_iso8601;
  root_id ← generate_uuid;
  let root := new_task root_id (b_id brief) "" L0_ChiefArchitect "" ""
                (b_title brief) (b_description brief) 0 ts in
  tasks ← repo_loop brief ts root_id (b_repos brief) [root];
  of_result (wire_dependencies tasks).

(** ** The shape of a plan *)

Definition layer_below (l : HmasLayer) : option HmasLayer :=
  match l with
  | L0_ChiefArchitect => Some L1_ComponentLead
  | L1_ComponentLead => Some L2_ModuleLead
  | L2_ModuleLead => Some L3_TaskAgent
  | L3_TaskAgent => None
  end.

(** A task as far as edges do not matter. *)
Definition core (t : HmasTask) : HmasTask := set_edges [] [] t.

(** [t'] is [t] with more edges. *)
Definition grow (t t' : HmasTask) : Prop :=
  core t' = core t /\ t_blocked_by t ⊆ t_blocked_by t' /\ t_child_task_ids t ⊆ t_child_task_ids t'.

(** What a decomposition guarantees: one root, every other task a child of a task of the layer
    above that it waits for, no edge to a task outside the plan, and every child edge mirrored
    by a blocker edge. *)
Record plan_ok (brief_id ts : string) (tasks : list HmasTask) : Prop := {
  plan_root : exists r, tasks !! 0 = Some r /\ t_layer r = L0_ChiefArchitect /\
                   t_parent_task_id r = "";
  plan_fresh t : t ∈ tasks -> t_brief_id t = brief_id /\ t_state t = Pending /\
                   t_created_at t = ts /\ t_completed_at t = "";
  plan_linked i t : tasks !! i = Some t -> i <> 0 ->
      exists p, p ∈ tasks /\ t_id p = t_parent_task_id t /\
           layer_below (t_layer p) = Some (t_layer t) /\
           t_id t ∈ t_child_task_ids p /\ t_parent_task_id t ∈ t_blocked_by t;
  plan_blockers t b : t ∈ tasks -> b ∈ t_blocked_by t -> exists p, p ∈ tasks /\ t_id p = b;
  plan_children t c : t ∈ tasks -> c ∈ t_child_task_ids t ->
      exists k, k ∈ tasks /\ t_id k = c /\ t_id t ∈ t_blocked_by k;
}.

(** ** Lemmas *)

Lemma grow_refl t : grow t t.
Proof. by repeat split. Qed.

Lemma grow_core t t' : grow t t' ->
  t_id t' = t_id t /\ t_layer t' = t_layer t /\ t_parent_task_id t' = t_parent_task_id t /\
  t_brief_id t' = t_brief_id t /\ t_state t' = t_state t /\ t_created_at t' = t_created_at t /\
  t_completed_at t' = t_completed_at t.
Proof.
  intros [Hc _]. split_and!;
    [apply (f_equal t_id Hc) | apply (f_equal t_layer Hc) | apply (f_equal t_parent_task_id Hc)
    | apply (f_equal t_brief_id Hc) | apply (f_equal t_state Hc)
    | apply (f_equal t_created_at Hc) | apply (f_equal t_completed_at Hc)].
Qed.

Lemma grow_push_child c t : grow t (push_child c t).
Proof. repeat split; simpl; set_solver. Qed.

Lemma grow_push_blocked b t : grow t (push_blocked b t).
Proof. repeat split; simpl; set_solver. Qed.

Lemma elem_alter_fwd {A} (f : A -> A) i (l : list A) x :
  x ∈ l -> x ∈ alter f i l \/ (l !! i = Some x /\ f x ∈ alter f i l).
Proof.
  intros [j Hj]%list_elem_of_lookup. destruct (decide (i = j)) as [->|Hne].
  - right. split; [done|]. apply list_elem_of_lookup. exists j.
    rewrite list_lookup_alter_eq. by rewrite Hj.
  - left. apply list_elem_of_lookup. exists j. by rewrite list_lookup_alter_ne.
Qed.

Lemma elem_alter_bwd {A} (f : A -> A) i (l : list A) x :
  x ∈ alter f i l -> x ∈ l \/ exists y, l !! i = Some y /\ x = f y.
Proof.
  intros [j Hj]%list_elem_of_lookup. destruct (decide (i = j)) as [->|Hne].
  - rewrite list_lookup_alter_eq in Hj. apply fmap_Some in Hj as (y & ? & ->). eauto.
  - rewrite list_lookup_alter_ne in Hj by done. left. apply list_elem_of_lookup. eauto.
Qed.

(** [l'] is [l] with tasks grown in place. *)
Definition grown (l l' : list HmasTask) : Prop := Forall2 grow l l'.

Lemma grown_alter f i l : (forall t, grow t (f t)) -> grown l (alter f i l).
Proof.
  intros Hf. apply Forall2_same_length_lookup_2; [by rewrite length_alter|].
  intros j x y Hx Hy. destruct (decide (i = j)) as [->|].
  - rewrite list_lookup_alter_eq, Hx in Hy. simplify_eq/=. apply Hf.
  - rewrite list_lookup_alter_ne, Hx in Hy by done. simplify_eq. apply grow_refl.
Qed.

Lemma grown_fwd l l' t : grown l l' -> t ∈ l -> exists t', t' ∈ l' /\ grow t t'.
Proof.
  intros Hg [i Hi]%list_elem_of_lookup. destruct (Forall2_lookup_l _ _ _ _ _ Hg Hi) as (t' & H' & ?).
  exists t'. split; [|done]. apply list_elem_of_lookup. eauto.
Qed.

Lemma grown_bwd l l' t' : grown l l' -> t' ∈ l' -> exists t, t ∈ l /\ grow t t'.
Proof.
  intros Hg [i Hi]%list_elem_of_lookup. destruct (Forall2_lookup_r _ _ _ _ _ Hg Hi) as (t & H' & ?).
  exists t. split; [|done]. apply list_elem_of_lookup. eauto.
Qed.

(** Growing tasks in place keeps a plan, when the new edges join tasks of the plan and each new
    child edge has its blocker edge. *)
Lemma plan_ok_grown bid ts l l' :
  plan_ok bid ts l -> grown l l' ->
  (forall t b, t ∈ l' -> b ∈ t_blocked_by t -> exists p, p ∈ l' /\ t_id p = b) ->
  (forall t c, t ∈ l' -> c ∈ t_child_task_ids t ->
     exists k, k ∈ l' /\ t_id k = c /\ t_id t ∈ t_blocked_by k) ->
  plan_ok bid ts l'.
Proof.
  intros [(r & Hr & Hl0 & Hp0) Hf Hl _ _] Hg Hb Hc. split; [| | |done|done].
  - destruct (Forall2_lookup_l _ _ _ _ _ Hg Hr) as (r' & Hr' & Hgr).
    destruct (grow_core _ _ Hgr) as (_ & HL & HP & _). exists r'. by rewrite HL, HP.
  - intros t' (t & Ht & Hgt)%(grown_bwd _ _ _ Hg).
    destruct (grow_core _ _ Hgt) as (_ & _ & _ & -> & -> & -> & ->). by apply Hf.
  - intros i t' Hi Hne. destruct (Forall2_lookup_r _ _ _ _ _ Hg Hi) as (t & Ht & Hgt).
    destruct (grow_core _ _ Hgt) as (Hid & HL & HP & _).
    destruct (Hl i t Ht Hne) as (p & Hpin & Hpid & Hpl & Hpc & Hpb).
    destruct (grown_fwd _ _ _ Hg Hpin) as (p' & Hp'in & Hgp).
    destruct (grow_core _ _ Hgp) as (Hid' & HL' & _).
    exists p'. rewrite Hid', HL', HP, HL, Hid. repeat split; try done.
    + by apply Hgp.
    + by apply Hgt.
Qed.

Lemma grown_id l l' b : grown l l' -> (exists p, p ∈ l /\ t_id p = b) -> exists p, p ∈ l' /\ t_id p = b.
Proof.
  intros Hg (p & Hp & <-). destruct (grown_fwd _ _ _ Hg Hp) as (p' & ? & Hgp).
  exists p'. by destruct (grow_core _ _ Hgp) as [-> _].
Qed.

(** Membership in the two halves of an append. *)
Ltac in_app := rewrite elem_of_app, ?list_elem_of_singleton; auto.

Lemma grown_child l l' c id :
  grown l l' -> (exists k, k ∈ l /\ t_id k = c /\ id ∈ t_blocked_by k) ->
  exists k, k ∈ l' /\ t_id k = c /\ id ∈ t_blocked_by k.
Proof.
  intros Hg (k & Hk & <- & Hb). destruct (grown_fwd _ _ _ Hg Hk) as (k' & Hk' & Hgk).
  destruct (grow_core _ _ Hgk) as [Hid _]. exists k'. split_and!; [done|done|by apply Hgk].
Qed.

(** Adding a fresh task below the task at index [i] keeps a plan. *)
Lemma plan_ok_add bid ts l i p x :
  plan_ok bid ts l -> l !! i = Some p ->
  t_brief_id x = bid /\ t_state x = Pending /\ t_created_at x = ts /\ t_completed_at x = "" ->
  t_parent_task_id x = t_id p -> layer_below (t_layer p) = Some (t_layer x) ->
  t_child_task_ids x = [] -> t_id p ∈ t_blocked_by x ->
  (forall b, b ∈ t_blocked_by x -> exists q, q ∈ l /\ t_id q = b) ->
  plan_ok bid ts (alter (push_child (t_id x)) i l ++ [x]).
Proof.
  intros Hok Hi Hx Hpar Hlay Hch Hblk Hcl.
  set (l1 := alter (push_child (t_id x)) i l).
  assert (Hg : grown l l1) by (apply grown_alter; intros; apply grow_push_child).
  assert (Hp1 : push_child (t_id x) p ∈ l1).
  { apply list_elem_of_lookup. exists i. unfold l1. by rewrite list_lookup_alter_eq, Hi. }
  destruct Hok as [(r & Hr & Hl0 & Hp0) Hf Hl Hb Hc]. split.
  - destruct (Forall2_lookup_l _ _ _ _ _ Hg Hr) as (r' & Hr' & Hgr).
    destruct (grow_core _ _ Hgr) as (_ & HL & HP & _). exists r'.
    rewrite HL, HP. split; [by apply lookup_app_l_Some|done].
  - intros t' [Ht'|Hs%list_elem_of_singleton]%elem_of_app; [|by subst t'].
    destruct (grown_bwd _ _ _ Hg Ht') as (t & Ht & Hgt).
    destruct (grow_core _ _ Hgt) as (_ & _ & _ & -> & -> & -> & ->). by apply Hf.
  - intros j t' Hj Hne. apply lookup_app_Some in Hj as [Hj|[Hlen Hj]].
    + destruct (Forall2_lookup_r _ _ _ _ _ Hg Hj) as (t & Ht & Hgt).
      destruct (grow_core _ _ Hgt) as (Hid & HL & HP & _).
      destruct (Hl j t Ht Hne) as (q & Hqin & Hqid & Hql & Hqc & Hqb).
      destruct (grown_fwd _ _ _ Hg Hqin) as (q' & Hq'in & Hgq).
      destruct (grow_core _ _ Hgq) as (Hid' & HL' & _).
      exists q'. rewrite Hid', HL', HP, HL, Hid.
      split_and!; [in_app|done|done|by apply Hgq|by apply Hgt].
    + apply list_lookup_singleton_Some in Hj as [_ <-].
      exists (push_child (t_id x) p). rewrite Hpar. simpl.
      split_and!; [in_app|done|done|in_app|done].
  - intros t' b [Ht'|Hs%list_elem_of_singleton]%elem_of_app Hbin.
    + assert (exists t, t ∈ l /\ t_blocked_by t' = t_blocked_by t) as (t & Ht & Heq).
      { apply elem_alter_bwd in Ht' as [|(y & ? & ->)]; [eauto|].
        exists y. split; [apply list_elem_of_lookup; eauto|done]. }
      rewrite Heq in Hbin. destruct (grown_id l l1 b Hg (Hb _ _ Ht Hbin)) as (q & ? & ?).
      exists q. split; [in_app|done].
    + subst t'. destruct (grown_id l l1 b Hg (Hcl _ Hbin)) as (q & ? & ?). exists q. split; [in_app|done].
  - intros t' c [Ht'|Hs%list_elem_of_singleton]%elem_of_app Hcin;
      [|subst t'; rewrite Hch in Hcin; by apply not_elem_of_nil in Hcin].
    assert (Hold : forall t, t ∈ l -> c ∈ t_child_task_ids t ->
      exists k, k ∈ l1 ++ [x] /\ t_id k = c /\ t_id t ∈ t_blocked_by k).
    { intros t Ht Hct. destruct (grown_child _ _ _ _ Hg (Hc t c Ht Hct)) as (k & ? & ? & ?).
      exists k. split_and!; [in_app|done|done]. }
    apply elem_alter_bwd in Ht' as [Ht|(y & Hy & ->)]; [by apply Hold|].
    rewrite Hi in Hy. simplify_eq. simpl in Hcin. apply elem_of_app in Hcin as [Hcin|Hcin].
    + apply (Hold y); [apply list_elem_of_lookup; eauto|done].
    + apply list_elem_of_singleton in Hcin as ->. exists x. split_and!; [in_app|done|done].
Qed.

(** The task at index [i] has this identity and layer. *)
Definition holds_at (i : nat) (id : string) (ly : HmasLayer) (l : list HmasTask) : Prop :=
  exists p, l !! i = Some p /\ t_id p = id /\ t_layer p = ly.

(** Every position keeps its identity and layer. *)
Definition stable (l l' : list HmasTask) : Prop :=
  forall i id ly, holds_at i id ly l -> holds_at i id ly l'.

Definition present (id : string) (l : list HmasTask) : Prop := exists i ly, holds_at i id ly l.

Lemma present_elem id l : present id l -> exists q, q ∈ l /\ t_id q = id.
Proof. intros (i & ly & p & Hp & <- & _). exists p. split; [apply list_elem_of_lookup; eauto|done]. Qed.

#[global] Instance stable_preorder : PreOrder stable.
Proof. split; [by intros l i id ly|]. intros l1 l2 l3 H1 H2 i id ly H. by apply H2, H1. Qed.

Lemma stable_present l l' id : stable l l' -> present id l -> present id l'.
Proof. intros Hs (i & ly & H). exists i, ly. by apply Hs. Qed.

Lemma stable_grown l l' : grown l l' -> stable l l'.
Proof.
  intros Hg i id ly (p & Hp & <- & <-).
  destruct (Forall2_lookup_l _ _ _ _ _ Hg Hp) as (p' & Hp' & Hgp).
  destruct (grow_core _ _ Hgp) as (Hid & HL & _). by exists p'.
Qed.

Lemma stable_app l x : stable l (l ++ [x]).
Proof. intros i id ly (p & Hp & Hid). exists p. split; [by apply lookup_app_l_Some|done]. Qed.

Lemma stable_add f i l x : (forall t, grow t (f t)) -> stable l (alter f i l ++ [x]).
Proof. intros Hf. etrans; [by apply stable_grown, grown_alter|apply stable_app]. Qed.

Lemma holds_at_new f i l x : holds_at (length l) (t_id x) (t_layer x) (alter f i l ++ [x]).
Proof. exists x. split; [|done]. rewrite lookup_app_r; rewrite length_alter; [|done]. by rewrite Nat.sub_diag. Qed.

(** A run that returns leaves a plan in which every position kept its identity. *)
Definition keeps {S} (bid ts : string) (l : list HmasTask) (r : S * (exn + list HmasTask)) : Prop :=
  match r.2 with inl _ => True | inr l' => plan_ok bid ts l' /\ stable l l' end.

(** A task as the loops create it: below [pid], waiting for [pid] and at most for [prev]. *)
Record fresh_child (bid ts id pid prev : string) (ly : HmasLayer) (x : HmasTask) : Prop := {
  fc_id : t_id x = id;
  fc_layer : t_layer x = ly;
  fc_parent : t_parent_task_id x = pid;
  fc_children : t_child_task_ids x = [];
  fc_waits : pid ∈ t_blocked_by x;
  fc_new : t_brief_id x = bid /\ t_state x = Pending /\ t_created_at x = ts /\
           t_completed_at x = "";
  fc_blockers b : b ∈ t_blocked_by x -> b = pid \/ (b = prev /\ prev <> "");
}.

Lemma fresh_child_new bid ts id pid prev ly repo mod_ subj desc iss :
  fresh_child bid ts id pid prev ly
    (push_blocked pid (new_task id bid pid ly repo mod_ subj desc iss ts)).
Proof. split; simpl; try done; set_solver. Qed.

Lemma fresh_child_chained bid ts id pid prev ly repo mod_ subj desc iss :
  fresh_child bid ts id pid prev ly
    (push_blocked_if prev (push_blocked pid (new_task id bid pid ly repo mod_ subj desc iss ts))).
Proof.
  unfold push_blocked_if. destruct (str_empty prev) eqn:E; [apply fresh_child_new|].
  apply str_empty_false in E. split; simpl; try done; set_solver.
Qed.

#[export] Hint Resolve fresh_child_new fresh_child_chained : agamemnon.

Lemma add_step bid ts l i pid ly ly' id prev x :
  plan_ok bid ts l -> holds_at i pid ly l -> layer_below ly = Some ly' ->
  prev = "" \/ present prev l -> fresh_child bid ts id pid prev ly' x ->
  let l' := alter (push_child id) i l ++ [x] in
  plan_ok bid ts l' /\ stable l l' /\ holds_at (length l) id ly' l'.
Proof.
  intros Hok (p & Hp & Hpid & Hply) Hly Hprev Hx. simpl. split_and!.
  - rewrite <- (fc_id _ _ _ _ _ _ _ Hx). destruct Hx as [? ? ? ? ? ? Hblk].
    eapply plan_ok_add; simplify_eq; try done.
    intros b [->|[-> Hne]]%Hblk.
    + exists p. split; [apply list_elem_of_lookup; eauto|done].
    + destruct Hprev as [?|Hprev]; [done|by apply present_elem].
  - apply stable_add. intros; apply grow_push_child.
  - destruct Hx as [<- <- _ _ _ _ _]. apply holds_at_new.
Qed.

Lemma keeps_trans {S} bid ts l l' (r : S * (exn + list HmasTask)) :
  stable l l' -> keeps bid ts l' r -> keeps bid ts l r.
Proof. unfold keeps. destruct r.2; [done|]. intros ? [??]. split; [done|by etrans]. Qed.

Section loops.
Context {S : Type} `{!HasEnv S} (brief : TaskBrief) (ts : string).
Implicit Types s : S.

Lemma impl_loop_keeps repo mod_ l2_id l2_idx impls prev l s :
  plan_ok (b_id brief) ts l -> holds_at l2_idx l2_id L2_ModuleLead l ->
  prev = "" \/ present prev l ->
  keeps (b_id brief) ts l (impl_loop brief ts repo mod_ l2_id l2_idx impls prev l s).
Proof.
  revert prev l s; induction impls as [|d impls IH]; intros prev l s Hok Hat Hprev; [by split|].
  cbn [impl_loop]. rewrite run_bind, run_generate_uuid. cbv beta iota.
  rewrite run_bind, run_of_result. destruct (parse_impl_ref d) as [e|ref]; [done|]. cbv beta iota zeta.
  match goal with |- keeps _ _ _ (impl_loop _ _ _ _ _ _ _ _ (_ ++ [?y]) _) => set (x := y) end.
  edestruct (add_step (b_id brief) ts l) with (x := x) as (Hok' & Hst & Hnew); try done.
  { unfold x. destruct (has_explicit_deps ref); eauto with agamemnon. }
  eapply keeps_trans; [done|]. apply IH; [done|by apply Hst|]. right. by eexists _, _.
Qed.

Lemma module_loop_keeps repo l1_id l1_idx modules prev l s :
  plan_ok (b_id brief) ts l -> holds_at l1_idx l1_id L1_ComponentLead l ->
  prev = "" \/ present prev l ->
  keeps (b_id brief) ts l (module_loop brief ts repo l1_id l1_idx modules prev l s).
Proof.
  revert prev l s; induction modules as [|m modules IH]; intros prev l s Hok Hat Hprev; [by split|].
  cbn [module_loop]. rewrite run_bind, run_generate_uuid. cbv beta iota zeta.
  rewrite run_bind, length_alter.
  match goal with |- context [impl_loop _ _ _ _ _ _ _ _ (_ ++ [?y]) ?s'] =>
    set (x := y); set (s1 := s') end.
  edestruct (add_step (b_id brief) ts l) with (x := x) as (Hok' & Hst & Hnew); try done.
  { unfold x. eauto with agamemnon. }
  eapply keeps_trans; [done|].
  pose proof (impl_loop_keeps repo m _ _ (impls_of brief repo m) "" _ s1 Hok' Hnew (or_introl eq_refl))
    as Hk.
  unfold keeps in Hk. destruct (impl_loop _ _ _ _ _ _ _ _ _ _) as [s2 [e|l2]]; [done|].
  destruct Hk as [Hok2 Hst2]. eapply keeps_trans; [done|].
  apply IH; [done|by apply Hst2, Hst|]. right. eexists _, _. by apply Hst2.
Qed.

Lemma repo_loop_keeps root_id repos l s :
  plan_ok (b_id brief) ts l -> holds_at 0 root_id L0_ChiefArchitect l ->
  keeps (b_id brief) ts l (repo_loop brief ts root_id repos l s).
Proof.
  revert l s; induction repos as [|r repos IH]; intros l s Hok Hat; [by split|].
  cbn [repo_loop]. rewrite run_bind, run_generate_uuid. cbv beta iota zeta.
  rewrite run_bind, length_alter.
  match goal with |- context [module_loop _ _ _ _ _ _ _ (_ ++ [?y]) ?s'] =>
    set (x := y); set (s1 := s') end.
  edestruct (add_step (b_id brief) ts l) with (x := x) (prev := "") as (Hok' & Hst & Hnew);
    try done; [by left| |].
  { unfold x. eauto with agamemnon. }
  eapply keeps_trans; [done|].
  pose proof (module_loop_keeps r _ _ (modules_of brief r) "" _ s1 Hok' Hnew (or_introl eq_refl)) as Hk.
  unfold keeps in Hk. destruct (module_loop _ _ _ _ _ _ _ _ _) as [s2 [e|l2]]; [done|].
  destruct Hk as [Hok2 Hst2]. eapply keeps_trans; [done|]. apply IH; [done|by apply Hst2, Hst].
Qed.
End loops.

(** A new blocker edge to a task of the plan. *)
Lemma plan_ok_block bid ts l i b :
  plan_ok bid ts l -> (exists p, p ∈ l /\ t_id p = b) -> plan_ok bid ts (alter (push_blocked b) i l).
Proof.
  intros Hok Hp. assert (Hg : grown l (alter (push_blocked b) i l)).
  { apply grown_alter. intros; apply grow_push_blocked. }
  apply (plan_ok_grown bid ts l); [done|done| |].
  - intros t b' Ht Hb. apply (grown_id _ _ _ Hg).
    apply elem_alter_bwd in Ht as [Ht|(y & Hy & ->)]; [by eapply plan_blockers|].
    simpl in Hb. apply elem_of_app in Hb as [Hb|Hb%list_elem_of_singleton]; [|by subst].
    eapply plan_blockers; [done| |done]. apply list_elem_of_lookup; eauto.
  - intros t c Ht Hc. apply (grown_child _ _ _ _ Hg).
    apply elem_alter_bwd in Ht as [Ht|(y & Hy & ->)];
      [by eapply (plan_children _ _ _ Hok)|].
    eapply (plan_children _ _ _ Hok y c); [|done]. apply list_elem_of_lookup; eauto.
Qed.

(** A new child edge to a task that waits for the parent. *)
Lemma plan_ok_child bid ts l i c p :
  plan_ok bid ts l -> l !! i = Some p -> (exists k, k ∈ l /\ t_id k = c /\ t_id p ∈ t_blocked_by k) ->
  plan_ok bid ts (alter (push_child c) i l).
Proof.
  intros Hok Hi Hk. assert (Hg : grown l (alter (push_child c) i l)).
  { apply grown_alter. intros; apply grow_push_child. }
  apply (plan_ok_grown bid ts l); [done|done| |].
  - intros t b Ht Hb. apply (grown_id _ _ _ Hg).
    apply elem_alter_bwd in Ht as [Ht|(y & Hy & ->)];
      [by eapply (plan_blockers _ _ _ Hok)|].
    eapply (plan_blockers _ _ _ Hok y b); [|done]. apply list_elem_of_lookup; eauto.
  - intros t c' Ht Hc. apply (grown_child _ _ _ _ Hg).
    apply elem_alter_bwd in Ht as [Ht|(y & Hy & ->)]; [by eapply plan_children|].
    rewrite Hi in Hy. simplify_eq. simpl in *.
    apply elem_of_app in Hc as [Hc|Hc%list_elem_of_singleton]; [|by subst].
    eapply (plan_children _ _ _ Hok y c'); [|done]. apply list_elem_of_lookup; eauto.
Qed.

Lemma wire_dep_ok bid ts m idx dep l :
  plan_ok bid ts l -> plan_ok bid ts (wire_dep m idx dep l).
Proof.
  intros Hok. unfold wire_dep. destruct (m !! dep) as [j|]; [|done].
  destruct (l !! idx) as [t|] eqn:Ht; [|done]. destruct (l !! j) as [bl|] eqn:Hbl; [|done].
  destruct (decide (t_id bl = t_id t)) as [|Hne]; [done|].
  assert (Hin : exists p, p ∈ l /\ t_id p = t_id bl).
  { exists bl. split; [apply list_elem_of_lookup; eauto|done]. }
  assert (Hij : idx <> j) by (intros ->; congruence).
  destruct (decide (t_id bl ∈ t_blocked_by t)) as [Hb|_];
    destruct (decide (t_id t ∈ t_child_task_ids bl)) as [_|_].
  - done.
  - eapply plan_ok_child; [done|done|]. exists t. split_and!; [apply list_elem_of_lookup; eauto|done|done].
  - by apply plan_ok_block.
  - eapply plan_ok_child; [by apply plan_ok_block|by rewrite list_lookup_alter_ne|].
    exists (push_blocked (t_id bl) t). split_and!; [|done|simpl; in_app].
    apply list_elem_of_lookup. exists idx. by rewrite list_lookup_alter_eq, Ht.
Qed.

Lemma wire_loop_ok bid ts m todo l :
  plan_ok bid ts l ->
  match wire_loop m todo l with inl _ => True | inr l' => plan_ok bid ts l' end.
Proof.
  revert l; induction todo as [|idx todo IH]; intros l Hok; [done|]. cbn [wire_loop].
  destruct (l !! idx) as [t|]; [|by apply IH].
  destruct (bool_decide _ && _); [|by apply IH].
  destruct (parse_impl_ref (t_subject t)) as [e|ref]; [done|]. simpl. apply IH.
  generalize (depends_on ref). intros deps. revert l Hok.
  induction deps as [|d deps IHd]; intros l Hok; [done|]. simpl. by apply IHd, wire_dep_ok.
Qed.

Lemma root_plan bid ts id title desc :
  plan_ok bid ts [new_task id bid "" L0_ChiefArchitect "" "" title desc 0 ts].
Proof.
  split.
  - by eexists.
  - intros t Ht%list_elem_of_singleton. by subst.
  - intros i t Hi Hne. by apply list_lookup_singleton_Some in Hi as [-> _].
  - intros t b Ht%list_elem_of_singleton. subst. simpl. by intros ?%not_elem_of_nil.
  - intros t b Ht%list_elem_of_singleton. subst. simpl. by intros ?%not_elem_of_nil.
Qed.

Lemma decompose_plan {S} `{!HasEnv S} brief (s s' : S) tasks :
  decompose brief s = (s', inr tasks) -> plan_ok (b_id brief) (time_of (env_of s)) tasks.
Proof.
  unfold decompose. rewrite run_bind, run_now. cbv beta iota.
  rewrite run_bind, run_generate_uuid. cbv beta iota zeta. rewrite run_bind.
  pose proof (repo_loop_keeps brief (time_of (env_of s)) _ (b_repos brief) _
    (with_env (draw_skip 31 (env_of (with_env (clock_next (env_of s)) s)))
       (with_env (clock_next (env_of s)) s))
    (root_plan (b_id brief) (time_of (env_of s))
       (uuid_of (env_of (with_env (clock_next (env_of s)) s))) (b_title brief) (b_description brief))
    ltac:(by eexists)) as Hk.
  unfold keeps in Hk. destruct (repo_loop _ _ _ _ _ _) as [s1 [e|l1]]; [done|]. destruct Hk as [Hok _].
  rewrite run_of_result. pose proof (wire_loop_ok _ _ (issue_index l1 0 ∅) (seq 0 (length l1)) l1 Hok) as Hw.
  unfold wire_dependencies. intros [= _ Hr]. by rewrite Hr in Hw.
Qed.
