(* ===== verification/PlanningFacts.v ===== *)
(** * Planning breakdown: properties

    The parser of implementation items inverts the text the planner writes, a brief whose items
    parse is always decomposed, its leaves are exactly the items of the brief in order, and the
    result is a well-formed plan (Planning.v). *)

From S2P Require Import Prelude Effects Text Json HmasTypes Planning.

(** ** Numerals *)

Lemma pretty_char_spec x : (x < 10)%N ->
  isdigit (pretty_N_char x) = true /\ byte_of (pretty_N_char x) = (48 + Z.of_N x)%Z.
Proof.
  intros Hx. assert (x = 0 \/ x = 1 \/ x = 2 \/ x = 3 \/ x = 4 \/ x = 5 \/ x = 6 \/ x = 7 \/ x = 8 \/ x = 9)%N
    as Hc by lia.
  destruct_or! Hc; subst; done.
Qed.

Lemma pretty_N_go_digits x s :
  str_forall isdigit s = true ->
  str_forall isdigit (pretty_N_go x s) = true /\ digits_value 0 (pretty_N_go x s) = digits_value (Z.of_N x) s.
Proof.
  revert s. induction (N.lt_wf_0 x) as [x _ IH]; intros s Hs.
  destruct (decide (x = 0%N)) as [->|Hx]; [by rewrite pretty_N_go_0|].
  rewrite pretty_N_go_step by lia.
  destruct (pretty_char_spec (x `mod` 10)) as [Hd Hv]; [apply N.mod_lt; lia|].
  destruct (IH (x `div` 10)%N) with (s := String (pretty_N_char (x `mod` 10)) s) as [H1 H2].
  - apply N.div_lt; lia.
  - simpl. by rewrite Hd, Hs.
  - split; [done|]. rewrite H2. cbn [digits_value]. rewrite Hv. f_equal.
    pose proof (N.div_mod x 10). lia.
Qed.

Lemma to_string_digits z : (0 <= z)%Z ->
  str_forall isdigit (to_string z) = true /\ digits_value 0 (to_string z) = z /\ to_string z <> "".
Proof.
  intros Hz. destruct z as [|p|p]; [done| |lia].
  assert (Hp : to_string (Zpos p) = pretty_N_go (Npos p) "").
  { reflexivity. }
  rewrite Hp. destruct (pretty_N_go_digits (Npos p) "" eq_refl) as [H1 H2]. split_and!; [done|done|].
  intros He. rewrite He in H2. simpl in H2. lia.
Qed.

Lemma stoi_to_string z : (0 <= z < 2 ^ 31)%Z -> stoi (to_string z) = inr z.
Proof.
  intros Hz. destruct (to_string_digits z) as (Hd & Hv & Hne); [lia|].
  rewrite stoi_digits, Hv by done. destruct (2 ^ 31 - 1 <? z)%Z eqn:E; [lia|done].
Qed.

(** ** parse_impl_ref *)

(** Any fuel that covers the text gives the same dependencies. *)
Lemma deps_loop_fuel f f' chunk :
  String.length chunk <= f -> String.length chunk <= f' -> deps_loop f chunk = deps_loop f' chunk.
Proof.
  revert f' chunk; induction f as [|f IH]; intros f' chunk Hf Hf'.
  - destruct chunk; [|simpl in Hf; lia]. by destruct f'.
  - destruct f' as [|f']; [destruct chunk; [done|simpl in Hf'; lia]|].
    destruct chunk as [|c r]; [done|]. simpl in Hf, Hf'.
    assert (Hr : deps_loop f r = deps_loop f' r) by (apply IH; lia).
    assert (Hd : forall rest, String.length rest <= String.length r ->
                         deps_loop f rest = deps_loop f' rest) by (intros; apply IH; lia).
    cbn [deps_loop]. pose proof (take_digits_length r) as Hl.
    destruct (take_digits r) as [ds rest]. simpl in Hl.
    rewrite Hr, (Hd rest) by done. reflexivity.
Qed.

(** The dependencies as the planner writes them: "#1, #2, #3". *)
Fixpoint print_deps (deps : list Z) : string :=
  match deps with
  | [] => ""
  | [d] => "#" +:+ to_string d
  | d :: deps => "#" +:+ to_string d +:+ ", " +:+ print_deps deps
  end.

Definition print_impl (n : Z) (title : string) (deps : list Z) : string :=
  "#" +:+ to_string n +:+ " " +:+ title +:+ " (depends on: " +:+ print_deps deps +:+ ")".

Definition int_range (z : Z) : Prop := (0 <= z < 2 ^ 31)%Z.

Lemma run_deps_loop deps fuel :
  Forall int_range deps -> String.length (print_deps deps) <= fuel ->
  deps_loop fuel (print_deps deps) = inr deps.
Proof.
  intros Hr. revert fuel; induction Hr as [|d deps Hd Hds IH]; intros fuel Hf; [by destruct fuel|].
  destruct (to_string_digits d) as (Hdig & _ & Hne); [apply Hd|].
  apply str_empty_false in Hne. pose proof (stoi_to_string d Hd) as Hst.
  destruct deps as [|d' deps].
  - cbn [print_deps] in *. rewrite str_app_cons, str_app_nil_l in *.
    destruct fuel as [|fuel]; [simpl in Hf; lia|]. cbn [deps_loop]. rewrite take_digits_all by done.
    rewrite Hne, Hst. by destruct fuel.
  - change (print_deps (d :: d' :: deps)) with
      ("#" +:+ to_string d +:+ ", " +:+ print_deps (d' :: deps)) in *.
    revert IH Hf. generalize (print_deps (d' :: deps)). intros p IH Hf.
    rewrite str_app_cons, str_app_nil_l in *.
    rewrite (str_app_cons ","), (str_app_cons " "), (str_app_nil_l p) in *.
    simpl String.length in Hf. rewrite str_app_length in Hf. simpl String.length in Hf.
    destruct fuel as [|fuel]; [lia|]. cbn [deps_loop]. rewrite take_digits_app by done.
    rewrite Hne, Hst. destruct fuel as [|[|fuel]]; [lia|lia|].
    cbn [deps_loop]. rewrite IH by lia. done.
Qed.

Lemma print_deps_no_paren deps :
  Forall int_range deps -> str_forall (fun d => negb (bool_decide (")"%char = d))) (print_deps deps) = true.
Proof.
  assert (Hz : forall z, int_range z ->
            str_forall (fun d => negb (bool_decide (")"%char = d))) (to_string z) = true).
  { intros z Hz. eapply str_forall_impl; [|apply (to_string_digits z); apply Hz].
    intros c Hc. apply negb_true_iff, bool_decide_eq_false. by intros <-. }
  induction 1 as [|d deps Hd Hds IH]; [done|]. destruct deps as [|d' deps].
  - cbn [print_deps]. by rewrite str_forall_app, Hz.
  - change (print_deps (d :: d' :: deps)) with
      ("#" +:+ to_string d +:+ ", " +:+ print_deps (d' :: deps)).
    by rewrite !str_forall_app, Hz, IH.
Qed.

Lemma parse_print_impl n title deps :
  int_range n -> Forall int_range deps ->
  str_forall (fun d => negb (bool_decide ("("%char = d))) title = true ->
  parse_impl_ref (print_impl n title deps)
  = inr {| issue := n; depends_on := deps; has_explicit_deps := true |}.
Proof.
  intros Hn Hds Ht. destruct (to_string_digits n) as (Hd & _ & Hne); [apply Hn|].
  apply str_empty_false in Hne. unfold print_impl, parse_impl_ref.
  rewrite (str_app_cons "#"), str_app_nil_l. cbn [skip_while].
  change (is_blank "#") with false. cbv iota.
  rewrite (str_app_cons " "), (str_app_nil_l (title +:+ _)).
  rewrite take_digits_app by done. cbv beta iota. rewrite Hne. cbv iota.
  rewrite stoi_to_string by done. erewrite result_bind_inr by done.
  replace (String " " (title +:+ " (depends on: " +:+ print_deps deps +:+ ")"))
    with ((String " " title +:+ " ") +:+ String "(" "depends on:" +:+ (String " " (print_deps deps +:+ ")"))).
  2: { rewrite str_app_assoc, str_app_cons. done. }
  rewrite after_first_skip by by rewrite str_forall_app; simpl; rewrite Ht.
  rewrite <- str_app_cons, before_char_app by (simpl; by apply print_deps_no_paren).
  rewrite (result_bind_inr _ _ deps); [done|].
  cbn [String.length deps_loop]. by apply run_deps_loop.
Qed.

(** ** Totality and coverage of [decompose] *)

Definition parses (d : string) : Prop := exists r, parse_impl_ref d = inr r.

(** The (repository, module, item) triples of the leaves, in order. *)
Definition is_l3 (t : HmasTask) : bool := bool_decide (t_layer t = L3_TaskAgent).
Definition leaf_key (t : HmasTask) : string * string * string := (t_repo t, t_module t, t_subject t).
Definition leaf_keys (l : list HmasTask) : list (string * string * string) :=
  map leaf_key (List.filter is_l3 l).

Lemma leaf_keys_app l k : leaf_keys (l ++ k) = leaf_keys l ++ leaf_keys k.
Proof. unfold leaf_keys. by rewrite List.filter_app, map_app. Qed.

Lemma leaf_keys_alter f i l : (forall t, grow t (f t)) -> leaf_keys (alter f i l) = leaf_keys l.
Proof.
  intros Hf. revert i; induction l as [|t l IH]; intros [|i]; [done..| |].
  - cbn. destruct (Hf t) as [Hc _].
    change (leaf_keys ([f t] ++ l) = leaf_keys ([t] ++ l)). rewrite !leaf_keys_app. f_equal.
    unfold leaf_keys, is_l3, leaf_key. simpl.
    assert (t_layer (f t) = t_layer t) as -> by apply (f_equal t_layer Hc).
    destruct (bool_decide _); [|done]. simpl.
    assert (t_repo (f t) = t_repo t) as -> by apply (f_equal t_repo Hc).
    assert (t_module (f t) = t_module t) as -> by apply (f_equal t_module Hc).
    by assert (t_subject (f t) = t_subject t) as -> by apply (f_equal t_subject Hc).
  - cbn. change (leaf_keys ([t] ++ alter f i l) = leaf_keys ([t] ++ l)).
    by rewrite !leaf_keys_app, IH.
Qed.

Lemma leaf_keys_add c i l x : leaf_keys (alter (push_child c) i l ++ [x]) = leaf_keys l ++ leaf_keys [x].
Proof. rewrite leaf_keys_app, leaf_keys_alter; [done|]. intros; apply grow_push_child. Qed.

(** The items the loops visit, in order. *)
Definition visited_module (brief : TaskBrief) (repo mod_ : string) : list (string * string * string) :=
  map (fun d => (repo, mod_, d)) (impls_of brief repo mod_).
Definition visited_repo (brief : TaskBrief) (repo : string) : list (string * string * string) :=
  mjoin (map (visited_module brief repo) (modules_of brief repo)).
Definition visited (brief : TaskBrief) : list (string * string * string) :=
  mjoin (map (visited_repo brief) (b_repos brief)).

(** The items a brief asks for: the listed items of the listed modules of its repositories, with
    "core" for a repository without modules and one item for a module without items. *)
Definition listed (d : string) (l : option (list string)) : list string :=
  match l with Some (x :: l) => x :: l | _ => [d] end.
Definition items_of (brief : TaskBrief) : list (string * string * string) :=
  repo ← b_repos brief;
  mod_ ← listed "core" (b_modules brief !! repo);
  item ← listed ("Implement " +:+ mod_) (b_impls brief !! repo ≫= lookup mod_);
  [(repo, mod_, item)].

Lemma join_map {A B} (f : A -> list B) l : mjoin (map f l) = l ≫= f.
Proof. induction l as [|x l IH]; csimpl; [done|]. by rewrite IH. Qed.
Lemma bind_same {A B} (f g : A -> list B) l : (forall x, f x = g x) -> l ≫= f = l ≫= g.
Proof. intros H. induction l as [|x l IH]; csimpl; [done|]. by rewrite IH, H. Qed.

Lemma modules_listed brief repo : modules_of brief repo = listed "core" (b_modules brief !! repo).
Proof. unfold modules_of. by destruct (b_modules brief !! repo) as [[|]|]. Qed.
Lemma impls_listed brief repo m :
  impls_of brief repo m = listed ("Implement " +:+ m) (b_impls brief !! repo ≫= lookup m).
Proof.
  unfold impls_of. destruct (b_impls brief !! repo) as [x|]; [|done]. csimpl.
  by destruct (x !! m) as [[|]|].
Qed.

Lemma visited_items brief : visited brief = items_of brief.
Proof.
  unfold visited, items_of. rewrite join_map. apply bind_same. intros r.
  unfold visited_repo. rewrite join_map, modules_listed. apply bind_same. intros m.
  unfold visited_module. rewrite impls_listed.
  induction (listed ("Implement " +:+ m) _) as [|d ds IH]; csimpl; [done|]. by rewrite IH.
Qed.

Section total.
Context {S : Type} `{!HasEnv S} (brief : TaskBrief) (ts : string).
Implicit Types s : S.

Lemma impl_loop_total repo mod_ l2_id l2_idx impls prev l s :
  Forall parses impls ->
  exists s' l', impl_loop brief ts repo mod_ l2_id l2_idx impls prev l s = (s', inr l') /\
    leaf_keys l' = leaf_keys l ++ map (fun d => (repo, mod_, d)) impls.
Proof.
  intros H. revert prev l s. induction H as [|d impls [r Hd] _ IH]; intros prev l s.
  - exists s, l. by rewrite app_nil_r.
  - cbn [impl_loop]. rewrite run_bind, run_generate_uuid. cbv beta iota.
    rewrite run_bind, run_of_result, Hd. cbv beta iota zeta.
    match goal with |- context [impl_loop _ _ _ _ _ _ impls ?id ?l1 ?s1] =>
      destruct (IH id l1 s1) as (s' & l' & Hr & Hk) end.
    exists s', l'. split; [done|]. rewrite Hk, leaf_keys_add, <- app_assoc. f_equal.
    simpl. destruct (has_explicit_deps r); [done|]. unfold push_blocked_if. by destruct (str_empty prev).
Qed.

Lemma module_loop_total repo l1_id l1_idx modules prev l s :
  Forall (fun m => Forall parses (impls_of brief repo m)) modules ->
  exists s' l', module_loop brief ts repo l1_id l1_idx modules prev l s = (s', inr l') /\
    leaf_keys l' = leaf_keys l ++ mjoin (map (visited_module brief repo) modules).
Proof.
  intros H. revert prev l s. induction H as [|m modules Hm _ IH]; intros prev l s.
  - exists s, l. by rewrite app_nil_r.
  - cbn [module_loop]. rewrite run_bind, run_generate_uuid. cbv beta iota zeta. rewrite run_bind.
    match goal with |- context [impl_loop _ _ _ _ ?id ?i _ ?p ?l1 ?s1] =>
      destruct (impl_loop_total repo m id i (impls_of brief repo m) p l1 s1 Hm) as (s2 & l2 & Hr2 & Hk2) end.
    rewrite Hr2. cbv beta iota.
    match goal with |- context [module_loop _ _ _ _ _ modules ?p l2 s2] =>
      destruct (IH p l2 s2) as (s3 & l3 & Hr3 & Hk3) end.
    exists s3, l3. split; [done|]. rewrite Hk3, Hk2, leaf_keys_add. simpl.
    unfold push_blocked_if. destruct (str_empty prev); cbn; by rewrite app_nil_r, <- app_assoc.
Qed.

Lemma repo_loop_total root_id repos l s :
  Forall (fun r => Forall (fun m => Forall parses (impls_of brief r m)) (modules_of brief r)) repos ->
  exists s' l', repo_loop brief ts root_id repos l s = (s', inr l') /\
    leaf_keys l' = leaf_keys l ++ mjoin (map (visited_repo brief) repos).
Proof.
  intros H. revert l s. induction H as [|r repos Hr _ IH]; intros l s.
  - exists s, l. by rewrite app_nil_r.
  - cbn [repo_loop]. rewrite run_bind, run_generate_uuid. cbv beta iota zeta. rewrite run_bind.
    match goal with |- context [module_loop _ _ _ ?id ?i _ ?p ?l1 ?s1] =>
      destruct (module_loop_total r id i (modules_of brief r) p l1 s1 Hr) as (s2 & l2 & Hr2 & Hk2) end.
    rewrite Hr2. cbv beta iota. destruct (IH l2 s2) as (s3 & l3 & Hr3 & Hk3).
    exists s3, l3. split; [done|]. rewrite Hk3, Hk2, leaf_keys_add. cbn.
    by rewrite app_nil_r, <- app_assoc.
Qed.
End total.

Lemma leaf_keys_wire_dep m idx dep l : leaf_keys (wire_dep m idx dep l) = leaf_keys l.
Proof.
  unfold wire_dep. destruct (m !! dep), (l !! idx) as [t|]; try done. destruct (l !! n) as [b|]; [|done].
  repeat case_match; try done; rewrite !leaf_keys_alter; try done;
    intros; (apply grow_push_blocked || apply grow_push_child).
Qed.

Lemma leaf_keys_wire_deps m idx deps l :
  leaf_keys (foldl (fun l dep => wire_dep m idx dep l) l deps) = leaf_keys l.
Proof. revert l; induction deps as [|d deps IH]; intros l; simpl; [done|]. by rewrite IH, leaf_keys_wire_dep. Qed.

Lemma wire_loop_total m todo l :
  (forall k, k ∈ leaf_keys l -> parses k.2) ->
  exists l', wire_loop m todo l = inr l' /\ leaf_keys l' = leaf_keys l.
Proof.
  revert l; induction todo as [|idx todo IH]; intros l Hp; [by exists l|]. cbn [wire_loop].
  destruct (l !! idx) as [t|] eqn:Et; [|by apply IH].
  destruct (bool_decide (t_layer t = L3_TaskAgent)) eqn:El; [|by apply IH]. simpl.
  destruct (negb (t_issue t =? 0)%Z); [|by apply IH].
  destruct (Hp (leaf_key t)) as [r Hr].
  { unfold leaf_keys. apply list_elem_of_fmap_2, list_elem_of_In, List.filter_In.
    split; [|done]. apply list_elem_of_In. by eapply list_elem_of_lookup_2. }
  simpl in Hr. rewrite Hr. simpl.
  destruct (IH (foldl (fun l dep => wire_dep m idx dep l) l (depends_on r))) as (l' & Hl & Hk).
  { by rewrite leaf_keys_wire_deps. }
  exists l'. by rewrite Hl, Hk, leaf_keys_wire_deps.
Qed.

Lemma decompose_visits {S} `{!HasEnv S} brief (s : S) :
  (forall k, k ∈ visited brief -> parses k.2) ->
  exists s' tasks, decompose brief s = (s', inr tasks) /\ leaf_keys tasks = visited brief.
Proof.
  intros Hp. unfold decompose. rewrite run_bind, run_now. cbv beta iota.
  rewrite run_bind, run_generate_uuid. cbv beta iota zeta. rewrite run_bind.
  match goal with |- context [repo_loop _ ?ts ?id _ ?l1 ?s1] =>
    destruct (repo_loop_total brief ts id (b_repos brief) l1 s1) as (s2 & l2 & Hr2 & Hk2) end.
  { apply Forall_forall. intros r Hr. apply Forall_forall. intros m Hm. apply Forall_forall. intros d Hd.
    apply (Hp (r, m, d)). unfold visited. apply list_elem_of_join. exists (visited_repo brief r).
    split; [|by apply list_elem_of_fmap_2]. apply list_elem_of_join.
    exists (visited_module brief r m). split; [|by apply list_elem_of_fmap_2].
    by apply list_elem_of_fmap_2 with (f := fun d => (r, m, d)). }
  rewrite Hr2. cbv beta iota. rewrite run_of_result. unfold wire_dependencies.
  destruct (wire_loop_total (issue_index l2 0 ∅) (seq 0 (length l2)) l2) as (l3 & Hl3 & Hk3).
  { intros k. rewrite Hk2. apply Hp. }
  rewrite Hl3. exists s2, l3. split; [done|]. by rewrite Hk3, Hk2.
Qed.

Lemma decompose_total {S} `{!HasEnv S} brief (s : S) :
  (forall k, k ∈ items_of brief -> parses k.2) ->
  exists s' tasks, decompose brief s = (s', inr tasks) /\ leaf_keys tasks = items_of brief.
Proof. rewrite <- visited_items. apply decompose_visits. Qed.

(** ** Only the environment matters *)

(** The run of [m] over any state is the run over its environment. *)
Definition lifts {S} `{!HasEnv S} {A} (m : M S A) (m0 : M Env A) : Prop :=
  forall s, m s = let '(e, r) := m0 (env_of s) in (with_env e s, r).

Section lifts.
Context {S : Type} `{!HasEnv S}.

Lemma lifts_ret {A} (a : A) : lifts (mret (M := M S) a) (mret a).
Proof. intros s. cbn. unfold mret, M_ret. by rewrite with_env_env_of. Qed.
Lemma lifts_result {A} (r : exn + A) : lifts (of_result (S := S) r) (of_result r).
Proof. intros s. cbn. unfold of_result. by rewrite with_env_env_of. Qed.
Lemma lifts_bind {A B} (m : M S A) m0 (f : A -> M S B) f0 :
  lifts m m0 -> (forall a, lifts (f a) (f0 a)) -> lifts (m ≫= f) (m0 ≫= f0).
Proof.
  intros Hm Hf s. rewrite !run_bind, Hm. destruct (m0 (env_of s)) as [e [x|a]]; [done|].
  rewrite Hf. rewrite env_of_with_env. destruct (f0 a e) as [e' r]. by rewrite with_env_with_env.
Qed.
Lemma lifts_uuid : lifts (generate_uuid : M S string) generate_uuid.
Proof. intros s. by rewrite !run_generate_uuid. Qed.
Lemma lifts_now : lifts (now_iso8601 : M S string) now_iso8601.
Proof. by intros s. Qed.
Hint Resolve lifts_ret lifts_result lifts_bind lifts_uuid lifts_now : agamemnon.

Lemma lifts_decompose brief : lifts (decompose (S := S) brief) (decompose brief).
Proof.
  assert (Hi : forall ts repo m id i impls p l,
            lifts (impl_loop (S := S) brief ts repo m id i impls p l) (impl_loop brief ts repo m id i impls p l)).
  { intros ts repo m id i impls. induction impls as [|d impls IH]; intros p l; cbn [impl_loop];
      auto 6 with agamemnon. }
  assert (Hm : forall ts repo id i ms p l,
            lifts (module_loop (S := S) brief ts repo id i ms p l) (module_loop brief ts repo id i ms p l)).
  { intros ts repo id i ms. induction ms as [|m ms IH]; intros p l; cbn [module_loop];
      auto 8 with agamemnon. }
  assert (Hr : forall ts id rs l,
            lifts (repo_loop (S := S) brief ts id rs l) (repo_loop brief ts id rs l)).
  { intros ts id rs. induction rs as [|r rs IH]; intros l; cbn [repo_loop]; auto 8 with agamemnon. }
  unfold decompose. auto 10 with agamemnon.
Qed.
End lifts.
