(* ===== verification/Utf8Facts.v ===== *)
(** * UTF-8 text: identifiers, times and tasks

    Identifiers and timestamps are ASCII; a task whose strings are UTF-8 has a JSON form that can
    be dumped (Utf8.v), and stays such through every change a handler makes; so is the root of a
    plan whose brief is UTF-8. *)

From S2P Require Import Prelude Effects Text Json Utf8 Stamps HmasTypes Planning PlanningFacts.

(** ** Identifiers and times *)

Lemma isdigit_ascii c : isdigit c = true -> is_ascii c = true.
Proof. unfold isdigit, is_ascii, byte_in. intros [H1 H2]%andb_prop. lia. Qed.

Lemma to_string_ascii z : str_forall is_ascii (to_string z) = true.
Proof.
  destruct (decide (0 <= z)%Z) as [Hz|Hz].
  - eapply str_forall_impl; [apply isdigit_ascii|apply (to_string_digits z Hz)].
  - destruct z as [|p|p]; [lia|lia|].
    change (to_string (Z.neg p)) with (String "-" (to_string (Z.pos p))). cbn [str_forall].
    eapply str_forall_impl; [apply isdigit_ascii|apply (to_string_digits (Z.pos p)); lia].
Qed.

Lemma two_digits_ascii n : (0 <= n < 100)%Z -> str_forall is_ascii (two_digits n) = true.
Proof.
  intros Hn. assert (H : check_from 100 0 (fun n => str_forall is_ascii (two_digits n)) = true)
    by (vm_compute; reflexivity).
  apply (check_from_spec _ _ _ n H). lia.
Qed.

Lemma iso8601_utf8 t : utf8 (iso8601 t) = true.
Proof.
  apply utf8_ascii. unfold iso8601. pose proof (civil_spec (t / 86400)) as Hd. cbv zeta in Hd.
  destruct (civil_from_days (t / 86400)) as [[y m] d]. destruct Hd as [_ [Hm Hdy]].
  pose proof (Z.mod_pos_bound t 86400 ltac:(lia)) as Hs. set (s := (t mod 86400)%Z) in *.
  pose proof (Z.mod_pos_bound (s / 60) 60 ltac:(lia)). pose proof (Z.mod_pos_bound s 60 ltac:(lia)).
  assert (0 <= s / 3600 < 24)%Z by (split; [apply Z.div_pos; lia|apply Z.div_lt_upper_bound; lia]).
  rewrite !str_forall_app, to_string_ascii, !two_digits_ascii by lia. done.
Qed.

Lemma hex_ascii v : (0 <= v <= 15)%Z -> is_ascii (hex v) = true.
Proof.
  intros Hv. assert (H : check_from 16 0 (fun v => is_ascii (hex v)) = true) by (vm_compute; reflexivity).
  apply (check_from_spec _ _ _ v H). lia.
Qed.

Lemma hex_text_ascii n k e : str_forall is_ascii (hex_text n k e) = true.
Proof.
  revert k; induction n as [|n IH]; intros k; [done|]. cbn [hex_text str_forall].
  rewrite IH, hex_ascii; [done|]. by apply draw_at_bounds.
Qed.

Lemma uuid_utf8 e : utf8 (uuid_of e) = true.
Proof.
  apply utf8_ascii. unfold uuid_of. rewrite !str_forall_app. cbn [str_forall].
  rewrite !hex_text_ascii, hex_ascii; [done|]. pose proof (draw_at_bounds 8 11 15 e). lia.
Qed.

(** ** Tasks *)

Definition escalation_texts (r : EscalationRecord) : list string :=
  [e_task_id r; e_reason r; e_escalated_at r].

(** Every string of a task. *)
Definition task_texts (t : HmasTask) : list string :=
  [t_id t; t_brief_id t; t_parent_task_id t; t_subject t; t_description t; t_repo t; t_module t;
   t_assigned_lead_id t; t_created_at t; t_completed_at t] ++
  t_blocked_by t ++ t_child_task_ids t ++ mjoin (map escalation_texts (t_escalations t)).

Definition task_utf8 (t : HmasTask) : bool := forallb utf8 (task_texts t).

Lemma strings_utf8 l : forallb utf8 l = true -> utf8_json (strings_to_json l) = true.
Proof. cbn. induction l as [|s l IH]; [done|]. cbn. intros [-> H]%andb_prop. by apply IH. Qed.

Lemma escalation_utf8 r : forallb utf8 (escalation_texts r) = true -> utf8_json (escalation_record_to_json r) = true.
Proof.
  cbn [escalation_texts forallb]. rewrite !andb_true_iff. intros (H1 & H2 & H3 & _). apply utf8_jobj. cbn.
  by rewrite H1, H2, H3; destruct (e_from_layer r).
Qed.

Lemma escalations_utf8 l :
  forallb utf8 (mjoin (map escalation_texts l)) = true ->
  forallb utf8_json (map escalation_record_to_json l) = true.
Proof.
  induction l as [|r l IH]; [done|]. cbn [map mjoin list_join]. rewrite forallb_app.
  intros [H1 H2]%andb_prop. cbn [map forallb]. by rewrite escalation_utf8, IH.
Qed.

Lemma task_json_utf8 t : task_utf8 t = true -> utf8_json (hmas_task_to_json t) = true.
Proof.
  unfold task_utf8, task_texts. rewrite !forallb_app. cbn [forallb]. rewrite !andb_true_iff.
  intros ((H1 & H2 & H3 & H4 & H5 & H6 & H7 & H8 & H9 & H10 & _) & H11 & H12 & H13).
  apply utf8_jobj. unfold hmas_task_fields, utf8_fields. cbn [forallb fst snd].
  rewrite (strings_utf8 _ H11), (strings_utf8 _ H12).
  cbn [utf8_json]. rewrite (escalations_utf8 _ H13), H1, H2, H3, H4, H5, H6, H7, H8, H9, H10.
  by destruct (t_layer t), (t_state t).
Qed.

(** What the handlers write. *)
Lemma task_utf8_state s t : task_utf8 (set_state s t) = task_utf8 t.
Proof. done. Qed.

Lemma task_utf8_completed c t :
  utf8 c = true -> task_utf8 t = true -> task_utf8 (set_completed_at c t) = true.
Proof.
  unfold task_utf8, task_texts. cbn. intros Hc. rewrite Hc, !andb_true_iff. naive_solver.
Qed.

Lemma task_utf8_escalated r t :
  forallb utf8 (escalation_texts r) = true -> task_utf8 t = true ->
  task_utf8 (set_escalations (t_escalations t ++ [r]) t) = true.
Proof.
  intros Hr. unfold task_utf8, task_texts. rewrite !forallb_app. cbn [t_escalations set_escalations].
  rewrite map_app. intros H. rewrite !andb_true_iff in H |- *. cbn in H |- *. rewrite ?andb_true_iff in H |- *.
  destruct H as (H & H1 & H2 & H3). split_and!; try tauto; try done.
  rewrite join_app, forallb_app, H3. done.
Qed.

Lemma task_utf8_id t : task_utf8 t = true -> utf8 (t_id t) = true.
Proof. unfold task_utf8. cbn. by intros [? _]%andb_prop. Qed.
Lemma task_utf8_brief t : task_utf8 t = true -> utf8 (t_brief_id t) = true.
Proof. unfold task_utf8. cbn. by intros [_ [? _]%andb_prop]%andb_prop. Qed.

(** ** Plans *)

(** A plan under construction: its root is [root] but for the edges, and the identifiers are
    UTF-8. *)
Definition drawn (root : HmasTask) (l : list HmasTask) : Prop :=
  (exists r, l !! 0 = Some r /\ core r = core root) /\ Forall (fun t => utf8 (t_id t) = true) l.

Lemma drawn_grown root l l' : drawn root l -> grown l l' -> drawn root l'.
Proof.
  intros [(r & Hr & Hc) Hu] Hg. split.
  - destruct (Forall2_lookup_l _ _ _ _ _ Hg Hr) as (r' & Hr' & [Hc' _]). exists r'. split; congruence.
  - apply Forall_forall. intros t' (t & Ht & Hgt)%(grown_bwd _ _ _ Hg).
    destruct (grow_core _ _ Hgt) as [-> _]. by eapply Forall_forall in Hu.
Qed.

Lemma drawn_add root c i l x :
  drawn root l -> utf8 (t_id x) = true -> drawn root (alter (push_child c) i l ++ [x]).
Proof.
  intros Hd Hx. apply (drawn_grown _ _ (alter (push_child c) i l)) in Hd as [(r & Hr & Hc) Hu].
  - split; [|apply Forall_app; by repeat constructor]. exists r. split; [by apply lookup_app_l_Some|done].
  - apply grown_alter. intros; apply grow_push_child.
Qed.

Lemma drawn_wire_dep root m idx dep l : drawn root l -> drawn root (wire_dep m idx dep l).
Proof.
  intros Hd. unfold wire_dep. repeat case_match; try done;
    repeat (eapply drawn_grown; [|apply grown_alter; intros; by apply grow_push_child || apply grow_push_blocked]);
    done.
Qed.

Definition draws_plan {S} (root : HmasTask) (r : S * (exn + list HmasTask)) : Prop :=
  match r.2 with inl _ => True | inr l => drawn root l end.

Section loops.
Context {S : Type} `{!HasEnv S} (brief : TaskBrief) (ts : string) (root : HmasTask).
Implicit Types s : S.

Lemma impl_loop_drawn repo mod_ l2_id l2_idx impls prev l s :
  drawn root l -> draws_plan root (impl_loop brief ts repo mod_ l2_id l2_idx impls prev l s).
Proof.
  revert prev l s; induction impls as [|d impls IH]; intros prev l s Hd; [done|].
  cbn [impl_loop]. rewrite run_bind, run_generate_uuid. cbv beta iota.
  rewrite run_bind, run_of_result. destruct (parse_impl_ref d) as [e|ref]; [done|]. cbv beta iota zeta.
  apply IH, drawn_add; [done|]. unfold push_blocked_if. repeat case_match; apply uuid_utf8.
Qed.

Lemma module_loop_drawn repo l1_id l1_idx modules prev l s :
  drawn root l -> draws_plan root (module_loop brief ts repo l1_id l1_idx modules prev l s).
Proof.
  revert prev l s; induction modules as [|m modules IH]; intros prev l s Hd; [done|].
  cbn [module_loop]. rewrite run_bind, run_generate_uuid. cbv beta iota zeta. rewrite run_bind.
  match goal with |- context [impl_loop _ _ ?r ?m ?id ?i ?iz ?p ?l' ?s'] =>
    pose proof (impl_loop_drawn r m id i iz p l' s') as Hk end.
  unfold draws_plan in Hk. destruct (impl_loop _ _ _ _ _ _ _ _ _ _) as [s2 [e|l2]]; [done|].
  apply IH, Hk, drawn_add; [done|]. unfold push_blocked_if. destruct (str_empty prev); apply uuid_utf8.
Qed.

Lemma repo_loop_drawn root_id repos l s :
  drawn root l -> draws_plan root (repo_loop brief ts root_id repos l s).
Proof.
  revert l s; induction repos as [|r repos IH]; intros l s Hd; [done|].
  cbn [repo_loop]. rewrite run_bind, run_generate_uuid. cbv beta iota zeta. rewrite run_bind.
  match goal with |- context [module_loop _ _ ?r ?id ?i ?ms ?p ?l' ?s'] =>
    pose proof (module_loop_drawn r id i ms p l' s') as Hk end.
  unfold draws_plan in Hk. destruct (module_loop _ _ _ _ _ _ _ _ _) as [s2 [e|l2]]; [done|].
  apply IH, Hk, drawn_add; [done|]. apply uuid_utf8.
Qed.
End loops.

Lemma wire_loop_drawn root m todo l :
  drawn root l -> match wire_loop m todo l with inl _ => True | inr l' => drawn root l' end.
Proof.
  revert l; induction todo as [|idx todo IH]; intros l Hd; [done|]. cbn [wire_loop].
  destruct (l !! idx) as [t|]; [|by apply IH]. destruct (bool_decide _ && _); [|by apply IH].
  destruct (parse_impl_ref (t_subject t)) as [e|ref]; [done|]. simpl. apply IH.
  generalize (depends_on ref). intros deps. revert l Hd.
  induction deps as [|d deps IHd]; intros l Hd; [done|]. simpl. by apply IHd, drawn_wire_dep.
Qed.

Lemma decompose_drawn {S} `{!HasEnv S} brief (s s' : S) tasks :
  decompose brief s = (s', inr tasks) ->
  exists id, utf8 id = true /\
    drawn (new_task id (b_id brief) "" L0_ChiefArchitect "" "" (b_title brief) (b_description brief) 0
             (time_of (env_of s))) tasks.
Proof.
  unfold decompose. rewrite run_bind, run_now. cbv beta iota.
  rewrite run_bind, run_generate_uuid. cbv beta iota zeta. rewrite run_bind.
  set (id := uuid_of _). set (ts := time_of (env_of s)).
  set (x := new_task id (b_id brief) "" L0_ChiefArchitect "" "" (b_title brief) (b_description brief) 0 ts).
  assert (Hid : utf8 id = true) by apply uuid_utf8.
  assert (Hx : drawn x [x]) by (split; [by exists x|by repeat constructor]).
  match goal with |- context [repo_loop _ _ _ ?rs _ ?s1] =>
    pose proof (repo_loop_drawn brief ts x id rs [x] s1 Hx) as Hk end.
  clearbody id ts.
  unfold draws_plan in Hk. destruct (repo_loop _ _ _ _ _ _) as [s1 [e|l1]]; [done|].
  rewrite run_of_result. intros [= _ Hr].
  pose proof (wire_loop_drawn x (issue_index l1 0 ∅) (seq 0 (length l1)) l1 Hk) as Hw.
  unfold wire_dependencies in Hr. rewrite Hr in Hw. exists id. split; [exact Hid|exact Hw].
Qed.

Lemma core_texts t t' :
  core t = core t' -> forallb utf8 (t_blocked_by t) = true -> forallb utf8 (t_child_task_ids t) = true ->
  task_utf8 (core t') = true -> task_utf8 t = true.
Proof.
  intros Hc Hb Hk H. rewrite <- Hc in H. unfold task_utf8, task_texts in *. rewrite !forallb_app in *.
  rewrite Hb, Hk. exact H.
Qed.

(** The root of a plan is UTF-8 when its brief's id, title and description are. *)
Lemma plan_root_utf8 {S} `{!HasEnv S} brief (s s' : S) root rest :
  decompose brief s = (s', inr (root :: rest)) ->
  utf8 (b_id brief) = true -> utf8 (b_title brief) = true -> utf8 (b_description brief) = true ->
  task_utf8 root = true.
Proof.
  intros Hd Hi Ht Hs. destruct (decompose_drawn _ _ _ _ Hd) as (id & Hid & (r & Hr & Hc) & Hu).
  injection Hr as <-. apply decompose_plan in Hd as [_ _ _ Hb Hk].
  rewrite Forall_forall in Hu.
  eapply core_texts; [exact Hc| | |].
  - apply forallb_forall. intros b Hin%list_elem_of_In.
    destruct (Hb root b) as (p & Hp & <-); [by left|done|]. by apply Hu.
  - apply forallb_forall. intros c Hin%list_elem_of_In.
    destruct (Hk root c) as (k & Hp & <- & _); [by left|done|]. by apply Hu.
  - assert (Hts : utf8 (time_of (env_of s)) = true) by apply iso8601_utf8. revert Hts.
    generalize (time_of (env_of s)). intros ts Hts. unfold task_utf8, task_texts, core. cbn.
    by rewrite Hid, Hi, Ht, Hs, Hts.
Qed.
