(* ===== verification/Store.v ===== *)
(** * The store: agents, teams, tasks and faults

    src/store.cpp and include/agamemnon/store.hpp, the JSON collections: in-memory maps that
    are a write-through cache of GitHub issues.  Hydration from GitHub on first access, the
    inbound synchronization (webhook and reconcile) and every operation the REST layer calls.
    Each operation runs under its collection's mutex, so it is one atomic step here; the
    HMAS collections are in HmasStore.v. *)

From S2P Require Import Prelude Effects Text Json Metrics World.

(** ** Issue bodies *)

Section bodies.
Context `{!JsonText}.

Definition nl : string := String "010" "".
Definition open_fence : string := "```json" +:+ nl.
Definition close_fence : string := nl +:+ "```".

Definition make_issue_body_ (entity_type : string) (entity : json) : result string :=
  d ← jdump 2 entity;
  inr ("## AgamemnonEntity: " +:+ entity_type +:+ nl +:+ nl +:+ open_fence +:+ d
       +:+ close_fence +:+ nl).

(** Null on any failure; the exceptions of [json::parse] are swallowed. *)
Definition parse_issue_entity_ (issue : json) : json :=
  match at_key "body" issue with
  | inr (JStr body) =>
      match after_first open_fence body with
      | None => JNull
      | Some rest =>
          match before_first close_fence rest with
          | None => JNull
          | Some text => match jparse text with inr j => j | inl _ => JNull end
          end
      end
  | _ => JNull
  end.
End bodies.

(** [if (issue.contains("number")) entity["_github_issue"] = to_string(number)]. *)
Definition with_number (issue entity : json) : result json :=
  if contains "number" issue then
    n ← at_key "number" issue;
    n ← get_int n;
    set_key "_github_issue" (JStr (to_string n)) entity
  else inr entity.

(** The label, the issue-body path and the title word of a collection. *)
Definition label_of (c : Collection) : string :=
  match c with
  | kAgents => "agamemnon-agent" | kTeams => "agamemnon-team"
  | kTasks => "agamemnon-task" | kFaults => "agamemnon-fault"
  end.
Definition path_of (c : Collection) : string :=
  match c with kAgents => "agents/" | kTeams => "teams/" | kTasks => "tasks/" | kFaults => "faults/" end.

Section store.
Context {G N : Type} (gh_ : option (IGitHubClient G)) `{JT : !JsonText, HO : !HashOrder}.
Abbreviation W := (World G N).
Abbreviation M := (M W).

(** ** Hydration *)

(** One issue of the listing, in the body of the [call_once] lambda. *)
Definition hydrate_issue (c : Collection) (issue : json) : M unit :=
  let entity := parse_issue_entity_ issue in
  if is_null entity || negb (contains "id" entity) then mret tt else
  entity ← of_result (with_number issue entity);
  id ← of_result (at_key "id" entity);
  id ← of_result (get_string id);
  modify (put_entity c id entity).

(** [ensure_*_loaded_]: an exception that escapes the lambda leaves the once flag unset. *)
Definition ensure_loaded_ (c : Collection) : M unit :=
  w ← get;
  if loaded c w then mret tt else
  match gh_ with
  | None => modify (set_loaded c)
  | Some gh =>
      if c_once (coll_of c (w_store w)) then mret tt else
      (issues ← try_catch (l ← call_gh (list_issues gh (label_of c)); mret (Some l))
                          (fun _ => modify (set_loaded c) ;; mret None);
       match issues with
       | None => mret tt
       | Some issues => for_each issues (hydrate_issue c) ;; modify (set_loaded c)
       end) ;;
      modify (set_once c)
  end.

Definition ensure_agents_loaded_ : M unit := ensure_loaded_ kAgents.
Definition ensure_teams_loaded_ : M unit := ensure_loaded_ kTeams.
Definition ensure_tasks_loaded_ : M unit := ensure_loaded_ kTasks.
Definition ensure_faults_loaded_ : M unit := ensure_loaded_ kFaults.

(** ** Inbound synchronization *)

Definition pick_collection_ (label : string) : M (option Collection) :=
  if str_eqb label "agamemnon-agent" then ensure_agents_loaded_ ;; mret (Some kAgents) else
  if str_eqb label "agamemnon-team" then ensure_teams_loaded_ ;; mret (Some kTeams) else
  if str_eqb label "agamemnon-task" then ensure_tasks_loaded_ ;; mret (Some kTasks) else
  if str_eqb label "agamemnon-fault" then ensure_faults_loaded_ ;; mret (Some kFaults) else
  mret None.

(** [it->second] and [it->second[k] = v] for an iterator at [id] (the sources test it against
    [end()] first). *)
Definition entity_at (c : Collection) (id : string) : M json :=
  gets (fun w => default JNull (map_of c w !! id)).
Definition assign (c : Collection) (id k : string) (v : json) : M unit :=
  j ← entity_at c id;
  j' ← of_result (set_key k v j);
  modify (put_entity c id j').

(** The part of [apply_github_event] that runs under the collection's lock, on the parsed
    entity. *)
Definition apply_locked (c : Collection) (action id : string) (entity : json)
    (updated_at : string) : M bool :=
  it ← gets (fun w => map_of c w !! id);
  match it with
  | None =>
      if str_eqb action "closed" then mret false
      else if str_eqb action "reopened" then
        modify (put_entity c id entity) ;;
        record_metric (record_inbound_sync "reopened") ;;
        mret true
      else
        entity ← of_result (set_key "updatedAt" (JStr updated_at) entity);
        modify (put_entity c id entity) ;;
        record_metric (record_inbound_sync "applied") ;;
        mret true
  | Some local =>
      if str_eqb action "closed" then
        assign c id "status" (JStr "closed") ;;
        assign c id "closedAt" (JStr updated_at) ;;
        assign c id "updatedAt" (JStr updated_at) ;;
        record_metric (record_inbound_sync "closed") ;;
        mret true
      else if str_eqb action "reopened" then
        assign c id "status" (JStr "active") ;;
        assign c id "updatedAt" (JStr updated_at) ;;
        record_metric (record_inbound_sync "reopened") ;;
        mret true
      else
        stale ← (if str_empty updated_at then mret false else
                 local_ts ← of_result (value_str "updatedAt" "" local);
                 mret (negb (str_empty local_ts) && String.leb updated_at local_ts));
        if stale : bool then
          record_metric (record_inbound_sync "skipped_stale") ;; mret false
        else
          entity ← of_result (set_key "updatedAt" (JStr updated_at) entity);
          modify (put_entity c id entity) ;;
          record_metric (record_inbound_sync "applied") ;;
          mret true
  end.

Definition apply_github_event (entity_label action : string) (issue_shape : json)
    (updated_at : string) : M bool :=
  ref ← pick_collection_ entity_label;
  match ref with
  | None => mret false
  | Some c =>
      let entity := parse_issue_entity_ issue_shape in
      if is_null entity || negb (contains "id" entity) then mret false else
      id ← of_result (at_key "id" entity);
      id ← of_result (get_string id);
      entity ← of_result (with_number issue_shape entity);
      apply_locked c action id entity updated_at
  end.

(** The inner loop of [reconcile_from_github] over one listing, counting changes. *)
Fixpoint reconcile_issues (label : string) (issues : list json) (changed : Z) : M Z :=
  match issues with
  | [] => mret changed
  | issue :: issues =>
      ts ← of_result (value_str "updated_at" "" issue);
      b ← apply_github_event label "edited" issue ts;
      reconcile_issues label issues (if b : bool then changed + 1 else changed)%Z
  end.

Fixpoint reconcile_labels (gh : IGitHubClient G) (labels : list string) (changed : Z) : M Z :=
  match labels with
  | [] => mret changed
  | label :: labels =>
      issues ← try_catch (l ← call_gh (list_issues gh label); mret (Some l)) (fun _ => mret None);
      match issues with
      | None => reconcile_labels gh labels changed
      | Some issues =>
          changed ← reconcile_issues label issues changed;
          reconcile_labels gh labels changed
      end
  end.

Definition kLabels : list string :=
  ["agamemnon-agent"; "agamemnon-team"; "agamemnon-task"; "agamemnon-fault"].

Definition reconcile_from_github : M Z :=
  match gh_ with
  | None => mret 0%Z
  | Some gh => reconcile_labels gh kLabels 0
  end.
(** ** Write-through *)

(** [if (gh_) { n = gh_->create_issue(title, make_issue_body_(path + id, e), label);
    if (!n.empty()) e["_github_issue"] = n; }]. *)
Definition create_remote (c : Collection) (title id : string) (entity : json) : M json :=
  match gh_ with
  | None => mret entity
  | Some gh =>
      body ← of_result (make_issue_body_ (path_of c +:+ id) entity);
      issue_num ← call_gh (create_issue gh title body (label_of c));
      if str_empty issue_num then mret entity
      else of_result (set_key "_github_issue" (JStr issue_num) entity)
  end.

(** [if (gh_ && it->second.contains("_github_issue")) gh_->update_issue_body(...)]. *)
Definition update_remote (c : Collection) (id : string) : M unit :=
  match gh_ with
  | None => mret tt
  | Some gh =>
      j ← entity_at c id;
      if contains "_github_issue" j then
        n ← of_result (at_key "_github_issue" j);
        n ← of_result (get_string n);
        body ← of_result (make_issue_body_ (path_of c +:+ id) j);
        call_gh (update_issue_body gh n body)
      else mret tt
  end.

(** [if (gh_ && it->second.contains("_github_issue")) gh_->close_issue(...)]. *)
Definition close_remote (c : Collection) (id : string) : M unit :=
  match gh_ with
  | None => mret tt
  | Some gh =>
      j ← entity_at c id;
      if contains "_github_issue" j then
        n ← of_result (at_key "_github_issue" j);
        n ← of_result (get_string n);
        call_gh (close_issue gh n)
      else mret tt
  end.

Definition erase_entity (c : Collection) (id : string) : M unit :=
  modify (fun w => put_map c (delete id (map_of c w)) w).

(** [for (auto& [key, val] : fields.items()) if (key is not protected) it->second[key] = val]. *)
Definition merge_fields (c : Collection) (id : string) (protected_ : list string)
    (fields : json) : M unit :=
  for_each (items fields) (fun kv =>
    if existsb (str_eqb kv.1) protected_ then mret tt else assign c id kv.1 kv.2).

(** The page object the list operations return. *)
Definition page (key : string) (sorted : list (string * json)) (total limit offset : Z) : json :=
  jobj [(key, JArr (map snd (slice sorted limit offset))); ("total", JInt total);
        ("limit", JInt limit); ("offset", JInt offset)].

(** Sort the whole collection by key, then slice. *)
Definition list_collection (c : Collection) (key : string) (limit offset : Z) : M json :=
  m ← gets (map_of c);
  mret (page key (sort_by_key (hash_order m)) (Z.of_nat (size m)) limit offset).

(** ** Agents *)

Definition create_agent (body : json) : M json :=
  ensure_agents_loaded_ ;;
  id ← generate_uuid;
  name ← of_result (value_str "name" "unnamed" body);
  label ← of_result (value_str "label" "" body);
  program ← of_result (value_str "program" "" body);
  workingDirectory ← of_result (value_str "workingDirectory" "" body);
  programArgs ← of_result (value_json "programArgs" (JArr []) body);
  taskDescription ← of_result (value_str "taskDescription" "" body);
  tags ← of_result (value_json "tags" (JArr []) body);
  owner ← of_result (value_str "owner" "" body);
  role ← of_result (value_str "role" "worker" body);
  host ← of_result (value_str "host" "local" body);
  now ← now_iso8601;
  let agent := jobj [("id", JStr id); ("name", JStr name); ("label", JStr label);
    ("program", JStr program); ("workingDirectory", JStr workingDirectory);
    ("programArgs", programArgs); ("taskDescription", JStr taskDescription); ("tags", tags);
    ("owner", JStr owner); ("role", JStr role); ("host", JStr host);
    ("status", JStr "offline"); ("createdAt", JStr now); ("updatedAt", JStr now)] in
  agent ← create_remote kAgents ("agent: " +:+ name) id agent;
  modify (put_entity kAgents id agent) ;;
  record_metric (adjust_agent_count 1) ;;
  mret (jobj [("id", JStr id); ("agent", agent)]).

Definition get_agent (id : string) : M json :=
  ensure_agents_loaded_ ;;
  gets (fun w => default JNull (map_of kAgents w !! id)).

Fixpoint find_by_name (name : string) (l : list (string * json)) : result json :=
  match l with
  | [] => inr JNull
  | (_, agent) :: l =>
      n ← value_str "name" "" agent;
      if str_eqb n name then inr agent else find_by_name name l
  end.

Definition get_agent_by_name (name : string) : M json :=
  ensure_agents_loaded_ ;;
  m ← gets (map_of kAgents);
  of_result (find_by_name name (hash_order m)).

Definition list_agents (limit offset : Z) : M json :=
  ensure_agents_loaded_ ;; list_collection kAgents "agents" limit offset.

Definition update_agent (id : string) (fields : json) : M json :=
  if negb (is_object fields) then mret JNull else
  ensure_agents_loaded_ ;;
  it ← gets (fun w => map_of kAgents w !! id);
  match it with
  | None => mret JNull
  | Some _ =>
      merge_fields kAgents id ["id"; "createdAt"; "_github_issue"; "updatedAt"] fields ;;
      now ← now_iso8601;
      assign kAgents id "updatedAt" (JStr now) ;;
      update_remote kAgents id ;;
      entity_at kAgents id
  end.

Definition delete_agent (id : string) : M bool :=
  ensure_agents_loaded_ ;;
  it ← gets (fun w => map_of kAgents w !! id);
  match it with
  | None => mret false
  | Some _ =>
      close_remote kAgents id ;;
      erase_entity kAgents id ;;
      record_metric (adjust_agent_count (-1)) ;;
      mret true
  end.

(** [start_agent] and [stop_agent] differ in the status they store and return. *)
Definition set_agent_status (status id : string) : M json :=
  ensure_agents_loaded_ ;;
  it ← gets (fun w => map_of kAgents w !! id);
  match it with
  | None => mret JNull
  | Some _ =>
      assign kAgents id "status" (JStr status) ;;
      update_remote kAgents id ;;
      mret (jobj [("status", JStr status); ("id", JStr id)])
  end.
Definition start_agent (id : string) : M json := set_agent_status "online" id.
Definition stop_agent (id : string) : M json := set_agent_status "offline" id.

(** ** Teams *)

Definition create_team (body : json) : M json :=
  ensure_teams_loaded_ ;;
  id ← generate_uuid;
  name ← of_result (value_str "name" "unnamed-team" body);
  agentIds ← of_result (if contains "agent_ids" body then at_key "agent_ids" body
                        else value_json "agentIds" (JArr []) body);
  now ← now_iso8601;
  let team := jobj [("id", JStr id); ("name", JStr name); ("agentIds", agentIds);
    ("createdAt", JStr now); ("updatedAt", JStr now)] in
  team ← create_remote kTeams ("team: " +:+ name) id team;
  modify (put_entity kTeams id team) ;;
  mret (jobj [("team", team)]).

Definition get_team (id : string) : M json :=
  ensure_teams_loaded_ ;;
  gets (fun w => default JNull (map_of kTeams w !! id)).

Definition list_teams (limit offset : Z) : M json :=
  ensure_teams_loaded_ ;; list_collection kTeams "teams" limit offset.

Definition update_team (id : string) (body : json) : M json :=
  ensure_teams_loaded_ ;;
  it ← gets (fun w => map_of kTeams w !! id);
  match it with
  | None => mret JNull
  | Some _ =>
      (if contains "agentIds" body then
         v ← of_result (at_key "agentIds" body); assign kTeams id "agentIds" v
       else if contains "agent_ids" body then
         v ← of_result (at_key "agent_ids" body); assign kTeams id "agentIds" v
       else mret tt) ;;
      (if contains "name" body then
         v ← of_result (at_key "name" body); assign kTeams id "name" v
       else mret tt) ;;
      now ← now_iso8601;
      assign kTeams id "updatedAt" (JStr now) ;;
      update_remote kTeams id ;;
      entity_at kTeams id
  end.

Definition delete_team (id : string) : M bool :=
  ensure_teams_loaded_ ;;
  it ← gets (fun w => map_of kTeams w !! id);
  match it with
  | None => mret false
  | Some _ =>
      close_remote kTeams id ;;
      erase_entity kTeams id ;;
      mret true
  end.

(** ** Tasks *)

Definition create_task (team_id : string) (body : json) : M json :=
  ensure_tasks_loaded_ ;;
  id ← generate_uuid;
  subject ← of_result (value_str "subject" "" body);
  description ← of_result (value_str "description" "" body);
  assigneeAgentId ← of_result (value_str "assigneeAgentId" "" body);
  blockedBy ← of_result (value_json "blockedBy" (JArr []) body);
  type ← of_result (value_str "type" "general" body);
  now ← now_iso8601;
  let task := jobj [("id", JStr id); ("teamId", JStr team_id); ("subject", JStr subject);
    ("description", JStr description); ("assigneeAgentId", JStr assigneeAgentId);
    ("blockedBy", blockedBy); ("type", JStr type); ("status", JStr "pending");
    ("createdAt", JStr now); ("updatedAt", JStr now); ("completedAt", JNull)] in
  task ← create_remote kTasks ("task: " +:+ (if str_empty subject then id else subject)) id task;
  modify (put_entity kTasks id task) ;;
  record_metric record_task_created ;;
  mret (jobj [("task", task)]).

Definition get_task (team_id task_id : string) : M json :=
  if str_empty team_id then mret JNull else
  ensure_tasks_loaded_ ;;
  it ← gets (fun w => map_of kTasks w !! task_id);
  match it with
  | None => mret JNull
  | Some task =>
      t ← of_result (value_str "teamId" "" task);
      if negb (str_eqb t team_id) then mret JNull else mret task
  end.

Definition update_task (team_id task_id : string) (body : json) : M json :=
  if negb (is_object body) then mret JNull else
  if str_empty team_id then mret JNull else
  ensure_tasks_loaded_ ;;
  it ← gets (fun w => map_of kTasks w !! task_id);
  match it with
  | None => mret JNull
  | Some task =>
      t ← of_result (value_str "teamId" "" task);
      if negb (str_eqb t team_id) then mret JNull else
      merge_fields kTasks task_id ["id"; "teamId"; "createdAt"; "_github_issue"; "updatedAt"] body ;;
      (if contains "status" body && is_str "completed" (default JNull (obj_get "status" (items body)))
       then
         j ← entity_at kTasks task_id;
         c ← of_result (value_json "completedAt" JNull j);
         if is_null c then now ← now_iso8601; assign kTasks task_id "completedAt" (JStr now)
         else mret tt
       else mret tt) ;;
      now ← now_iso8601;
      assign kTasks task_id "updatedAt" (JStr now) ;;
      update_remote kTasks task_id ;;
      m ← gets (fun w => metrics_ (w_store w));
      when (m && contains "status" body)
        (v ← of_result (at_key "status" body);
         v ← of_result (get_string v);
         record_metric (record_task_state_change "pending" v)) ;;
      entity_at kTasks task_id
  end.

(** The tasks of a team, in the iteration order of the map. *)
Fixpoint team_tasks (team_id : string) (l : list (string * json)) : result (list (string * json)) :=
  match l with
  | [] => inr []
  | (id, task) :: l =>
      t ← value_str "teamId" "" task;
      rest ← team_tasks team_id l;
      inr (if str_eqb t team_id then (id, task) :: rest else rest)
  end.

Definition list_tasks_for_team (team_id : string) (limit offset : Z) : M json :=
  ensure_tasks_loaded_ ;;
  m ← gets (map_of kTasks);
  l ← of_result (team_tasks team_id (hash_order m));
  mret (page "tasks" (sort_by_key l) (Z.of_nat (length l)) limit offset).

Definition list_all_tasks (limit offset : Z) : M json :=
  ensure_tasks_loaded_ ;; list_collection kTasks "tasks" limit offset.

Definition mark_task_completed (task_id : string) : M unit :=
  ensure_tasks_loaded_ ;;
  it ← gets (fun w => map_of kTasks w !! task_id);
  match it with
  | None => mret tt
  | Some task =>
      old_status ← of_result (value_str "status" "pending" task);
      assign kTasks task_id "status" (JStr "completed") ;;
      now ← now_iso8601;
      assign kTasks task_id "completedAt" (JStr now) ;;
      update_remote kTasks task_id ;;
      record_metric (record_task_state_change old_status "completed")
  end.

(** ** Chaos faults *)

Definition list_faults (limit offset : Z) : M json :=
  ensure_faults_loaded_ ;; list_collection kFaults "faults" limit offset.

Definition create_fault (type : string) : M json :=
  ensure_faults_loaded_ ;;
  id ← generate_uuid;
  now ← now_iso8601;
  let fault := jobj [("id", JStr id); ("type", JStr type); ("active", JBool true);
    ("createdAt", JStr now); ("updatedAt", JStr now)] in
  fault ← create_remote kFaults ("fault: " +:+ type) id fault;
  modify (put_entity kFaults id fault) ;;
  mret (jobj [("fault", fault)]).

Definition remove_fault (id : string) : M bool :=
  ensure_faults_loaded_ ;;
  it ← gets (fun w => map_of kFaults w !! id);
  match it with
  | None => mret false
  | Some _ =>
      close_remote kFaults id ;;
      erase_entity kFaults id ;;
      mret true
  end.
End store.
