(* ===== verification/StoreSync.v ===== *)
(** * The store: synchronization with GitHub

    Properties of hydration and of inbound edits (Store.v): a restart recovers the collection
    from its issues, edits commute (last writer wins by timestamp), and one malformed issue
    blocks the hydration of its collection. *)

From S2P Require Import Prelude Effects Text Json JsonCodec Metrics World Store StoreFacts.

(** ** Last writer wins *)

(** An edit as it reaches the collection: the id, the entity and the timestamp. *)
Record Edit := { ed_id : string; ed_fields : list (string * json); ed_at : string }.

(** The abstract semantics on the map alone: keep the entry with the greater timestamp. *)
Definition stamp_of (j : json) : string :=
  match value_str "updatedAt" "" j with inr s => s | inl _ => "" end.

Definition edit_entity (e : Edit) : json := JObj (obj_set "updatedAt" (JStr (ed_at e)) (ed_fields e)).

Definition newer (e : Edit) (m : gmap string json) : bool :=
  match m !! ed_id e with
  | None => true
  | Some j => str_empty (stamp_of j) || negb (String.leb (ed_at e) (stamp_of j))
  end.

Definition lww (m : gmap string json) (e : Edit) : gmap string json :=
  if newer e m then <[ed_id e := edit_entity e]> m else m.

Definition edit_key (e : Edit) : string * string := (ed_id e, ed_at e).

(** Every entry has a string (or no) timestamp, as the code requires. *)
Definition stamped (m : gmap string json) : Prop :=
  forall id j, m !! id = Some j -> exists s, value_str "updatedAt" "" j = inr s.

Lemma stamp_edit e : stamp_of (edit_entity e) = ed_at e.
Proof. unfold stamp_of, edit_entity, value_str, value_with. by rewrite obj_get_set_eq. Qed.

Lemma stamped_lww m e : stamped m -> stamped (lww m e).
Proof.
  intros Hm id j. unfold lww. destruct (newer e m); [|apply Hm].
  intros [[<- <-]|[_ H]]%lookup_insert_Some; [|by eapply Hm].
  exists (ed_at e). unfold edit_entity, value_str, value_with. by rewrite obj_get_set_eq.
Qed.

Lemma leb_antisym a b : String.leb a b = true -> String.leb b a = true -> a = b.
Proof. intros H1 H2. apply (anti_symm String.le); by apply Is_true_true. Qed.
Lemma leb_total a b : String.leb a b = false -> String.leb b a = true.
Proof.
  intros H. destruct (total String.le a b) as [Hl|Hl]; apply Is_true_true in Hl; congruence.
Qed.
Lemma leb_trans a b c : String.leb a b = true -> String.leb b c = true -> String.leb a c = true.
Proof.
  intros H1 H2. apply Is_true_true. eapply (transitivity (R := String.le)); by apply Is_true_true.
Qed.

Lemma lww_other m e id : id <> ed_id e -> lww m e !! id = m !! id.
Proof. intros Hne. unfold lww. destruct (newer e m); [|done]. by rewrite lookup_insert_ne. Qed.

(** What happens to the entry of the edit, as a function of the old entry alone. *)
Definition pick (old : option json) (e : Edit) : option json :=
  match old with
  | None => Some (edit_entity e)
  | Some j => if str_empty (stamp_of j) || negb (String.leb (ed_at e) (stamp_of j))
              then Some (edit_entity e) else Some j
  end.

Lemma lww_same m e id : ed_id e = id -> lww m e !! id = pick (m !! id) e.
Proof.
  intros <-. unfold lww, newer, pick. destruct (m !! ed_id e) as [j|] eqn:E; [|by rewrite lookup_insert_eq].
  destruct (_ || _); [by rewrite lookup_insert_eq|done].
Qed.

Lemma pick_comm old e1 e2 :
  ed_at e1 <> "" -> ed_at e2 <> "" -> ed_at e1 <> ed_at e2 ->
  pick (pick old e1) e2 = pick (pick old e2) e1.
Proof.
  intros H1 H2 Hne. apply str_empty_false in H1, H2. unfold pick.
  assert (Hx : String.leb (ed_at e1) (ed_at e2) = negb (String.leb (ed_at e2) (ed_at e1))).
  { destruct (String.leb (ed_at e1) (ed_at e2)) eqn:E1, (String.leb (ed_at e2) (ed_at e1)) eqn:E2; try done.
    - by destruct Hne; apply leb_antisym.
    - apply leb_total in E1. congruence. }
  destruct old as [j|].
  - destruct (str_empty (stamp_of j)) eqn:Ej; simpl.
    + rewrite !stamp_edit, H1, H2; simpl. rewrite Hx.
      destruct (String.leb (ed_at e2) (ed_at e1)) eqn:E; simpl; done.
    + destruct (String.leb (ed_at e1) (stamp_of j)) eqn:E1,
        (String.leb (ed_at e2) (stamp_of j)) eqn:E2; simpl;
        rewrite ?stamp_edit, ?H1, ?H2, ?Ej; simpl; rewrite ?E1, ?E2; simpl; try done.
      * destruct (String.leb (ed_at e1) (ed_at e2)) eqn:E; simpl; [done|].
        apply leb_total in E2. rewrite (leb_trans _ _ _ E1 E2) in E. done.
      * destruct (String.leb (ed_at e2) (ed_at e1)) eqn:E; simpl; [done|].
        apply leb_total in E1. rewrite (leb_trans _ _ _ E2 E1) in E. done.
      * rewrite Hx. by destruct (String.leb (ed_at e2) (ed_at e1)).
  - rewrite !stamp_edit, H1, H2; simpl. rewrite Hx. by destruct (String.leb (ed_at e2) (ed_at e1)).
Qed.

Lemma lww_comm m e1 e2 :
  ed_at e1 <> "" -> ed_at e2 <> "" -> edit_key e1 <> edit_key e2 ->
  lww (lww m e1) e2 = lww (lww m e2) e1.
Proof.
  intros H1 H2 Hk. apply map_eq. intros id.
  destruct (decide (ed_id e1 = ed_id e2)) as [Heq|Hne].
  - destruct (decide (id = ed_id e2)) as [->|Hid].
    + rewrite !lww_same by done. apply pick_comm; [done..|].
      intros Ht. apply Hk. unfold edit_key. congruence.
    + rewrite !lww_other; congruence.
  - destruct (decide (id = ed_id e2)) as [->|Hid2]; [|destruct (decide (id = ed_id e1)) as [->|Hid1]].
    + rewrite lww_same by done. rewrite !(lww_other _ e1) by done. by rewrite lww_same.
    + rewrite (lww_other _ e2), !(lww_same _ e1) by done. by rewrite lww_other.
    + by rewrite !lww_other.
Qed.

Lemma lww_perm m es es' :
  es ≡ₚ es' -> NoDup (map edit_key es) -> (forall e, e ∈ es -> ed_at e <> "") ->
  foldl lww m es = foldl lww m es'.
Proof.
  intros Hp. revert m. induction Hp as [|e es es' Hp IH|e1 e2 es|es1 es2 es3 H12 IH12 H23 IH23];
    intros m Hnd Hne; simpl.
  - done.
  - apply IH; [by apply NoDup_cons in Hnd as [_ ?]|set_solver].
  - rewrite lww_comm; [done|set_solver|set_solver|].
    apply NoDup_cons in Hnd as [Hnin _]. intros Heq. apply Hnin. rewrite Heq. left.
  - rewrite IH12 by done. apply IH23; [by rewrite <- H12|]. intros e He. apply Hne. by rewrite H12.
Qed.

Section sync.
Context {G N : Type} (gh_ : option (IGitHubClient G)) `{JT : !JsonText, HO : !HashOrder}.
Abbreviation W := (World G N).
Implicit Types w : W.

(** *** The code implements it *)

(** The issue [i] carries the edit [e] of the collection. *)
Definition carries (i : json) (e : Edit) : Prop :=
  exists l, parse_issue_entity_ i = JObj l /\ obj_get "id" l = Some (JStr (ed_id e)) /\
       with_number i (JObj l) = inr (JObj (ed_fields e)).

Lemma map_of_metric c f w : map_of c (fst (record_metric f w)) = map_of c w.
Proof. apply same_metric. Qed.

Lemma pick_label c w :
  loaded c w = true -> pick_collection_ gh_ (label_of c) w = (w, inr (Some c)).
Proof.
  intros Hl. destruct c; unfold pick_collection_; simpl; unfold ensure_agents_loaded_,
    ensure_teams_loaded_, ensure_tasks_loaded_, ensure_faults_loaded_;
    by rewrite run_bind, run_ensure_loaded.
Qed.

Lemma loaded_metric c f w : loaded c (fst (record_metric f w)) = loaded c w.
Proof. unfold record_metric; simpl. by destruct (metrics_ (w_store w)). Qed.

(** An inbound edit is one step of [lww] on the collection it names. *)
Lemma apply_edited_lww c action i e w :
  loaded c w = true -> stamped (map_of c w) -> carries i e -> ed_at e <> "" ->
  action <> "closed" -> action <> "reopened" ->
  exists w', apply_github_event gh_ (label_of c) action i (ed_at e) w
             = (w', inr (newer e (map_of c w))) /\
        map_of c w' = lww (map_of c w) e /\ loaded c w' = true.
Proof.
  intros Hl Hst (l & Hp & Hid & Hn) Hne Hc Hr.
  apply str_eqb_false in Hc, Hr. apply str_empty_false in Hne.
  unfold apply_github_event. rewrite run_bind, pick_label by done. cbv beta iota zeta.
  rewrite Hp. simpl (_ || _). rewrite Hid. rewrite bool_decide_true by eauto. simpl (negb _).
  cbv iota. mstep. simpl at_key. rewrite Hid. mstep. simpl get_string. mstep. rewrite Hn. mstep.
  unfold apply_locked, lww, newer. mstep. rewrite Hc, Hr.
  destruct (map_of c w !! ed_id e) as [j|] eqn:Ej.
  - rewrite Hne. destruct (Hst _ _ Ej) as (s & Hs). rewrite run_bind, run_bind, run_of_result.
    rewrite Hs. mstep. assert (stamp_of j = s) as -> by (unfold stamp_of; by rewrite Hs).
    destruct (negb (str_empty s) && String.leb (ed_at e) s) eqn:E.
    + replace (str_empty s || _) with false.
      2: { apply andb_prop in E as [E1 E2]. apply negb_true_iff in E1. by rewrite E1, E2. }
      exists (fst (record_metric (record_inbound_sync "skipped_stale") w)).
      split; [done|]. by rewrite map_of_metric, loaded_metric.
    + replace (str_empty s || _) with true.
      2: { destruct (str_empty s), (String.leb (ed_at e) s); done. }
      exists (fst (record_metric (record_inbound_sync "applied")
                     (put_entity c (ed_id e) (edit_entity e) w))).
      split; [done|]. rewrite map_of_metric, loaded_metric, map_of_put_entity, loaded_put_entity. done.
  - exists (fst (record_metric (record_inbound_sync "applied")
                   (put_entity c (ed_id e) (edit_entity e) w))).
    split; [done|]. rewrite map_of_metric, loaded_metric, map_of_put_entity, loaded_put_entity. done.
Qed.

(** A sequence of inbound edits of one collection. *)
Fixpoint apply_edits (c : Collection) (is_ : list (json * Edit)) : M W unit :=
  match is_ with
  | [] => mret tt
  | (i, e) :: is_ => apply_github_event gh_ (label_of c) "edited" i (ed_at e) ;; apply_edits c is_
  end.

Lemma run_apply_edits c is_ w :
  loaded c w = true -> stamped (map_of c w) ->
  Forall (fun ie => carries ie.1 ie.2 /\ ed_at ie.2 <> "") is_ ->
  exists w', apply_edits c is_ w = (w', inr tt) /\
        map_of c w' = foldl lww (map_of c w) (map snd is_) /\ loaded c w' = true.
Proof.
  intros Hl Hst Hall. revert w Hl Hst. induction Hall as [|[i e] is_ [Hc Hne] _ IH]; intros w Hl Hst.
  - by exists w.
  - destruct (apply_edited_lww c "edited" i e w) as (w1 & Hr & Hm & Hl1); try done.
    destruct (IH w1) as (w2 & Hr2 & Hm2 & Hl2); [done|rewrite Hm; by apply stamped_lww|].
    exists w2. split; [|split; [|done]].
    + cbn [apply_edits]. rewrite run_bind. simpl in Hr. rewrite Hr. done.
    + by rewrite Hm2, Hm.
Qed.

(** ** A malformed issue blocks its collection *)

(** The body of [issue] parses to an object whose "id" is not a string. *)
Definition poison (issue : json) : Prop :=
  exists l v, parse_issue_entity_ issue = JObj l /\ obj_get "id" l = Some v /\
         is_string v = false /\ contains "number" issue = false.

Lemma run_hydrate_poison c issue w :
  poison issue -> hydrate_issue c issue w = (w, inl (type_error 302)).
Proof.
  intros (l & v & Hp & Hv & Hs & Hn). unfold hydrate_issue. rewrite Hp. simpl.
  rewrite Hv, bool_decide_true by eauto. simpl. mstep. unfold with_number. rewrite Hn. mstep. simpl.
  rewrite Hv. mstep. by destruct v.
Qed.

(** Collection [c] not hydrated and GitHub in state [g]. *)
Definition cold (c : Collection) (g : G) (w : W) : Prop :=
  loaded c w = false /\ c_once (coll_of c (w_store w)) = false /\ w_gh w = g.

Lemma cold_hydrate c g issue : moves (keeping (cold c g)) (hydrate_issue c issue : M W unit).
Proof.
  unfold hydrate_issue. moves. apply moves_modify. intros w (Hl & Ho & Hg). split_and!.
  - by rewrite loaded_put_entity.
  - unfold put_entity, put_map; simpl. by rewrite coll_of_set_coll.
  - done.
Qed.

Lemma poison_throws c issues issue w :
  issue ∈ issues -> poison issue -> exists w' e, for_each issues (hydrate_issue c) w = (w', inl e).
Proof.
  intros Hin Hp. revert w. induction issues as [|i issues IH]; intros w; [set_solver|].
  cbn [for_each]. rewrite run_bind. apply elem_of_cons in Hin as [<-|Hin].
  - rewrite run_hydrate_poison by done. eauto.
  - destruct (hydrate_issue c i w) as [w1 [e|[]]]; [eauto|]. by apply IH.
Qed.

Lemma cold_forever (gh : IGitHubClient G) c issues issue g w :
  (forall c', list_issues gh (label_of c') g = (g, inr issues)) -> issue ∈ issues -> poison issue ->
  cold c g w -> exists w' e, ensure_loaded_ (Some gh) c w = (w', inl e) /\ cold c g w'.
Proof.
  intros Hls Hin Hp Hc. pose proof Hc as (Hl & Ho & Hg).
  destruct (poison_throws c issues issue (set_gh g w) Hin Hp) as (w1 & e & Hr).
  exists w1, e. split.
  - unfold ensure_loaded_, get. rewrite run_bind. cbv beta iota. rewrite Hl, Ho.
    rewrite run_bind, run_bind. unfold try_catch. rewrite run_bind.
    rewrite (run_call_gh _ w g (inr issues)) by by rewrite Hg. cbv beta iota. rewrite run_ret.
    cbv beta iota. by rewrite run_bind, Hr.
  - pose proof (moves_for_each (keeping (cold c g)) issues (hydrate_issue c)
      (fun i => cold_hydrate c g i) (set_gh g w)) as Hm. rewrite Hr in Hm. apply Hm.
    by split_and!.
Qed.
(** ** Restart: hydration recovers what was persisted *)

(** An entity, and the number of the issue that holds it. *)
Record Persisted := { p_id : string; p_fields : list (string * json); p_number : Z }.

(** [issue] is a GitHub issue whose body the store wrote for [p]. *)
Record holds_entity (c : Collection) (issue : json) (p : Persisted) : Prop := {
  he_id : obj_get "id" (p_fields p) = Some (JStr (p_id p));
  he_wf : wf_json (JObj (p_fields p)) = true;
  he_tick : no_tick (path_of c +:+ p_id p) = true;
  he_body : exists body, make_issue_body_ (path_of c +:+ p_id p) (JObj (p_fields p)) = inr body /\
                    at_key "body" issue = inr (JStr body);
  he_number : contains "number" issue = true /\ at_key "number" issue = inr (JInt (p_number p));
  he_range : (- 2 ^ 31 <= p_number p < 2 ^ 31)%Z;
}.

(** The entity in memory after hydration: what was persisted, and its issue number. *)
Definition recovered (p : Persisted) : json :=
  JObj (obj_set "_github_issue" (JStr (to_string (p_number p))) (p_fields p)).

Context {JL : JsonTextLaws}.

Lemma run_hydrate c issue p w :
  holds_entity c issue p -> hydrate_issue c issue w = (put_entity c (p_id p) (recovered p) w, inr tt).
Proof.
  intros [Hid Hwf Ht (body & Hb & Hi) [Hc Hn] Hr]. unfold hydrate_issue.
  rewrite (parse_make_body _ _ _ _ Hwf Ht Hb Hi). simpl. rewrite bool_decide_true by eauto. simpl.
  mstep. unfold with_number. rewrite Hc, Hn. erewrite result_bind_inr by done.
  erewrite result_bind_inr by by apply get_int_JInt. simpl. mstep.
  rewrite obj_get_set_ne, Hid by done. simpl. by mstep.
Qed.

Lemma run_hydrate_all c issues ps w :
  Forall2 (holds_entity c) issues ps ->
  exists w', for_each issues (hydrate_issue c) w = (w', inr tt) /\
        map_of c w' = foldl (fun m p => <[p_id p := recovered p]> m) (map_of c w) ps.
Proof.
  intros H. revert w. induction H as [|i p issues ps Hh _ IH]; intros w; [by exists w|].
  destruct (IH (put_entity c (p_id p) (recovered p) w)) as (w' & Hr & Hm).
  exists w'. split; [|by rewrite Hm, map_of_put_entity].
  cbn [for_each]. by rewrite run_bind, (run_hydrate c i p).
Qed.

Lemma fold_insert_lookup ps (m : gmap string json) id j :
  NoDup (map p_id ps) ->
  (foldl (fun m p => <[p_id p := recovered p]> m) m ps !! id = Some j) <->
  (exists p, p ∈ ps /\ id = p_id p /\ j = recovered p) \/ (~ (id ∈ map p_id ps) /\ m !! id = Some j).
Proof.
  revert m; induction ps as [|p ps IH]; intros m Hnd; simpl.
  - split; [intros; right; split; [set_solver|done]|]. intros [(p & Hp & _)|[_ ?]]; [set_solver|done].
  - apply NoDup_cons in Hnd as [Hnin Hnd]. rewrite IH by done. split.
    + intros [(q & Hq & ->  & ->)|[Hn Hm]]; [left; exists q; set_solver|].
      apply lookup_insert_Some in Hm as [[<- <-]|[Hne Hm]]; [left; exists p; set_solver|].
      right. set_solver.
    + intros [(q & Hq & -> & ->)|[Hn Hm]].
      * apply elem_of_cons in Hq as [->|Hq]; [|left; eauto].
        right. by rewrite lookup_insert_eq.
      * right. rewrite not_elem_of_cons in Hn. destruct Hn. by rewrite lookup_insert_ne.
Qed.

Lemma run_restart (gh : IGitHubClient G) c issues ps w g' :
  loaded c w = false -> c_once (coll_of c (w_store w)) = false -> map_of c w = ∅ ->
  list_issues gh (label_of c) (w_gh w) = (g', inr issues) ->
  Forall2 (holds_entity c) issues ps -> NoDup (map p_id ps) ->
  exists w', ensure_loaded_ (Some gh) c w = (w', inr tt) /\ loaded c w' = true /\
        forall id j, (map_of c w' !! id = Some j) <-> exists p, p ∈ ps /\ id = p_id p /\ j = recovered p.
Proof.
  intros Hl Ho Hm Hls Hall Hnd.
  destruct (run_hydrate_all c issues ps (set_gh g' w) Hall) as (w1 & Hr & Hm1).
  exists (set_once c (set_loaded c w1)). split_and!.
  - unfold ensure_loaded_, get. rewrite run_bind. cbv beta iota. rewrite Hl, Ho.
    rewrite run_bind, run_bind. unfold try_catch. rewrite run_bind.
    rewrite (run_call_gh _ w _ _ Hls). cbv beta iota. rewrite run_ret. cbv beta iota.
    by rewrite run_bind, Hr.
  - unfold loaded, set_once, set_loaded; simpl. by rewrite !coll_of_set_coll.
  - intros id j. rewrite map_of_set_once, map_of_set_loaded, Hm1, fold_insert_lookup by done.
    rewrite map_of_set_gh, Hm, lookup_empty. split; [|by left]. by intros [?|[_ ?]].
Qed.
End sync.
