(* ===== verification/StoreTheorems.v ===== *)
(** * The store: properties

    The guarantees of the JSON collections that the REST layer and the inbound synchronization
    rely on, each with an instance on concrete data where it has hypotheses. *)

From S2P Require Import Prelude Effects Text Json JsonCodec Metrics World Store StoreFacts.
From S2P Require Import StoreSync.

(** ** Paging *)

Section paging.
Context {G N : Type} (gh_ : option (IGitHubClient G)) `{JT : !JsonText, HO : !HashOrder, HL : !HashOrderLaw}.
Abbreviation W := (World G N).
Implicit Types w : W.

(** The canonical listing of a collection: its entities in key order. *)
Definition in_key_order (m : gmap string json) : list (string * json) := sort_by_key (map_to_list m).

(** The page of a listing. *)
Definition page_of (key : string) (l : list (string * json)) (limit offset : Z) : json :=
  jobj [(key, JArr (take (Z.to_nat limit) (drop (Z.to_nat offset) l.*2)));
        ("total", JInt (Z.of_nat (length l))); ("limit", JInt limit); ("offset", JInt offset)].

Lemma page_page_of key l limit offset :
  (0 <= offset)%Z -> page key l (Z.of_nat (length l)) limit offset = page_of key l limit offset.
Proof.
  intros Ho. unfold page, page_of. rewrite slice_spec by done.
  by rewrite <- (fmap_drop snd), <- (fmap_take snd).
Qed.

Lemma sort_hash_order (m : gmap string json) : sort_by_key (hash_order m) = in_key_order m.
Proof.
  apply sort_by_key_unique; [apply hash_order_perm|].
  rewrite hash_order_perm. apply NoDup_fst_map_to_list.
Qed.

Lemma length_in_key_order m : length (in_key_order m) = size m.
Proof. unfold in_key_order. by rewrite sort_by_key_perm, length_map_to_list. Qed.

Lemma run_list_collection c key limit offset w :
  (0 <= offset)%Z ->
  list_collection c key limit offset w
  = (w, inr (page_of key (in_key_order (map_of c w)) limit offset)).
Proof.
  intros Ho. unfold list_collection. mstep.
  rewrite sort_hash_order, <- length_in_key_order, page_page_of by done. done.
Qed.

(** The team's tasks among a listing, when every "teamId" is a string. *)
Definition in_team (team_id : string) (kv : string * json) : bool :=
  match team_of kv.2 with inr t => str_eqb t team_id | inl _ => false end.

Lemma run_team_tasks team_id l :
  (forall kv, kv ∈ l -> exists t, team_of kv.2 = inr t) ->
  team_tasks team_id l = inr (List.filter (in_team team_id) l).
Proof.
  induction l as [|[id j] l IH]; intros Hl; [done|].
  destruct (Hl (id, j)) as [t Ht]; [set_solver|]. simpl in Ht.
  cbn [team_tasks List.filter]. unfold in_team at 1. cbn [snd]. rewrite Ht.
  unfold team_of in Ht. rewrite Ht. simpl. rewrite IH by set_solver. simpl.
  by destruct (str_eqb t team_id).
Qed.

(** Filtering and then sorting is sorting and then filtering. *)
Lemma in_team_perm team_id (m : gmap string json) :
  List.filter (in_team team_id) (hash_order m) ≡ₚ List.filter (in_team team_id) (map_to_list m).
Proof. apply Permutation_filter_list, hash_order_perm. Qed.

Lemma NoDup_keys_filter (p : string * json -> bool) l : NoDup l.*1 -> NoDup (List.filter p l).*1.
Proof.
  induction l as [|kv l IH]; simpl; [done|]. intros [Hn Hnd]%NoDup_cons.
  destruct (p kv); [|by apply IH]. apply NoDup_cons. split; [|by apply IH].
  intros (kv' & Hk & Hin)%list_elem_of_fmap. apply Hn. rewrite Hk. apply list_elem_of_fmap_2.
  apply list_elem_of_In in Hin. apply List.filter_In in Hin as [Hin _]. by apply list_elem_of_In.
Qed.

Lemma run_list_tasks_for_team team_id limit offset w :
  loaded kTasks w = true -> (0 <= offset)%Z ->
  (forall id j, map_of kTasks w !! id = Some j -> exists t, team_of j = inr t) ->
  list_tasks_for_team gh_ team_id limit offset w
  = (w, inr (page_of "tasks"
       (sort_by_key (List.filter (in_team team_id) (map_to_list (map_of kTasks w)))) limit offset)).
Proof.
  intros Hl Ho Ht. unfold list_tasks_for_team, ensure_tasks_loaded_.
  rewrite run_bind, run_ensure_loaded by done. mstep. rewrite run_team_tasks.
  2: { intros [id j] Hin. apply (Ht id). rewrite hash_order_perm in Hin. by apply elem_of_map_to_list. }
  mstep. f_equal. f_equal.
  rewrite (sort_by_key_unique _ _ (in_team_perm team_id (map_of kTasks w))).
  2: { apply NoDup_keys_filter. rewrite hash_order_perm. apply NoDup_fst_map_to_list. }
  rewrite <- page_page_of by done.
  by rewrite (Permutation_length (in_team_perm team_id _)), (Permutation_length (sort_by_key_perm _)).
Qed.
End paging.

(** ** Properties *)

(** C34: whatever sequence of operations of the store, webhook events and reconciliations a
    fresh server runs, against any GitHub client, and whichever of them throw half-way, every
    entity of every collection is an object whose "id" field is the key it is stored under. *)
Theorem store_entities_keyed {G N : Type} (gh : option (IGitHubClient G))
    `{!JsonText, !HashOrder} (e : Env) (g : G) (m : bool) (n : N) (ops : list StoreOp) :
  entities_ok (run_ops gh ops (boot e g m n)).
Proof. apply ok_run_ops. intros c id j. by destruct c. Qed.

(** An update of an agent, a team or a task through the store changes no other entity of
    any collection and never the identifier, the creation time, the linked GitHub issue or (for
    a task) the owning team of the entity it updates, whatever fields the request carries and
    even when it throws. *)
Lemma store_updates_frozen {G N : Type} (gh : option (IGitHubClient G)) `{!JsonText, !HashOrder}
    (w : World G N) (team id : string) (fields : json) :
  loaded kAgents w = true -> loaded kTeams w = true -> loaded kTasks w = true ->
  frozen ["id"; "createdAt"; "_github_issue"] kAgents id w (fst (update_agent gh id fields w)) /\
  frozen ["id"; "createdAt"; "_github_issue"] kTeams id w (fst (update_team gh id fields w)) /\
  frozen ["id"; "teamId"; "createdAt"; "_github_issue"] kTasks id w
    (fst (update_task gh team id fields w)).
Proof.
  intros Ha Ht Hk. split_and!; [by apply frozen_update_agent|by apply frozen_update_team|].
  by apply frozen_update_task.
Qed.

(** With a non-empty team scope, [get_task] returns a task exactly when the stored task
    belongs to that team, and an update under another team's scope returns null and leaves the
    whole state as it was. *)
Lemma store_team_isolation {G N : Type} (gh : option (IGitHubClient G)) `{!JsonText, !HashOrder}
    (w : World G N) (team id owner : string) (task fields : json) :
  loaded kTasks w = true -> team <> "" -> map_of kTasks w !! id = Some task ->
  team_of task = inr owner ->
  get_task gh team id w = (w, inr (if str_eqb owner team then task else JNull)) /\
  (owner <> team -> update_task gh team id fields w = (w, inr JNull)).
Proof.
  intros Hl Ht Hm Ho. split.
  - rewrite run_get_task, Hm by done. by rewrite Ho.
  - intros Hne. by eapply run_update_task_foreign.
Qed.

(** On a hydrated store every list operation returns the page [offset, offset + limit) of
    the collection in key order and the collection's size, whatever order the hash maps
    iterate in; the tasks of a team are those whose "teamId" is the team. *)
Lemma store_pages {G N : Type} (gh : option (IGitHubClient G)) `{!JsonText, !HashOrder}
    (w : World G N) (team : string) (limit offset : Z) :
  HashOrderLaw -> (0 <= offset)%Z ->
  loaded kAgents w = true -> loaded kTeams w = true -> loaded kTasks w = true ->
  loaded kFaults w = true ->
  (forall id j, map_of kTasks w !! id = Some j -> exists t, team_of j = inr t) ->
  let pg key c := (w, inr (page_of key (in_key_order (map_of c w)) limit offset)) in
  list_agents gh limit offset w = pg "agents" kAgents /\
  list_teams gh limit offset w = pg "teams" kTeams /\
  list_all_tasks gh limit offset w = pg "tasks" kTasks /\
  list_faults gh limit offset w = pg "faults" kFaults /\
  list_tasks_for_team gh team limit offset w
  = (w, inr (page_of "tasks"
       (sort_by_key (List.filter (in_team team) (map_to_list (map_of kTasks w)))) limit offset)).
Proof.
  intros HL Ho Ha Ht Hk Hf Hs pg.
  split_and!; [| | | |by apply run_list_tasks_for_team];
    unfold list_agents, list_teams, list_all_tasks, list_faults, ensure_agents_loaded_,
      ensure_teams_loaded_, ensure_tasks_loaded_, ensure_faults_loaded_;
    rewrite run_bind, run_ensure_loaded by done; by apply run_list_collection.
Qed.

(** C1: inbound edits of a hydrated collection commute: delivered in any order, edits with
    distinct (id, timestamp) pairs all return and leave the same collection, the one in which
    the newest edit of each entity won. *)
Theorem store_edits_commute {G N : Type} (gh : option (IGitHubClient G)) `{!JsonText}
    (c : Collection) (w : World G N) (es es' : list (json * Edit)) :
  loaded c w = true -> stamped (map_of c w) -> es ≡ₚ es' ->
  Forall (fun ie => carries ie.1 ie.2 /\ ed_at ie.2 <> "") es ->
  NoDup (map edit_key (map snd es)) ->
  exists w1 w2, apply_edits gh c es w = (w1, inr tt) /\ apply_edits gh c es' w = (w2, inr tt) /\
    map_of c w1 = map_of c w2 /\ map_of c w1 = foldl lww (map_of c w) (map snd es).
Proof.
  intros Hl Hst Hp Hall Hnd.
  destruct (run_apply_edits gh c es w) as (w1 & H1 & Hm1 & _); [done..|].
  destruct (run_apply_edits gh c es' w) as (w2 & H2 & Hm2 & _); [done|done|by rewrite <- Hp|].
  exists w1, w2. split_and!; [done|done| |done]. rewrite Hm1, Hm2. apply lww_perm.
  - by apply Permutation_map.
  - done.
  - intros e ([i e'] & -> & Hin)%list_elem_of_fmap. rewrite Forall_forall in Hall.
    by destruct (Hall _ Hin) as [_ ?].
Qed.

(** C6: a restarted server recovers a collection from GitHub: hydrating an empty collection
    from issues whose bodies the store wrote, with distinct ids, returns, marks the collection
    loaded, and the collection holds exactly the persisted entities, each with its issue
    number. *)
Theorem store_restart_recovers {G N : Type} `{!JsonText, !HashOrder} (gh : IGitHubClient G)
    (c : Collection) (issues : list json) (ps : list Persisted) (w : World G N) (g' : G) :
  JsonTextLaws ->
  loaded c w = false -> c_once (coll_of c (w_store w)) = false -> map_of c w = ∅ ->
  list_issues gh (label_of c) (w_gh w) = (g', inr issues) ->
  Forall2 (holds_entity c) issues ps -> NoDup (map p_id ps) ->
  exists w', ensure_loaded_ (Some gh) c w = (w', inr tt) /\ loaded c w' = true /\
    forall id j, (map_of c w' !! id = Some j) <-> exists p, p ∈ ps /\ id = p_id p /\ j = recovered p.
Proof. intros JL. apply run_restart. Qed.

(** One issue labelled for agents whose embedded entity has a non-string "id" makes every
    agent lookup throw, now and after any number of attempts: the exception leaves the
    hydration flag unset, so the fetch is repeated and fails again. *)
Lemma store_poisoned_hydration {G N : Type} `{!JsonText, !HashOrder} (gh : IGitHubClient G)
    (issues : list json) (issue : json) (g : G) (id : string) (w : World G N) (n : nat) :
  (forall c, list_issues gh (label_of c) g = (g, inr issues)) -> issue ∈ issues -> poison issue ->
  cold kAgents g w ->
  exists w' e, get_agent (Some gh) id (Nat.iter n (fun w => fst (get_agent (Some gh) id w)) w)
               = (w', inl e).
Proof.
  intros Hls Hin Hp Hc.
  assert (Hone : forall w : World G N, cold kAgents g w ->
            exists w' e, get_agent (Some gh) id w = (w', inl e) /\ cold kAgents g w').
  { intros w1 Hw1. destruct (cold_forever gh kAgents issues issue g w1) as (w' & e & Hr & Hc'); [done..|].
    exists w', e. split; [|done]. unfold get_agent, ensure_agents_loaded_. by rewrite run_bind, Hr. }
  assert (Hi : cold kAgents g (Nat.iter n (fun w => fst (get_agent (Some gh) id w)) w)).
  { induction n as [|n IH]; simpl; [done|]. destruct (Hone _ IH) as (w' & e & Hr & Hc'). by rewrite Hr. }
  destruct (Hone _ Hi) as (w' & e & Hr & _). eauto.
Qed.

(** ** Instances *)

#[local] Existing Instances codec list_order.

(** A server without GitHub that has served one task creation and one lookup per collection. *)
Definition demo : World MockGitHub FakeNats :=
  run_ops None [OCreateTask "team-a" (JObj []); OGetAgent "x"; OGetTeam "x"; OListFaults 10 0]
    (boot env0 mock0 true nats0).
Definition demo_task : string := uuid_of env0.
Definition steal : json := JObj [("status", JStr "completed"); ("teamId", JStr "team-b")].

Definition str_field (k : string) (j : json) : bool :=
  match value_str k "" j with inr _ => true | inl _ => false end.
Lemma str_field_check k j : str_field k j = true -> exists s, value_str k "" j = inr s.
Proof. unfold str_field. destruct (value_str k "" j); [done|eauto]. Qed.

Lemma store_updates_frozen_witness :
  frozen ["id"; "teamId"; "createdAt"; "_github_issue"] kTasks demo_task demo
    (fst (update_task None "team-a" demo_task steal demo)).
Proof.
  apply (store_updates_frozen None demo "team-a" demo_task steal); vm_compute; reflexivity.
Defined.

Lemma store_team_isolation_witness : update_task None "team-b" demo_task steal demo = (demo, inr JNull).
Proof.
  apply (store_team_isolation None demo "team-b" demo_task "team-a"
           (default JNull (map_of kTasks demo !! demo_task)) steal);
    [vm_compute; reflexivity|done|vm_compute; reflexivity|vm_compute; reflexivity|done].
Defined.

Lemma store_pages_witness :
  list_tasks_for_team None "team-a" 5 0 demo
  = (demo, inr (page_of "tasks"
       (sort_by_key (List.filter (in_team "team-a") (map_to_list (map_of kTasks demo)))) 5 0)).
Proof.
  apply (store_pages None demo "team-a" 5 0); try (vm_compute; reflexivity).
  - apply list_order_law.
  - done.
  - intros id j Hj. apply str_field_check. revert id j Hj. apply map_check. vm_compute. reflexivity.
Defined.

(** Two edits of the demo task, as GitHub would deliver them. *)
Definition demo_fields (subject : string) : list (string * json) :=
  [("id", JStr demo_task); ("subject", JStr subject)].
Definition demo_issue (subject : string) : json :=
  match make_issue_body_ ("tasks/" +:+ demo_task) (JObj (demo_fields subject)) with
  | inr body => jobj [("body", JStr body); ("number", JInt 7)]
  | inl _ => JNull
  end.
Definition demo_edit (subject at_ : string) : Edit :=
  {| ed_id := demo_task; ed_at := at_;
     ed_fields := obj_set "_github_issue" (JStr "7") (demo_fields subject) |}.
Definition demo_edits : list (json * Edit) :=
  [(demo_issue "first", demo_edit "first" "2030-01-01T00:00:00Z");
   (demo_issue "second", demo_edit "second" "2031-01-01T00:00:00Z")].

Lemma store_edits_commute_witness :
  exists w1 w2, apply_edits None kTasks demo_edits demo = (w1, inr tt) /\
    apply_edits None kTasks (reverse demo_edits) demo = (w2, inr tt) /\
    map_of kTasks w1 = map_of kTasks w2 /\
    map_of kTasks w1 = foldl lww (map_of kTasks demo) (map snd demo_edits).
Proof.
  apply (store_edits_commute None kTasks demo demo_edits (reverse demo_edits)).
  - vm_compute. reflexivity.
  - intros id j Hj. apply str_field_check. revert id j Hj. apply map_check. vm_compute. reflexivity.
  - by rewrite reverse_Permutation.
  - repeat constructor; try done.
    all: eexists; split_and!; vm_compute; reflexivity.
  - vm_compute map. rewrite !NoDup_cons. split_and!; [|set_solver|by constructor]. 
    rewrite list_elem_of_singleton. done.
Defined.

Definition seeded : MockGitHub :=
  {| seed_issues := {["agamemnon-task" := [demo_issue "first"]]}; fail_list_on_label := "";
     calls := []; created_issues := ∅; updated_bodies := ∅; closed_issues := [];
     next_issue_number_ := 0 |}.

Lemma store_restart_recovers_witness :
  exists w', ensure_loaded_ (Some MockGitHubClient) kTasks (boot env0 seeded true nats0) = (w', inr tt) /\
    loaded kTasks w' = true /\
    forall id j, (map_of kTasks w' !! id = Some j) <->
      exists p, p ∈ [{| p_id := demo_task; p_fields := demo_fields "first"; p_number := 7 |}] /\
           id = p_id p /\ j = recovered p.
Proof.
  eapply (store_restart_recovers MockGitHubClient kTasks).
  - apply codec_laws.
  - reflexivity.
  - reflexivity.
  - reflexivity.
  - vm_compute. reflexivity.
  - repeat constructor; try (vm_compute; (reflexivity || discriminate)).
    eexists. split; vm_compute; reflexivity.
  - repeat constructor. set_solver.
Defined.

(** A repository with one issue whose entity has a numeric id. *)
Definition numeric_issue : json :=
  match make_issue_body_ "agents/1" (JObj [("id", JInt 1)]) with
  | inr body => jobj [("body", JStr body)]
  | inl _ => JNull
  end.
Definition fixed_client : IGitHubClient unit :=
  {| list_issues := fun _ g => (g, inr [numeric_issue]);
     create_issue := fun _ _ _ g => (g, inr "1");
     update_issue_body := fun _ _ g => (g, inr tt);
     close_issue := fun _ g => (g, inr tt) |}.

Lemma store_poisoned_hydration_witness :
  exists w' e, get_agent (Some fixed_client) "a"
    (Nat.iter 3 (fun w => fst (get_agent (Some fixed_client) "a" w)) (boot env0 tt true nats0))
  = (w', inl e).
Proof.
  apply (store_poisoned_hydration fixed_client [numeric_issue] numeric_issue tt "a"
           (boot env0 tt true nats0) 3).
  - by intros c.
  - left.
  - do 2 eexists. split_and!; vm_compute; reflexivity.
  - by split_and!.
Defined.
