(* ===== verification/HmasStore.v ===== *)
(** * The store: HMAS tasks and briefs

    src/store.cpp, the typed collections: hydration, the tasks with their secondary index
    [brief_id -> task ids], the briefs, and the write-through to GitHub. *)

From S2P Require Import Prelude Effects Text Json HmasTypes Metrics World Store.

(** Updates of one member of the collections. *)
Definition set_hmas_task (id : string) (t : HmasTask) (h : HmasColl) : HmasColl :=
  {| hmas_tasks_ := <[id := t]> (hmas_tasks_ h); hmas_tasks_by_brief_ := hmas_tasks_by_brief_ h;
     hmas_task_issue_numbers_ := hmas_task_issue_numbers_ h;
     hmas_tasks_loaded_ := hmas_tasks_loaded_ h; hmas_tasks_once_ := hmas_tasks_once_ h |}.
Definition set_hmas_index (ix : gmap string (list string)) (h : HmasColl) : HmasColl :=
  {| hmas_tasks_ := hmas_tasks_ h; hmas_tasks_by_brief_ := ix;
     hmas_task_issue_numbers_ := hmas_task_issue_numbers_ h;
     hmas_tasks_loaded_ := hmas_tasks_loaded_ h; hmas_tasks_once_ := hmas_tasks_once_ h |}.
Definition set_hmas_issue (id n : string) (h : HmasColl) : HmasColl :=
  {| hmas_tasks_ := hmas_tasks_ h; hmas_tasks_by_brief_ := hmas_tasks_by_brief_ h;
     hmas_task_issue_numbers_ := <[id := n]> (hmas_task_issue_numbers_ h);
     hmas_tasks_loaded_ := hmas_tasks_loaded_ h; hmas_tasks_once_ := hmas_tasks_once_ h |}.
Definition set_hmas_loaded (h : HmasColl) : HmasColl :=
  {| hmas_tasks_ := hmas_tasks_ h; hmas_tasks_by_brief_ := hmas_tasks_by_brief_ h;
     hmas_task_issue_numbers_ := hmas_task_issue_numbers_ h;
     hmas_tasks_loaded_ := true; hmas_tasks_once_ := hmas_tasks_once_ h |}.
Definition set_hmas_once (h : HmasColl) : HmasColl :=
  {| hmas_tasks_ := hmas_tasks_ h; hmas_tasks_by_brief_ := hmas_tasks_by_brief_ h;
     hmas_task_issue_numbers_ := hmas_task_issue_numbers_ h;
     hmas_tasks_loaded_ := hmas_tasks_loaded_ h; hmas_tasks_once_ := true |}.

Definition set_brief (id : string) (x : TaskBrief) (b : BriefColl) : BriefColl :=
  {| task_briefs_ := <[id := x]> (task_briefs_ b); brief_issue_numbers_ := brief_issue_numbers_ b;
     briefs_loaded_ := briefs_loaded_ b; briefs_once_ := briefs_once_ b |}.
Definition set_brief_issue (id n : string) (b : BriefColl) : BriefColl :=
  {| task_briefs_ := task_briefs_ b; brief_issue_numbers_ := <[id := n]> (brief_issue_numbers_ b);
     briefs_loaded_ := briefs_loaded_ b; briefs_once_ := briefs_once_ b |}.
Definition set_briefs_loaded (b : BriefColl) : BriefColl :=
  {| task_briefs_ := task_briefs_ b; brief_issue_numbers_ := brief_issue_numbers_ b;
     briefs_loaded_ := true; briefs_once_ := briefs_once_ b |}.
Definition set_briefs_once (b : BriefColl) : BriefColl :=
  {| task_briefs_ := task_briefs_ b; brief_issue_numbers_ := brief_issue_numbers_ b;
     briefs_loaded_ := briefs_loaded_ b; briefs_once_ := true |}.

(** [hmas_tasks_by_brief_[b].push_back(id)]. *)
Definition index_push (b id : string) (ix : gmap string (list string)) : gmap string (list string) :=
  <[b := default [] (ix !! b) ++ [id]]> ix.

(** Remove [id] from the bucket of [b]; an empty bucket is erased. *)
Definition index_remove (b id : string) (ix : gmap string (list string)) : gmap string (list string) :=
  let bucket := filter (fun x => x <> id) (default [] (ix !! b)) in
  if decide (bucket = []) then delete b ix else <[b := bucket]> ix.

(** The loop of [create_task_brief]: at most [n] code points of the title, whole UTF-8
    sequences as announced by their lead bytes.  One code point per iteration. *)
Fixpoint truncate_title (n : nat) (title : string) : string :=
  match n, title with
  | S n, String c _ =>
      let b := byte_of c in
      let adv := if (b <? 0x80)%Z then 1 else if (b <? 0xC0)%Z then 1
                 else if (b <? 0xE0)%Z then 2 else if (b <? 0xF0)%Z then 3 else 4 in
      if String.length title <? adv then ""
      else str_substr title 0 adv +:+ truncate_title n (str_drop title adv)
  | _, _ => ""
  end.

Section hmas_store.
Context {G N : Type} (gh_ : option (IGitHubClient G)) `{JT : !JsonText, HO : !HashOrder}.
Abbreviation W := (World G N).
Abbreviation M := (M W).

Definition hmas (w : W) : HmasColl := hmas_ (w_store w).
Definition briefs (w : W) : BriefColl := briefs_ (w_store w).

(** ** Hydration: a task that does not deserialize is skipped *)

Definition hydrate_hmas (issue : json) : M unit :=
  let entity := parse_issue_entity_ issue in
  if is_null entity || negb (contains "id" entity) then mret tt else
  try_catch
    (t ← of_result (hmas_task_from_json entity);
     (if contains "number" issue then
        n ← of_result (at_key "number" issue);
        n ← of_result (get_int n);
        modify (upd_hmas (set_hmas_issue (t_id t) (to_string n)))
      else mret tt) ;;
     modify (upd_hmas (set_hmas_task (t_id t) t)) ;;
     when (negb (str_empty (t_brief_id t)))
       (modify (upd_hmas (fun h =>
          set_hmas_index (index_push (t_brief_id t) (t_id t) (hmas_tasks_by_brief_ h)) h))))
    (fun _ => mret tt).

Definition ensure_hmas_tasks_loaded_ : M unit :=
  w ← get;
  if hmas_tasks_loaded_ (hmas w) then mret tt else
  match gh_ with
  | None => modify (upd_hmas set_hmas_loaded)
  | Some gh =>
      if hmas_tasks_once_ (hmas w) then mret tt else
      (issues ← try_catch (l ← call_gh (list_issues gh "agamemnon-hmas-task"); mret (Some l))
                          (fun _ => modify (upd_hmas set_hmas_loaded) ;; mret None);
       match issues with
       | None => mret tt
       | Some issues => for_each issues hydrate_hmas ;; modify (upd_hmas set_hmas_loaded)
       end) ;;
      modify (upd_hmas set_hmas_once)
  end.

Definition hydrate_brief (issue : json) : M unit :=
  let entity := parse_issue_entity_ issue in
  if is_null entity || negb (contains "id" entity) then mret tt else
  try_catch
    (b ← of_result (task_brief_from_json entity);
     (if contains "number" issue then
        n ← of_result (at_key "number" issue);
        n ← of_result (get_int n);
        modify (upd_briefs (set_brief_issue (b_id b) (to_string n)))
      else mret tt) ;;
     modify (upd_briefs (set_brief (b_id b) b)))
    (fun _ => mret tt).

Definition ensure_briefs_loaded_ : M unit :=
  w ← get;
  if briefs_loaded_ (briefs w) then mret tt else
  match gh_ with
  | None => modify (upd_briefs set_briefs_loaded)
  | Some gh =>
      if briefs_once_ (briefs w) then mret tt else
      (issues ← try_catch (l ← call_gh (list_issues gh "agamemnon-brief"); mret (Some l))
                          (fun _ => modify (upd_briefs set_briefs_loaded) ;; mret None);
       match issues with
       | None => mret tt
       | Some issues => for_each issues hydrate_brief ;; modify (upd_briefs set_briefs_loaded)
       end) ;;
      modify (upd_briefs set_briefs_once)
  end.

(** ** Tasks *)

(** [if (gh_) { n = gh_->create_issue(...); if (!n.empty()) hmas_task_issue_numbers_[id] = n; }]. *)
Definition create_hmas_remote (task : HmasTask) : M unit :=
  match gh_ with
  | None => mret tt
  | Some gh =>
      body ← of_result (make_issue_body_ ("hmas-tasks/" +:+ t_id task) (hmas_task_to_json task));
      issue_num ← call_gh (create_issue gh ("hmas-task: " +:+ t_id task) body "agamemnon-hmas-task");
      when (negb (str_empty issue_num)) (modify (upd_hmas (set_hmas_issue (t_id task) issue_num)))
  end.

Definition create_hmas_task (task : HmasTask) : M unit :=
  ensure_hmas_tasks_loaded_ ;;
  create_hmas_remote task ;;
  modify (upd_hmas (set_hmas_task (t_id task) task)) ;;
  when (negb (str_empty (t_brief_id task)))
    (modify (upd_hmas (fun h =>
       set_hmas_index (index_push (t_brief_id task) (t_id task) (hmas_tasks_by_brief_ h)) h))).

Definition get_hmas_task (id : string) : M (option HmasTask) :=
  ensure_hmas_tasks_loaded_ ;;
  gets (fun w => hmas_tasks_ (hmas w) !! id).

(** The write-through of an updated task: only when its issue number is known. *)
Definition update_hmas_remote (id : string) (task : HmasTask) : M unit :=
  match gh_ with
  | None => mret tt
  | Some gh =>
      num ← gets (fun w => hmas_task_issue_numbers_ (hmas w) !! id);
      match num with
      | Some n =>
          body ← of_result (make_issue_body_ ("hmas-tasks/" +:+ id) (hmas_task_to_json task));
          call_gh (update_issue_body gh n body)
      | None => mret tt
      end
  end.

Definition update_hmas_task_state_and_record_escalation (id : string) (new_state : TaskState)
    (escalation : EscalationRecord) : M bool :=
  ensure_hmas_tasks_loaded_ ;;
  it ← gets (fun w => hmas_tasks_ (hmas w) !! id);
  match it with
  | None => mret false
  | Some t =>
      let t := set_escalations (t_escalations t ++ [escalation]) (set_state new_state t) in
      modify (upd_hmas (set_hmas_task id t)) ;;
      update_hmas_remote id t ;;
      mret true
  end.

Definition update_hmas_task_state (id : string) (state : TaskState) : M bool :=
  ensure_hmas_tasks_loaded_ ;;
  it ← gets (fun w => hmas_tasks_ (hmas w) !! id);
  match it with
  | None => mret false
  | Some t =>
      let t := set_state state t in
      modify (upd_hmas (set_hmas_task id t)) ;;
      update_hmas_remote id t ;;
      mret true
  end.

(** Move [id] between buckets when the brief changes. *)
Definition reindex (old_brief new_brief id : string) (ix : gmap string (list string))
  : gmap string (list string) :=
  if str_eqb old_brief new_brief then ix else
  let ix := if str_empty old_brief then ix else index_remove old_brief id ix in
  if str_empty new_brief then ix else index_push new_brief id ix.

Definition update_hmas_task (task : HmasTask) : M bool :=
  ensure_hmas_tasks_loaded_ ;;
  it ← gets (fun w => hmas_tasks_ (hmas w) !! t_id task);
  match it with
  | None => mret false
  | Some old =>
      modify (upd_hmas (set_hmas_task (t_id task) task)) ;;
      modify (upd_hmas (fun h =>
        set_hmas_index (reindex (t_brief_id old) (t_brief_id task) (t_id task)
                          (hmas_tasks_by_brief_ h)) h)) ;;
      update_hmas_remote (t_id task) task ;;
      mret true
  end.

(** Full scans in the map's iteration order. *)
Definition scan (p : HmasTask -> bool) (m : gmap string HmasTask) : list HmasTask :=
  List.filter p (map snd (hash_order m)).

Definition list_hmas_tasks_by_layer (layer : HmasLayer) : M (list HmasTask) :=
  ensure_hmas_tasks_loaded_ ;;
  gets (fun w => scan (fun t => bool_decide (t_layer t = layer)) (hmas_tasks_ (hmas w))).

Definition list_hmas_tasks_by_parent (parent_id : string) : M (list HmasTask) :=
  ensure_hmas_tasks_loaded_ ;;
  gets (fun w => scan (fun t => str_eqb (t_parent_task_id t) parent_id) (hmas_tasks_ (hmas w))).

(** Through the index: dangling ids are skipped. *)
Definition list_hmas_tasks_by_brief (brief_id : string) : M (list HmasTask) :=
  ensure_hmas_tasks_loaded_ ;;
  gets (fun w =>
    match hmas_tasks_by_brief_ (hmas w) !! brief_id with
    | None => []
    | Some ids => omap (fun id => hmas_tasks_ (hmas w) !! id) ids
    end).

(** ** Briefs *)

Definition create_task_brief (brief : TaskBrief) : M unit :=
  ensure_briefs_loaded_ ;;
  match gh_ with
  | None => mret tt
  | Some gh =>
      body ← of_result (make_issue_body_ ("briefs/" +:+ b_id brief) (task_brief_to_json brief));
      issue_num ← call_gh (create_issue gh ("brief: " +:+ truncate_title 80 (b_title brief)) body
                             "agamemnon-brief");
      when (negb (str_empty issue_num)) (modify (upd_briefs (set_brief_issue (b_id brief) issue_num)))
  end ;;
  modify (upd_briefs (set_brief (b_id brief) brief)).

Definition get_task_brief (id : string) : M (option TaskBrief) :=
  ensure_briefs_loaded_ ;;
  gets (fun w => task_briefs_ (briefs w) !! id).

Definition list_task_briefs : M (list TaskBrief) :=
  ensure_briefs_loaded_ ;;
  gets (fun w => map snd (hash_order (task_briefs_ (briefs w)))).
End hmas_store.
