(* ===== verification/HmasFacts.v ===== *)
(** * The store: HMAS tasks, invariant and index

    The secondary index [brief_id -> task ids] agrees with the tasks (HmasStore.v), every
    operation keeps that, and reading a brief's tasks through the index is a full scan. *)

From S2P Require Import Prelude Effects Text Json JsonCodec HmasTypes Metrics World Store.
From S2P Require Import StoreFacts HmasStore.

(** ** The invariant *)

Definition bucket (b : string) (h : HmasColl) : list string := default [] (hmas_tasks_by_brief_ h !! b).

(** Tasks are stored under their id; a bucket lists, once each, the tasks of a brief. *)
Record hmas_ok (h : HmasColl) : Prop := {
  ok_keyed id t : hmas_tasks_ h !! id = Some t -> t_id t = id;
  ok_nodup b : NoDup (bucket b h);
  ok_index b id : id ∈ bucket b h <->
    b <> "" /\ exists t, hmas_tasks_ h !! id = Some t /\ t_brief_id t = b;
}.

Lemma bucket_push b b' id ix :
  default [] (index_push b id ix !! b') =
  if decide (b = b') then default [] (ix !! b') ++ [id] else default [] (ix !! b').
Proof.
  unfold index_push. destruct (decide (b = b')) as [->|]; [by rewrite lookup_insert_eq|].
  by rewrite lookup_insert_ne.
Qed.

Lemma bucket_remove b b' id ix :
  default [] (index_remove b id ix !! b') =
  if decide (b = b') then filter (fun x => x <> id) (default [] (ix !! b')) else default [] (ix !! b').
Proof.
  unfold index_remove. destruct (decide (b = b')) as [->|Hne].
  - destruct (decide (filter _ (default [] (ix !! b')) = [])) as [->|].
    + by rewrite lookup_delete_eq.
    + by rewrite lookup_insert_eq.
  - destruct (decide _); [by rewrite lookup_delete_ne|by rewrite lookup_insert_ne].
Qed.

Lemma bucket_reindex old new b id ix :
  default [] (reindex old new id ix !! b) =
  (if decide (old <> new /\ b = old /\ old <> "") then filter (fun x => x <> id) (default [] (ix !! b))
   else default [] (ix !! b)) ++ (if decide (old <> new /\ b = new /\ new <> "") then [id] else []).
Proof.
  unfold reindex. destruct (str_eqb old new) eqn:E.
  { apply str_eqb_true in E as ->. rewrite !decide_False by naive_solver. by rewrite app_nil_r. }
  apply str_eqb_false in E.
  destruct (str_empty old) eqn:Eo, (str_empty new) eqn:En; cbv zeta;
    rewrite ?str_empty_true, ?str_empty_false in *;
    rewrite ?bucket_push, ?bucket_remove;
    repeat case_decide; rewrite ?app_nil_r; try done; exfalso; naive_solver.
Qed.

(** Case analysis on the outermost decisions. *)
Ltac dec := match goal with |- context [if decide ?P then _ else _] => destruct (decide P) end.

(** The three ways the collection changes. *)

Lemma hmas_ok_create h t :
  hmas_ok h -> hmas_tasks_ h !! t_id t = None ->
  let h1 := set_hmas_task (t_id t) t h in
  hmas_ok (if str_empty (t_brief_id t) then h1
           else set_hmas_index (index_push (t_brief_id t) (t_id t) (hmas_tasks_by_brief_ h1)) h1).
Proof.
  intros [Hk Hn Hi] Hfresh h1.
  set (h2 := if str_empty (t_brief_id t) then _ else _).
  assert (Ht : hmas_tasks_ h2 = <[t_id t := t]> (hmas_tasks_ h)) by (unfold h2; by case_match).
  assert (Hb : forall b, bucket b h2 = bucket b h ++
                 (if decide (b = t_brief_id t /\ b <> "") then [t_id t] else [])).
  { intros b. unfold h2. destruct (str_empty (t_brief_id t)) eqn:E.
    - apply str_empty_true in E. rewrite decide_False by naive_solver. by rewrite app_nil_r.
    - apply str_empty_false in E. unfold bucket at 1. simpl. rewrite bucket_push.
      repeat case_decide; rewrite ?app_nil_r; try done; exfalso; naive_solver. }
  assert (Hnew : forall b, t_id t ∉ bucket b h).
  { intros b (_ & t' & Hl & _)%Hi. by rewrite Hfresh in Hl. }
  split.
  - intros id t'. rewrite Ht. intros [[<- <-]|[_ ?]]%lookup_insert_Some; [done|by apply Hk].
  - intros b. rewrite Hb. apply NoDup_app. split_and!; [done| |].
    + intros x Hx. case_decide; [|set_solver]. intros ->%list_elem_of_singleton. by apply (Hnew b).
    + case_decide; [apply NoDup_singleton|constructor].
  - intros b id. rewrite Hb, elem_of_app, Hi, Ht. split.
    + intros [(Hne & t' & Hl & Hbr)|Hin].
      * split; [done|]. exists t'. split; [|done]. rewrite lookup_insert_ne; [done|]. intros <-. congruence.
      * case_decide as Hd; [|set_solver]. apply list_elem_of_singleton in Hin as ->.
        destruct Hd as [-> Hne]. split; [done|]. exists t. by rewrite lookup_insert_eq.
    + intros (Hne & t' & Hl & Hbr). apply lookup_insert_Some in Hl as [[<- <-]|[Hid Hl]].
      * right. rewrite decide_True by done. set_solver.
      * left. eauto.
Qed.

Lemma hmas_ok_update h old t :
  hmas_ok h -> hmas_tasks_ h !! t_id t = Some old ->
  let h1 := set_hmas_task (t_id t) t h in
  hmas_ok (set_hmas_index
    (reindex (t_brief_id old) (t_brief_id t) (t_id t) (hmas_tasks_by_brief_ h1)) h1).
Proof.
  intros [Hk Hn Hi] Hold h1. set (h2 := set_hmas_index _ _).
  assert (Hb : forall b, bucket b h2 =
    (if decide (t_brief_id old <> t_brief_id t /\ b = t_brief_id old /\ t_brief_id old <> "")
     then filter (fun x => x <> t_id t) (bucket b h) else bucket b h) ++
    (if decide (t_brief_id old <> t_brief_id t /\ b = t_brief_id t /\ t_brief_id t <> "")
     then [t_id t] else [])).
  { intros b. unfold bucket at 1. simpl. apply bucket_reindex. }
  assert (Hin : forall b, t_id t ∈ bucket b h <-> b <> "" /\ b = t_brief_id old).
  { intros b. rewrite Hi. rewrite Hold. naive_solver. }
  split.
  - intros id t'. simpl. intros [[<- <-]|[_ ?]]%lookup_insert_Some; [done|by apply Hk].
  - intros b. rewrite Hb. apply NoDup_app. split_and!.
    + dec; [by apply NoDup_filter|done].
    + intros x Hx Hx2.
      destruct (decide (_ /\ b = t_brief_id t /\ _)) as [Hd2|]; [|set_solver]. apply list_elem_of_singleton in Hx2 as ->.
      destruct Hd2 as (Hne & -> & _). rewrite decide_False in Hx by naive_solver.
      apply Hin in Hx. naive_solver.
    + dec; [apply NoDup_singleton|constructor].
  - intros b id. rewrite Hb, elem_of_app. simpl. destruct (decide (id = t_id t)) as [->|Hid].
    + transitivity (b <> "" /\ b = t_brief_id t).
      2: { rewrite lookup_insert_eq. clear. naive_solver. }
      specialize (Hin b). clear -Hin. revert Hin. generalize (t_brief_id old) (t_brief_id t).
      intros o n Hin. repeat dec; rewrite ?list_elem_of_filter, ?Hin, ?list_elem_of_singleton,
        ?elem_of_nil; clear Hin; destruct (decide (o = n)); naive_solver.
    + rewrite lookup_insert_ne by done. rewrite <- Hi. clear -Hid.
      repeat dec; rewrite ?list_elem_of_filter, ?list_elem_of_singleton, ?elem_of_nil; naive_solver.
Qed.

(** ** The operations *)

Section hmas_facts.
Context {G N : Type} (gh_ : option (IGitHubClient G)) `{JT : !JsonText, HO : !HashOrder}.
Abbreviation W := (World G N).
Implicit Types w : W.

(** Hydrated, with a consistent index. *)
Definition warm (w : W) : Prop := hmas_tasks_loaded_ (hmas w) = true.
Definition hmas_inv (w : W) : Prop := warm w /\ hmas_ok (hmas w).

(** The task stored under [id]. *)
Definition task_at (w : W) (id : string) : option HmasTask := hmas_tasks_ (hmas w) !! id.

Lemma run_ensure_hmas w : warm w -> ensure_hmas_tasks_loaded_ gh_ w = (w, inr tt).
Proof. intros Hw. unfold ensure_hmas_tasks_loaded_, get. mstep. by rewrite Hw. Qed.

(** Tasks and index untouched; issue numbers may have been recorded. *)
Definition same_hmas (w w' : W) : Prop :=
  hmas_tasks_ (hmas w') = hmas_tasks_ (hmas w) /\
  hmas_tasks_by_brief_ (hmas w') = hmas_tasks_by_brief_ (hmas w) /\
  hmas_tasks_loaded_ (hmas w') = hmas_tasks_loaded_ (hmas w).
#[global] Instance same_hmas_preorder : PreOrder same_hmas.
Proof. split; unfold same_hmas; [done|]. intros ??? (->&->&->) (->&->&->). done. Qed.

Lemma same_hmas_ok w w' : same_hmas w w' -> hmas_inv w -> hmas_inv w'.
Proof.
  intros (Ht & Hx & Hl) [Hw [Hk Hn Hi]]. split; [unfold warm; by rewrite Hl|].
  split; unfold bucket in *; rewrite ?Ht, ?Hx; eauto.
Qed.

Lemma hmas_call_gh {A} (m : M G A) : moves same_hmas (call_gh (N := N) m).
Proof. intros w. unfold call_gh, zoom. by destruct (m (w_gh w)). Qed.
Lemma hmas_set_issue id n : moves same_hmas (modify (@upd_hmas G N (set_hmas_issue id n))).
Proof. by intros w. Qed.
#[local] Hint Resolve hmas_call_gh hmas_set_issue : agamemnon.

Lemma hmas_remote id t : moves same_hmas (update_hmas_remote gh_ id t : M W unit).
Proof. unfold update_hmas_remote. destruct gh_; moves. Qed.

Lemma inv_upd f w : hmas_tasks_loaded_ (f (hmas w)) = true -> hmas_ok (f (hmas w)) ->
  hmas_inv (upd_hmas f w).
Proof. by split. Qed.

(** A write of one task and of its bucket, then the write-through. *)
Definition written (old t : HmasTask) (w : W) : W :=
  upd_hmas (fun h => set_hmas_index (reindex (t_brief_id old) (t_brief_id t) (t_id t)
     (hmas_tasks_by_brief_ h)) h) (upd_hmas (set_hmas_task (t_id t) t) w).

Lemma run_update_hmas_task t old w :
  warm w -> task_at w (t_id t) = Some old ->
  exists w' r, update_hmas_task gh_ t w = (w', r) /\ same_hmas (written old t w) w' /\
    (gh_ = None -> w' = written old t w /\ r = inr true).
Proof.
  intros Hw Ht. unfold update_hmas_task. rewrite run_bind, run_ensure_hmas by done. mstep.
  unfold task_at in Ht. rewrite Ht. rewrite run_bind, run_modify. cbv beta iota.
  rewrite run_bind, run_modify. cbv beta iota. fold (written old t w).
  rewrite run_bind. pose proof (hmas_remote (t_id t) t (written old t w)) as Hr.
  destruct (update_hmas_remote gh_ (t_id t) t (written old t w)) as [w' [e|[]]] eqn:E; simpl in Hr.
  - exists w', (inl e). split_and!; [done|apply Hr|]. intros ->. done.
  - exists w', (inr true). split_and!; [done|apply Hr|].
    intros ->. by injection E as <-.
Qed.

Lemma run_update_hmas_missing t w :
  warm w -> task_at w (t_id t) = None -> update_hmas_task gh_ t w = (w, inr false).
Proof.
  intros Hw Ht. unfold update_hmas_task. rewrite run_bind, run_ensure_hmas by done. mstep.
  unfold task_at in Ht. by rewrite Ht.
Qed.

Lemma inv_written old t w : hmas_inv w -> task_at w (t_id t) = Some old -> hmas_inv (written old t w).
Proof. intros [Hw Hok] Ht. split; [done|]. by apply hmas_ok_update. Qed.

Lemma task_at_written old t w id :
  task_at (written old t w) id = if decide (id = t_id t) then Some t else task_at w id.
Proof.
  unfold task_at. simpl. destruct (decide (id = t_id t)) as [->|]; [by rewrite lookup_insert_eq|].
  by rewrite lookup_insert_ne.
Qed.

Lemma task_at_same w w' id : same_hmas w w' -> task_at w' id = task_at w id.
Proof. intros (H & _). unfold task_at. by rewrite H. Qed.

Lemma inv_update_hmas_task t : moves (keeping hmas_inv) (update_hmas_task gh_ t : M W bool).
Proof.
  intros w Hw. destruct (task_at w (t_id t)) as [old|] eqn:E.
  - destruct (run_update_hmas_task t old w) as (w' & r & -> & Hs & _); [apply Hw|done|].
    eapply same_hmas_ok; [done|]. by apply inv_written.
  - by rewrite run_update_hmas_missing by (apply Hw || done).
Qed.

Lemma run_get_hmas id w : warm w -> get_hmas_task gh_ id w = (w, inr (task_at w id)).
Proof. intros Hw. unfold get_hmas_task. by rewrite run_bind, run_ensure_hmas. Qed.

(** Rewriting the state of a task in place (the two state-only updates). *)
Lemma inv_set_in_place id t t' w :
  hmas_inv w -> task_at w id = Some t -> t_id t' = t_id t -> t_brief_id t' = t_brief_id t ->
  hmas_inv (upd_hmas (set_hmas_task id t') w).
Proof.
  intros [Hw Hok] Ht Hid Hb. split; [done|].
  pose proof (ok_keyed _ Hok _ _ Ht) as Hk. rewrite <- Hk, <- Hid.
  assert (Ht' : hmas_tasks_ (hmas w) !! t_id t' = Some t) by (rewrite Hid, Hk; done).
  pose proof (hmas_ok_update (hmas w) t t' Hok Ht') as H. simpl in H. unfold reindex in H.
  by rewrite Hb, str_eqb_refl in H.
Qed.

Lemma inv_update_state id s : moves (keeping hmas_inv) (update_hmas_task_state gh_ id s : M W bool).
Proof.
  intros w Hw. unfold update_hmas_task_state. rewrite run_bind, run_ensure_hmas by apply Hw. mstep.
  destruct (hmas_tasks_ (hmas w) !! id) as [t|] eqn:E; [|done]. rewrite run_bind, run_modify.
  cbv beta iota. set (w1 := upd_hmas _ w). assert (hmas_inv w1) by by eapply inv_set_in_place.
  eapply same_hmas_ok; [|done]. revert w1 H. intros w1 _.
  pose proof (hmas_remote id (set_state s t) w1). rewrite run_bind.
  by destruct (update_hmas_remote gh_ id (set_state s t) w1) as [w2 [|[]]].
Qed.

Lemma inv_escalation id s r :
  moves (keeping hmas_inv) (update_hmas_task_state_and_record_escalation gh_ id s r : M W bool).
Proof.
  intros w Hw. unfold update_hmas_task_state_and_record_escalation.
  rewrite run_bind, run_ensure_hmas by apply Hw. mstep.
  destruct (hmas_tasks_ (hmas w) !! id) as [t|] eqn:E; [|done]. rewrite run_bind, run_modify.
  cbv beta iota. set (t' := set_escalations _ _). set (w1 := upd_hmas _ w).
  assert (hmas_inv w1) as H by by eapply inv_set_in_place.
  eapply same_hmas_ok; [|done]. revert w1 H. intros w1 _.
  pose proof (hmas_remote id t' w1). rewrite run_bind.
  by destruct (update_hmas_remote gh_ id t' w1) as [w2 [|[]]].
Qed.

(** Creation under a fresh id. *)
Definition created (t : HmasTask) (w : W) : W :=
  let w1 := upd_hmas (set_hmas_task (t_id t) t) w in
  if str_empty (t_brief_id t) then w1
  else upd_hmas (fun h => set_hmas_index (index_push (t_brief_id t) (t_id t)
                                            (hmas_tasks_by_brief_ h)) h) w1.

Lemma run_create_hmas_task t w :
  warm w ->
  exists w1 r, create_hmas_task gh_ t w = (match r with inr _ => created t w1 | inl _ => w1 end, r) /\
    same_hmas w w1 /\ (gh_ = None -> w1 = w /\ r = inr tt).
Proof.
  intros Hw. unfold create_hmas_task. rewrite run_bind, run_ensure_hmas by done. cbv beta iota.
  rewrite run_bind. set (m0 := create_hmas_remote gh_ t).
  assert (Hm : moves same_hmas m0) by (unfold m0, create_hmas_remote; destruct gh_; moves).
  specialize (Hm w). destruct (m0 w) as [w1 [e|u]] eqn:E; simpl in Hm.
  - exists w1, (inl e). split_and!; [done|apply Hm..|]. unfold m0. intros ->. by injection E.
  - exists w1, (inr tt). rewrite run_bind, run_modify. cbv beta iota. split_and!; [|apply Hm..|].
    + unfold created. by destruct (str_empty (t_brief_id t)).
    + unfold m0 in E. intros ->. by injection E as <-.
Qed.

Lemma inv_created t w : hmas_inv w -> task_at w (t_id t) = None -> hmas_inv (created t w).
Proof.
  intros [Hw Hok] Hf. unfold created. pose proof (hmas_ok_create (hmas w) t Hok Hf) as H.
  simpl in H. by destruct (str_empty (t_brief_id t)).
Qed.

Lemma task_at_created t w id :
  task_at (created t w) id = if decide (id = t_id t) then Some t else task_at w id.
Proof.
  unfold task_at, created. destruct (str_empty (t_brief_id t)); simpl;
    (destruct (decide (id = t_id t)) as [->|]; [by rewrite lookup_insert_eq|by rewrite lookup_insert_ne]).
Qed.

(** ** Reading through the index *)

Lemma elem_of_scan `{!HashOrderLaw} p (m : gmap string HmasTask) t :
  t ∈ scan p m <-> p t = true /\ exists id, m !! id = Some t.
Proof.
  unfold scan. rewrite list_elem_of_In, List.filter_In, <- list_elem_of_In, list_elem_of_fmap. split.
  - intros [([id t'] & -> & Hin) Hp]. split; [done|]. exists id.
    rewrite hash_order_perm in Hin. by apply elem_of_map_to_list.
  - intros [Hp [id Hid]]. split; [|done]. exists (id, t). split; [done|].
    rewrite hash_order_perm. by apply elem_of_map_to_list.
Qed.

Lemma NoDup_filter_list {A} (p : A -> bool) l : NoDup l -> NoDup (List.filter p l).
Proof. rewrite !NoDup_ListNoDup. apply List.NoDup_filter. Qed.

Lemma NoDup_scan `{!HashOrderLaw} p (m : gmap string HmasTask) :
  (forall id t, m !! id = Some t -> t_id t = id) -> NoDup (scan p m).
Proof.
  intros Hk. apply NoDup_filter_list, (NoDup_fmap_1 t_id).
  assert (Heq : t_id <$> map snd (hash_order m) = (hash_order m).*1).
  { rewrite <- list_fmap_compose. apply list_fmap_ext. intros i [id t] Hin. simpl. apply Hk.
    apply elem_of_map_to_list. rewrite <- hash_order_perm. by eapply list_elem_of_lookup_2. }
  rewrite Heq, hash_order_perm. apply NoDup_fst_map_to_list.
Qed.

Lemma omap_keyed (m : gmap string HmasTask) (ids : list string) :
  (forall id t, m !! id = Some t -> t_id t = id) -> (forall id, id ∈ ids -> is_Some (m !! id)) ->
  t_id <$> omap (fun id => m !! id) ids = ids.
Proof.
  intros Hk. induction ids as [|id ids IH]; intros Hs; [done|].
  destruct (Hs id) as [t Ht]; [set_solver|]. cbn. rewrite Ht. cbn. rewrite (Hk _ _ Ht). f_equal. apply IH. set_solver.
Qed.

Lemma by_brief_scan `{!HashOrderLaw} b w :
  hmas_inv w -> b <> "" ->
  exists l, list_hmas_tasks_by_brief gh_ b w = (w, inr l) /\
       l ≡ₚ scan (fun t => str_eqb (t_brief_id t) b) (hmas_tasks_ (hmas w)).
Proof.
  intros [Hw [Hk Hn Hi]] Hb. unfold list_hmas_tasks_by_brief.
  rewrite run_bind, run_ensure_hmas by done. mstep. eexists. split; [done|].
  set (m := hmas_tasks_ (hmas w)) in *.
  transitivity (omap (fun id => m !! id) (bucket b (hmas w))).
  { unfold bucket. by destruct (hmas_tasks_by_brief_ (hmas w) !! b). }
  apply NoDup_Permutation.
  - apply (NoDup_fmap_1 t_id). rewrite omap_keyed; [apply Hn|done|].
    intros id (_ & t & Ht & _)%Hi. eauto.
  - by apply NoDup_scan.
  - intros t. rewrite elem_of_scan, list_elem_of_omap, str_eqb_true. split.
    + intros (id & (_ & t' & Ht' & Hbr)%Hi & Ht). unfold m in *. rewrite Ht in Ht'.
      injection Ht' as <-. eauto.
    + intros (Hbr & id & Ht). exists id. split; [|done]. apply Hi. eauto.
Qed.
End hmas_facts.
