(* ===== verification/Orchestrator.v ===== *)
(** * The orchestrator

    include/agamemnon/orchestrator.hpp and src/orchestrator.cpp: the lifecycle of HMAS tasks
    from the submission of a brief to completion, over the store, the planning breakdown, the
    state machine and the publisher.  The log lines on stdout and stderr are not modelled. *)

From S2P Require Import Prelude Effects Text Json HmasTypes StateMachine Metrics World Planning.
From S2P Require Import Store HmasStore.

Definition lower_state (s : TaskState) : string := str_map tolower (task_state_to_string s).

Definition layer_token (layer : HmasLayer) : string :=
  match layer with
  | L0_ChiefArchitect => "chief_architect"
  | L1_ComponentLead => "component_lead"
  | L2_ModuleLead => "module_lead"
  | L3_TaskAgent => "task_agent"
  end.

Definition myrmidon_subject (layer : HmasLayer) (task_id : string) : string :=
  "hi.myrmidon." +:+ layer_token layer +:+ "." +:+ task_id.

(** [static_cast<HmasLayer>(static_cast<int>(layer) - 1)], clamped at the root. *)
Definition layer_above (l : HmasLayer) : HmasLayer :=
  match l with
  | L0_ChiefArchitect => L0_ChiefArchitect
  | L1_ComponentLead => L0_ChiefArchitect
  | L2_ModuleLead => L1_ComponentLead
  | L3_TaskAgent => L2_ModuleLead
  end.

Section orchestrator.
Context {G N : Type} (gh_ : option (IGitHubClient G)) (nats_ : NatsPublisher N).
Context `{JT : !JsonText, HO : !HashOrder}.
Abbreviation W := (World G N).
Abbreviation M := (M W).

(** [nats_.publish(subject, payload)] with its result dropped, and [nats_.publish_log]. *)
Definition nats_publish (subject payload : string) : M unit :=
  call_nats (publish nats_ subject payload) ;; mret tt.
Definition nats_log (subject level message : string) (metadata : json) : M unit :=
  call_nats (publish_log nats_ subject level message metadata).

Definition publish_task_state (task : HmasTask) : M unit :=
  payload ← of_result (set_key "brief_id" (JStr (t_brief_id task)) (hmas_task_to_json task));
  dumped ← of_result (jdump (-1) payload);
  nats_publish ("hi.tasks." +:+ lower_state (t_state task)) dumped.

(** The pointer fields added to a dispatched payload. *)
Definition dispatch_payload (task : HmasTask) (payload : json) : result json :=
  payload ← set_key "task_id" (JStr (t_id task)) payload;
  payload ← (if contains "team_id" payload then inr payload
             else set_key "team_id" (JStr "mesh") payload);
  payload ← set_key "role" (JStr (mesh_role_name (t_layer task))) payload;
  payload ← set_key "domain" (JStr "pipeline") payload;
  if (t_issue task =? 0)%Z then inr payload else set_key "issue" (JInt (t_issue task)) payload.

Definition dispatch_task (task : HmasTask) (payload : json) : M unit :=
  payload ← of_result (dispatch_payload task payload);
  dumped ← of_result (jdump (-1) payload);
  nats_publish (myrmidon_subject (t_layer task) (t_id task)) dumped ;;
  nats_publish (mesh_dispatch_subject "pipeline" (mesh_role_name (t_layer task)) (t_id task)) dumped.

Definition submit (brief : TaskBrief) : M string :=
  id ← (if str_empty (b_id brief) then generate_uuid else mret (b_id brief));
  let brief := {| b_id := id; b_title := b_title brief; b_description := b_description brief;
                  b_repos := b_repos brief; b_modules := b_modules brief;
                  b_impls := b_impls brief |} in
  create_task_brief gh_ brief ;;
  tasks ← decompose brief;
  for_each tasks (create_hmas_task gh_) ;;
  match tasks with
  | [] => mret tt
  | t0 :: _ =>
      root_opt ← get_hmas_task gh_ (t_id t0);
      match root_opt with
      | None => mret tt
      | Some root =>
          r ← try_transition root Submit;
          r ← try_transition r.1 Delegate;
          let root := r.1 in
          update_hmas_task gh_ root ;;
          publish_task_state root ;;
          payload ← of_result (set_key "brief_id" (JStr id) (hmas_task_to_json root));
          dispatch_task root payload ;;
          nats_log "hi.logs.agamemnon.brief_submitted" "info" ("Brief submitted: " +:+ id)
            (jobj [("brief_id", JStr id); ("root_task_id", JStr (t_id root));
                   ("task_count", JInt (Z.of_nat (length tasks)))])
      end
  end ;;
  mret id.

(** Delegate, directly for a leaf and through Submit for a coordination node. *)
Definition delegate_walk (task : HmasTask) : M (HmasTask * bool) :=
  r ← try_transition task Delegate;
  if r.2 : bool then mret r else
  if bool_decide (t_state r.1 = Pending) then
    r' ← try_transition r.1 Submit;
    if r'.2 : bool then try_transition r'.1 Delegate else mret (r'.1, false)
  else mret r.

Definition delegate (task_id : string) : M bool :=
  task_opt ← get_hmas_task gh_ task_id;
  match task_opt with
  | None => mret false
  | Some task =>
      r ← delegate_walk task;
      if negb r.2 then mret false else
      update_hmas_task gh_ r.1 ;;
      publish_task_state r.1 ;;
      dispatch_task r.1 (hmas_task_to_json r.1) ;;
      mret true
  end.

Definition escalate (task_id reason : string) : M bool :=
  task_opt ← get_hmas_task gh_ task_id;
  match task_opt with
  | None => mret false
  | Some task =>
      r ← try_transition task Escalate;
      if negb r.2 then mret false else
      now ← now_iso8601;
      let rec := {| e_task_id := task_id; e_reason := reason; e_escalated_at := now;
                    e_from_layer := t_layer r.1 |} in
      let task := set_escalations (t_escalations r.1 ++ [rec]) r.1 in
      update_hmas_task gh_ task ;;
      publish_task_state task ;;
      let parent_layer := layer_above (t_layer task) in
      payload ← of_result (set_key "escalation_reason" (JStr reason) (hmas_task_to_json task));
      dumped ← of_result (jdump (-1) payload);
      nats_publish (myrmidon_subject parent_layer (t_id task)) dumped ;;
      nats_publish (mesh_dispatch_subject "pipeline" (mesh_role_name parent_layer) (t_id task)) dumped ;;
      nats_log "hi.logs.agamemnon.task_escalated" "warn" ("Task escalated: " +:+ task_id)
        (jobj [("task_id", JStr task_id); ("reason", JStr reason);
               ("from_layer", JStr (hmas_layer_to_string (t_layer task)))]) ;;
      mret true
  end.

(** The loop over [candidate.blocked_by], stopping at the first blocker that is not done. *)
Fixpoint all_clear (blockers : list string) : M bool :=
  match blockers with
  | [] => mret true
  | blocker_id :: blockers =>
      blocker_opt ← get_hmas_task gh_ blocker_id;
      match blocker_opt with
      | Some b => if bool_decide (t_state b = Completed) then all_clear blockers else mret false
      | None => mret false
      end
  end.

(** One child of [delegate_unblocked_children]. *)
Definition delegate_if_clear (child_id : string) : M unit :=
  candidate_opt ← get_hmas_task gh_ child_id;
  match candidate_opt with
  | None => mret tt
  | Some candidate =>
      if negb (bool_decide (t_state candidate = Pending)) then mret tt else
      clear ← all_clear (t_blocked_by candidate);
      when clear (delegate (t_id candidate) ;; mret tt)
  end.

Definition delegate_unblocked_children (completed_task_id : string) : M unit :=
  completed_opt ← get_hmas_task gh_ completed_task_id;
  match completed_opt with
  | None => mret tt
  | Some completed => for_each (t_child_task_ids completed) delegate_if_clear
  end.

(** ** Worker events *)

(** [if (task.state == s) state_machine_.try_transition(task, e)]. *)
Definition step_from (s : TaskState) (e : TaskEvent) (task : HmasTask) : M HmasTask :=
  if bool_decide (t_state task = s) then r ← try_transition task e; mret r.1 else mret task.

(** [if (Pending) if (!try(Delegate)) try(Submit)]. *)
Definition step_pending (task : HmasTask) : M HmasTask :=
  if bool_decide (t_state task = Pending) then
    r ← try_transition task Delegate;
    if r.2 : bool then mret r.1 else r' ← try_transition r.1 Submit; mret r'.1
  else mret task.

(** The walks of [on_myrmidon_completion], [on_myrmidon_started] and [on_myrmidon_failed]. *)
Definition completion_walk (task : HmasTask) : M HmasTask :=
  task ← step_from Escalated Retry task;
  task ← step_pending task;
  task ← step_from Decomposing Delegate task;
  task ← step_from Delegated Start task;
  r ← try_transition task Complete;
  mret r.1.

Definition started_walk (task : HmasTask) : M HmasTask :=
  task ← step_from Escalated Retry task;
  task ← step_pending task;
  task ← step_from Decomposing Delegate task;
  r ← try_transition task Start;
  mret r.1.

Definition failed_walk (task : HmasTask) : M HmasTask :=
  task ← step_pending task;
  task ← step_from Decomposing Delegate task;
  task ← step_from Delegated Start task;
  r ← try_transition task Fail_;
  mret r.1.

(** The task id of a completion message: the mesh envelope first, then the flat form. *)
Definition completion_task_id (msg : json) : result string :=
  let data := default JNull (obj_get "data" (items msg)) in
  if contains "data" msg && contains "task_id" data then
    id ← at_key "task_id" data; get_string id
  else if contains "task_id" msg then id ← at_key "task_id" msg; get_string id
  else inr "".

Definition on_myrmidon_completion (payload : string) : M unit :=
  try_catch
    (msg ← of_result (jparse payload);
     task_id ← of_result (completion_task_id msg);
     if str_empty task_id then mret tt else
     task_opt ← get_hmas_task gh_ task_id;
     match task_opt with
     | None => mark_task_completed gh_ task_id
     | Some task =>
         task ← completion_walk task;
         update_hmas_task gh_ task ;;
         publish_task_state task ;;
         delegate_unblocked_children task_id ;;
         when (bool_decide (t_layer task = L0_ChiefArchitect))
           (nats_log "hi.logs.agamemnon.brief_completed" "info"
              ("Brief completed: " +:+ t_brief_id task)
              (jobj [("brief_id", JStr (t_brief_id task)); ("root_task_id", JStr task_id)]))
     end)
    (fun _ => mret tt).

Definition on_myrmidon_started (payload : string) : M unit :=
  try_catch
    (msg ← of_result (jparse payload);
     task_id ← of_result (value_str "task_id" "" msg);
     if str_empty task_id then mret tt else
     task_opt ← get_hmas_task gh_ task_id;
     match task_opt with
     | None => mret tt
     | Some task =>
         task ← started_walk task;
         agent_id ← of_result (value_str "agent_id" "" msg);
         exec_host ← of_result (value_str "exec_host" "" msg);
         let task :=
           if str_empty agent_id then task
           else set_lead (if str_empty exec_host then agent_id
                          else agent_id +:+ "@" +:+ exec_host) task in
         update_hmas_task gh_ task ;;
         publish_task_state task ;;
         nats_log "hi.logs.agamemnon.task_started" "info" ("Task started: " +:+ task_id)
           (jobj [("task_id", JStr task_id); ("agent_id", JStr agent_id);
                  ("exec_host", JStr exec_host)])
     end)
    (fun _ => mret tt).

Definition on_myrmidon_failed (payload : string) : M unit :=
  try_catch
    (msg ← of_result (jparse payload);
     task_id ← of_result (value_str "task_id" "" msg);
     if str_empty task_id then mret tt else
     task_opt ← get_hmas_task gh_ task_id;
     match task_opt with
     | None => mret tt
     | Some task =>
         task ← failed_walk task;
         update_hmas_task gh_ task ;;
         publish_task_state task ;;
         error ← of_result (value_json "error" (JObj []) msg);
         nats_log "hi.logs.agamemnon.task_failed" "warn" ("Task failed: " +:+ task_id)
           (jobj [("task_id", JStr task_id); ("error", error)])
     end)
    (fun _ => mret tt).

(** ** Epics, splits and plans *)

Definition on_epic_registered (payload : string) : M string :=
  try_catch
    (msg ← of_result (jparse payload);
     epic ← of_result (value_json "epic" (JObj []) msg);
     repo ← of_result (value_str "repo" "" epic);
     key ← of_result (value_str "key" "" epic);
     issue ← of_result (value_int "issue" 0 epic);
     if str_empty repo || str_empty key || (issue =? 0)%Z then mret "" else
     brief_id ← generate_uuid;
     let brief := {| b_id := brief_id; b_title := "[epic] " +:+ key;
                     b_description := "Decompose epic " +:+ repo +:+ "#" +:+ to_string issue;
                     b_repos := []; b_modules := ∅; b_impls := ∅ |} in
     create_task_brief gh_ brief ;;
     root_id ← generate_uuid;
     now ← now_iso8601;
     let root := new_task root_id brief_id "" L0_ChiefArchitect repo "" (b_title brief)
                   (b_description brief) issue now in
     create_hmas_task gh_ root ;;
     r ← try_transition root Submit;
     let root := r.1 in
     update_hmas_task gh_ root ;;
     publish_task_state root ;;
     dispatch ← of_result (set_key "task_id" (JStr (t_id root)) (hmas_task_to_json root));
     team_id ← of_result (value_str "team_id" "mesh" msg);
     dispatch ← of_result (set_key "team_id" (JStr team_id) dispatch);
     dispatch ← of_result (set_key "epic" epic dispatch);
     dispatch ← of_result (set_key "brief_id" (JStr brief_id) dispatch);
     dispatch_task root dispatch ;;
     nats_log "hi.logs.agamemnon.epic_registered" "info" ("Epic registered: " +:+ key)
       (jobj [("brief_id", JStr brief_id); ("root_task_id", JStr (t_id root));
              ("repo", JStr repo); ("issue", JInt issue)]) ;;
     mret brief_id)
    (fun _ => mret "").

(** The fields of a subtask: title, issue, description with its base branch, extra blockers. *)
Definition subtask_description (sub : json) : result string :=
  description ← value_str "description" "" sub;
  base_branch ← value_str "base_branch" "" sub;
  inr (if str_empty base_branch then description
       else description +:+ (if str_empty description then "" else nl) +:+ "Base branch: "
            +:+ base_branch).

Definition subtask_blockers (sub : json) : list string :=
  omap (fun b => match b with JStr s => Some s | _ => None end)
    (elements_of (default JNull (obj_get "blocked_by" (items sub)))).

Definition split_error (what : string) : json := jobj [("error", JStr what)].

(** The loop of [split_task]: an invalid subtask returns at once, with the children created so
    far left in the store. *)
Fixpoint split_loop (ts prev_id : string) (original : HmasTask) (created : list string)
    (subtasks : list json) {struct subtasks} : M (json + HmasTask * list string) :=
  match subtasks with
  | [] => mret (inr (original, created))
  | sub :: subtasks =>
      let err := split_error "each subtask needs a non-empty 'title'" in
      if negb (is_object sub) then mret (inl err) else
      title ← of_result (value_str "title" "" sub);
      if str_empty title then mret (inl err) else
      id ← generate_uuid;
      issue ← of_result (value_int "issue" 0 sub);
      description ← of_result (subtask_description sub);
      let child := new_task id (t_brief_id original) (t_parent_task_id original)
        (t_layer original) (t_repo original) (t_module original) title description issue ts in
      let child := set_edges
        ([t_id original] ++ (if str_empty prev_id then [] else [prev_id]) ++ subtask_blockers sub)
        [] child in
      create_hmas_task gh_ child ;;
      split_loop ts id (push_child id original) (created ++ [id]) subtasks
  end.

Definition split_task (task_id : string) (subtasks : json) : M json :=
  task_opt ← get_hmas_task gh_ task_id;
  match task_opt with
  | None => mret (split_error "task not found")
  | Some original =>
      if negb (is_array subtasks) || jempty subtasks then
        mret (split_error "subtasks must be a non-empty array")
      else
        ts ← now_iso8601;
        r ← split_loop ts "" original [] (elements_of subtasks);
        match r with
        | inl err => mret err
        | inr (original, created) =>
            update_hmas_task gh_ original ;;
            let reply := jobj [("task_id", JStr task_id); ("created", strings_to_json created)] in
            nats_log "hi.logs.agamemnon.task_split" "info" ("Task split: " +:+ task_id) reply ;;
            mret reply
        end
  end.

(** The root of a plan is the last parentless task of the listing. *)
Definition plan_root_json (tasks : list HmasTask) : json :=
  foldl (fun r t => if str_empty (t_parent_task_id t) then hmas_task_to_json t else r) JNull tasks.

Definition get_plan (brief_id : string) : M json :=
  tasks ← list_hmas_tasks_by_brief gh_ brief_id;
  let full := jobj [("brief_id", JStr brief_id); ("root", plan_root_json tasks);
                    ("tasks", JArr (map hmas_task_to_json tasks))] in
  match tasks with
  | [] =>
      brief_opt ← get_task_brief gh_ brief_id;
      match brief_opt with
      | Some brief =>
          mret (jobj [("brief_id", JStr brief_id); ("root", JNull); ("tasks", JArr []);
                      ("brief", task_brief_to_json brief)])
      | None => mret full
      end
  | _ => mret full
  end.
End orchestrator.
