(* ===== verification/OrchestratorFacts.v ===== *)
(** * The orchestrator: behaviour

    What the orchestrator does to the tasks of the store (Orchestrator.v): the walks of the
    worker events, the delegation of unblocked children, completion end to end. *)

From S2P Require Import Prelude Effects Text Json Utf8 JsonCodec HmasTypes StateMachine Metrics World.
From S2P Require Import Planning Utf8Facts Store StoreFacts HmasStore HmasFacts Orchestrator.

Lemma set_state_twice a b t : set_state a (set_state b t) = set_state a t.
Proof. done. Qed.

Section orchestrator_facts.
Context {G N : Type} (gh_ : option (IGitHubClient G)) (nats_ : NatsPublisher N).
Context `{JT : !JsonText, HO : !HashOrder}.
Abbreviation W := (World G N).
Implicit Types (w : W) (t : HmasTask).

(** ** The walks *)

(** The clock after one reading. *)
Definition ticked (w : W) : W := set_env (clock_next (w_env w)) w.

Definition finish (s : TaskState) (w : W) (t : HmasTask) : HmasTask :=
  set_completed_at (time_of (w_env w)) (set_state s t).

Lemma run_delegate_walk t w :
  t_state t = Pending -> delegate_walk t w = (w, inr (set_state Delegated t, true)).
Proof.
  intros Hs. unfold delegate_walk. rewrite run_bind, try_transition_spec, Hs. simpl.
  destruct (decide (t_layer t = L3_TaskAgent)) as [|Hn]; simpl; [done|].
  rewrite bool_decide_true by done. rewrite run_bind, try_transition_spec, Hs. simpl.
  by rewrite try_transition_spec.
Qed.

Lemma run_walks t w :
  (completion_walk t w =
   if terminal (t_state t) then (w, inr t) else (ticked w, inr (finish Completed w t))) /\
  (started_walk t w =
   if terminal (t_state t) then (w, inr t) else (w, inr (set_state InProgress t))) /\
  (failed_walk t w =
   if terminal (t_state t) then (w, inr t) else (ticked w, inr (finish Failed w t))).
Proof.
  destruct t as [i b p ly st ? ? ? ? ? ? ? ? ? ? ?]; split_and!; destruct st; destruct ly; reflexivity.
Qed.

(** ** Delegation *)

(** Every blocker of [t] is a stored task that completed. *)
Definition clear (w : W) (t : HmasTask) : Prop :=
  forall b, b ∈ t_blocked_by t -> exists bt, task_at w b = Some bt /\ t_state bt = Completed.

(** [id] was released between [w] and [w']: pending and unblocked before, delegated after. *)
Definition released (w w' : W) (id : string) : Prop :=
  exists t, task_at w id = Some t /\ t_state t = Pending /\ clear w t /\
       task_at w' id = Some (set_state Delegated t).

(** Nothing happens to the tasks but the release of some of [cs]. *)
Definition releases (cs : list string) (w w' : W) : Prop :=
  hmas_inv w ->
  hmas_inv w' /\ forall id, task_at w' id = task_at w id \/ (id ∈ cs /\ released w w' id).

Lemma completed_before cs w w' b bt :
  hmas_inv w -> releases cs w w' -> task_at w' b = Some bt -> t_state bt = Completed ->
  task_at w b = Some bt.
Proof.
  intros Hw Hr Hb Hs. destruct (Hr Hw) as [_ Hch]. destruct (Hch b) as [<-|(_ & t & _ & _ & _ & Ht)];
    [done|]. rewrite Hb in Ht. by injection Ht as ->.
Qed.

#[global] Instance releases_preorder cs : PreOrder (releases cs).
Proof.
  split.
  - intros w Hw. by eauto.
  - intros w1 w2 w3 H12 H23 Hw1. destruct (H12 Hw1) as [Hw2 C12]. destruct (H23 Hw2) as [Hw3 C23].
    split; [done|]. intros id.
    destruct (C23 id) as [E23|(Hin & t & Ht & Hp & Hcl & Ht')].
    + rewrite E23. destruct (C12 id) as [?|(Hin & t & Ht & Hp & Hcl & Ht')]; [by left|right].
      split; [done|]. exists t. by rewrite E23.
    + destruct (C12 id) as [E12|(_ & u & _ & _ & _ & Hu)].
      2: { rewrite Ht in Hu. by injection Hu as ->. }
      right. split; [done|]. exists t. rewrite <- E12. split_and!; [done|done| |done].
      intros b Hb. destruct (Hcl b Hb) as (bt & Hbt & Hs). exists bt. split; [|done].
      by eapply completed_before.
Qed.

Lemma releases_same {A} (m : M W A) cs : moves same_hmas m -> moves (releases cs) m.
Proof.
  intros Hm w Hw. specialize (Hm w). split; [by eapply same_hmas_ok|].
  intros id. left. by apply task_at_same.
Qed.

Lemma hmas_call_nats {A} (m : M N A) : moves same_hmas (call_nats (G := G) m).
Proof. intros w. unfold call_nats, zoom. by destruct (m (w_nats w)). Qed.
#[local] Hint Resolve hmas_call_nats : agamemnon.

Lemma hmas_publish_state t : moves same_hmas (publish_task_state nats_ t : M W unit).
Proof. unfold publish_task_state, nats_publish. moves. Qed.
Lemma hmas_dispatch t p : moves same_hmas (dispatch_task nats_ t p : M W unit).
Proof. unfold dispatch_task, nats_publish. moves. Qed.
Lemma hmas_log a b c d : moves same_hmas (nats_log nats_ a b c d : M W unit).
Proof. unfold nats_log. moves. Qed.
#[local] Hint Resolve hmas_publish_state hmas_dispatch hmas_log : agamemnon.

Lemma run_all_clear bs w :
  warm w -> exists r, all_clear gh_ bs w = (w, inr r) /\
    (r = true <-> forall b, b ∈ bs -> exists bt, task_at w b = Some bt /\ t_state bt = Completed).
Proof.
  intros Hw. induction bs as [|b bs (r & IHr & IH)]; [exists true; split; [done|]; set_solver|].
  cbn [all_clear]. rewrite run_bind, run_get_hmas by done. cbv beta iota.
  destruct (task_at w b) as [bt|] eqn:Eb.
  - destruct (bool_decide (t_state bt = Completed)) eqn:Es.
    + exists r. split; [done|]. rewrite IH. apply bool_decide_eq_true in Es. split.
      * intros H b' [->|Hb']%elem_of_cons; eauto.
      * intros H b' Hb'. apply H. by right.
    + exists false. split; [done|]. apply bool_decide_eq_false in Es. split; [done|].
      intros H. destruct (H b) as (bt' & Hb' & Hs); [left|]. congruence.
  - exists false. split; [done|]. split; [done|]. intros H. destruct (H b) as (? & ? & _); [left|].
    congruence.
Qed.

(** Delegating a pending task: the write, then what is published. *)
Lemma run_delegate t w id :
  hmas_inv w -> task_at w id = Some t -> t_state t = Pending ->
  exists w' r, delegate gh_ nats_ id w = (w', r) /\ hmas_inv w' /\
    (forall id', task_at w' id' = if decide (id' = id) then Some (set_state Delegated t)
                                  else task_at w id') /\
    match r with inr b => b = true | inl _ => True end.
Proof.
  intros Hw Ht Hp. pose proof (ok_keyed _ (proj2 Hw) _ _ Ht) as Hid.
  unfold delegate. rewrite run_bind, run_get_hmas by apply Hw. cbv beta iota. rewrite Ht.
  rewrite run_bind, run_delegate_walk by done. cbv beta iota. simpl (negb _). cbv iota.
  rewrite run_bind. simpl fst. set (t' := set_state Delegated t).
  destruct (run_update_hmas_task gh_ t' t w) as (w1 & r1 & -> & Hs & _);
    [apply Hw|simpl; by rewrite Hid|].
  assert (Hw1 : hmas_inv w1).
  { eapply same_hmas_ok; [done|]. apply inv_written; [done|]. simpl. by rewrite Hid. }
  assert (Ht1 : forall id', task_at w1 id' = if decide (id' = id) then Some t' else task_at w id').
  { intros id'. rewrite (task_at_same _ _ _ Hs), task_at_written. simpl. by rewrite Hid. }
  destruct r1 as [e|b]; [exists w1, (inl e); by split_and!|].
  set (m := publish_task_state nats_ t' ;; dispatch_task nats_ t' (hmas_task_to_json t') ;; mret true).
  assert (Hm : moves same_hmas m) by (unfold m; moves). specialize (Hm w1).
  destruct (m w1) as [w2 r] eqn:E. exists w2, r. split; [done|]. split; [by eapply same_hmas_ok|].
  split.
  - intros id'. by rewrite (task_at_same _ _ _ Hm).
  - destruct r as [|b']; [done|]. revert E. unfold m. rewrite run_bind.
    destruct (publish_task_state nats_ t' w1) as [w3 [|[]]]; [done|]. rewrite run_bind.
    destruct (dispatch_task nats_ t' _ w3) as [w4 [|[]]]; [done|]. by intros [= _ <-].
Qed.

(** One child: released exactly when it is pending and clear. *)
Lemma run_delegate_if_clear c w :
  hmas_inv w ->
  exists w' r, delegate_if_clear gh_ nats_ c w = (w', r) /\ releases [c] w w' /\
    (forall t, task_at w c = Some t -> t_state t = Pending -> clear w t ->
       task_at w' c = Some (set_state Delegated t)).
Proof.
  intros Hw. unfold delegate_if_clear. rewrite run_bind, run_get_hmas by apply Hw. cbv beta iota.
  destruct (task_at w c) as [t|] eqn:Ec; [|exists w, (inr tt); split_and!; [done|reflexivity|done]].
  destruct (bool_decide (t_state t = Pending)) eqn:Ep; simpl.
  2: { apply bool_decide_eq_false in Ep. exists w, (inr tt).
       split_and!; [done|reflexivity|]. intros t' [= <-]. done. }
  apply bool_decide_eq_true in Ep.
  destruct (run_all_clear (t_blocked_by t) w) as (r & Hr & Hcl); [apply Hw|].
  rewrite run_bind, Hr. cbv beta iota. destruct r; simpl.
  - pose proof (ok_keyed _ (proj2 Hw) _ _ Ec) as Hid. rewrite run_bind, Hid.
    destruct (run_delegate t w c Hw Ec Ep) as (w' & r & -> & Hw' & Ht' & _).
    exists w', (match r with inl e => inl e | inr _ => inr tt end). split_and!.
    + by destruct r.
    + intros _. split; [done|]. intros id. rewrite Ht'. destruct (decide (id = c)) as [->|]; [right|by left].
      split; [left|]. exists t. rewrite Ht', decide_True by done. split_and!; try done. exact (proj1 Hcl eq_refl).
    + intros t2 [= <-] _ _. by rewrite Ht', decide_True.
  - exists w, (inr tt). split_and!; [done|reflexivity|]. intros t2 [= <-] _ Hc. pose proof (proj2 Hcl Hc). done.
Qed.

Lemma releases_mono cs cs' w w' : (forall c, c ∈ cs -> c ∈ cs') -> releases cs w w' -> releases cs' w w'.
Proof.
  intros Hs Hr Hw. destruct (Hr Hw) as [Hw' Hch]. split; [done|]. intros id.
  destruct (Hch id) as [?|[? ?]]; auto.
Qed.

Lemma releases_loop cs : moves (releases cs) (for_each cs (delegate_if_clear gh_ nats_)).
Proof.
  apply moves_for_each_in; [tc_solve|]. intros c Hc w Hw.
  destruct (run_delegate_if_clear c w Hw) as (w' & r & -> & Hr & _).
  apply (releases_mono [c]); [by intros ? ->%list_elem_of_singleton|done..].
Qed.

(** A task that is not pending any more is left alone. *)
Lemma released_once cs w w' id t :
  hmas_inv w -> releases cs w w' -> task_at w id = Some t -> t_state t <> Pending ->
  task_at w' id = Some t.
Proof.
  intros Hw Hr Ht Hs. destruct (Hr Hw) as [_ Hch].
  destruct (Hch id) as [->|(_ & u & Hu & Hp & _)]; [done|]. congruence.
Qed.

Lemma clear_after cs w w' t : hmas_inv w -> releases cs w w' -> clear w t -> clear w' t.
Proof.
  intros Hw Hr Hc b Hb. destruct (Hc b Hb) as (bt & Hbt & Hs). exists bt. split; [|done].
  eapply released_once; [done|done|done|]. by rewrite Hs.
Qed.

(** A loop that returns has released every pending and clear child. *)
Lemma loop_complete cs w w' :
  hmas_inv w -> for_each cs (delegate_if_clear gh_ nats_) w = (w', inr tt) ->
  forall c t, c ∈ cs -> task_at w c = Some t -> t_state t = Pending -> clear w t ->
    task_at w' c = Some (set_state Delegated t).
Proof.
  revert w. induction cs as [|x cs IH]; intros w Hw Hrun c t Hc Ht Hp Hcl; [set_solver|].
  cbn [for_each] in Hrun. rewrite run_bind in Hrun.
  destruct (run_delegate_if_clear x w Hw) as (w1 & r & Hx & Hr & Hdone). rewrite Hx in Hrun.
  destruct r as [e|u]; [done|]. pose proof (Hr Hw) as [Hw1 Hch].
  assert (Hrest : releases cs w1 w') by (pose proof (releases_loop cs w1) as H; by rewrite Hrun in H).
  assert (Hdel : task_at w1 c = Some (set_state Delegated t) -> task_at w' c = Some (set_state Delegated t)).
  { intros H1. eapply (released_once cs w1); [done|done|done|]. done. }
  apply elem_of_cons in Hc as [->|Hc]; [by apply Hdel, Hdone|].
  destruct (Hch c) as [E|(_ & u' & Hu & _ & _ & Hu')].
  - eapply IH; [done|done|done|by rewrite E|done|]. by eapply (clear_after _ w).
  - apply Hdel. rewrite Ht in Hu. by injection Hu as <-.
Qed.

(** ** Completion *)

Lemma releases_children id w t :
  hmas_inv w -> task_at w id = Some t ->
  releases (t_child_task_ids t) w (fst (delegate_unblocked_children gh_ nats_ id w)).
Proof.
  intros Hw Ht. unfold delegate_unblocked_children. rewrite run_bind, run_get_hmas by apply Hw.
  cbv beta iota. rewrite Ht. apply releases_loop.
Qed.

(** What a completion event does to the tasks: the task completes now, and nothing else
    happens but the release of children whose blockers are all completed. *)
Definition completes (id : string) (t : HmasTask) (w w' : W) : Prop :=
  hmas_inv w' /\ task_at w' id = Some (finish Completed w t) /\
  forall id', id' <> id ->
    task_at w' id' = task_at w id' \/
    id' ∈ t_child_task_ids t /\
    exists u, task_at w id' = Some u /\ t_state u = Pending /\
         task_at w' id' = Some (set_state Delegated u) /\ clear w' u.

Lemma completes_write id t w w1 w' :
  hmas_inv w1 ->
  (forall id', task_at w1 id' = if decide (id' = id) then Some (finish Completed w t) else task_at w id') ->
  releases (t_child_task_ids t) w1 w' -> completes id t w w'.
Proof.
  intros Hw1 Ht1 Hr. destruct (Hr Hw1) as [Hw' Hch]. split_and!; [done| |].
  - eapply (released_once _ w1); [done|done|by rewrite Ht1, decide_True|done].
  - intros id' Hne. destruct (Hch id') as [->|(Hin & u & Hu & Hp & Hc & Hu')].
    + left. by rewrite Ht1, decide_False.
    + right. split; [done|]. exists u. rewrite Ht1, decide_False in Hu by done.
      split_and!; try done. by eapply (clear_after _ w1).
Qed.

(** The part of the handler after the walk. *)
Lemma completion_tail id t w w0 :
  hmas_inv w0 -> (forall id', task_at w0 id' = task_at w id') -> task_at w id = Some t ->
  let ft := finish Completed w t in
  completes id t w
    (fst ((update_hmas_task gh_ ft ;; publish_task_state nats_ ft ;;
           delegate_unblocked_children gh_ nats_ id ;;
           when (bool_decide (t_layer ft = L0_ChiefArchitect))
             (nats_log nats_ "hi.logs.agamemnon.brief_completed" "info"
                ("Brief completed: " +:+ t_brief_id ft)
                (jobj [("brief_id", JStr (t_brief_id ft)); ("root_task_id", JStr id)]))) w0)).
Proof.
  intros Hw0 Hsame Ht ft. rewrite <- Hsame in Ht.
  pose proof (ok_keyed _ (proj2 Hw0) _ _ Ht) as Hid. rewrite run_bind.
  destruct (run_update_hmas_task gh_ ft t w0) as (w1 & r1 & -> & Hs & _);
    [apply Hw0|simpl; by rewrite Hid|].
  assert (Hw1 : hmas_inv w1).
  { eapply same_hmas_ok; [done|]. apply inv_written; [done|]. simpl. by rewrite Hid. }
  assert (Ht1 : forall id', task_at w1 id' = if decide (id' = id) then Some ft else task_at w id').
  { intros id'. rewrite (task_at_same _ _ _ Hs), task_at_written. simpl. by rewrite Hid, Hsame. }
  apply (completes_write id t w w1); [done|done|].
  destruct r1 as [e|b]; [reflexivity|]. rewrite run_bind.
  pose proof (releases_same _ (t_child_task_ids t) (hmas_publish_state ft) w1) as Hp.
  pose proof (hmas_publish_state ft w1) as Hps.
  destruct (publish_task_state nats_ ft w1) as [w2 [|[]]]; [done|]. simpl in Hp, Hps.
  assert (Hw2 : hmas_inv w2) by by eapply same_hmas_ok.
  assert (Ht2 : task_at w2 id = Some ft) by (rewrite (task_at_same _ _ _ Hps), Ht1; by rewrite decide_True).
  etransitivity; [apply Hp|]. rewrite run_bind. pose proof (releases_children id w2 ft Hw2 Ht2) as Hc.
  destruct (delegate_unblocked_children gh_ nats_ id w2) as [w3 [|[]]]; [done|].
  etransitivity; [apply Hc|]. apply releases_same. moves.
Qed.

Lemma run_completion payload msg id t w :
  hmas_inv w -> jparse payload = inr msg -> completion_task_id msg = inr id -> id <> "" ->
  task_at w id = Some t -> terminal (t_state t) = false ->
  exists w', on_myrmidon_completion gh_ nats_ payload w = (w', inr tt) /\ completes id t w w'.
Proof.
  intros Hw Hp Hm Hne Ht Hnt. apply str_empty_false in Hne.
  unfold on_myrmidon_completion, try_catch. rewrite run_bind, run_of_result, Hp. cbv beta iota.
  rewrite run_bind, run_of_result, Hm. cbv beta iota. rewrite Hne.
  rewrite run_bind, run_get_hmas by apply Hw. cbv beta iota. rewrite Ht.
  rewrite run_bind, (proj1 (run_walks t w)), Hnt. cbv beta iota.
  pose proof (completion_tail id t w (ticked w) Hw (fun _ => eq_refl) Ht) as Hc. cbv zeta in Hc.
  match type of Hc with completes _ _ _ (fst ?r) => destruct r as [w' [e|[]]] end; by exists w'.
Qed.

(** ** Started and failed events *)

(** Only the task [id] changes, to [t']. *)
Definition rewrites (id : string) (t' : HmasTask) (w w' : W) : Prop :=
  hmas_inv w' /\ forall id', task_at w' id' = if decide (id' = id) then Some t' else task_at w id'.

(** Writing one task and then publishing. *)
Lemma rewrites_update {A} id t t' w w0 (m : M W A) :
  hmas_inv w0 -> (forall id', task_at w0 id' = task_at w id') -> task_at w id = Some t ->
  t_id t' = t_id t -> moves same_hmas m ->
  rewrites id t' w (fst ((update_hmas_task gh_ t' ;; m) w0)).
Proof.
  intros Hw0 Hsame Ht Hid' Hm. rewrite <- Hsame in Ht.
  pose proof (ok_keyed _ (proj2 Hw0) _ _ Ht) as Hid. rewrite run_bind.
  destruct (run_update_hmas_task gh_ t' t w0) as (w1 & r1 & -> & Hs & _);
    [apply Hw0|by rewrite Hid', Hid|].
  assert (Hw1 : rewrites id t' w w1).
  { split.
    - eapply same_hmas_ok; [done|]. apply inv_written; [done|]. by rewrite Hid', Hid.
    - intros id'. rewrite (task_at_same _ _ _ Hs), task_at_written. by rewrite Hid', Hid, Hsame. }
  destruct r1 as [e|b]; [done|]. specialize (Hm w1). destruct Hw1 as [Hi1 Ht1]. split.
  - by eapply same_hmas_ok.
  - intros id'. by rewrite (task_at_same _ _ _ Hm).
Qed.

Definition lead_of (agent_id exec_host : string) (t : HmasTask) : HmasTask :=
  if str_empty agent_id then t
  else set_lead (if str_empty exec_host then agent_id else agent_id +:+ "@" +:+ exec_host) t.

Lemma run_started payload msg id agent host t w :
  hmas_inv w -> jparse payload = inr msg -> value_str "task_id" "" msg = inr id -> id <> "" ->
  value_str "agent_id" "" msg = inr agent -> value_str "exec_host" "" msg = inr host ->
  task_at w id = Some t -> terminal (t_state t) = false ->
  exists w', on_myrmidon_started gh_ nats_ payload w = (w', inr tt) /\
        rewrites id (lead_of agent host (set_state InProgress t)) w w'.
Proof.
  intros Hw Hp Hm Hne Ha Hh Ht Hnt. apply str_empty_false in Hne.
  unfold on_myrmidon_started, try_catch. rewrite run_bind, run_of_result, Hp. cbv beta iota.
  rewrite run_bind, run_of_result, Hm. cbv beta iota. rewrite Hne.
  rewrite run_bind, run_get_hmas by apply Hw. cbv beta iota. rewrite Ht.
  rewrite run_bind, (proj1 (proj2 (run_walks t w))), Hnt. cbv beta iota.
  rewrite run_bind, run_of_result, Ha. cbv beta iota. rewrite run_bind, run_of_result, Hh. cbv beta iota zeta.
  fold (lead_of agent host (set_state InProgress t)). set (t' := lead_of _ _ _).
  match goal with |- context [(update_hmas_task gh_ t' ≫= ?k) w] =>
    pose proof (rewrites_update id t t' w w (k true) Hw (fun _ => eq_refl) Ht) as Hr end.
  cbv beta in Hr.
  match type of Hr with _ -> _ -> rewrites _ _ _ (fst ?r) =>
    assert (rewrites id t' w (fst r)) as Hd by (apply Hr; [unfold t', lead_of; by repeat case_match|moves]);
    destruct r as [w' [e|[]]] end; by exists w'.
Qed.

Lemma run_failed payload msg id t w :
  hmas_inv w -> jparse payload = inr msg -> value_str "task_id" "" msg = inr id -> id <> "" ->
  task_at w id = Some t -> terminal (t_state t) = false ->
  exists w', on_myrmidon_failed gh_ nats_ payload w = (w', inr tt) /\
        rewrites id (finish Failed w t) w w'.
Proof.
  intros Hw Hp Hm Hne Ht Hnt. apply str_empty_false in Hne.
  unfold on_myrmidon_failed, try_catch. rewrite run_bind, run_of_result, Hp. cbv beta iota.
  rewrite run_bind, run_of_result, Hm. cbv beta iota. rewrite Hne.
  rewrite run_bind, run_get_hmas by apply Hw. cbv beta iota. rewrite Ht.
  rewrite run_bind, (proj2 (proj2 (run_walks t w))), Hnt. cbv beta iota. set (t' := finish Failed w t).
  match goal with |- context [(update_hmas_task gh_ t' ≫= ?k) (ticked w)] =>
    pose proof (rewrites_update id t t' w (ticked w) (k true) Hw (fun _ => eq_refl) Ht) as Hr end.
  cbv beta in Hr.
  match type of Hr with _ -> _ -> rewrites _ _ _ (fst ?r) =>
    assert (rewrites id t' w (fst r)) as Hd by (apply Hr; [done|moves]);
    destruct r as [w' [e|[]]] end; by exists w'.
Qed.

(** ** Escalation *)

Definition escalated (id reason : string) (w : W) (t : HmasTask) : HmasTask :=
  set_escalations (t_escalations t ++
    [{| e_task_id := id; e_reason := reason; e_escalated_at := time_of (w_env w);
        e_from_layer := t_layer t |}]) (set_state Escalated t).

Lemma run_escalate_refused id reason t w :
  hmas_inv w -> task_at w id = Some t -> t_state t <> InProgress ->
  escalate gh_ nats_ id reason w = (w, inr false).
Proof.
  intros Hw Ht Hs. unfold escalate. rewrite run_bind, run_get_hmas by apply Hw. cbv beta iota.
  rewrite Ht, run_bind, try_transition_spec. by destruct (t_state t).
Qed.

Lemma run_escalate id reason t w :
  hmas_inv w -> task_at w id = Some t -> t_state t = InProgress ->
  rewrites id (escalated id reason w t) w (fst (escalate gh_ nats_ id reason w)).
Proof.
  intros Hw Ht Hs. unfold escalate. rewrite run_bind, run_get_hmas by apply Hw. cbv beta iota.
  rewrite Ht, run_bind, try_transition_spec, Hs. cbn [next_state terminal negb snd fst].
  rewrite run_bind, run_now. cbv beta iota zeta.
  apply (rewrites_update id t (escalated id reason w t) w (ticked w)); try done.
  unfold nats_publish. moves.
Qed.

(** ** Publication that does not fail *)

(** The publisher's [publish] returns, and so does [publish_log] on a message it can dump (as the
    NATS client's do: they dead-letter instead of throwing). *)
Definition publisher_total : Prop :=
  (forall s p n, returns (publish nats_ s p) n) /\
  (forall s l m d n, utf8 l = true -> utf8 m = true -> utf8_json d = true ->
     returns (publish_log nats_ s l m d) n).

(** The tasks stored under [cs] have only UTF-8 strings. *)
Definition utf8_at (cs : list string) (w : W) : Prop :=
  forall c t, c ∈ cs -> task_at w c = Some t -> task_utf8 t = true.

Context (Hpub : publisher_total) `{HD : !DumpLaw}.

Lemma returns_nats_publish s p w : returns (nats_publish nats_ s p : M W unit) w.
Proof.
  destruct (proj1 Hpub s p (w_nats w)) as (n & b & H). exists (set_nats n w), tt.
  unfold nats_publish. by rewrite run_bind, (run_call_nats _ _ _ _ H).
Qed.
Lemma returns_nats_log s l m d w :
  utf8 l = true -> utf8 m = true -> utf8_json d = true -> returns (nats_log nats_ s l m d : M W unit) w.
Proof.
  intros Hl Hm Hd. destruct (proj2 Hpub s l m d (w_nats w) Hl Hm Hd) as (n & b & H).
  exists (set_nats n w), b. unfold nats_log. by rewrite (run_call_nats _ _ _ _ H).
Qed.

Lemma returns_publish_state t w : task_utf8 t = true -> returns (publish_task_state nats_ t : M W unit) w.
Proof.
  intros Ht. unfold publish_task_state. apply returns_bind; [apply returns_of_result; eexists; reflexivity|].
  intros w1 p Hp%(f_equal snd). cbn [of_result snd] in Hp. apply returns_bind.
  - apply returns_of_result, jdump_utf8.
    eapply utf8_set_key; [| |apply (task_json_utf8 t Ht)|exact Hp]; [done|by apply task_utf8_brief].
  - intros w2 d _. apply returns_nats_publish.
Qed.

Lemma dispatch_payload_obj t l :
  task_utf8 t = true -> utf8_fields l = true ->
  exists l', dispatch_payload t (JObj l) = inr (JObj l') /\ utf8_fields l' = true.
Proof.
  intros Ht%task_utf8_id Hl. assert (utf8 (mesh_role_name (t_layer t)) = true) by by destruct (t_layer t).
  unfold dispatch_payload. cbn [set_key mbind result_bind contains]. case_bool_decide; cbn [mbind result_bind set_key];
    destruct (t_issue t =? 0)%Z; eexists; (split; [reflexivity|]); by repeat apply utf8_obj_set.
Qed.

Lemma returns_dispatch t l w :
  task_utf8 t = true -> utf8_fields l = true -> returns (dispatch_task nats_ t (JObj l) : M W unit) w.
Proof.
  intros Ht Hl. destruct (dispatch_payload_obj t l Ht Hl) as (l' & Hp & Hl').
  unfold dispatch_task. rewrite Hp. apply returns_bind.
  - apply returns_of_result. eauto.
  - intros w1 p [= _ <-]. apply returns_bind; [by apply returns_of_result, jdump_utf8|]. intros w2 d _.
    apply returns_bind; [apply returns_nats_publish|]. intros. apply returns_nats_publish.
Qed.
End orchestrator_facts.

Section in_memory.
Context {G N : Type} (nats_ : NatsPublisher N) `{JT : !JsonText, HO : !HashOrder}.
Abbreviation W := (World G N).
Abbreviation gh_ := (None : option (IGitHubClient G)).
Context (Hpub : publisher_total nats_) `{HD : !DumpLaw}.
Implicit Types (w : W) (t : HmasTask).

Lemma returns_delegate t w id :
  hmas_inv w -> task_at w id = Some t -> task_utf8 t = true -> t_state t = Pending ->
  returns (delegate gh_ nats_ id) w.
Proof.
  intros Hw Ht Hutf Hp. pose proof (ok_keyed _ (proj2 Hw) _ _ Ht) as Hid. unfold delegate.
  eapply returns_step; [apply run_get_hmas, Hw|]. rewrite Ht.
  eapply returns_step; [by apply run_delegate_walk|]. cbn [negb snd fst].
  destruct (run_update_hmas_task gh_ (set_state Delegated t) t w) as (w1 & r1 & Hu & _ & Hnone);
    [apply Hw|simpl; by rewrite Hid|]. destruct (Hnone eq_refl) as [-> ->].
  apply returns_bind; [by eexists _, _|]. intros w2 b _.
  apply returns_bind; [by apply returns_publish_state|]. intros w3 u _.
  apply returns_bind; [apply returns_dispatch; [done..|by apply (task_json_utf8 (set_state Delegated t))]|].
  intros w4 u' _. by eexists _, _.
Qed.

Lemma returns_delegate_if_clear c w :
  hmas_inv w -> utf8_at [c] w -> returns (delegate_if_clear gh_ nats_ c) w.
Proof.
  intros Hw Hu. unfold delegate_if_clear.
  eapply returns_step; [apply run_get_hmas, Hw|].
  destruct (task_at w c) as [t|] eqn:Et; [|by eexists _, _].
  destruct (bool_decide (t_state t = Pending)) eqn:Ep; simpl; [|by eexists _, _].
  apply bool_decide_eq_true in Ep.
  destruct (run_all_clear gh_ (t_blocked_by t) w) as (r & Hr & _); [apply Hw|].
  eapply returns_step; [apply Hr|].
  destruct r; simpl; [|by eexists _, _]. apply returns_bind.
  - rewrite (ok_keyed _ (proj2 Hw) _ _ Et). eapply returns_delegate; [done..| |done].
    apply (Hu c); [by left|done].
  - intros. by eexists _, _.
Qed.

Lemma utf8_released cs ds w w' : utf8_at cs w -> hmas_inv w -> releases ds w w' -> utf8_at cs w'.
Proof.
  intros Hu Hw Hr c t Hc Ht. destruct (Hr Hw) as [_ Hch].
  destruct (Hch c) as [E|(_ & u & Hu0 & _ & _ & E)]; rewrite E in Ht.
  - by apply (Hu c).
  - injection Ht as <-. rewrite task_utf8_state. by apply (Hu c).
Qed.

Lemma returns_loop cs w :
  hmas_inv w -> utf8_at cs w -> returns (for_each cs (delegate_if_clear gh_ nats_)) w.
Proof.
  revert w. induction cs as [|c cs IH]; intros w Hw Hu; [by eexists _, _|].
  cbn [for_each]. apply returns_bind.
  { apply returns_delegate_if_clear; [done|]. intros x t Hx. apply Hu. set_solver. }
  intros w1 u H1. destruct (run_delegate_if_clear gh_ nats_ c w Hw) as (w' & r & H2 & Hr & _).
  rewrite H1 in H2. injection H2 as <- <-. apply IH; [by apply Hr|].
  eapply utf8_released; [|done|done]. intros x t Hx. apply Hu. by right.
Qed.

(** The delegation of unblocked children, exactly. *)
Lemma run_delegate_children id t w :
  hmas_inv w -> task_at w id = Some t -> utf8_at (t_child_task_ids t) w ->
  exists w', delegate_unblocked_children gh_ nats_ id w = (w', inr tt) /\ hmas_inv w' /\
    (forall c u, c ∈ t_child_task_ids t -> task_at w c = Some u -> t_state u = Pending -> clear w u ->
       task_at w' c = Some (set_state Delegated u)) /\
    (forall c, task_at w' c <> task_at w c -> c ∈ t_child_task_ids t /\ released w w' c).
Proof.
  intros Hw Ht Hu. pose proof (releases_children gh_ nats_ id w t Hw Ht Hw) as [Hw' Hch].
  unfold delegate_unblocked_children in *. rewrite run_bind, run_get_hmas in * by apply Hw.
  cbv beta iota in *. rewrite Ht in *.
  destruct (returns_loop (t_child_task_ids t) w Hw Hu) as (w' & [] & H). rewrite H in *.
  exists w'. split_and!; [done|done| |].
  - intros c u Hc Huc Hp Hcl. by eapply (loop_complete gh_ nats_ _ w w').
  - intros c Hne. destruct (Hch c); [done|done].
Qed.
End in_memory.
