(* ===== verification/SubmitFacts.v ===== *)
(** * The orchestrator: submission of a brief

    [Orchestrator::submit] (Orchestrator.v) from an in-memory store: the brief is stored, the
    whole plan is stored pending, the root is delegated and dispatched. *)

From S2P Require Import Prelude Effects Text Json Utf8 JsonCodec HmasTypes StateMachine Metrics World.
From S2P Require Import Planning PlanningFacts Utf8Facts Store StoreFacts HmasStore HmasFacts Orchestrator.
From S2P Require Import OrchestratorFacts.

Section submit.
Context {G N : Type} (nats_ : NatsPublisher N) `{JT : !JsonText, HO : !HashOrder}.
Abbreviation W := (World G N).
Abbreviation gh_ := (None : option (IGitHubClient G)).
Context (Hpub : publisher_total nats_) `{HD : !DumpLaw}.
Implicit Types (w : W) (t : HmasTask).

(** The id a brief is submitted under, and the environment after choosing it. *)
Definition submit_id (brief : TaskBrief) (e : Env) : string :=
  if str_empty (b_id brief) then uuid_of e else b_id brief.
Definition submit_env (brief : TaskBrief) (e : Env) : Env :=
  if str_empty (b_id brief) then draw_skip 31 e else e.
Definition named (brief : TaskBrief) (id : string) : TaskBrief :=
  {| b_id := id; b_title := b_title brief; b_description := b_description brief;
     b_repos := b_repos brief; b_modules := b_modules brief; b_impls := b_impls brief |}.

(** The strings of a brief that reach the root of its plan. *)
Definition brief_utf8 (brief : TaskBrief) : bool :=
  utf8 (b_id brief) && utf8 (b_title brief) && utf8 (b_description brief).

Lemma named_utf8 brief e :
  brief_utf8 brief = true ->
  utf8 (submit_id brief e) = true /\ utf8 (b_title brief) = true /\ utf8 (b_description brief) = true.
Proof.
  intros [[Hi Ht]%andb_prop Hd]%andb_prop. split_and!; [|done..]. unfold submit_id.
  destruct (str_empty (b_id brief)); [apply uuid_utf8|done].
Qed.

(** The publisher's calls leave the store alone. *)
Definition same_store (w w' : W) : Prop := w_store w' = w_store w.
#[global] Instance same_store_preorder : PreOrder same_store.
Proof. split; unfold same_store; [done|]. by intros ??? -> ->. Qed.

Lemma store_call_nats {A} (m : M N A) : moves same_store (call_nats (G := G) m).
Proof. intros w. unfold call_nats, zoom. by destruct (m (w_nats w)). Qed.
#[local] Hint Resolve store_call_nats : agamemnon.

(** What [submit] does once the root is delegated and written. *)
Definition announce (root : HmasTask) (id : string) (count : nat) : M W unit :=
  publish_task_state nats_ root ;;
  payload ← of_result (set_key "brief_id" (JStr id) (hmas_task_to_json root));
  dispatch_task nats_ root payload ;;
  nats_log nats_ "hi.logs.agamemnon.brief_submitted" "info" ("Brief submitted: " +:+ id)
    (jobj [("brief_id", JStr id); ("root_task_id", JStr (t_id root));
           ("task_count", JInt (Z.of_nat count))]).

Lemma run_announce root id count w :
  task_utf8 root = true -> utf8 id = true ->
  exists w', announce root id count w = (w', inr tt) /\ same_store w w'.
Proof.
  intros Hroot Hid. assert (Hs : moves same_store (announce root id count)).
  { unfold announce, publish_task_state, dispatch_task, nats_log, nats_publish. moves. }
  assert (Hr : returns (announce root id count) w).
  { unfold announce. apply returns_bind; [by apply returns_publish_state|]. intros w1 _ _.
    eapply returns_step; [apply run_of_result|].
    apply returns_bind.
    { apply returns_dispatch; [done..|]. apply utf8_obj_set; [done..|by apply (task_json_utf8 root)]. }
    intros w2 _ _. apply returns_nats_log; [done|done|by apply utf8_app|].
    apply utf8_jobj. unfold utf8_fields. cbn [forallb fst snd utf8_json]. by rewrite Hid, task_utf8_id. }
  destruct Hr as (w' & [] & Hr). exists w'. split; [done|]. specialize (Hs w). by rewrite Hr in Hs.
Qed.

(** Storing the tasks of a plan. *)
Lemma run_creates tasks w :
  hmas_inv w -> NoDup (map t_id tasks) -> (forall t, t ∈ tasks -> task_at w (t_id t) = None) ->
  exists w', for_each tasks (create_hmas_task gh_) w = (w', inr tt) /\ hmas_inv w' /\
    briefs w' = briefs w /\ w_env w' = w_env w /\
    (forall t, t ∈ tasks -> task_at w' (t_id t) = Some t) /\
    (forall id, id ∉ map t_id tasks -> task_at w' id = task_at w id).
Proof.
  revert w; induction tasks as [|t tasks IH]; intros w Hw Hnd Hf.
  { exists w. split_and!; try done. set_solver. }
  destruct (run_create_hmas_task gh_ t w) as (w1 & r & Hr & _ & Hnone); [apply Hw|].
  destruct (Hnone eq_refl) as [-> ->]. apply NoDup_cons in Hnd as [Hnin Hnd].
  destruct (IH (created t w)) as (w' & Hr' & Hw' & Hb & He & Hin & Hout).
  { apply inv_created; [done|]. apply Hf. left. }
  { done. }
  { intros u Hu. rewrite task_at_created, decide_False; [apply Hf; by right|].
    intros Heq. apply Hnin. rewrite <- Heq. by apply list_elem_of_fmap_2. }
  exists w'. split_and!.
  - cbn [for_each]. by rewrite run_bind, Hr.
  - done.
  - rewrite Hb. unfold created. by destruct (str_empty (t_brief_id t)).
  - rewrite He. unfold created. by destruct (str_empty (t_brief_id t)).
  - intros u [->|Hu]%elem_of_cons; [|by apply Hin]. rewrite Hout by done.
    by rewrite task_at_created, decide_True.
  - intros id Hid. simpl in Hid. apply not_elem_of_cons in Hid as [Hne Hid].
    by rewrite Hout, task_at_created, decide_False.
Qed.

Lemma run_submit_id brief w :
  (if str_empty (b_id brief) then generate_uuid else mret (b_id brief)) w =
  (set_env (submit_env brief (w_env w)) w, @inr exn _ (submit_id brief (w_env w))).
Proof.
  unfold submit_id, submit_env. destruct (str_empty (b_id brief)); [by rewrite run_generate_uuid|].
  rewrite run_ret. f_equal. by destruct w.
Qed.

Lemma run_create_brief b w : briefs_loaded_ (briefs w) = true ->
  create_task_brief gh_ b w = (upd_briefs (set_brief (b_id b) b) w, @inr exn _ tt).
Proof.
  intros Hb. unfold create_task_brief, ensure_briefs_loaded_, get. rewrite run_bind, run_bind. cbv beta iota.
  by rewrite Hb.
Qed.

Lemma run_submit brief w e1 tasks :
  let id := submit_id brief (w_env w) in
  hmas_inv w -> briefs_loaded_ (briefs w) = true ->
  decompose (named brief id) (submit_env brief (w_env w)) = (e1, inr tasks) ->
  NoDup (map t_id tasks) -> (forall t, t ∈ tasks -> task_at w (t_id t) = None) ->
  brief_utf8 brief = true ->
  exists w' root rest,
    submit gh_ nats_ brief w = (w', inr id) /\ tasks = root :: rest /\ hmas_inv w' /\
    task_briefs_ (briefs w') !! id = Some (named brief id) /\
    task_at w' (t_id root) = Some (set_state Delegated root) /\
    (forall t, t ∈ rest -> task_at w' (t_id t) = Some t) /\
    (forall tid, tid ∉ map t_id tasks -> task_at w' tid = task_at w tid).
Proof.
  intros id Hw Hb Hdec Hnd Hf Hbr. destruct (named_utf8 brief (w_env w) Hbr) as (Hid & Htitle & Hde). fold id in Hid.
  pose proof (decompose_plan _ _ _ _ Hdec) as [(root & Hroot & Hl0 & _) Hfresh _ _ _].
  destruct tasks as [|r0 rest]; [done|]. injection Hroot as ->.
  set (w0 := set_env (submit_env brief (w_env w)) w).
  set (w1 := set_env e1 (upd_briefs (set_brief id (named brief id)) w0)).
  destruct (run_creates (root :: rest) w1) as (w2 & Hr2 & Hw2 & Hb2 & _ & Hin2 & Hout2); [done..|].
  assert (Hs : t_state root = Pending) by (apply Hfresh; left).
  set (root' := set_state Delegated root).
  destruct (run_update_hmas_task gh_ root' root w2) as (w3 & r3 & Hr3 & _ & Hn3);
    [apply Hw2|apply (Hin2 root); left|]. destruct (Hn3 eq_refl) as [-> ->].
  destruct (run_announce root' id (length (root :: rest)) (written root root' w2)) as (w4 & Hr4 & Hs4);
    [by apply (plan_root_utf8 _ _ _ root rest Hdec)|done|].
  assert (Hsub : submit gh_ nats_ brief w = (w4, inr id)).
  { unfold submit. rewrite run_bind, run_submit_id. fold id w0. cbv beta iota zeta. fold (named brief id).
    rewrite run_bind, run_create_brief by exact Hb. cbv beta iota. rewrite run_bind.
    change (b_id (named brief id)) with id. rewrite (lifts_decompose (named brief id)).
    change (env_of (upd_briefs (set_brief id (named brief id)) w0)) with (submit_env brief (w_env w)).
    rewrite Hdec. cbv beta iota zeta. fold w1. change (with_env e1 _) with w1.
    rewrite run_bind, Hr2. cbv beta iota. rewrite run_bind.
    erewrite run_bind_inr; [|apply run_get_hmas, Hw2]. rewrite (Hin2 root) by left.
    rewrite run_bind, try_transition_spec, Hs. cbn [next_state terminal fst].
    rewrite run_bind, try_transition_spec. cbn [next_state terminal fst t_state set_state].
    rewrite run_bind. change (set_state Delegated (set_state Decomposing root)) with root'. rewrite Hr3.
    cbv beta iota. fold (announce root' id (length (root :: rest))). by rewrite Hr4. }
  exists w4, root, rest.
  assert (Hh4 : hmas w4 = hmas (written root root' w2)) by (unfold hmas; by rewrite Hs4).
  assert (Ht4 : forall tid, task_at w4 tid = if decide (tid = t_id root) then Some root' else task_at w2 tid).
  { intros tid. unfold task_at at 1. rewrite Hh4. apply (task_at_written root root' w2 tid). }
  apply NoDup_cons in Hnd as [Hnin Hnd]. split_and!.
  - done.
  - done.
  - unfold hmas_inv, warm. rewrite Hh4. apply inv_written; [done|]. apply (Hin2 root). left.
  - unfold briefs. rewrite Hs4. change (briefs_ _) with (briefs w2). rewrite Hb2. simpl.
    by rewrite lookup_insert_eq.
  - by rewrite Ht4, decide_True.
  - intros t Ht. rewrite Ht4, decide_False.
    + apply Hin2. by right.
    + intros Heq. apply Hnin. rewrite <- Heq. by apply list_elem_of_fmap_2.
  - intros tid Htid. rewrite Ht4, decide_False; [by apply Hout2|]. intros ->. apply Htid. left.
Qed.
End submit.
