(* ===== verification/OrchestratorTheorems.v ===== *)
(** * HMAS: properties

    The guarantees of the state machine, the planning breakdown, the HMAS collections of the
    store and the orchestrator, each with an instance on concrete data where it has
    hypotheses, and two runs that show where the code departs from its own documentation. *)

From S2P Require Import Prelude Effects Text Json Utf8 JsonCodec HmasTypes StateMachine Metrics World.
From S2P Require Import Planning PlanningFacts Utf8Facts Store StoreFacts HmasStore HmasFacts Orchestrator.
From S2P Require Import OrchestratorFacts SubmitFacts.

(** ** State machine *)

(** C7: the table-driven [try_transition] implements the task lifecycle: on every task and
    event it either takes exactly the step the lifecycle allows (stamping the completion time
    on a terminal state) and returns true, or changes nothing and returns false because the
    lifecycle has no such step; it never throws. *)
Theorem transition_refines_lifecycle {S : Type} `{!HasEnv S} (t : HmasTask) (e : TaskEvent) (s : S) :
  match try_transition t e s with
  | (_, inr (t', true)) => task_step (time_of (env_of s)) t e t'
  | (s', inr (t', false)) => t' = t /\ s' = s /\ next_state (t_state t) e (t_layer t) = None
  | (_, inl _) => False
  end.
Proof. apply try_transition_step. Qed.

(** Whatever accepted events happen to a newly created task, its id and layer stay, and
    its completion time is set exactly when it is Completed or Failed. *)
Lemma completion_time_iff_terminal (t0 t : HmasTask) :
  t_state t0 = Pending -> t_completed_at t0 = "" -> task_reach t0 t ->
  t_id t = t_id t0 /\ t_layer t = t_layer t0 /\
  (t_completed_at t <> "" <-> terminal (t_state t) = true).
Proof. apply task_reach_inv. Qed.

(** ** Data *)

(** C40: a task written to its GitHub issue is read back unchanged: converting an HMAS task to
    JSON and back is the identity (for issue numbers in the range of an int). *)
Theorem task_json_roundtrip (t : HmasTask) :
  (- 2 ^ 31 <= t_issue t < 2 ^ 31)%Z -> hmas_task_from_json (hmas_task_to_json t) = inr t.
Proof. apply hmas_task_roundtrip. Qed.

(** ** Planning *)

(** An item written as "#N title (depends on: #A, #B, ...)" parses back to its issue
    number and its dependencies, for numbers in the range of an int and a title without an
    opening parenthesis. *)
Lemma impl_ref_roundtrip (n : Z) (title : string) (deps : list Z) :
  int_range n -> Forall int_range deps ->
  str_forall (fun d => negb (bool_decide ("("%char = d))) title = true ->
  parse_impl_ref (print_impl n title deps)
  = inr {| issue := n; depends_on := deps; has_explicit_deps := true |}.
Proof. apply parse_print_impl. Qed.

(** C8: a brief all of whose items parse is decomposed: the breakdown returns, the leaves of
    the plan are exactly the (repository, module, item) triples of the brief in order (with the
    default module and item where none is listed), and the plan is well formed: one root, every
    other task linked under a task of the layer above that it waits for, no edge out of the
    plan, and every child edge mirrored by a blocker edge. *)
Theorem decompose_covers {S : Type} `{!HasEnv S} (brief : TaskBrief) (s : S) :
  (forall k, k ∈ items_of brief -> parses k.2) ->
  exists s' tasks, decompose brief s = (s', inr tasks) /\ leaf_keys tasks = items_of brief /\
    plan_ok (b_id brief) (time_of (env_of s)) tasks.
Proof.
  intros Hp. destruct (decompose_total brief s Hp) as (s' & tasks & Hr & Hk).
  exists s', tasks. split_and!; [done|done|by eapply decompose_plan].
Qed.

(** ** HMAS collections *)

(** Reading a brief's tasks through the secondary index gives exactly what a full scan of
    the tasks would, each task once, whatever order the hash map iterates in. *)
Lemma brief_index_is_scan {G N : Type} (gh : option (IGitHubClient G)) `{!JsonText, !HashOrder}
    (b : string) (w : World G N) :
  HashOrderLaw -> hmas_inv w -> b <> "" ->
  exists l, list_hmas_tasks_by_brief gh b w = (w, inr l) /\
       l ≡ₚ scan (fun t => str_eqb (t_brief_id t) b) (hmas_tasks_ (hmas w)).
Proof. intros HL. by apply by_brief_scan. Qed.

(** C9: every write to a hydrated HMAS collection keeps its invariant (tasks stored under
    their id, the index listing each task of a brief exactly once), also when the GitHub call
    throws: updating a task, even to another brief, changing its state, recording an
    escalation, and creating a task under a fresh id. *)
Theorem hmas_writes_keep_index {G N : Type} (gh : option (IGitHubClient G)) `{!JsonText}
    (w : World G N) (t : HmasTask) (id : string) (st : TaskState) (rec : EscalationRecord) :
  hmas_inv w ->
  hmas_inv (fst (update_hmas_task gh t w)) /\
  hmas_inv (fst (update_hmas_task_state gh id st w)) /\
  hmas_inv (fst (update_hmas_task_state_and_record_escalation gh id st rec w)) /\
  (task_at w (t_id t) = None -> hmas_inv (fst (create_hmas_task gh t w))).
Proof.
  intros Hw. split_and!; [by apply inv_update_hmas_task|by apply inv_update_state|by apply inv_escalation|].
  intros Hf. destruct (run_create_hmas_task gh t w) as (w1 & r & -> & Hs & _); [apply Hw|].
  assert (Hw1 : hmas_inv w1) by by eapply same_hmas_ok.
  destruct r; [done|]. apply inv_created; [done|]. by rewrite (task_at_same _ _ _ Hs).
Qed.

(** ** Orchestrator *)

(** C5: submitting a brief to an in-memory store (GitHub off, task and brief collections loaded)
    returns its id; the brief is stored, every task of its plan is stored as planned except that
    the root is Delegated, no other task of the store changes, and the index stays consistent.
    This is for a brief whose id, title and description are UTF-8 ([json::dump] throws on other
    text), whose decomposition returns a plan with distinct identifiers that are new to the
    store, and a publisher whose [publish] returns, and whose [publish_log] returns on UTF-8
    text. *)
Theorem submit_stores_plan {G N : Type} (nats : NatsPublisher N) `{!JsonText, !DumpLaw, !HashOrder}
    (brief : TaskBrief) (w : World G N) (e1 : Env) (tasks : list HmasTask) :
  let id := submit_id brief (w_env w) in
  publisher_total nats -> brief_utf8 brief = true -> hmas_inv w -> briefs_loaded_ (briefs w) = true ->
  decompose (named brief id) (submit_env brief (w_env w)) = (e1, inr tasks) ->
  NoDup (map t_id tasks) -> (forall t, t ∈ tasks -> task_at w (t_id t) = None) ->
  exists w' root rest,
    submit None nats brief w = (w', inr id) /\ tasks = root :: rest /\ hmas_inv w' /\
    task_briefs_ (briefs w') !! id = Some (named brief id) /\
    task_at w' (t_id root) = Some (set_state Delegated root) /\
    (forall t, t ∈ rest -> task_at w' (t_id t) = Some t) /\
    (forall tid, tid ∉ map t_id tasks -> task_at w' tid = task_at w tid).
Proof. intros. by eapply run_submit. Qed.

(** C3: a worker's completion event for a live task, in whatever state its own transitions
    left it and whatever GitHub or NATS do, returns, leaves that task Completed and stamped
    with the current time, and changes no other task except that pending children of it whose
    blockers are all Completed may become Delegated. *)
Theorem completion_event {G N : Type} (gh : option (IGitHubClient G)) (nats : NatsPublisher N)
    `{!JsonText, !HashOrder} (payload : string) (msg : json) (id : string) (t : HmasTask)
    (w : World G N) :
  hmas_inv w -> jparse payload = inr msg -> completion_task_id msg = inr id -> id <> "" ->
  task_at w id = Some t -> terminal (t_state t) = false ->
  exists w', on_myrmidon_completion gh nats payload w = (w', inr tt) /\ completes id t w w'.
Proof. apply run_completion. Qed.

(** C2: [delegate_unblocked_children] returns, delegates every pending child of the completed
    task whose blockers are all Completed, and changes nothing else: GitHub off, the children's
    strings UTF-8 ([json::dump] throws on other text) and a publisher whose [publish] returns and
    whose [publish_log] returns on UTF-8 text, in a store whose tasks are loaded and whose index
    by brief is consistent. *)
Theorem children_released {G N : Type} (nats : NatsPublisher N) `{!JsonText, !DumpLaw, !HashOrder}
    (id : string) (t : HmasTask) (w : World G N) :
  publisher_total nats -> hmas_inv w -> task_at w id = Some t -> utf8_at (t_child_task_ids t) w ->
  exists w', delegate_unblocked_children None nats id w = (w', inr tt) /\ hmas_inv w' /\
    (forall c u, c ∈ t_child_task_ids t -> task_at w c = Some u -> t_state u = Pending -> clear w u ->
       task_at w' c = Some (set_state Delegated u)) /\
    (forall c, task_at w' c <> task_at w c -> c ∈ t_child_task_ids t /\ released w w' c).
Proof. intros Hp. by apply run_delegate_children. Qed.

(** C39: A worker's events about a stored task that is not in a terminal state, given as JSON that
    names the task, with an agent and a host that are strings or absent.  A "started" event leaves the
    task InProgress and assigned to "agent@host" (or to the agent alone, or to its old assignee
    when the message names none); a "failed" event leaves it Failed and stamped with the time.
    Neither changes another task, both keep the store's invariant, and both return whatever GitHub
    or NATS do. *)
Theorem worker_events {G N : Type} (gh : option (IGitHubClient G)) (nats : NatsPublisher N)
    `{!JsonText, !HashOrder} (payload : string) (msg : json) (id agent host : string) (t : HmasTask)
    (w : World G N) :
  hmas_inv w -> jparse payload = inr msg -> value_str "task_id" "" msg = inr id -> id <> "" ->
  value_str "agent_id" "" msg = inr agent -> value_str "exec_host" "" msg = inr host ->
  task_at w id = Some t -> terminal (t_state t) = false ->
  (exists w', on_myrmidon_started gh nats payload w = (w', inr tt) /\
         rewrites id (lead_of agent host (set_state InProgress t)) w w') /\
  (exists w', on_myrmidon_failed gh nats payload w = (w', inr tt) /\
         rewrites id (finish Failed w t) w w').
Proof.
  intros Hw Hp Hi Hne Ha Hh Ht Hl. split; [by eapply run_started|by eapply run_failed].
Qed.

(** Escalation applies to InProgress tasks only: from any other state it returns false
    and changes nothing; from InProgress the task becomes Escalated with a record of the
    reason, the time and the layer appended, and no other task changes. *)
Lemma escalation {G N : Type} (gh : option (IGitHubClient G)) (nats : NatsPublisher N)
    `{!JsonText, !HashOrder} (id reason : string) (t : HmasTask) (w : World G N) :
  hmas_inv w -> task_at w id = Some t ->
  if decide (t_state t = InProgress)
  then rewrites id (escalated id reason w t) w (fst (escalate gh nats id reason w))
  else escalate gh nats id reason w = (w, inr false).
Proof.
  intros Hw Ht. destruct (decide (t_state t = InProgress)); [by apply run_escalate|].
  by eapply run_escalate_refused.
Qed.

(** ** Instances *)

#[local] Existing Instances codec codec_dump_law list_order.

(** A server without GitHub whose HMAS collections have been read once. *)
Definition warm0 : World MockGitHub FakeNats :=
  fst (get_task_brief None "" (fst (get_hmas_task None "" (boot env0 mock0 true nats0)))).

Lemma warm0_inv : hmas_inv warm0.
Proof.
  split; [done|]. split.
  - intros id t. done.
  - intros b. constructor.
  - intros b id. split; [intros H; inversion H|]. by intros (_ & t & Ht & _).
Qed.

(** A lead in progress with one pending leaf that waits for it. *)
Definition lead : HmasTask :=
  set_state InProgress (set_edges [] ["leaf"]
    (new_task "lead" "brief" "" L2_ModuleLead "repo" "core" "Lead" "" 0 "2026-01-01T00:00:00Z")).
Definition leaf_task : HmasTask :=
  set_edges ["lead"] []
    (new_task "leaf" "brief" "lead" L3_TaskAgent "repo" "core" "#7 Leaf" "" 7 "2026-01-01T00:00:00Z").
Definition two_tasks : World MockGitHub FakeNats := created leaf_task (created lead warm0).

Lemma two_tasks_inv : hmas_inv two_tasks.
Proof. apply inv_created; [apply inv_created; [apply warm0_inv|]|]; vm_compute; reflexivity. Qed.

Lemma fake_total : publisher_total FakeNatsPublisher.
Proof. split; intros; by eexists _, _. Qed.
Lemma two_tasks_utf8 id t : task_at two_tasks id = Some t -> task_utf8 t = true.
Proof.
  intros Ht. unfold two_tasks in Ht. rewrite !task_at_created in Ht.
  repeat case_decide; try done; injection Ht as <-; vm_compute; reflexivity.
Qed.

Lemma completion_time_iff_terminal_witness :
  t_completed_at (set_state Decomposing leaf_task) <> "" <->
  terminal (t_state (set_state Decomposing leaf_task)) = true.
Proof.
  apply (completion_time_iff_terminal leaf_task (set_state Decomposing leaf_task)); [done|done|].
  apply (reach_step leaf_task leaf_task Submit 0); [apply reach_here|].
  by apply (step_live (iso8601 0) leaf_task Submit Decomposing).
Defined.

Lemma task_json_roundtrip_witness : hmas_task_from_json (hmas_task_to_json leaf_task) = inr leaf_task.
Proof. apply (task_json_roundtrip leaf_task). vm_compute. by split. Defined.

Lemma impl_ref_roundtrip_witness :
  parse_impl_ref "#12 Add tests (depends on: #7, #9)"
  = inr {| issue := 12; depends_on := [7; 9]%Z; has_explicit_deps := true |}.
Proof.
  apply (impl_ref_roundtrip 12 "Add tests" [7; 9]%Z);
    [vm_compute; by split|repeat constructor; vm_compute; done|reflexivity].
Defined.

Definition small_brief : TaskBrief :=
  {| b_id := ""; b_title := "Build"; b_description := "the thing"; b_repos := ["repo"];
     b_modules := ∅; b_impls := {["repo" := {["core" := ["#1 first"; "#2 second (depends on: #1)"]]}]} |}.

Lemma decompose_covers_witness :
  exists s' tasks, decompose small_brief env0 = (s', inr tasks) /\ leaf_keys tasks = items_of small_brief /\
    plan_ok (b_id small_brief) (time_of (env_of env0)) tasks.
Proof.
  apply (decompose_covers small_brief env0). intros k Hk.
  assert (items_of small_brief = [("repo", "core", "#1 first");
            ("repo", "core", "#2 second (depends on: #1)")]) as Hi by (vm_compute; reflexivity).
  rewrite Hi in Hk. apply elem_of_cons in Hk as [->|Hk]; [|apply list_elem_of_singleton in Hk as ->];
    (eexists; vm_compute; reflexivity).
Defined.

Lemma brief_index_is_scan_witness :
  exists l, list_hmas_tasks_by_brief None "brief" two_tasks = (two_tasks, inr l) /\
       l ≡ₚ scan (fun t => str_eqb (t_brief_id t) "brief") (hmas_tasks_ (hmas two_tasks)).
Proof.
  apply (brief_index_is_scan None "brief" two_tasks); [apply list_order_law|apply two_tasks_inv|done].
Defined.

Lemma hmas_writes_keep_index_witness : hmas_inv (fst (update_hmas_task None lead two_tasks)).
Proof.
  exact (proj1 (hmas_writes_keep_index None two_tasks lead "lead" Completed
    {| e_task_id := ""; e_reason := ""; e_escalated_at := ""; e_from_layer := L0_ChiefArchitect |}
    two_tasks_inv)).
Defined.

Definition small_tasks : list HmasTask :=
  match decompose (named small_brief (submit_id small_brief (w_env warm0)))
          (submit_env small_brief (w_env warm0)) with
  | (_, inr l) => l
  | _ => []
  end.

Definition small_env : Env :=
  fst (decompose (named small_brief (submit_id small_brief (w_env warm0)))
         (submit_env small_brief (w_env warm0))).

Lemma small_run :
  decompose (named small_brief (submit_id small_brief (w_env warm0)))
    (submit_env small_brief (w_env warm0)) = (small_env, inr small_tasks).
Proof.
  assert (snd (decompose (named small_brief (submit_id small_brief (w_env warm0)))
            (submit_env small_brief (w_env warm0))) = inr small_tasks) as H by (vm_compute; reflexivity).
  rewrite <- H. unfold small_env. apply surjective_pairing.
Qed.

Lemma submit_stores_plan_witness :
  exists w', submit None FakeNatsPublisher small_brief warm0
             = (w', inr (submit_id small_brief (w_env warm0))) /\ hmas_inv w'.
Proof.
  destruct (submit_stores_plan FakeNatsPublisher small_brief warm0 small_env small_tasks)
    as (w' & root & rest & Hr & _ & Hi & _).
  - apply fake_total.
  - reflexivity.
  - apply warm0_inv.
  - vm_compute. reflexivity.
  - exact small_run.
  - apply (bool_decide_eq_true_1 (NoDup (map t_id small_tasks))). vm_compute. reflexivity.
  - intros t _. vm_compute. reflexivity.
  - exists w'. exact (conj Hr Hi).
Defined.

Definition done_msg : json := JObj [("agent_id", JStr "a1"); ("exec_host", JStr "h1"); ("task_id", JStr "lead")].
Definition done_payload : string := match dump (-1) done_msg with Some s => s | None => "" end.

Lemma completion_event_witness :
  exists w', on_myrmidon_completion None FakeNatsPublisher done_payload two_tasks = (w', inr tt) /\
    completes "lead" lead two_tasks w'.
Proof.
  apply (completion_event None FakeNatsPublisher done_payload done_msg "lead" lead two_tasks);
    [apply two_tasks_inv|vm_compute; reflexivity|reflexivity|done|vm_compute; reflexivity|reflexivity].
Defined.

Lemma children_released_witness :
  exists w', delegate_unblocked_children None FakeNatsPublisher "lead" two_tasks = (w', inr tt) /\
    hmas_inv w' /\
    (forall c u, c ∈ t_child_task_ids lead -> task_at two_tasks c = Some u -> t_state u = Pending ->
       clear two_tasks u -> task_at w' c = Some (set_state Delegated u)) /\
    (forall c, task_at w' c <> task_at two_tasks c ->
       c ∈ t_child_task_ids lead /\ released two_tasks w' c).
Proof.
  apply (children_released FakeNatsPublisher "lead" lead two_tasks);
    [apply fake_total|apply two_tasks_inv|vm_compute; reflexivity|].
  intros c t _. apply two_tasks_utf8.
Defined.

Lemma worker_events_witness :
  exists w', on_myrmidon_started None FakeNatsPublisher done_payload two_tasks = (w', inr tt) /\
    rewrites "lead" (lead_of "a1" "h1" (set_state InProgress lead)) two_tasks w'.
Proof.
  refine (proj1 (_ : _ /\ exists w', on_myrmidon_failed None FakeNatsPublisher done_payload two_tasks
    = (w', inr tt) /\ rewrites "lead" (finish Failed two_tasks lead) two_tasks w')).
  apply (worker_events None FakeNatsPublisher done_payload done_msg "lead" "a1" "h1" lead two_tasks);
    [apply two_tasks_inv|vm_compute; reflexivity|reflexivity|done|reflexivity|reflexivity
    |vm_compute; reflexivity|reflexivity].
Defined.

Lemma escalation_witness :
  rewrites "lead" (escalated "lead" "stuck" two_tasks lead) two_tasks
    (fst (escalate None FakeNatsPublisher "lead" "stuck" two_tasks)).
Proof.
  apply (escalation None FakeNatsPublisher "lead" "stuck" lead two_tasks);
    [apply two_tasks_inv|vm_compute; reflexivity].
Defined.

(** ** Runs *)

(** Workers that complete every task dispatched to them, one at a time. *)
Definition delegated_ids (w : World MockGitHub FakeNats) : list string :=
  map t_id (scan (fun t => bool_decide (t_state t = Delegated)) (hmas_tasks_ (hmas w))).
Definition done_message (id : string) : string :=
  match dump (-1) (JObj [("task_id", JStr id)]) with Some s => s | None => "" end.
Fixpoint drain (fuel : nat) (w : World MockGitHub FakeNats) : World MockGitHub FakeNats :=
  match fuel, delegated_ids w with
  | S fuel, id :: _ => drain fuel (fst (on_myrmidon_completion None FakeNatsPublisher (done_message id) w))
  | _, _ => w
  end.

(** Pending tasks all of whose blockers completed. *)
Definition overdue (w : World MockGitHub FakeNats) : list HmasTask :=
  scan (fun t => bool_decide (t_state t = Pending) &&
          forallb (fun b => match task_at w b with
                            | Some bt => bool_decide (t_state bt = Completed)
                            | None => false
                            end) (t_blocked_by t)) (hmas_tasks_ (hmas w)).

Definition two_module_brief : TaskBrief :=
  {| b_id := "b"; b_title := "T"; b_description := ""; b_repos := ["r"];
     b_modules := {["r" := ["m1"; "m2"]]}; b_impls := ∅ |}.

(** A brief with two modules in a repository never finishes: once the workers have
    completed every task that was dispatched to them, nothing is dispatched any more, yet the
    second module's task is pending with all its blockers Completed (it waits for the first
    module's task, which does not list it among its children). *)
Lemma second_module_never_delegated :
  let w := drain 20 (fst (submit None FakeNatsPublisher two_module_brief warm0)) in
  delegated_ids w = [] /\ map t_subject (overdue w) = ["T [r/m2]"].
Proof. vm_compute. by split. Qed.

(** [split_task] reports an error for a subtask without title after having stored the
    subtasks before it: the error reply leaves tasks in the store that the split task does not
    list as children. *)
Lemma split_error_leaves_orphans :
  let subs := JArr [JObj [("title", JStr "part two")]; JObj []] in
  let r := split_task None FakeNatsPublisher "lead" subs two_tasks in
  snd r = inr (split_error "each subtask needs a non-empty 'title'") /\
  map t_subject (scan (fun t => bool_decide (t_state t = Pending)) (hmas_tasks_ (hmas (fst r))))
  ≡ₚ ["part two"; "#7 Leaf"] /\
  task_at (fst r) "lead" = Some lead.
Proof.
  cbv zeta. split_and!; [vm_compute; reflexivity| |vm_compute; reflexivity].
  apply (bool_decide_eq_true_1 (_ ≡ₚ _)). vm_compute. reflexivity.
Qed.
