(* ===== verification/Messaging.v ===== *)
(** * Messaging: circuit breaker, dead-letter queue and the NATS client

    src/circuit_breaker.cpp, src/dead_letter_queue.cpp and the publishing half of
    src/nats_client.cpp.  The broker (nats.c) is a parameter: the state of its side and the
    outcome of one low-level publish.  [now] arguments are readings of the steady clock. *)

From S2P Require Import Prelude Effects Text Json Metrics World.

(** ** Circuit breaker *)

Module Breaker.

Inductive State := Closed | Open | HalfOpen.
#[global] Instance State_eq_dec : EqDecision State.
Proof. solve_decision. Defined.

Record Config := { failure_threshold : Z; probe_interval : Z (* ms *) }.
Definition default_config : Config := {| failure_threshold := 5; probe_interval := 30000 |}.

Record CircuitBreaker := {
  cfg_ : Config;
  state_ : State;
  failure_count_ : Z;        (* std::atomic<int> *)
  open_since_ms_ : Z;
}.

Definition new_breaker (cfg : Config) : CircuitBreaker :=
  {| cfg_ := cfg; state_ := Closed; failure_count_ := 0; open_since_ms_ := 0 |}.

Definition set_state (s : State) (b : CircuitBreaker) : CircuitBreaker :=
  {| cfg_ := cfg_ b; state_ := s; failure_count_ := failure_count_ b; open_since_ms_ := open_since_ms_ b |}.
Definition set_failures (n : Z) (b : CircuitBreaker) : CircuitBreaker :=
  {| cfg_ := cfg_ b; state_ := state_ b; failure_count_ := n; open_since_ms_ := open_since_ms_ b |}.

Definition transition_to_open (now : Z) (b : CircuitBreaker) : CircuitBreaker :=
  {| cfg_ := cfg_ b; state_ := Open; failure_count_ := failure_count_ b; open_since_ms_ := now |}.

Definition allow_attempt (now : Z) (b : CircuitBreaker) : CircuitBreaker * bool :=
  match state_ b with
  | Closed => (b, true)
  | Open =>
      if (probe_interval (cfg_ b) <=? now - open_since_ms_ b)%Z
      then (set_state HalfOpen b, true) else (b, false)
  | HalfOpen => (b, true)
  end.

Definition record_success (b : CircuitBreaker) : CircuitBreaker :=
  set_state Closed (set_failures 0 b).

(** Whether [record_failure] opens the circuit (and then reads the clock). *)
Definition opens (b : CircuitBreaker) : bool :=
  match state_ b with
  | HalfOpen => true
  | Closed => (failure_threshold (cfg_ b) <=? wrap32 (failure_count_ b + 1))%Z
  | Open => false
  end.

(** [fetch_add] on a 32-bit atomic int wraps around. *)
Definition record_failure (now : Z) (b : CircuitBreaker) : CircuitBreaker :=
  let count := wrap32 (failure_count_ b + 1) in
  let b := set_failures count b in
  match state_ b with
  | HalfOpen => transition_to_open now b
  | Closed => if (failure_threshold (cfg_ b) <=? count)%Z then transition_to_open now b else b
  | Open => b
  end.

Definition state_label (b : CircuitBreaker) : string :=
  match state_ b with Closed => "closed" | Open => "open" | HalfOpen => "half_open" end.
End Breaker.

(** ** Dead-letter queue *)

Module Dlq.

Record Entry := {
  subject : string;
  payload : string;
  attempts : Z;
  timestamp_ms : Z;
  level : string;
  service : string;
}.

Record DeadLetterQueue := { capacity_ : nat; queue_ : list Entry }.
Definition new_queue (capacity : nat) : DeadLetterQueue := {| capacity_ := capacity; queue_ := [] |}.

(** [pop_front] when full; on an empty queue of capacity 0 it is undefined in C++ (the server
    uses 256), nothing here. *)
Definition push (e : Entry) (q : DeadLetterQueue) : DeadLetterQueue :=
  let kept := if capacity_ q <=? length (queue_ q) then tail (queue_ q) else queue_ q in
  {| capacity_ := capacity_ q; queue_ := kept ++ [e] |}.

Definition drain (q : DeadLetterQueue) : DeadLetterQueue * list Entry :=
  ({| capacity_ := capacity_ q; queue_ := [] |}, queue_ q).
Definition clear (q : DeadLetterQueue) : DeadLetterQueue :=
  {| capacity_ := capacity_ q; queue_ := [] |}.
Definition size (q : DeadLetterQueue) : nat := length (queue_ q).
Definition empty (q : DeadLetterQueue) : bool := match queue_ q with [] => true | _ => false end.
End Dlq.

(** ** NATS client *)

(** The statuses the client distinguishes. *)
Inductive natsStatus :=
| NATS_OK | NATS_CONNECTION_CLOSED | NATS_CONNECTION_DISCONNECTED | NATS_IO_ERROR
| NATS_NO_SERVER | NATS_TIMEOUT | NATS_OTHER (code : Z).

#[global] Instance natsStatus_eq_dec : EqDecision natsStatus.
Proof. solve_decision. Defined.

Definition is_infra_error (s : natsStatus) : bool :=
  match s with
  | NATS_CONNECTION_CLOSED | NATS_CONNECTION_DISCONNECTED | NATS_IO_ERROR | NATS_NO_SERVER
  | NATS_TIMEOUT => true
  | _ => false
  end.
Definition is_ok (s : natsStatus) : bool := match s with NATS_OK => true | _ => false end.

Definition kMaxRetries : Z := 3.
Definition kBaseRetryMs : Z := 50.

(** [std::getenv] is the argument; a value that does not parse falls back. *)
Definition effective_retry_base_ms (env : option string) : Z :=
  match env with
  | None => kBaseRetryMs
  | Some v => match stoi v with
              | inr val => if (0 <=? val)%Z then val else kBaseRetryMs
              | inl _ => kBaseRetryMs
              end
  end.

Section nats.
(** The broker's side: its state and one publish (with or without JetStream). *)
Context {B : Type} (do_publish_once : bool -> string -> string -> B -> B * natsStatus).
Context (retry_env : option string).

Record NatsClient := {
  conn_ : bool;              (* conn_ != nullptr *)
  js_ : bool;                (* js_ != nullptr *)
  connected_ : bool;
  breaker_ : Breaker.CircuitBreaker;
  dlq_ : Dlq.DeadLetterQueue;
  broker : B;
  steady : nat -> Z;         (* readings of the steady clock *)
  steady_i : nat;
  wall : nat -> Z * Z;       (* the wall clock in seconds, a double m * 2^e *)
  wall_i : nat;
  slept : list Z;            (* sleep_for calls, in ms *)
}.
Abbreviation M := (M NatsClient).

Definition with_breaker (b : Breaker.CircuitBreaker) (c : NatsClient) : NatsClient :=
  {| conn_ := conn_ c; js_ := js_ c; connected_ := connected_ c; breaker_ := b; dlq_ := dlq_ c;
     broker := broker c; steady := steady c; steady_i := steady_i c; wall := wall c;
     wall_i := wall_i c; slept := slept c |}.
Definition with_dlq (q : Dlq.DeadLetterQueue) (c : NatsClient) : NatsClient :=
  {| conn_ := conn_ c; js_ := js_ c; connected_ := connected_ c; breaker_ := breaker_ c; dlq_ := q;
     broker := broker c; steady := steady c; steady_i := steady_i c; wall := wall c;
     wall_i := wall_i c; slept := slept c |}.
Definition with_broker (b : B) (c : NatsClient) : NatsClient :=
  {| conn_ := conn_ c; js_ := js_ c; connected_ := connected_ c; breaker_ := breaker_ c;
     dlq_ := dlq_ c; broker := b; steady := steady c; steady_i := steady_i c; wall := wall c;
     wall_i := wall_i c; slept := slept c |}.
Definition sleep (ms : Z) (c : NatsClient) : NatsClient :=
  {| conn_ := conn_ c; js_ := js_ c; connected_ := connected_ c; breaker_ := breaker_ c;
     dlq_ := dlq_ c; broker := broker c; steady := steady c; steady_i := steady_i c;
     wall := wall c; wall_i := wall_i c; slept := slept c ++ [ms] |}.

Definition now_ms : M Z := fun c =>
  ({| conn_ := conn_ c; js_ := js_ c; connected_ := connected_ c; breaker_ := breaker_ c;
      dlq_ := dlq_ c; broker := broker c; steady := steady c; steady_i := S (steady_i c);
      wall := wall c; wall_i := wall_i c; slept := slept c |}, inr (steady c (steady_i c))).
Definition wall_now : M json := fun c =>
  ({| conn_ := conn_ c; js_ := js_ c; connected_ := connected_ c; breaker_ := breaker_ c;
      dlq_ := dlq_ c; broker := broker c; steady := steady c; steady_i := steady_i c;
      wall := wall c; wall_i := S (wall_i c); slept := slept c |}, inr (let '(m, e) := wall c (wall_i c) in JFloat m e)).

(** The breaker's calls; the clock is read only where the code reads it. *)
Definition allow : M bool :=
  c ← get;
  now ← (match Breaker.state_ (breaker_ c) with Breaker.Open => now_ms | _ => mret 0%Z end);
  let '(b, ok) := Breaker.allow_attempt now (breaker_ c) in
  modify (with_breaker b) ;; mret ok.
Definition success : M unit := modify (fun c => with_breaker (Breaker.record_success (breaker_ c)) c).
Definition failure : M unit :=
  c ← get;
  now ← (if Breaker.opens (breaker_ c) then now_ms else mret 0%Z);
  modify (fun c => with_breaker (Breaker.record_failure now (breaker_ c)) c).
Definition dead_letter (subj pay : string) (attempts : Z) (level service : string) : M unit :=
  now ← now_ms;
  modify (fun c => with_dlq (Dlq.push
    {| Dlq.subject := subj; Dlq.payload := pay; Dlq.attempts := attempts;
       Dlq.timestamp_ms := now; Dlq.level := level; Dlq.service := service |} (dlq_ c)) c).
Definition publish_once (subj pay : string) : M natsStatus := fun c =>
  let '(b, s) := do_publish_once (js_ c) subj pay (broker c) in (with_broker b c, inr s).

(** The retry loop shared by [publish] and [publish_log]; [n] attempts are left after
    [attempt - 1] were made, [n = kMaxRetries - attempt + 1].  [delay_ms] is not wrapped: the
    code's [int] would only overflow for a configured base above 2^29 ms. *)
Fixpoint attempts_loop (n : nat) (attempt delay_ms : Z) (subj pay level service : string) : M bool :=
  match n with
  | O => mret false
  | S n =>
      s ← publish_once subj pay;
      if is_ok s then success ;; mret true else
      if negb (is_infra_error s) || (attempt =? kMaxRetries)%Z then
        failure ;;
        dead_letter subj pay attempt level service ;;
        mret false
      else
        when (0 <? delay_ms)%Z (modify (sleep delay_ms)) ;;
        attempts_loop n (attempt + 1) (delay_ms * 2) subj pay level service
  end.

Definition nats_publish (subj pay : string) : M bool :=
  c ← get;
  if negb (connected_ c) || negb (conn_ c) then mret false else
  ok ← allow;
  if negb ok then dead_letter subj pay 0 "" "" ;; mret false else
  attempts_loop (Z.to_nat kMaxRetries) 1 (effective_retry_base_ms retry_env) subj pay "" "".

Definition nats_publish_log `{!JsonText} (subj level message : string) (metadata : json) : M unit :=
  ts ← wall_now;
  pay ← of_result (jdump (-1) (jobj [("timestamp", ts); ("service", JStr "agamemnon");
          ("level", JStr level); ("message", JStr message); ("metadata", metadata)]));
  c ← get;
  if negb (connected_ c) || negb (conn_ c) then dead_letter subj pay 0 level "agamemnon" else
  ok ← allow;
  if negb ok then dead_letter subj pay 0 level "agamemnon" else
  attempts_loop (Z.to_nat kMaxRetries) 1 (effective_retry_base_ms retry_env) subj pay level "agamemnon" ;;
  mret tt.

Definition NatsClientPublisher `{!JsonText} : NatsPublisher NatsClient :=
  {| publish := nats_publish; publish_log := nats_publish_log |}.

(** ** Lemmas *)

(** Whether the circuit lets the next publish through. *)
Definition admitted (c : NatsClient) : bool :=
  (Breaker.allow_attempt (steady c (steady_i c)) (breaker_ c)).2.

Lemma run_allow c :
  exists c' b ok, allow c = (c', inr ok) /\ breaker_ c' = b /\ dlq_ c' = dlq_ c /\
    conn_ c' = conn_ c /\ connected_ c' = connected_ c /\ broker c' = broker c /\
    js_ c' = js_ c /\ slept c' = slept c /\ ok = admitted c.
Proof.
  unfold allow, get. rewrite run_bind. cbv beta iota. rewrite run_bind.
  unfold admitted, Breaker.allow_attempt. destruct (Breaker.state_ (breaker_ c)) eqn:E; simpl; rewrite ?E; simpl.
  - by repeat eexists.
  - destruct (_ <=? _)%Z; by repeat eexists.
  - by repeat eexists.
Qed.

(** The dead letter of a message, apart from its time. *)
Definition letter (subj pay : string) (n : Z) (level service : string) (e : Dlq.Entry) : Prop :=
  Dlq.subject e = subj /\ Dlq.payload e = pay /\ Dlq.attempts e = n /\
  Dlq.level e = level /\ Dlq.service e = service.

Lemma run_dead_letter subj pay n level service c :
  exists c' e, dead_letter subj pay n level service c = (c', inr tt) /\
    letter subj pay n level service e /\ dlq_ c' = Dlq.push e (dlq_ c) /\
    broker c' = broker c /\ slept c' = slept c.
Proof. unfold dead_letter. mstep. eexists _, _. split; [reflexivity|]. by repeat split. Qed.

Lemma run_failure c :
  exists c', failure c = (c', inr tt) /\ dlq_ c' = dlq_ c /\ broker c' = broker c /\
    js_ c' = js_ c /\ slept c' = slept c.
Proof.
  unfold failure, get. rewrite run_bind. cbv beta iota. rewrite run_bind.
  destruct (Breaker.opens (breaker_ c)); by eexists.
Qed.

(** The statuses the broker answers with to successive publishes. *)
Fixpoint outcomes (n : nat) (js : bool) (subj pay : string) (b : B) : list natsStatus :=
  match n with
  | O => []
  | S n => let '(b, s) := do_publish_once js subj pay b in s :: outcomes n js subj pay b
  end.

(** The loop stops at the first success, or at the first error that is not transient. *)
Fixpoint delivered (l : list natsStatus) : bool :=
  match l with
  | [] => false
  | s :: l => is_ok s || (is_infra_error s && delivered l)
  end.

(** The publishes made until the loop stops, and the broker after [k] of them. *)
Fixpoint tried (l : list natsStatus) : nat :=
  match l with
  | [] => 0
  | s :: l => if is_infra_error s then S (tried l) else 1
  end.
Fixpoint broker_after (k : nat) (js : bool) (subj pay : string) (b : B) : B :=
  match k with
  | O => b
  | S k => broker_after k js subj pay (do_publish_once js subj pay b).1
  end.

Lemma run_attempts n attempt delay subj pay level service c :
  n = Z.to_nat (kMaxRetries - attempt + 1) -> (1 <= attempt <= kMaxRetries)%Z ->
  let sts := outcomes n (js_ c) subj pay (broker c) in
  exists c', attempts_loop n attempt delay subj pay level service c = (c', inr (delivered sts)) /\
    broker c' = broker_after (tried sts) (js_ c) subj pay (broker c) /\
    if delivered sts then dlq_ c' = dlq_ c
    else exists e, letter subj pay (attempt - 1 + Z.of_nat (tried sts)) level service e /\
              dlq_ c' = Dlq.push e (dlq_ c).
Proof.
  revert attempt delay c. induction n as [|n IH]; intros attempt delay c Hn Ha; [lia|].
  cbn [attempts_loop outcomes]. rewrite run_bind. unfold publish_once at 1.
  destruct (do_publish_once (js_ c) subj pay (broker c)) as [b s] eqn:Eo. cbv beta iota zeta.
  cbn [delivered tried]. destruct (is_ok s) eqn:Ek; simpl.
  { rewrite run_bind. unfold success. rewrite run_modify. cbv beta iota.
    assert (is_infra_error s = false) as -> by by destruct s.
    eexists. split_and!; [done|cbn; by rewrite Eo|done]. }
  destruct (negb (is_infra_error s) || (attempt =? kMaxRetries)%Z) eqn:Estop.
  - assert (Hd : is_infra_error s && delivered (outcomes n (js_ c) subj pay b) = false).
    { apply orb_true_iff in Estop as [H%negb_true_iff|H]; [by rewrite H|].
      assert (n = 0) as -> by (unfold kMaxRetries in *; lia). by rewrite andb_false_r. }
    assert (Ht : (if is_infra_error s then S (tried (outcomes n (js_ c) subj pay b)) else 1) = 1).
    { destruct (is_infra_error s); [|done]. assert (n = 0) as -> by (unfold kMaxRetries in *; lia). done. }
    rewrite Hd, Ht, run_bind.
    destruct (run_failure (with_broker b c)) as (c1 & -> & Hq1 & Hb1 & _). cbv beta iota. rewrite run_bind.
    destruct (run_dead_letter subj pay attempt level service c1) as (c2 & e & -> & He & Hq2 & Hb2 & _).
    eexists. split_and!; [done|cbn; by rewrite Hb2, Hb1, Eo|]. exists e. rewrite Hq2, Hq1.
    by replace (attempt - 1 + Z.of_nat 1)%Z with attempt by lia.
  - apply orb_false_elim in Estop as [Hi%negb_false_iff Hne]. rewrite Hi. simpl. rewrite run_bind.
    set (c1 := if (0 <? delay)%Z then sleep delay (with_broker b c) else with_broker b c).
    assert (when (0 <? delay)%Z (modify (sleep delay)) (with_broker b c) = (c1, inr tt)) as ->.
    { unfold c1. by destruct (0 <? delay)%Z. }
    destruct (IH (attempt + 1)%Z (delay * 2)%Z c1) as (c' & Hr & Hq); [lia|lia|].
    assert (js_ c1 = js_ c /\ broker c1 = b /\ dlq_ c1 = dlq_ c) as (Hj & Hb & Hqc).
    { unfold c1. by destruct (0 <? delay)%Z. }
    rewrite Hj, Hb, Hqc in *. exists c'. destruct Hq as [Hbr Hq].
    split_and!; [done|cbn; by rewrite Eo|]. destruct (delivered _); [done|].
    by replace (attempt - 1 + Z.of_nat (S (tried (outcomes n (js_ c) subj pay b))))%Z
      with (attempt + 1 - 1 + Z.of_nat (tried (outcomes n (js_ c) subj pay b)))%Z by lia.
Qed.
End nats.

(** *** Breaker *)

(** The calls a client makes on its breaker. *)
Inductive breaker_call := CAllow (now : Z) | CSuccess | CFailure (now : Z).
Definition call_breaker (b : Breaker.CircuitBreaker) (x : breaker_call) : Breaker.CircuitBreaker :=
  match x with
  | CAllow now => fst (Breaker.allow_attempt now b)
  | CSuccess => Breaker.record_success b
  | CFailure now => Breaker.record_failure now b
  end.

(** Closed: fewer failures in a row than the threshold. *)
Definition breaker_ok (b : Breaker.CircuitBreaker) : Prop :=
  (0 < Breaker.failure_threshold (Breaker.cfg_ b) < 2 ^ 31)%Z /\
  (Breaker.state_ b = Breaker.Closed ->
   0 <= Breaker.failure_count_ b < Breaker.failure_threshold (Breaker.cfg_ b))%Z.

Lemma wrap32_small z : (- 2 ^ 31 <= z < 2 ^ 31)%Z -> wrap32 z = z.
Proof. intros H. unfold wrap32. rewrite Z.mod_small by lia. lia. Qed.

Lemma breaker_ok_call b x : breaker_ok b -> breaker_ok (call_breaker b x).
Proof.
  intros [Ht Hc]. destruct x as [now| |now]; simpl.
  - unfold Breaker.allow_attempt. destruct (Breaker.state_ b) eqn:E; simpl; [by split; rewrite ?E|..].
    + destruct (_ <=? _)%Z; split; simpl; by rewrite ?E.
    + split; by rewrite ?E.
  - split; simpl; [done|lia].
  - unfold Breaker.record_failure, Breaker.set_failures; simpl.
    destruct (Breaker.state_ b) eqn:E; simpl; [|by split; simpl; rewrite ?E..].
    specialize (Hc eq_refl). rewrite wrap32_small by lia.
    destruct (_ <=? _)%Z eqn:El; split; simpl; try done; rewrite ?E. intros _. lia.
Qed.

(** *** Dead letters *)

Lemma push_spec q e : 0 < Dlq.capacity_ q -> length (Dlq.queue_ q) <= Dlq.capacity_ q ->
  Dlq.queue_ (Dlq.push e q)
  = drop (length (Dlq.queue_ q) + 1 - Dlq.capacity_ q) (Dlq.queue_ q ++ [e]).
Proof.
  intros Hc Hl. unfold Dlq.push. simpl. destruct (Nat.leb_spec (Dlq.capacity_ q) (length (Dlq.queue_ q))).
  - replace (length (Dlq.queue_ q) + 1 - Dlq.capacity_ q) with 1 by lia.
    destruct (Dlq.queue_ q); [simpl in *; lia|done].
  - replace (length (Dlq.queue_ q) + 1 - Dlq.capacity_ q) with 0 by lia. done.
Qed.

(** After any pushes the queue holds the most recent [capacity] entries, in order. *)
Lemma push_all_spec es q : 0 < Dlq.capacity_ q -> length (Dlq.queue_ q) <= Dlq.capacity_ q ->
  let q' := foldl (fun q e => Dlq.push e q) q es in
  length (Dlq.queue_ q') <= Dlq.capacity_ q /\ Dlq.capacity_ q' = Dlq.capacity_ q /\
  Dlq.queue_ q' = drop (length (Dlq.queue_ q) + length es - Dlq.capacity_ q) (Dlq.queue_ q ++ es).
Proof.
  revert q; induction es as [|e es IH]; intros q Hc Hl; simpl.
  - rewrite Nat.add_0_r, app_nil_r. split_and!; [done|done|].
    by replace (length (Dlq.queue_ q) - Dlq.capacity_ q) with 0 by lia.
  - pose proof (push_spec q e Hc Hl) as Hp. set (q1 := Dlq.push e q) in *.
    assert (Hc1 : Dlq.capacity_ q1 = Dlq.capacity_ q) by done.
    assert (Hl1 : length (Dlq.queue_ q1) = Nat.min (length (Dlq.queue_ q) + 1) (Dlq.capacity_ q)).
    { rewrite Hp, length_drop, length_app. simpl. lia. }
    destruct (IH q1) as (Hl2 & Hc2 & Hq2); [lia|lia|]. rewrite Hc1 in *. split_and!; [done|done|].
    rewrite Hl1, Hp in Hq2. rewrite Hq2. rewrite <- drop_app_le by (rewrite length_app; simpl; lia).
    rewrite drop_drop, <- app_assoc. simpl. f_equal. lia.
Qed.
