(* ===== verification/MessagingTheorems.v ===== *)
(** * Messaging: properties

    The guarantees of the circuit breaker, of the dead-letter queue and of the NATS client
    (Messaging.v); the client discharges what the orchestrator's theorems assume of a
    publisher. *)

From S2P Require Import Prelude Effects Text Json Utf8 JsonCodec Metrics World OrchestratorFacts.
From S2P Require Import Messaging.

Lemma failures_closed cfg ts :
  (0 < Breaker.failure_threshold cfg < 2 ^ 31)%Z ->
  (Z.of_nat (length ts) < Breaker.failure_threshold cfg)%Z ->
  foldl (fun b t => Breaker.record_failure t b) (Breaker.new_breaker cfg) ts
  = Breaker.set_failures (Z.of_nat (length ts)) (Breaker.new_breaker cfg).
Proof.
  intros Ht. induction ts as [|t ts IH] using rev_ind; intros Hl; [done|].
  rewrite length_app in *. simpl in *. rewrite foldl_app. simpl. rewrite IH by lia.
  unfold Breaker.record_failure; simpl. rewrite wrap32_small by lia.
  destruct (_ <=? _)%Z eqn:E; [lia|]. unfold Breaker.set_failures; simpl. f_equal. lia.
Qed.

(** The circuit opens at exactly [failure_threshold] consecutive failures, and once it
    opened at time [t] no publish is attempted until the probe interval has elapsed; the first
    attempt after that is the probe. *)
Lemma breaker_trips (cfg : Breaker.Config) (ts : list Z) (t : Z) :
  (0 < Breaker.failure_threshold cfg < 2 ^ 31)%Z ->
  (Z.of_nat (length ts) + 1 = Breaker.failure_threshold cfg)%Z ->
  let b := foldl (fun b t => Breaker.record_failure t b) (Breaker.new_breaker cfg) ts in
  let b' := Breaker.record_failure t b in
  Breaker.state_ b = Breaker.Closed /\ Breaker.state_ b' = Breaker.Open /\
  forall now, Breaker.allow_attempt now b' =
    if (Breaker.probe_interval cfg <=? now - t)%Z
    then (Breaker.set_state Breaker.HalfOpen b', true) else (b', false).
Proof.
  intros Ht Hl b b'. assert (Hb : b = Breaker.set_failures (Z.of_nat (length ts)) (Breaker.new_breaker cfg)).
  { apply failures_closed; lia. }
  assert (Hb' : b' = {| Breaker.cfg_ := cfg; Breaker.state_ := Breaker.Open;
            Breaker.failure_count_ := Z.of_nat (length ts) + 1; Breaker.open_since_ms_ := t |}).
  { unfold b'. rewrite Hb. unfold Breaker.record_failure; simpl. rewrite wrap32_small by lia.
    by destruct (_ <=? _)%Z eqn:E; [|lia]. }
  rewrite Hb, Hb'. done.
Qed.

(** Under any sequence of attempts, successes and failures, a closed circuit has seen
    fewer consecutive failures than its threshold (so it never stays closed past it). *)
Lemma breaker_closed_below_threshold (cfg : Breaker.Config) (calls : list breaker_call) :
  (0 < Breaker.failure_threshold cfg < 2 ^ 31)%Z ->
  breaker_ok (foldl call_breaker (Breaker.new_breaker cfg) calls).
Proof.
  intros Ht. assert (Hb : breaker_ok (Breaker.new_breaker cfg)) by (split; simpl; lia).
  revert Hb. generalize (Breaker.new_breaker cfg). induction calls as [|x calls IH]; intros b Hb; [done|].
  simpl. apply IH. by apply breaker_ok_call.
Qed.

(** The dead-letter queue is bounded and keeps the newest entries: after any pushes to a
    queue within its capacity, it holds exactly the most recent [capacity] entries in order. *)
Lemma dlq_keeps_newest (q : Dlq.DeadLetterQueue) (es : list Dlq.Entry) :
  0 < Dlq.capacity_ q -> length (Dlq.queue_ q) <= Dlq.capacity_ q ->
  let q' := foldl (fun q e => Dlq.push e q) q es in
  length (Dlq.queue_ q') <= Dlq.capacity_ q /\
  Dlq.queue_ q' = drop (length (Dlq.queue_ q) + length es - Dlq.capacity_ q) (Dlq.queue_ q ++ es).
Proof. intros Hc Hl q'. destruct (push_all_spec es q Hc Hl) as (H1 & _ & H2). done. Qed.

(** Delivered: the last publish made was answered NATS_OK. *)
Lemma delivered_last l : delivered l = bool_decide (l !! (tried l - 1) = Some NATS_OK).
Proof.
  induction l as [|s l IH]; [done|]. cbn [delivered tried]. destruct s; try done. all: rewrite IH; cbn.
  all: rewrite Nat.sub_0_r; destruct l as [|s l]; [done|].
  all: assert (exists k, tried (s :: l) = S k) as [k ->] by (cbn; case_match; eauto).
  all: cbn; by rewrite Nat.sub_0_r.
Qed.

Section client.
Context {B : Type} (do_publish_once : bool -> string -> string -> B -> B * natsStatus).
Context (retry_env : option string).

Lemma run_publish subj pay c :
  connected_ c = true -> conn_ c = true ->
  let sts := outcomes do_publish_once 3 (js_ c) subj pay (broker c) in
  let k := if admitted c then tried sts else 0 in
  let ok := admitted c && delivered sts in
  exists c', nats_publish do_publish_once retry_env subj pay c = (c', inr ok) /\
    broker c' = broker_after do_publish_once k (js_ c) subj pay (broker c) /\
    if ok then dlq_ c' = dlq_ c
    else exists e, letter subj pay (Z.of_nat k) "" "" e /\ dlq_ c' = Dlq.push e (dlq_ c).
Proof.
  intros Hc1 Hc2. unfold nats_publish, get. rewrite run_bind. cbv beta iota. rewrite Hc1, Hc2. simpl.
  rewrite run_bind. destruct (run_allow c) as (c1 & b & ok & -> & _ & Hq & _ & _ & Hb & Hj & _ & ->).
  cbv beta iota. destruct (admitted c); simpl.
  - destruct (run_attempts do_publish_once 3 1 (effective_retry_base_ms retry_env) subj pay "" "" c1)
      as (c2 & Hr & Hd); [done|done|]. rewrite Hq, Hb, Hj in *. by exists c2.
  - rewrite run_bind. destruct (run_dead_letter subj pay 0 "" "" c1) as (c2 & e & -> & He & Hd & Hb2 & _).
    exists c2. split_and!; [done|congruence|]. exists e. by rewrite Hd, Hq.
Qed.

(** C30: [publish] of a connected client never throws.  It makes publishes to the broker until
    the first that is answered NATS_OK or with an error that is not transient, three at most (none
    when the circuit refuses the attempt); it returns true exactly when the last one was
    answered NATS_OK, and then the dead-letter queue is unchanged; otherwise it returns false and
    the message is the newest dead letter, with the number of publishes made. *)
Theorem publish_or_dead_letter (subj pay : string) (c : NatsClient (B := B)) :
  connected_ c = true -> conn_ c = true ->
  let sts := outcomes do_publish_once 3 (js_ c) subj pay (broker c) in
  let k := if admitted c then tried sts else 0 in
  let ok := admitted c && bool_decide (sts !! (k - 1) = Some NATS_OK) in
  exists c', nats_publish do_publish_once retry_env subj pay c = (c', inr ok) /\
    broker c' = broker_after do_publish_once k (js_ c) subj pay (broker c) /\
    if ok then dlq_ c' = dlq_ c
    else exists e, letter subj pay (Z.of_nat k) "" "" e /\ dlq_ c' = Dlq.push e (dlq_ c).
Proof.
  intros Hc1 Hc2. pose proof (run_publish subj pay c Hc1 Hc2) as H. cbv zeta in *.
  destruct (admitted c); [|exact H]. by rewrite <- delivered_last.
Qed.

(** The NATS client is a publisher that never throws, connected or not, whatever the
    broker answers, [publish_log] on UTF-8 text: what the orchestrator's delegation and submission theorems assume of their
    publisher. *)
Lemma nats_client_never_throws `{!JsonText, !DumpLaw} :
  publisher_total (NatsClientPublisher do_publish_once retry_env).
Proof.
  split.
  - intros s p c. simpl. destruct (connected_ c) eqn:E1; [destruct (conn_ c) eqn:E2|].
    + destruct (run_publish s p c E1 E2) as (c' & Hrun & _). by eexists c', _.
    + exists c, false. unfold nats_publish, get. rewrite run_bind. cbv beta iota. by rewrite E1, E2.
    + exists c, false. unfold nats_publish, get. rewrite run_bind. cbv beta iota. by rewrite E1.
  - intros s l m d c Hl Hm Hd. simpl. unfold nats_publish_log.
    eapply returns_step; [reflexivity|]. apply returns_bind.
    { apply returns_of_result, jdump_utf8, utf8_jobj. unfold utf8_fields. cbn [forallb fst snd utf8_json].
      rewrite Hl, Hm, Hd. by destruct (wall c (wall_i c)). }
    intros c1 pay _. eapply returns_step; [reflexivity|].
    assert (Hdl : forall c : NatsClient (B := B), returns (dead_letter s pay 0 l "agamemnon") c).
    { intros c2. destruct (run_dead_letter s pay 0 l "agamemnon" c2) as (c3 & e & Hlt & _). by exists c3, tt. }
    destruct (negb (connected_ c1) || negb (conn_ c1)); [done|].
    destruct (run_allow c1) as (c2 & b & ok & Ha & _). eapply returns_step; [apply Ha|].
    destruct (negb ok); [done|].
    destruct (run_attempts do_publish_once 3 1 (effective_retry_base_ms retry_env) s pay l "agamemnon" c2)
      as (c3 & Hr & _); [done|done|]. eapply returns_step; [apply Hr|]. by exists c3, tt.
Qed.
End client.

(** ** Instances *)

Lemma breaker_trips_witness :
  Breaker.state_ (foldl (fun b t => Breaker.record_failure t b)
     (Breaker.new_breaker Breaker.default_config) [1; 2; 3; 4]%Z) = Breaker.Closed.
Proof. apply (breaker_trips Breaker.default_config [1; 2; 3; 4]%Z 5); [done|reflexivity]. Defined.

Lemma breaker_closed_below_threshold_witness :
  breaker_ok (foldl call_breaker (Breaker.new_breaker Breaker.default_config)
    [CFailure 1; CFailure 2; CAllow 3; CSuccess]).
Proof. apply (breaker_closed_below_threshold Breaker.default_config). done. Defined.

Definition letter0 : Dlq.Entry :=
  {| Dlq.subject := "s"; Dlq.payload := "p"; Dlq.attempts := 0; Dlq.timestamp_ms := 0;
     Dlq.level := ""; Dlq.service := "" |}.

Lemma dlq_keeps_newest_witness :
  length (Dlq.queue_ (foldl (fun q e => Dlq.push e q) (Dlq.new_queue 2) [letter0; letter0; letter0])) <= 2.
Proof. apply (dlq_keeps_newest (Dlq.new_queue 2) [letter0; letter0; letter0]); simpl; lia. Defined.

(** A broker that is down, and a client connected to it. *)
Definition down_broker (_ : bool) (_ _ : string) (n : nat) : nat * natsStatus := (S n, NATS_TIMEOUT).
Definition client0 : NatsClient :=
  {| conn_ := true; js_ := false; connected_ := true;
     breaker_ := Breaker.new_breaker Breaker.default_config; dlq_ := Dlq.new_queue 256; broker := 0;
     steady := Z.of_nat; steady_i := 0; wall := fun _ => (0, 0)%Z; wall_i := 0; slept := [] |}.

Lemma publish_or_dead_letter_witness :
  exists c', nats_publish down_broker None "hi.tasks.created" "{}" client0 = (c', inr false) /\
    broker c' = 3 /\
    exists e, letter "hi.tasks.created" "{}" 3 "" "" e /\ dlq_ c' = Dlq.push e (dlq_ client0).
Proof. exact (publish_or_dead_letter down_broker None "hi.tasks.created" "{}" client0 eq_refl eq_refl). Defined.

#[local] Existing Instance codec.
