(* ===== verification/Guards.v ===== *)
(** * Guards: rate limiting, authentication, webhook signatures, port numbers

    src/rate_limiter.cpp, src/auth.cpp, src/github_webhook.cpp and
    include/agamemnon/port_parse.hpp: the checks a request or a setting passes before the rest
    of the server sees it. *)

From S2P Require Import Prelude Effects Text Json.
From Stdlib Require Import QArith Qminmax.
Close Scope Q_scope.

(** ** Rate limiter *)

Module RateLimit.
Section limiter.

(** [double] arithmetic: exact rational operations followed by the rounding [rnd]. *)
Context (rnd : Q -> Q).

Record Bucket := { tokens : Q; last_seen : Z (* ns *) }.

Record RateLimiter := {
  tokens_per_second_ : Q;
  burst_capacity_ : Q;
  buckets_ : gmap string Bucket;
  request_count_since_evict_ : Z;
}.

Definition new_limiter (tokens_per_second burst_capacity : Q) : RateLimiter :=
  {| tokens_per_second_ := tokens_per_second; burst_capacity_ := burst_capacity; buckets_ := ∅;
     request_count_since_evict_ := 0 |}.

Definition kEvictAfter : Z := 300 * 1000000000.
Definition kEvictCheckInterval : Z := 100.

(** [std::chrono::duration<double>(now - last).count()]. *)
Definition seconds (ns : Z) : Q := rnd (inject_Z ns / inject_Z 1000000000)%Q.

Definition qmin (a b : Q) : Q := if Qle_bool a b then a else b.

Definition refill (r : RateLimiter) (now : Z) (b : Bucket) : Bucket :=
  let elapsed := seconds (now - last_seen b) in
  {| tokens := qmin (burst_capacity_ r)
                 (rnd (tokens b + rnd (elapsed * tokens_per_second_ r))%Q);
     last_seen := now |}.

Definition evict_stale (now : Z) (bs : gmap string Bucket) : gmap string Bucket :=
  filter (fun kv => ~ (kEvictAfter < now - last_seen kv.2)%Z) bs.

Definition allow (now : Z) (client_ip : string) (r : RateLimiter) : RateLimiter * bool :=
  let bucket := match buckets_ r !! client_ip with
                | None => {| tokens := burst_capacity_ r; last_seen := now |}
                | Some b => refill r now b
                end in
  let bs := <[client_ip := bucket]> (buckets_ r) in
  let count := (request_count_since_evict_ r + 1)%Z in
  let '(count, bs) := if (kEvictCheckInterval <=? count)%Z then (0%Z, evict_stale now bs)
                      else (count, bs) in
  let '(bs, ok) :=
    if Qle_bool 1 (tokens bucket)
    then (<[client_ip := {| tokens := rnd (tokens bucket - 1)%Q; last_seen := last_seen bucket |}]> bs, true)
    else (bs, false) in
  ({| tokens_per_second_ := tokens_per_second_ r; burst_capacity_ := burst_capacity_ r;
      buckets_ := bs; request_count_since_evict_ := count |}, ok).

Definition retry_after_seconds (now : Z) (client_ip : string) (r : RateLimiter) : Q :=
  match buckets_ r !! client_ip with
  | None => 0
  | Some b =>
      let b := refill r now b in
      if Qle_bool 1 (tokens b) then 0
      else rnd (rnd (1 - tokens b) / tokens_per_second_ r)
  end%Q.
End limiter.
End RateLimit.

(** ** Authentication *)

Module Auth.

(** The parts of [httplib::Request] the middleware reads; header names are looked up by the
    library. *)
Record Request := { path : string; header : string -> option string }.

Definition is_exempt (path : string) : bool :=
  str_eqb path "/health" || str_eqb path "/v1/health".

Definition validate (api_key : string) (req : Request) : bool :=
  if is_exempt (path req) then true else
  if str_empty api_key then true else
  let x_api_key :=
    match header req "X-API-Key" with Some k => str_eqb k api_key | None => false end in
  match header req "Authorization" with
  | Some auth =>
      if (7 <? String.length auth) && str_eqb (str_substr auth 0 7) "Bearer "
      then str_eqb (str_drop auth 7) api_key else x_api_key
  | None => x_api_key
  end.
End Auth.

(** ** Webhook *)

Module Webhook.

(** [std::stoi(std::string(1, c), nullptr, 16)] of a hexadecimal digit. *)
Definition xdigit_value (c : ascii) : Z :=
  (if isdigit c then byte_of c - 48 else byte_of (tolower c) - 87)%Z.

(** [hex_decode]: None for [false]. *)
Fixpoint hex_decode (hex : string) : option (list Z) :=
  match hex with
  | "" => Some []
  | String hi (String lo rest) =>
      if isxdigit hi && isxdigit lo then
        cons (Z.lor (Z.shiftl (xdigit_value hi) 4) (xdigit_value lo)) <$> hex_decode rest
      else None
  | String _ "" => None
  end.

(** OpenSSL's [HMAC(EVP_sha256(), secret, body)]: None when it fails. *)
Definition verify_github_signature (HMAC : string -> string -> option (list Z))
    (secret header_value raw_body : string) : bool :=
  if str_empty secret then false else
  if negb (String.length header_value =? 7 + 64) then false else
  if negb (starts_with "sha256=" header_value) then false else
  match hex_decode (str_drop header_value 7) with
  | None => false
  | Some expected_sig =>
      match HMAC secret raw_body with
      | None => false
      | Some computed_sig =>
          if negb (length computed_sig =? length expected_sig) then false
          else bool_decide (computed_sig = expected_sig)
      end
  end.

Record NormalizedEvent := {
  action : string;
  entity_label : string;
  issue_shape : json;
  updated_at : string;
}.

Definition kAllowedActions : list string :=
  ["opened"; "edited"; "closed"; "reopened"; "labeled"; "unlabeled"].

(** A member of an object, null when absent (the code tests [contains] first). *)
Definition member (k : string) (j : json) : json := default JNull (obj_get k (items j)).

(** The first label that starts with "agamemnon-"; "" when there is none. *)
Fixpoint find_label (labels : list json) : string :=
  match labels with
  | [] => ""
  | l :: labels =>
      match l with
      | JObj _ =>
          match member "name" l with
          | JStr name => if starts_with "agamemnon-" name then name else find_label labels
          | _ => find_label labels
          end
      | _ => find_label labels
      end
  end.

Definition normalize_issues_event (payload : json) : option NormalizedEvent :=
  match member "action" payload with
  | JStr action =>
      if negb (existsb (str_eqb action) kAllowedActions) then None else
      let issue := member "issue" payload in
      if negb (is_object issue) then None else
      match member "number" issue, member "body" issue with
      | JInt number, JStr body =>
          let entity_label :=
            match member "labels" issue with JArr labels => find_label labels | _ => "" end in
          if str_empty entity_label then None else
          let updated_at := match member "updated_at" issue with JStr s => s | _ => "" end in
          let shape := [("number", JInt (wrap32 number)); ("body", JStr body)] in
          let shape := match member "state" issue with
                       | JStr s => shape ++ [("state", JStr s)]
                       | _ => shape
                       end in
          Some {| action := action; entity_label := entity_label; issue_shape := jobj shape;
                  updated_at := updated_at |}
      | _, _ => None
      end
  | _ => None
  end.
End Webhook.

(** ** Ports *)

Module Port.

(** [std::from_chars(str, end, parsed)] over the whole string: an optional minus sign and
    digits, nothing else, within [int]. *)
Definition from_chars_all (s : string) : option Z :=
  let '(neg, ds) := match s with String "-" r => (true, r) | _ => (false, s) end in
  if str_empty ds || negb (str_forall isdigit ds) then None else
  let v := (if neg then - digits_value 0 ds else digits_value 0 ds)%Z in
  if (v <? - 2 ^ 31)%Z || (2 ^ 31 - 1 <? v)%Z then None else Some v.

Definition parse_port (str : option string) : Z + string :=
  match str with
  | None | Some "" => inr "empty"
  | Some s =>
      match from_chars_all s with
      | None => inr "not a valid integer"
      | Some parsed =>
          if (parsed <? 1)%Z || (65535 <? parsed)%Z then inr "out of range [1,65535]" else inl parsed
      end
  end.
End Port.
