(* ===== verification/GuardsTheorems.v ===== *)
(** * Guards: properties

    The guarantees of the rate limiter, of the API-key check, of the webhook signature and of
    the port parser (Guards.v). *)

From S2P Require Import Prelude Effects Text Json PlanningFacts Guards.
From Stdlib Require Import QArith Qminmax Lqa.
Close Scope Q_scope.

(** ** Rate limiter *)

Module RL := Guards.RateLimit.

Lemma qle_bool_true a b : Qle_bool a b = true <-> (a <= b)%Q.
Proof. apply Qle_bool_iff. Qed.
Lemma qle_bool_false a b : Qle_bool a b = false -> (b < a)%Q.
Proof. intros H. apply Qnot_le_lt. intros Hle. apply Qle_bool_iff in Hle. congruence. Qed.

Lemma qmin_le a b : (RL.qmin a b <= a)%Q /\ (RL.qmin a b <= b)%Q.
Proof.
  unfold RL.qmin. destruct (Qle_bool a b) eqn:E.
  - apply qle_bool_true in E. lra.
  - apply qle_bool_false in E. lra.
Qed.
Lemma qmin_ge a b c : (c <= a -> c <= b -> c <= RL.qmin a b)%Q.
Proof. unfold RL.qmin. by destruct (Qle_bool a b). Qed.

Section limiter.
Context (rnd : Q -> Q).

(** What is used of IEEE rounding: monotone, and exact on 0 and on the burst capacity. *)
Record rounding (burst : Q) : Prop := {
  rnd_mono a b : (a <= b)%Q -> (rnd a <= rnd b)%Q;
  rnd_zero : (rnd 0 == 0)%Q;
  rnd_burst : (rnd burst == burst)%Q;
}.

Lemma rnd_nonneg burst a : rounding burst -> (0 <= a)%Q -> (0 <= rnd a)%Q.
Proof. intros Hr Ha. pose proof (rnd_mono _ Hr _ _ Ha) as H. pose proof (rnd_zero _ Hr). lra. Qed.

Lemma rnd_burst_le burst a : rounding burst -> (a <= burst)%Q -> (rnd a <= burst)%Q.
Proof. intros Hr Ha. pose proof (rnd_mono _ Hr _ _ Ha) as H. pose proof (rnd_burst _ Hr). lra. Qed.

(** Buckets hold between 0 and the burst capacity, and none is from the future. *)
Definition bucket_ok (r : RL.RateLimiter) (now : Z) (b : RL.Bucket) : Prop :=
  (0 <= RL.tokens b)%Q /\ (RL.tokens b <= RL.burst_capacity_ r)%Q /\ (RL.last_seen b <= now)%Z.
Definition limiter_ok (now : Z) (r : RL.RateLimiter) : Prop :=
  (0 <= RL.burst_capacity_ r)%Q /\ (0 <= RL.tokens_per_second_ r)%Q /\
  forall ip b, RL.buckets_ r !! ip = Some b -> bucket_ok r now b.

Lemma seconds_nonneg burst ns : rounding burst -> (0 <= ns)%Z -> (0 <= RL.seconds rnd ns)%Q.
Proof.
  intros Hr Hn. apply (rnd_nonneg burst); [done|]. apply Qle_shift_div_l; [reflexivity|].
  rewrite Qmult_0_l. change 0%Q with (inject_Z 0). by rewrite <- Zle_Qle.
Qed.

Lemma bucket_ok_refill r now now' b :
  rounding (RL.burst_capacity_ r) -> limiter_ok now r -> (now <= now')%Z -> bucket_ok r now b ->
  bucket_ok r now' (RL.refill rnd r now' b).
Proof.
  intros Hr (Hb & Hrate & _) Hn (H0 & _ & Hl). split_and!; simpl; [|apply qmin_le|lia].
  apply qmin_ge; [done|]. apply (rnd_nonneg _ _ Hr).
  assert (0 <= rnd (RL.seconds rnd (now' - RL.last_seen b) * RL.tokens_per_second_ r))%Q.
  { apply (rnd_nonneg _ _ Hr), Qmult_le_0_compat; [|done]. apply (seconds_nonneg _ _ Hr). lia. }
  lra.
Qed.

(** The bucket a request of [ip] at [now] is charged to. *)
Definition charged (now : Z) (ip : string) (r : RL.RateLimiter) : RL.Bucket :=
  match RL.buckets_ r !! ip with
  | None => {| RL.tokens := RL.burst_capacity_ r; RL.last_seen := now |}
  | Some b => RL.refill rnd r now b
  end.

(** The limiter after a request, pointwise: the requester's bucket is charged, another
    client's bucket is kept or evicted. *)
Lemma run_limiter_allow now ip r :
  let b := charged now ip r in
  exists r' ok, RL.allow rnd now ip r = (r', ok) /\ ok = Qle_bool 1 (RL.tokens b) /\
    RL.tokens_per_second_ r' = RL.tokens_per_second_ r /\
    RL.burst_capacity_ r' = RL.burst_capacity_ r /\
    RL.buckets_ r' !! ip = Some (if ok then {| RL.tokens := rnd (RL.tokens b - 1)%Q;
                                               RL.last_seen := now |} else b) /\
    forall ip', ip' <> ip ->
      RL.buckets_ r' !! ip' = RL.buckets_ r !! ip' \/
      (RL.buckets_ r' !! ip' = None /\
       exists b', RL.buckets_ r !! ip' = Some b' /\ (RL.kEvictAfter < now - RL.last_seen b')%Z).
Proof.
  intros b. assert (Hl : RL.last_seen b = now) by (unfold b, charged; by case_match).
  unfold RL.allow. fold (charged now ip r). fold b.
  set (bs := <[ip := b]> (RL.buckets_ r)).
  set (e := (RL.kEvictCheckInterval <=? RL.request_count_since_evict_ r + 1)%Z).
  set (cnt := if e then 0%Z else (RL.request_count_since_evict_ r + 1)%Z).
  set (bs' := if e then RL.evict_stale now bs else bs).
  assert (Hpair : (if e then (0%Z, RL.evict_stale now bs) else ((RL.request_count_since_evict_ r + 1)%Z, bs))
                  = (cnt, bs')) by (unfold cnt, bs'; by destruct e).
  rewrite Hpair. cbv beta iota zeta.
  assert (Hip : bs' !! ip = Some b).
  { unfold bs'. destruct e; [|by apply lookup_insert_eq]. unfold RL.evict_stale.
    apply map_lookup_filter_Some. split; [apply lookup_insert_eq|]. simpl. rewrite Hl.
    unfold RL.kEvictAfter. lia. }
  assert (Hoth : forall ip', ip' <> ip -> bs' !! ip' = RL.buckets_ r !! ip' \/
            (bs' !! ip' = None /\
             exists b', RL.buckets_ r !! ip' = Some b' /\ (RL.kEvictAfter < now - RL.last_seen b')%Z)).
  { intros ip' Hne. unfold bs'. destruct e; [|left; by apply lookup_insert_ne].
    assert (Hbs : bs !! ip' = RL.buckets_ r !! ip') by by apply lookup_insert_ne.
    destruct (RL.buckets_ r !! ip') as [b'|] eqn:Eb.
    - destruct (decide (RL.kEvictAfter < now - RL.last_seen b')%Z) as [Hst|Hst].
      + right. split; [|eauto]. apply map_lookup_filter_None. right. intros x Hx.
        rewrite Hbs in Hx. injection Hx as <-. simpl. lia.
      + left. apply map_lookup_filter_Some. simpl. by rewrite Hbs.
    - left. apply map_lookup_filter_None. by left. }
  destruct (Qle_bool 1 (RL.tokens b)) eqn:Et.
  - eexists _, true. split; [reflexivity|]. split_and!; [done|done|done| |].
    + simpl. by rewrite lookup_insert_eq, Hl.
    + intros ip' Hne. simpl. rewrite lookup_insert_ne by done. by apply Hoth.
  - eexists _, false. split; [reflexivity|]. split_and!; done.
Qed.

Lemma limiter_ok_allow now now' ip r :
  rounding (RL.burst_capacity_ r) -> (now <= now')%Z -> limiter_ok now r ->
  limiter_ok now' (fst (RL.allow rnd now' ip r)).
Proof.
  intros Hr Hn Hok. assert (Hc : bucket_ok r now' (charged now' ip r)).
  { unfold charged. pose proof Hok as (Hb & _ & Hall).
    destruct (RL.buckets_ r !! ip) as [b|] eqn:E; [eapply bucket_ok_refill; eauto|].
    split_and!; simpl; [done|lra|lia]. }
  destruct Hok as (Hb & Hrate & Hall). destruct Hc as (H0 & H1 & H2).
  destruct (run_limiter_allow now' ip r) as (r' & ok & -> & Hok & Hr' & Hb' & Hip & Hoth). simpl.
  split_and!; [by rewrite Hb'|by rewrite Hr'|]. intros ip' b' Hb1.
  unfold bucket_ok. rewrite Hb'. destruct (decide (ip' = ip)) as [->|Hne].
  - rewrite Hip in Hb1. injection Hb1 as <-. destruct ok; [|done]. simpl. symmetry in Hok.
    apply qle_bool_true in Hok. split_and!; [|apply (rnd_burst_le _ _ Hr); lra|lia].
    apply (rnd_nonneg _ _ Hr). lra.
  - destruct (Hoth ip' Hne) as [E|[E _]]; rewrite E in Hb1; [|done].
    destruct (Hall _ _ Hb1) as (? & ? & ?). split_and!; [done|done|lia].
Qed.
End limiter.

(** *** The rate, in exact arithmetic *)

Definition exact (q : Q) : Q := q.
Abbreviation secs := (RL.seconds exact).

Lemma exact_rounding b : rounding exact b.
Proof. split; unfold exact; intros; lra. Qed.

Lemma secs_add a b : (secs (a + b) == secs a + secs b)%Q.
Proof. unfold RL.seconds, exact. rewrite inject_Z_plus. field. Qed.
Lemma secs_split a b c : (secs (c - a) == secs (c - b) + secs (b - a))%Q.
Proof. rewrite <- secs_add. by replace (c - b + (b - a))%Z with (c - a)%Z by lia. Qed.
Lemma secs_mono a b : (a <= b)%Z -> (secs a <= secs b)%Q.
Proof.
  intros H. unfold RL.seconds, exact. apply Qmult_le_compat_r; [by rewrite <- Zle_Qle|]. discriminate.
Qed.
Lemma secs_nonneg a : (0 <= a)%Z -> (0 <= secs a)%Q.
Proof. intros H. apply (seconds_nonneg exact 0); [apply exact_rounding|done]. Qed.

(** Requests (time, client) served in order; how many of [ip] were allowed. *)
Fixpoint serve (ip : string) (reqs : list (Z * string)) (r : RL.RateLimiter) : RL.RateLimiter * Z :=
  match reqs with
  | [] => (r, 0%Z)
  | (now, who) :: reqs =>
      let '(r, ok) := RL.allow exact now who r in
      let '(r, n) := serve ip reqs r in
      (r, if ok && str_eqb who ip then (n + 1)%Z else n)
  end.

(** Times do not go back and none is before [t]. *)
Fixpoint from_time (t : Z) (reqs : list (Z * string)) : Prop :=
  match reqs with [] => True | (now, _) :: reqs => (t <= now)%Z /\ from_time now reqs end.
Definition last_time (t : Z) (reqs : list (Z * string)) : Z := default t (fst <$> last reqs).

Lemma last_time_cons t now who reqs : last_time t ((now, who) :: reqs) = last_time now reqs.
Proof. unfold last_time. rewrite last_cons. by destruct (last reqs) as [[]|]. Qed.
Lemma last_time_ge t reqs : from_time t reqs -> (t <= last_time t reqs)%Z.
Proof.
  revert t; induction reqs as [|[now who] reqs IH]; intros t H; [unfold last_time; simpl; lia|].
  destruct H as [H1 H2]. rewrite last_time_cons. specialize (IH now H2). lia.
Qed.

(** What [ip] may still have been granted by time [now], [n] requests after [t0]. *)
Definition within (t0 : Z) (ip : string) (n : Q) (now : Z) (r : RL.RateLimiter) : Prop :=
  match RL.buckets_ r !! ip with
  | Some b => (n + RL.tokens b <= RL.burst_capacity_ r
                 + RL.tokens_per_second_ r * secs (RL.last_seen b - t0))%Q
  | None => (n <= RL.tokens_per_second_ r * secs (now - t0))%Q
  end.

Lemma within_step t0 ip n now now' who r :
  limiter_ok now r -> (t0 <= now <= now')%Z ->
  (RL.burst_capacity_ r <= RL.tokens_per_second_ r * secs RL.kEvictAfter)%Q ->
  within t0 ip n now r ->
  let '(r', ok) := RL.allow exact now' who r in
  within t0 ip (if ok && str_eqb who ip then n + 1 else n)%Q now' r'.
Proof.
  intros Hok Hn Hev Hw. destruct (run_limiter_allow exact now' who r) as (r' & ok & -> & Hk & Hr & Hb & Hip & Hoth).
  pose proof Hok as (Hb0 & Hr0 & Hall). pose proof (secs_split t0 now now') as Hs.
  pose proof (secs_nonneg (now' - now)) as Hs0. pose proof (secs_nonneg (now - t0)) as Hs1.
  destruct (decide (who = ip)) as [->|Hne].
  - rewrite str_eqb_refl, andb_true_r. unfold within in *. rewrite Hip, Hr, Hb.
    unfold charged in *. destruct (RL.buckets_ r !! ip) as [b|] eqn:E.
    + destruct (Hall _ _ E) as (_ & _ & Hlb). pose proof (secs_split t0 (RL.last_seen b) now') as Hs2.
      assert (Ht : (RL.tokens (RL.refill exact r now' b)
        <= RL.tokens b + RL.tokens_per_second_ r * secs (now' - RL.last_seen b))%Q).
      { simpl. unfold exact at 1 2. eapply Qle_trans; [apply qmin_le|]. lra. }
      assert (Heq : (RL.tokens_per_second_ r * secs (now' - t0) ==
        RL.tokens_per_second_ r * secs (now' - RL.last_seen b)
        + RL.tokens_per_second_ r * secs (RL.last_seen b - t0))%Q) by (rewrite Hs2; ring).
      assert (Hl : RL.last_seen (RL.refill exact r now' b) = now') by done.
      destruct ok; [cbn [RL.tokens RL.last_seen]; unfold exact at 1|rewrite Hl]; lra.
    + assert (Hm : (RL.tokens_per_second_ r * secs (now - t0) <= RL.tokens_per_second_ r * secs (now' - t0))%Q).
      { rewrite !(Qmult_comm (RL.tokens_per_second_ r)). apply Qmult_le_compat_r; [|done]. apply secs_mono. lia. }
      destruct ok; cbn [RL.tokens RL.last_seen]; [unfold exact at 1|]; lra.
  - apply str_eqb_false in Hne as Hf. rewrite Hf, andb_false_r. apply str_eqb_false in Hf.
    unfold within in *. rewrite Hr, Hb.
    assert (Hm : (RL.tokens_per_second_ r * secs (now - t0) <= RL.tokens_per_second_ r * secs (now' - t0))%Q).
    { rewrite !(Qmult_comm (RL.tokens_per_second_ r)). apply Qmult_le_compat_r; [|done]. apply secs_mono. lia. }
    destruct (Hoth ip) as [E|(E & b' & Eb & Hst)]; [by intros ->| |].
    + rewrite E. destruct (RL.buckets_ r !! ip); [done|lra].
    + rewrite E, Eb in *. destruct (Hall _ _ Eb) as (Ht0 & _ & _).
      pose proof (secs_split t0 (RL.last_seen b') now') as Hs2.
      assert (Hk2 : (RL.tokens_per_second_ r * secs RL.kEvictAfter
                <= RL.tokens_per_second_ r * secs (now' - RL.last_seen b'))%Q).
      { rewrite !(Qmult_comm (RL.tokens_per_second_ r)). apply Qmult_le_compat_r; [|done]. apply secs_mono. lia. }
      assert (Heq : (RL.tokens_per_second_ r * secs (now' - t0) ==
        RL.tokens_per_second_ r * secs (now' - RL.last_seen b')
        + RL.tokens_per_second_ r * secs (RL.last_seen b' - t0))%Q) by (rewrite Hs2; ring).
      lra.
Qed.

Lemma within_bound t0 ip n now r :
  limiter_ok now r -> (t0 <= now)%Z -> within t0 ip n now r ->
  (n <= RL.burst_capacity_ r + RL.tokens_per_second_ r * secs (now - t0))%Q.
Proof.
  intros (Hb & Hr & Hall) Hn Hw. unfold within in Hw. destruct (RL.buckets_ r !! ip) as [b|] eqn:E; [|lra].
  destruct (Hall _ _ E) as (Ht & _ & Hl).
  assert (RL.tokens_per_second_ r * secs (RL.last_seen b - t0) <= RL.tokens_per_second_ r * secs (now - t0))%Q.
  { rewrite !(Qmult_comm (RL.tokens_per_second_ r)). apply Qmult_le_compat_r; [|done]. apply secs_mono. lia. }
  lra.
Qed.

Lemma serve_within t0 ip reqs : forall n now r,
  limiter_ok now r -> (t0 <= now)%Z -> from_time now reqs ->
  (RL.burst_capacity_ r <= RL.tokens_per_second_ r * secs RL.kEvictAfter)%Q ->
  within t0 ip n now r ->
  let '(r', k) := serve ip reqs r in
  (n + inject_Z k <= RL.burst_capacity_ r + RL.tokens_per_second_ r * secs (last_time now reqs - t0))%Q.
Proof.
  induction reqs as [|[now' who] reqs IH]; intros n now r Hok Hn Hf Hev Hw.
  - simpl. unfold last_time; simpl. pose proof (within_bound t0 ip n now r Hok Hn Hw).
    change (inject_Z 0) with 0%Q. lra.
  - destruct Hf as [Hn' Hf]. cbn [serve]. rewrite last_time_cons.
    pose proof (within_step t0 ip n now now' who r Hok ltac:(lia) Hev Hw) as Hstep.
    pose proof (limiter_ok_allow exact now now' who r (exact_rounding _) Hn' Hok) as Hok'.
    destruct (run_limiter_allow exact now' who r) as (r1 & ok & Hr1 & _ & Hrate & Hburst & _).
    rewrite Hr1 in *. simpl in Hok'.
    specialize (IH _ now' r1 Hok' ltac:(lia) Hf ltac:(by rewrite Hrate, Hburst) Hstep).
    destruct (serve ip reqs r1) as [r2 k]. rewrite Hrate, Hburst in IH.
    destruct (ok && str_eqb who ip); [|done]. rewrite inject_Z_plus. change (inject_Z 1) with 1%Q. lra.
Qed.

(** Whatever requests arrive in whatever interleaving of clients, every bucket holds
    between zero and the burst capacity (for any rounding of the floating-point operations that
    is monotone and exact on 0 and on the capacity). *)
Lemma rate_limiter_bounded (rnd : Q -> Q) (now now' : Z) (ip : string) (r : RL.RateLimiter) :
  rounding rnd (RL.burst_capacity_ r) -> (now <= now')%Z -> limiter_ok now r ->
  limiter_ok now' (fst (RL.allow rnd now' ip r)).
Proof. apply limiter_ok_allow. Qed.

(** C36: in exact arithmetic, among any interleaving of clients' requests from time [t0] on,
    the limiter allows a client at most the burst capacity plus the configured rate times the
    elapsed time, provided the eviction of idle buckets is harmless (the bucket refills within
    five minutes). *)
Theorem rate_limiter_rate (rate burst : Q) (t0 : Z) (ip : string) (reqs : list (Z * string)) :
  (0 <= rate)%Q -> (0 <= burst)%Q -> (burst <= rate * secs RL.kEvictAfter)%Q -> from_time t0 reqs ->
  (inject_Z (snd (serve ip reqs (RL.new_limiter rate burst)))
   <= burst + rate * secs (last_time t0 reqs - t0))%Q.
Proof.
  intros Hr Hb Hev Hf. set (r := RL.new_limiter rate burst).
  assert (Hok : limiter_ok t0 r) by (split_and!; [done|done|]; intros ip' b Hl; simpl in Hl; by rewrite lookup_empty in Hl).
  assert (Hw : within t0 ip 0 t0 r).
  { unfold within. simpl. rewrite lookup_empty. rewrite Z.sub_diag. simpl. unfold RL.seconds, exact. simpl.
    rewrite Qmult_comm. apply Qmult_le_0_compat; [discriminate|done]. }
  pose proof (serve_within t0 ip reqs 0%Q t0 r Hok ltac:(lia) Hf Hev Hw) as H.
  destruct (serve ip reqs r) as [r' k]. simpl in *. lra.
Qed.

Lemma rate_limiter_bounded_witness :
  limiter_ok 5 (fst (RL.allow exact 5 "10.0.0.1" (RL.new_limiter 10 20))).
Proof.
  apply (rate_limiter_bounded exact 0 5 "10.0.0.1" (RL.new_limiter 10 20)); [apply exact_rounding|done|].
  split_and!; [discriminate|discriminate|]. intros ip b Hl. simpl in Hl. by rewrite lookup_empty in Hl.
Defined.

Lemma rate_limiter_rate_witness :
  (inject_Z (snd (serve "a" [(1, "a"); (2, "b"); (3, "a")]%Z (RL.new_limiter 10 20)))
   <= 20 + 10 * secs (last_time 0 [(1, "a"); (2, "b"); (3, "a")]%Z - 0))%Q.
Proof.
  apply (rate_limiter_rate 10 20 0 "a" [(1, "a"); (2, "b"); (3, "a")]%Z);
    [discriminate|discriminate|vm_compute; discriminate|simpl; lia].
Defined.

(** ** Authentication *)

(** With a configured key, a request to a path that is not a health check is let through exactly
    when it carries "Authorization: Bearer <key>", or an X-API-Key equal to the key and no Bearer
    credentials. *)
Lemma validate_iff (key : string) (req : Auth.Request) :
  key <> "" -> Auth.is_exempt (Auth.path req) = false ->
  (Auth.validate key req = true <->
   Auth.header req "Authorization" = Some ("Bearer " +:+ key) \/
   (Auth.header req "X-API-Key" = Some key /\
    forall tok, tok <> "" -> Auth.header req "Authorization" <> Some ("Bearer " +:+ tok))).
Proof.
  intros Hk He. apply str_empty_false in Hk as Hk'. unfold Auth.validate. rewrite He, Hk'. cbv zeta.
  assert (Hx : (match Auth.header req "X-API-Key" with Some k => str_eqb k key | None => false end) = true
               <-> Auth.header req "X-API-Key" = Some key).
  { destruct (Auth.header req "X-API-Key") as [k|]; [|done]. rewrite str_eqb_true. split; congruence. }
  destruct (Auth.header req "Authorization") as [auth|] eqn:Ea; [|rewrite Hx; naive_solver].
  destruct ((7 <? String.length auth) && str_eqb (str_substr auth 0 7) "Bearer ") eqn:Eb.
  - apply andb_prop in Eb as [Hl Hp%str_eqb_true]. apply Nat.ltb_lt in Hl.
    assert (Hauth : auth = "Bearer " +:+ str_drop auth 7).
    { unfold str_substr, str_drop in *. do 7 (destruct auth as [|? auth]; [simpl in Hl; lia|]).
      cbn in Hp. injection Hp as -> -> -> -> -> -> -> _. rewrite !str_app_cons, str_app_nil_l.
      simpl (String.substring 7 _ _). do 7 f_equal. simpl String.length.
      rewrite Nat.sub_0_r. symmetry. apply substring_full. }
    assert (Hd : str_drop auth 7 <> "").
    { intros Hd. rewrite Hd in Hauth. rewrite Hauth in Hl. rewrite str_app_length in Hl. simpl in Hl. lia. }
    rewrite str_eqb_true. split.
    + intros <-. left. by rewrite <- Hauth.
    + intros [[= Heq]|[_ Hno]].
      * rewrite Heq. unfold str_drop. change 7 with (String.length "Bearer ").
        rewrite substring_app_skip, str_app_length.
        replace (_ + _ - _) with (String.length key) by lia. apply substring_full.
      * exfalso. apply (Hno (str_drop auth 7) Hd). by rewrite <- Hauth.
  - rewrite Hx. apply andb_false_iff in Eb.
    assert (Hno : forall tok, tok <> "" -> auth <> "Bearer " +:+ tok).
    { intros tok Ht ->. destruct Eb as [Hl|Hp].
      - apply Nat.ltb_ge in Hl. rewrite str_app_length in Hl. simpl in Hl.
        destruct tok; [done|simpl in Hl; lia].
      - apply str_eqb_false in Hp. apply Hp, (substring_app_exact "Bearer " tok). }
    split.
    + intros H. right. split; [done|]. intros tok Ht [= Heq]. by apply (Hno tok).
    + intros [[= Heq]|[? _]]; [|done]. by destruct (Hno key Hk).
Qed.

(** ** Webhook signatures *)

(** The lower-case hexadecimal text of a byte. *)
Definition hex_byte (b : Z) : string := String (hex (b / 16)) (String (hex (b mod 16)) "").
Fixpoint hex_encode (l : list Z) : string :=
  match l with [] => "" | b :: l => hex_byte b +:+ hex_encode l end.

Definition is_byte (b : Z) : Prop := (0 <= b < 256)%Z.

Lemma hex_digit v : (0 <= v < 16)%Z -> isxdigit (hex v) = true /\ Webhook.xdigit_value (hex v) = v.
Proof.
  intros Hv. assert (v = 0 \/ v = 1 \/ v = 2 \/ v = 3 \/ v = 4 \/ v = 5 \/ v = 6 \/ v = 7 \/ v = 8 \/
    v = 9 \/ v = 10 \/ v = 11 \/ v = 12 \/ v = 13 \/ v = 14 \/ v = 15)%Z as Hc by lia.
  destruct_or! Hc; subst; split; reflexivity.
Qed.

Lemma byte_nibbles b : is_byte b -> Z.lor (Z.shiftl (b / 16) 4) (b mod 16) = b.
Proof.
  intros [H0 H1]. change 16%Z with (2 ^ 4)%Z. rewrite <- Z.shiftr_div_pow2, <- Z.land_ones by lia.
  apply Z.bits_inj'. intros n Hn. rewrite Z.lor_spec, Z.shiftl_spec, Z.land_spec by lia.
  destruct (decide (n < 4)%Z).
  - rewrite (Z.testbit_neg_r _ (n - 4)) by lia. rewrite Z.ones_spec_low by lia. by rewrite andb_true_r.
  - rewrite Z.shiftr_spec, Z.ones_spec_high by lia. rewrite andb_false_r, orb_false_r. f_equal. lia.
Qed.

Lemma hex_decode_encode l : Forall is_byte l -> Webhook.hex_decode (hex_encode l) = Some l.
Proof.
  induction 1 as [|b l Hb _ IH]; [done|]. cbn [hex_encode]. unfold hex_byte.
  rewrite !str_app_cons, str_app_nil_l. cbn [Webhook.hex_decode].
  destruct (hex_digit (b / 16)) as [-> ->].
  { split; [apply Z.div_pos; destruct Hb; lia|]. apply Z.div_lt_upper_bound; destruct Hb; lia. }
  destruct (hex_digit (b mod 16)) as [-> ->]; [apply Z.mod_pos_bound; lia|].
  simpl. rewrite IH. simpl. by rewrite byte_nibbles.
Qed.

Lemma hex_encode_length l : String.length (hex_encode l) = 2 * length l.
Proof. induction l as [|b l IH]; [done|]. cbn [hex_encode]. rewrite str_app_length, IH. simpl. lia. Qed.

Lemma hex_decode_length s l : Webhook.hex_decode s = Some l -> String.length s = 2 * length l.
Proof.
  revert s. induction l as [|b l IH]; intros s H.
  - destruct s as [|c [|d s]]; [done|done|]. simpl in H. case_match; [|done].
    by destruct (Webhook.hex_decode s).
  - destruct s as [|c [|d s]]; [done|done|]. simpl in H. case_match; [|done].
    destruct (Webhook.hex_decode s) as [l'|] eqn:E; [|done]. simpl in H. injection H as <- <-.
    simpl. rewrite (IH s E). lia.
Qed.

Lemma drop_prefix p s : str_drop (p +:+ s) (String.length p) = s.
Proof.
  unfold str_drop. rewrite substring_app_skip, str_app_length.
  replace (_ + _ - _) with (String.length s) by lia. apply substring_full.
Qed.

(** With a secret configured, a delivery whose header is "sha256=" and the hexadecimal
    HMAC of its body is accepted, and a delivery is accepted only if its header is "sha256="
    followed by 64 hexadecimal digits that decode to that HMAC. *)
Lemma webhook_signature_iff (HMAC : string -> string -> option (list Z))
    (secret header_value body : string) (mac : list Z) :
  secret <> "" -> HMAC secret body = Some mac -> Forall is_byte mac -> length mac = 32 ->
  Webhook.verify_github_signature HMAC secret ("sha256=" +:+ hex_encode mac) body = true /\
  (Webhook.verify_github_signature HMAC secret header_value body = true <->
   exists sig, header_value = "sha256=" +:+ sig /\ String.length sig = 64 /\
          Webhook.hex_decode sig = Some mac).
Proof.
  intros Hs Hm Hb Hl. apply str_empty_false in Hs. unfold Webhook.verify_github_signature. rewrite Hs, Hm.
  split.
  - assert (String.length (hex_encode mac) = 64) as H64 by (rewrite hex_encode_length; lia).
    rewrite str_app_length, H64.
    change (negb (String.length "sha256=" + 64 =? 7 + 64)) with false. cbv iota.
    unfold starts_with. rewrite str_prefix_app. change (negb true) with false. cbv iota.
    change (str_drop ("sha256=" +:+ hex_encode mac) 7)
      with (str_drop ("sha256=" +:+ hex_encode mac) (String.length "sha256=")).
    rewrite drop_prefix, hex_decode_encode by done. rewrite Nat.eqb_refl. simpl.
    by rewrite bool_decide_true.
  - split.
    + destruct (negb (String.length header_value =? 7 + 64)) eqn:El; [done|].
      apply negb_false_iff, Nat.eqb_eq in El.
      destruct (negb (starts_with "sha256=" header_value)) eqn:Ep; [done|].
      apply negb_false_iff in Ep.
      destruct (Webhook.hex_decode (str_drop header_value 7)) as [e|] eqn:Ed; [|done].
      destruct (negb (length mac =? length e)); [done|]. intros ->%bool_decide_eq_true.
      exists (str_drop header_value 7).
      assert (header_value = "sha256=" +:+ str_drop header_value 7) as Hh.
      { unfold starts_with, str_drop in *. clear -El Ep.
        do 7 (destruct header_value as [|? header_value]; [done|]).
        cbn [String.prefix] in Ep. repeat case_match; try done; subst.
        rewrite !str_app_cons, str_app_nil_l. do 7 f_equal. symmetry.
        cbn -[String.substring]. rewrite ?Nat.sub_0_r. cbn [String.substring]. apply substring_full. }
      split_and!; [done| |done]. rewrite (hex_decode_length _ _ Ed). lia.
    + intros (sig & -> & Hlen & Hd). rewrite str_app_length, Hlen.
      change (negb (String.length "sha256=" + 64 =? 7 + 64)) with false. cbv iota.
      unfold starts_with. rewrite str_prefix_app. change (negb true) with false. cbv iota.
      change (str_drop ("sha256=" +:+ sig) 7) with (str_drop ("sha256=" +:+ sig) (String.length "sha256=")).
      rewrite drop_prefix, Hd. rewrite Nat.eqb_refl. simpl. by rewrite bool_decide_true.
Qed.

Definition zero_mac (_ _ : string) : option (list Z) := Some (repeat 0%Z 32).

Lemma webhook_signature_iff_witness :
  Webhook.verify_github_signature zero_mac "key" ("sha256=" +:+ hex_encode (repeat 0%Z 32)) "{}" = true.
Proof.
  apply (webhook_signature_iff zero_mac "key" "" "{}" (repeat 0%Z 32)); [done|reflexivity| |reflexivity].
  apply Forall_forall. intros x Hx. apply list_elem_of_In, List.repeat_spec in Hx as ->. by split.
Defined.

(** ** Ports *)

(** The port parser accepts the decimal text of every port in [1, 65535] as that port, and
    whatever it accepts is in that range. *)
Lemma port_roundtrip (s : string) (p : Z) :
  ((1 <= p <= 65535)%Z -> Port.parse_port (Some (to_string p)) = inl p) /\
  (Port.parse_port (Some s) = inl p -> (1 <= p <= 65535)%Z).
Proof.
  split.
  - intros Hp. destruct (to_string_digits p) as (Hd & Hv & Hne); [lia|].
    unfold Port.parse_port, Port.from_chars_all. destruct (to_string p) as [|c r] eqn:E; [done|].
    assert (Hsel : match String c r with String "-" r' => (true, r') | _ => (false, String c r) end
                   = (false, String c r)).
    { assert (Hc : isdigit c = true) by (simpl in Hd; by apply andb_prop in Hd as [? _]).
      clear -Hc. destruct c as [[] [] [] [] [] [] [] []]; try reflexivity; discriminate Hc. }
    rewrite Hsel. cbv beta iota zeta. rewrite Hd, Hv. simpl (str_empty _ || _). cbv iota.
    destruct ((p <? - 2 ^ 31)%Z || (2 ^ 31 - 1 <? p)%Z) eqn:E1; [lia|].
    destruct ((p <? 1)%Z || (65535 <? p)%Z) eqn:E2; [lia|done].
  - unfold Port.parse_port. destruct s; [done|]. destruct (Port.from_chars_all _) as [v|]; [|done].
    destruct ((v <? 1)%Z || (65535 <? v)%Z) eqn:E; [done|]. intros [= <-]. lia.
Qed.

Lemma port_roundtrip_witness : Port.parse_port (Some (to_string 8080)) = inl 8080%Z.
Proof. apply (port_roundtrip "" 8080). lia. Defined.
