(* ===== verification/Http.v ===== *)
(** * HTTP: replies, input validation and pagination

    The helpers of src/routes.cpp: requests and responses (the parts of httplib's types the
    handlers touch), [reply_json] with the removal of internal fields, the validators and the
    pagination parameters.  A helper that "returns false and sets 400" is a [Verdict]: the
    request passes, or it is answered. *)

From S2P Require Import Prelude Effects Text Json Guards.

(** The methods with handlers.  httplib looks a HEAD request up among the GET handlers, and does
    not send the content of its response; it answers every other method itself. *)
Inductive Method := Get | Head | Post | Put | Patch | Delete.
Definition handlers_of (m : Method) : Method := match m with Head => Get | m => m end.
#[global] Instance Method_eq_dec : EqDecision Method.
Proof. solve_decision. Defined.

Record Request := {
  req_method : Method;
  req_path : string;
  req_header : string -> option string;
  req_param : string -> option string;
  req_body : string;
  remote_addr : string;
}.

(** [req.get_header_value(k)]. *)
Definition header_value (k : string) (req : Request) : string := default "" (req_header req k).

Record Response := {
  res_status : Z;
  res_headers : list (string * string);
  res_content : string;
  res_type : string;
}.

(** include/agamemnon/version.hpp. *)
Definition kProjectName : string := "Agamemnon".
Definition kVersion : string := "0.1.0".

Definition kMaxNameLen : Z := 256.
Definition kMaxLabelLen : Z := 256.
Definition kMaxDescriptionLen : Z := 4096.
Definition kMaxSubjectLen : Z := 512.
Definition kMaxProgramLen : Z := 1024.
Definition kMaxBodyBytes : Z := 1024 * 1024.

(** ** Replies *)

Definition kInternalFields : list string := ["_github_issue"].

(** The code erases the fields of an object and then visits the values left; the values are
    visited first here, which leaves the same object. *)
Fixpoint strip_internal_fields (node : json) : json :=
  match node with
  | JObj l => JObj (foldl (fun l f => obj_erase f l)
                      (map (fun kv => (kv.1, strip_internal_fields kv.2)) l) kInternalFields)
  | JArr l => JArr (map strip_internal_fields l)
  | _ => node
  end.

Section replies.
Context `{JT : !JsonText}.

Definition reply_json (status : Z) (body : json) : result Response :=
  content ← jdump (-1) (strip_internal_fields body);
  inr {| res_status := status; res_headers := [("X-API-Version", kVersion)];
         res_content := content; res_type := "application/json" |}.

Definition reply_not_found (what : string) : result Response :=
  reply_json 404 (jobj [("error", JStr (what +:+ " not found"))]).
Definition reply_bad_request (msg : string) : result Response :=
  reply_json 400 (jobj [("error", JStr msg)]).

(** ** Validators *)

(** The outcome of a validator: it throws, it lets the request pass (None), or it has answered
    the request. *)
Definition Verdict : Type := result (option Response).
Definition pass : Verdict := inr None.
Definition bad_request (msg : string) : Verdict := r ← reply_bad_request msg; inr (Some r).

(** Validators in sequence, each with its [return] on failure. *)
Fixpoint checks (l : list Verdict) : Verdict :=
  match l with
  | [] => pass
  | v :: l => match v with inr None => checks l | _ => v end
  end.

Definition check_field_length (field_name value : string) (max_len : Z) : Verdict :=
  if (max_len <? Z.of_nat (String.length value))%Z
  then bad_request ("field '" +:+ field_name +:+ "' exceeds maximum length of " +:+ to_string max_len)
  else pass.

Definition kValidAgentStatuses : list string := ["offline"; "online"; "error"].
Definition kValidTaskStatuses : list string := ["pending"; "running"; "completed"; "failed"; "blocked"].
Definition kValidTaskTypes : list string :=
  ["general"; "research"; "implementation"; "review"; "testing"; "hello"].

Definition require_nonempty_string (value field_name : string) : Verdict :=
  if str_empty value || str_forall isspace value
  then bad_request ("'" +:+ field_name +:+ "' must be a non-empty string") else pass.

Definition require_enum (value field_name : string) (allowed : list string) : Verdict :=
  if existsb (str_eqb value) allowed then pass
  else bad_request ("'" +:+ field_name +:+ "' has invalid value '" +:+ value +:+ "'").

(** [if (body.contains(field) && !check(body[field])) return;] *)
Definition if_present (field : string) (body : json) (k : json -> Verdict) : Verdict :=
  if contains field body then v ← at_key field body; k v else pass.
(** The same where the check reads [body[field].get<std::string>()]. *)
Definition if_present_str (field : string) (body : json) (k : string -> Verdict) : Verdict :=
  if_present field body (fun v => s ← get_string v; k s).

Definition require_string_if_present (body : json) (field_name : string) : Verdict :=
  if_present field_name body (fun v =>
    if is_string v then pass else bad_request ("'" +:+ field_name +:+ "' must be a string")).

Definition require_field_present (body : json) (field_name : string) : Verdict :=
  if contains field_name body then pass else bad_request ("'" +:+ field_name +:+ "' is required").

Definition require_string_array (arr : json) (field_name : string) : Verdict :=
  match arr with
  | JArr l => if forallb is_string l then pass
              else bad_request ("'" +:+ field_name +:+ "' elements must be strings")
  | _ => bad_request ("'" +:+ field_name +:+ "' must be an array")
  end.

(** [if (body.contains(f) && body[f].is_string() && !require_enum(...)) return;] *)
Definition enum_if_string (body : json) (field : string) (allowed : list string) : Verdict :=
  if_present field body (fun v =>
    match v with JStr s => require_enum s field allowed | _ => pass end).

(** ** Bodies and pages *)

(** [std::stoul]: as [stoi] but for a 64-bit [unsigned long]; a minus sign negates modulo
    2^64. *)
Definition stoul (s : string) : result Z :=
  let s := skip_while isspace s in
  let '(neg, s) := match s with
                   | String "-" r => (true, r)
                   | String "+" r => (false, r)
                   | _ => (false, s)
                   end in
  let '(ds, _) := take_digits s in
  if str_empty ds then inl (invalid_argument "stoul") else
  let v := digits_value 0 ds in
  if (2 ^ 64 <=? v)%Z then inl (out_of_range "stoul")
  else inr (if neg then (- v) mod 2 ^ 64 else v)%Z.

(** [what()] of the parse error json::parse throws on a text. *)
Context (parse_what : string -> string).

Definition parse_body (req : Request) : result (Response + json) :=
  if (kMaxBodyBytes <? Z.of_nat (String.length (req_body req)))%Z then
    r ← reply_json 413 (jobj [("error", JStr "request body too large")]); inr (inl r)
  else if str_empty (req_body req) then inr (inr (JObj []))
  else match jparse (req_body req) with
       | inr body => inr (inr body)
       | inl _ => r ← reply_bad_request ("invalid JSON: " +:+ parse_what (req_body req)); inr (inl r)
       end.

Definition kDefaultLimit : Z := 100.
Definition kMaxLimit : Z := 1000.

Record PaginationParams := { limit : Z; offset : Z }.

(** The body of the [try] block. *)
Definition read_pagination (req : Request) : result PaginationParams :=
  limit ← match req_param req "limit" with
          | Some s => v ← stoul s; inr (Z.min v kMaxLimit)
          | None => inr kDefaultLimit
          end;
  offset ← match req_param req "offset" with Some s => stoul s | None => inr 0%Z end;
  inr {| limit := limit; offset := offset |}.

Definition parse_pagination (req : Request) : result (Response + PaginationParams) :=
  match read_pagination req with
  | inr p => inr (inr p)
  | inl _ => r ← reply_bad_request "limit and offset must be non-negative integers"; inr (inl r)
  end.

(** ** Handlers *)

(** A reply as the last step of a handler; [if (!check) return;]; and the two helpers that
    produce a value or answer the request. *)
Definition reply {S} (status : Z) (body : json) : M S Response := of_result (reply_json status body).
Definition not_found {S} (what : string) : M S Response := of_result (reply_not_found what).

Definition guarded {S} (v : Verdict) (k : M S Response) : M S Response :=
  a ← of_result v; match a with Some r => mret r | None => k end.
Definition or_reply {S A} (m : result (Response + A)) (k : A -> M S Response) : M S Response :=
  a ← of_result m; match a with inl r => mret r | inr a => k a end.

Definition with_body {S} (req : Request) (k : json -> M S Response) : M S Response :=
  or_reply (parse_body req) k.
Definition with_page {S} (req : Request) (k : PaginationParams -> M S Response) : M S Response :=
  or_reply (parse_pagination req) k.
End replies.
