(* ===== verification/Routes.v ===== *)
(** * Routes: the REST API

    [register_routes] of src/routes.cpp: the handler of every route over the store, the
    publisher and the orchestrator, the pre-routing handler (authentication and rate limiting),
    and the table that maps a method and a path to a handler.

    cpp-httplib is third-party: what is used of it is that the pre-routing handler runs first,
    that a pattern matches a whole path ([^/]+ is a non-empty segment), and that of the routes
    of a method the first registered one that matches is taken; it answers 404 when none does. *)

From S2P Require Import Prelude Effects Text Json HmasTypes StateMachine Metrics World Planning.
From S2P Require Import Store HmasStore Orchestrator Messaging Guards Http.
From Stdlib Require Import QArith.
Close Scope Q_scope.

(** The two optional parts of a publisher: [circuit_breaker()] and [dead_letter_queue()], null
    for publishers without them. *)
Record NatsAdmin (N : Type) := {
  circuit_breaker : N -> option Breaker.CircuitBreaker;
  dead_letter_queue : N -> option Dlq.DeadLetterQueue;
  put_dead_letter_queue : Dlq.DeadLetterQueue -> N -> N;
}.
Arguments circuit_breaker {N}.
Arguments dead_letter_queue {N}.
Arguments put_dead_letter_queue {N}.

Definition FakeNatsAdmin : NatsAdmin FakeNats :=
  {| circuit_breaker := fun _ => None; dead_letter_queue := fun _ => None;
     put_dead_letter_queue := fun _ n => n |}.
Definition NatsClientAdmin (B : Type) : NatsAdmin (@NatsClient B) :=
  {| circuit_breaker := fun c => Some (breaker_ c); dead_letter_queue := fun c => Some (dlq_ c);
     put_dead_letter_queue := with_dlq |}.

Section routes.
Context {G N : Type} (gh_ : option (IGitHubClient G)) (np : NatsPublisher N) (admin : NatsAdmin N).
Context `{JT : !JsonText, HO : !HashOrder}.
(** [what()] of a parse error, by the text parsed, and of the other exceptions; the text
    serializer of prometheus-cpp; OpenSSL's HMAC; the value of GITHUB_WEBHOOK_SECRET. *)
Context (parse_what : string -> string) (what : exn -> string)
  (Serialize : MetricsRegistry -> string) (HMAC : string -> string -> option (list Z))
  (secret_env : option string).
Abbreviation W := (World G N).
Abbreviation M := (M W).
Abbreviation nats_publish := (Orchestrator.nats_publish np).
Abbreviation nats_log := (Orchestrator.nats_log np).
Abbreviation with_body := (with_body parse_what).

(** ** Health, version, metrics, dead letters *)

Definition get_metrics : M Response :=
  m ← gets w_metrics;
  mret {| res_status := 200; res_headers := []; res_content := Serialize m;
          res_type := "text/plain; version=0.0.4; charset=utf-8" |}.

Definition get_health : M Response :=
  reply 200 (jobj [("status", JStr "ok"); ("service", JStr "Agamemnon")]).

Definition get_v1_health : M Response :=
  n ← gets w_nats;
  let body := jobj [("status", JStr "ok")] in
  body ← (match circuit_breaker admin n with
          | Some b => of_result (set_key "nats_circuit" (JStr (Breaker.state_label b)) body)
          | None => mret body
          end);
  body ← (match dead_letter_queue admin n with
          | Some q => of_result (set_key "dlq_depth" (JInt (Z.of_nat (Dlq.size q))) body)
          | None => mret body
          end);
  reply 200 body.

Definition letter_json (e : Dlq.Entry) : json :=
  jobj [("subject", JStr (Dlq.subject e)); ("payload", JStr (Dlq.payload e));
        ("attempts", JInt (Dlq.attempts e)); ("timestamp_ms", JInt (Dlq.timestamp_ms e))].

Definition get_dead_letter : M Response :=
  n ← gets w_nats;
  match dead_letter_queue admin n with
  | Some q =>
      let '(q, entries) := Dlq.drain q in
      modify (fun w => set_nats (put_dead_letter_queue admin q (w_nats w)) w) ;;
      reply 200 (jobj [("dead_letter_queue", JArr (map letter_json entries))])
  | None => reply 200 (jobj [("dead_letter_queue", JArr [])])
  end.

Definition delete_dead_letter : M Response :=
  n ← gets w_nats;
  match dead_letter_queue admin n with
  | Some q => modify (fun w => set_nats (put_dead_letter_queue admin (Dlq.clear q) (w_nats w)) w)
  | None => mret tt
  end ;;
  reply 200 (jobj [("cleared", JBool true)]).

Definition get_version : M Response :=
  reply 200 (jobj [("version", JStr kVersion); ("name", JStr kProjectName)]).

(** ** Agents *)

Definition get_agents (req : Request) : M Response :=
  with_page req (fun p => j ← list_agents gh_ (limit p) (offset p); reply 200 j).

(** The checks on "name" shared by the create and update handlers. *)
Definition name_checks (body : json) : Verdict :=
  checks [require_string_if_present body "name";
          if_present_str "name" body (fun s => require_nonempty_string s "name");
          if_present_str "name" body (fun s => check_field_length "name" s kMaxNameLen)].

Definition create_agent_checks (body : json) : Verdict :=
  checks [require_field_present body "name";
          name_checks body;
          if_present_str "label" body (fun s => check_field_length "label" s kMaxLabelLen);
          if_present_str "program" body (fun s => check_field_length "program" s kMaxProgramLen);
          if_present_str "taskDescription" body
            (fun s => check_field_length "taskDescription" s kMaxDescriptionLen);
          enum_if_string body "status" kValidAgentStatuses].

Definition post_agents (req : Request) : M Response :=
  with_body req (fun body =>
  guarded (create_agent_checks body) (
  result ← create_agent gh_ body;
  agent ← of_result (at_key "agent" result);
  host ← of_result (value_str "host" "local" agent);
  name ← of_result (value_str "name" "unknown" agent);
  agent_id ← of_result (value_str "id" "unknown" agent);
  agent_type ← of_result (value_str "type" "unknown" agent);
  d ← of_result (jdump (-1) result);
  nats_publish ("hi.agents." +:+ host +:+ "." +:+ name +:+ ".created") d ;;
  nats_log "hi.logs.agamemnon.agent_created" "info" ("Agent created: " +:+ agent_id)
    (jobj [("agent_id", JStr agent_id); ("name", JStr name); ("type", JStr agent_type);
           ("host", JStr host)]) ;;
  reply 201 result)).

(** What the update, start and stop handlers publish about the value the store returned. *)
Definition publish_agent_updated (result : json) : M unit :=
  host ← of_result (value_str "host" "local" result);
  name ← of_result (value_str "name" "unknown" result);
  d ← of_result (jdump (-1) result);
  nats_publish ("hi.agents." +:+ host +:+ "." +:+ name +:+ ".updated") d.

Definition post_agent_start (id : string) : M Response :=
  result ← start_agent gh_ id;
  if is_null result then not_found "agent" else
  publish_agent_updated result ;;
  reply 200 result.

Definition post_agent_stop (id : string) : M Response :=
  result ← stop_agent gh_ id;
  if is_null result then not_found "agent" else
  publish_agent_updated result ;;
  reply 200 result.

Definition get_agent_by_name_route (name : string) : M Response :=
  agent ← get_agent_by_name gh_ name;
  if is_null agent then not_found "agent" else reply 200 (jobj [("agent", agent)]).

Definition get_agent_route (id : string) : M Response :=
  agent ← get_agent gh_ id;
  if is_null agent then not_found "agent" else reply 200 (jobj [("agent", agent)]).

Definition patch_agent_checks (body : json) : Verdict :=
  checks [name_checks body;
          require_string_if_present body "label";
          if_present_str "label" body (fun s => check_field_length "label" s kMaxLabelLen);
          require_string_if_present body "program";
          if_present_str "program" body (fun s => check_field_length "program" s kMaxProgramLen);
          require_string_if_present body "taskDescription";
          if_present_str "taskDescription" body
            (fun s => check_field_length "taskDescription" s kMaxDescriptionLen);
          enum_if_string body "status" kValidAgentStatuses].

Definition patch_agent (id : string) (req : Request) : M Response :=
  with_body req (fun body =>
  guarded (patch_agent_checks body) (
  result ← update_agent gh_ id body;
  if is_null result then not_found "agent" else
  publish_agent_updated result ;;
  reply 200 (jobj [("agent", result)]))).

Definition delete_agent_route (id : string) : M Response :=
  agent ← get_agent gh_ id;
  ok ← delete_agent gh_ id;
  if negb ok then not_found "agent" else
  host ← of_result (if is_null agent then inr "local" else value_str "host" "local" agent);
  name ← of_result (if is_null agent then inr "unknown" else value_str "name" "unknown" agent);
  d ← of_result (jdump (-1) (jobj [("id", JStr id)]));
  nats_publish ("hi.agents." +:+ host +:+ "." +:+ name +:+ ".deleted") d ;;
  reply 200 (jobj [("deleted", JStr id)]).

(** ** Teams *)

Definition get_teams (req : Request) : M Response :=
  with_page req (fun p => j ← list_teams gh_ (limit p) (offset p); reply 200 j).

Definition put_team_checks (body : json) : Verdict :=
  checks [name_checks body;
          if_present "agentIds" body (fun v => require_string_array v "agentIds");
          if_present "agent_ids" body (fun v => require_string_array v "agent_ids")].
Definition create_team_checks (body : json) : Verdict :=
  checks [require_field_present body "name"; put_team_checks body].

Definition post_teams (req : Request) : M Response :=
  with_body req (fun body =>
  guarded (create_team_checks body) (
  result ← create_team gh_ body;
  d ← of_result (jdump (-1) result);
  nats_publish "hi.agents.team.created" d ;;
  reply 201 result)).

Definition get_team_route (id : string) : M Response :=
  team ← get_team gh_ id;
  if is_null team then not_found "team" else reply 200 (jobj [("team", team)]).

Definition put_team (id : string) (req : Request) : M Response :=
  with_body req (fun body =>
  guarded (put_team_checks body) (
  result ← update_team gh_ id body;
  if is_null result then not_found "team" else
  d ← of_result (jdump (-1) result);
  nats_publish "hi.agents.team.updated" d ;;
  reply 200 (jobj [("team", result)]))).

Definition delete_team_route (id : string) : M Response :=
  ok ← delete_team gh_ id;
  if negb ok then not_found "team" else
  d ← of_result (jdump (-1) (jobj [("id", JStr id)]));
  nats_publish "hi.agents.team.deleted" d ;;
  reply 200 (jobj [("deleted", JStr id)]).

(** ** Tasks *)

Definition get_tasks (req : Request) : M Response :=
  with_page req (fun p => j ← list_all_tasks gh_ (limit p) (offset p); reply 200 j).

Definition get_team_tasks (team_id : string) (req : Request) : M Response :=
  with_page req (fun p => j ← list_tasks_for_team gh_ team_id (limit p) (offset p); reply 200 j).

(** The checks on "description" shared by the two task handlers. *)
Definition description_checks (body : json) : Verdict :=
  checks [require_string_if_present body "description";
          if_present_str "description" body
            (fun s => check_field_length "description" s kMaxDescriptionLen)].

Definition create_task_checks (body : json) : Verdict :=
  checks [require_field_present body "subject";
          require_string_if_present body "subject";
          if_present_str "subject" body (fun s => require_nonempty_string s "subject");
          if_present_str "subject" body (fun s => check_field_length "subject" s kMaxSubjectLen);
          description_checks body;
          enum_if_string body "type" kValidTaskTypes;
          if_present "blockedBy" body (fun v => require_string_array v "blockedBy")].

Definition post_team_tasks (team_id : string) (req : Request) : M Response :=
  with_body req (fun body =>
  guarded (create_task_checks body) (
  result ← create_task gh_ team_id body;
  d ← of_result (jdump (-1) result);
  nats_publish "hi.tasks.created" d ;;
  task ← of_result (at_key "task" result);
  task_type ← of_result (value_str "type" "general" task);
  task_id ← of_result (value_str "id" "unknown" task);
  let myrmidon_subject := "hi.myrmidon." +:+ task_type +:+ "." +:+ task_id in
  subject ← of_result (value_str "subject" "" task);
  description ← of_result (value_str "description" "" task);
  assignee ← of_result (value_str "assigneeAgentId" "" task);
  payload ← of_result (jdump (-1) (jobj [("task_id", JStr task_id); ("team_id", JStr team_id);
    ("subject", JStr subject); ("description", JStr description); ("type", JStr task_type);
    ("assignee", JStr assignee)]));
  nats_publish myrmidon_subject payload ;;
  nats_publish (mesh_dispatch_subject "pipeline" task_type task_id) payload ;;
  nats_log "hi.logs.agamemnon.task_dispatched" "info" ("Task dispatched: " +:+ task_id)
    (jobj [("task_id", JStr task_id); ("team_id", JStr team_id); ("type", JStr task_type);
           ("subject", JStr myrmidon_subject)]) ;;
  reply 201 result)).

Definition get_task_route (team_id task_id : string) : M Response :=
  task ← get_task gh_ team_id task_id;
  if is_null task then not_found "task" else reply 200 (jobj [("task", task)]).

Definition update_task_checks (body : json) : Verdict :=
  checks [require_string_if_present body "subject";
          if_present_str "subject" body (fun s => check_field_length "subject" s kMaxSubjectLen);
          description_checks body;
          enum_if_string body "status" kValidTaskStatuses;
          enum_if_string body "type" kValidTaskTypes;
          if_present "blockedBy" body (fun v => require_string_array v "blockedBy")].

(** The handler PUT and PATCH share. *)
Definition update_task_handler (team_id task_id : string) (req : Request) : M Response :=
  with_body req (fun body =>
  guarded (update_task_checks body) (
  result ← update_task gh_ team_id task_id body;
  if is_null result then not_found "task" else
  status ← of_result (value_str "status" "" result);
  let wrapped := jobj [("task", result)] in
  d ← of_result (jdump (-1) wrapped);
  nats_publish ("hi.tasks." +:+ team_id +:+ "." +:+ task_id +:+ ".updated") d ;;
  when (str_eqb status "completed")
    (task_type ← of_result (value_str "type" "unknown" result);
     assignee ← of_result (value_str "assigneeAgentId" "" result);
     nats_log "hi.logs.agamemnon.task_completed" "info" ("Task completed: " +:+ task_id)
       (jobj [("task_id", JStr task_id); ("team_id", JStr team_id); ("type", JStr task_type);
              ("assignee", JStr assignee)])) ;;
  reply 200 wrapped)).

(** ** Chaos *)

Definition get_chaos (req : Request) : M Response :=
  with_page req (fun p => j ← list_faults gh_ (limit p) (offset p); reply 200 j).

Definition post_chaos (type : string) : M Response :=
  result ← create_fault gh_ type;
  d ← of_result (jdump (-1) result);
  nats_publish "hi.agents.chaos.injected" d ;;
  reply 201 result.

Definition delete_chaos (id : string) : M Response :=
  ok ← remove_fault gh_ id;
  if negb ok then not_found "fault" else
  d ← of_result (jdump (-1) (jobj [("id", JStr id)]));
  nats_publish "hi.agents.chaos.removed" d ;;
  reply 200 (jobj [("deleted", JStr id)]).

(** ** HMAS *)

Definition post_briefs (req : Request) : M Response :=
  with_body req (fun body =>
  no_title ← of_result (if contains "title" body
                        then v ← at_key "title" body; s ← get_string v; inr (str_empty s)
                        else inr true);
  if no_title : bool then of_result (reply_bad_request "title is required") else
  try_catch
    (brief ← of_result (task_brief_from_json body);
     brief_id ← submit gh_ np brief;
     plan ← get_plan gh_ brief_id;
     reply 201 plan)
    (fun e => of_result (reply_bad_request ("invalid brief: " +:+ what e)))).

Definition get_brief_plan (brief_id : string) : M Response :=
  plan ← get_plan gh_ brief_id;
  tasks ← of_result (at_key "tasks" plan);
  root ← of_result (at_key "root" plan);
  let no_tasks := jempty tasks in
  let no_brief := negb (contains "brief" plan) && is_null root in
  if no_tasks && no_brief then not_found "brief" else reply 200 plan.

Definition post_task_escalate (task_id : string) (req : Request) : M Response :=
  with_body req (fun body =>
  reason ← of_result (value_str "reason" "unspecified" body);
  ok ← escalate gh_ np task_id reason;
  if negb ok then not_found "task" else
  reply 200 (jobj [("task_id", JStr task_id); ("escalated", JBool true)])).

Definition post_task_split (task_id : string) (req : Request) : M Response :=
  with_body req (fun body =>
  let subtasks := default JNull (obj_get "subtasks" (items body)) in
  if negb (contains "subtasks" body) || negb (is_array subtasks) || jempty subtasks
  then of_result (reply_bad_request "subtasks must be a non-empty array") else
  result ← split_task gh_ np task_id subtasks;
  if contains "error" result then
    error ← of_result (at_key "error" result);
    if is_str "task not found" error then not_found "task"
    else msg ← of_result (get_string error); of_result (reply_bad_request msg)
  else reply 201 result).

Definition post_task_complete (task_id : string) (req : Request) : M Response :=
  with_body req (fun _ =>
  d ← of_result (jdump (-1) (jobj [("task_id", JStr task_id)]));
  on_myrmidon_completion gh_ np d ;;
  reply 200 (jobj [("task_id", JStr task_id); ("completed", JBool true)])).

Definition get_task_state (task_id : string) : M Response :=
  task ← get_hmas_task gh_ task_id;
  match task with
  | None => not_found "task"
  | Some t =>
      reply 200 (jobj [("task_id", JStr task_id); ("state", JStr (task_state_to_string (t_state t)));
        ("layer", JStr (hmas_layer_to_string (t_layer t))); ("task", hmas_task_to_json t)])
  end.

(** ** GitHub webhook *)

Definition post_webhook (req : Request) : M Response :=
  match secret_env with
  | None | Some "" => reply 503 (jobj [("error", JStr "webhook not configured")])
  | Some secret =>
      if negb (Webhook.verify_github_signature HMAC secret
                 (header_value "X-Hub-Signature-256" req) (req_body req))
      then reply 401 (jobj [("error", JStr "invalid signature")]) else
      let event := header_value "X-GitHub-Event" req in
      if str_eqb event "ping" then reply 200 (jobj [("pong", JBool true)]) else
      if negb (str_eqb event "issues") then reply 200 (jobj [("ignored", JStr event)]) else
      with_body req (fun payload =>
      match Webhook.normalize_issues_event payload with
      | None => reply 200 (jobj [("ignored", JStr "no-op action or label")])
      | Some e =>
          changed ← apply_github_event gh_ (Webhook.entity_label e) (Webhook.action e)
                      (Webhook.issue_shape e) (Webhook.updated_at e);
          reply 200 (jobj [("applied", JBool changed); ("action", JStr (Webhook.action e))])
      end)
  end.

(** ** The table *)

Inductive Segment := Lit (s : string) | Any.

Record Route := {
  r_method : Method;
  r_pattern : list Segment;
  r_handler : Request -> list string -> M Response;
}.

(** Handlers that use no capture, the first one, or the first two. *)
Definition on0 (m : Method) (p : list string) (h : Request -> M Response) : Route :=
  {| r_method := m; r_pattern := map Lit p; r_handler := fun req _ => h req |}.
Definition on1 (m : Method) (p : list Segment) (h : string -> Request -> M Response) : Route :=
  {| r_method := m; r_pattern := p; r_handler := fun req c => h (nth 0 c "") req |}.
Definition on2 (m : Method) (p : list Segment) (h : string -> string -> Request -> M Response) : Route :=
  {| r_method := m; r_pattern := p; r_handler := fun req c => h (nth 0 c "") (nth 1 c "") req |}.

Definition table : list Route :=
  [on0 Get ["metrics"] (fun _ => get_metrics);
   on0 Get ["health"] (fun _ => get_health);
   on0 Get ["v1"; "health"] (fun _ => get_v1_health);
   on0 Get ["v1"; "dead-letter"] (fun _ => get_dead_letter);
   on0 Delete ["v1"; "dead-letter"] (fun _ => delete_dead_letter);
   on0 Get ["v1"; "version"] (fun _ => get_version);
   on0 Get ["v1"; "agents"] get_agents;
   on0 Post ["v1"; "agents"] post_agents;
   on1 Post [Lit "v1"; Lit "agents"; Any; Lit "start"] (fun id _ => post_agent_start id);
   on1 Post [Lit "v1"; Lit "agents"; Any; Lit "stop"] (fun id _ => post_agent_stop id);
   on1 Get [Lit "v1"; Lit "agents"; Lit "by-name"; Any] (fun name _ => get_agent_by_name_route name);
   on1 Get [Lit "v1"; Lit "agents"; Any] (fun id _ => get_agent_route id);
   on1 Patch [Lit "v1"; Lit "agents"; Any] patch_agent;
   on1 Delete [Lit "v1"; Lit "agents"; Any] (fun id _ => delete_agent_route id);
   on0 Get ["v1"; "teams"] get_teams;
   on0 Post ["v1"; "teams"] post_teams;
   on1 Get [Lit "v1"; Lit "teams"; Any] (fun id _ => get_team_route id);
   on1 Put [Lit "v1"; Lit "teams"; Any] put_team;
   on1 Delete [Lit "v1"; Lit "teams"; Any] (fun id _ => delete_team_route id);
   on0 Get ["v1"; "tasks"] get_tasks;
   on1 Get [Lit "v1"; Lit "teams"; Any; Lit "tasks"] get_team_tasks;
   on1 Post [Lit "v1"; Lit "teams"; Any; Lit "tasks"] post_team_tasks;
   on2 Get [Lit "v1"; Lit "teams"; Any; Lit "tasks"; Any] (fun team id _ => get_task_route team id);
   on2 Put [Lit "v1"; Lit "teams"; Any; Lit "tasks"; Any] update_task_handler;
   on2 Patch [Lit "v1"; Lit "teams"; Any; Lit "tasks"; Any] update_task_handler;
   on0 Get ["v1"; "chaos"] get_chaos;
   on1 Post [Lit "v1"; Lit "chaos"; Any] (fun type _ => post_chaos type);
   on1 Delete [Lit "v1"; Lit "chaos"; Any] (fun id _ => delete_chaos id);
   on0 Post ["v1"; "briefs"] post_briefs;
   on1 Get [Lit "v1"; Lit "briefs"; Any; Lit "plan"] (fun id _ => get_brief_plan id);
   on1 Post [Lit "v1"; Lit "tasks"; Any; Lit "escalate"] post_task_escalate;
   on1 Post [Lit "v1"; Lit "tasks"; Any; Lit "split"] post_task_split;
   on1 Post [Lit "v1"; Lit "tasks"; Any; Lit "complete"] post_task_complete;
   on1 Get [Lit "v1"; Lit "tasks"; Any; Lit "state"] (fun id _ => get_task_state id);
   on0 Post ["v1"; "github"; "webhook"] post_webhook].

(** ** Routing *)

(** The segments of a path, after its leading slash. *)
Fixpoint split_slash (s : string) : list string :=
  match s with
  | "" => [""]
  | String c r =>
      let segs := split_slash r in
      if decide (c = "/"%char) then "" :: segs
      else match segs with x :: segs => String c x :: segs | [] => [String c ""] end
  end.

Fixpoint match_segments (p : list Segment) (segs : list string) : option (list string) :=
  match p, segs with
  | [], [] => Some []
  | Lit s :: p, x :: segs => if str_eqb s x then match_segments p segs else None
  | Any :: p, x :: segs => if str_empty x then None else cons x <$> match_segments p segs
  | _, _ => None
  end.

Definition match_path (p : list Segment) (path : string) : option (list string) :=
  match path with
  | String "/" rest => match_segments p (split_slash rest)
  | _ => None
  end.

Fixpoint find_route (t : list Route) (m : Method) (path : string)
  : option ((Request -> list string -> M Response) * list string) :=
  match t with
  | [] => None
  | r :: t =>
      if bool_decide (r_method r = m) then
        match match_path (r_pattern r) path with
        | Some captures => Some (r_handler r, captures)
        | None => find_route t m path
        end
      else find_route t m path
  end.

Definition dispatch (req : Request) : M Response :=
  match find_route table (handlers_of (req_method req)) (req_path req) with
  | Some (h, captures) => h req captures
  | None => mret {| res_status := 404; res_headers := []; res_content := ""; res_type := "" |}
  end.

(** ** The server *)

Record Server := {
  sv_world : W;
  sv_limiter : RateLimit.RateLimiter;
  sv_steady : nat -> Z;         (* readings of the steady clock, in ns *)
  sv_steady_i : nat;
}.

Context (rnd : Q -> Q) (api_key : string).

Definition steady_now : Effects.M Server Z := fun s =>
  ({| sv_world := sv_world s; sv_limiter := sv_limiter s; sv_steady := sv_steady s;
      sv_steady_i := S (sv_steady_i s) |}, inr (sv_steady s (sv_steady_i s))).
Definition put_limiter (l : RateLimit.RateLimiter) (s : Server) : Server :=
  {| sv_world := sv_world s; sv_limiter := l; sv_steady := sv_steady s; sv_steady_i := sv_steady_i s |}.
Definition put_world (w : W) (s : Server) : Server :=
  {| sv_world := w; sv_limiter := sv_limiter s; sv_steady := sv_steady s; sv_steady_i := sv_steady_i s |}.

Definition plain (status : Z) (hs : list (string * string)) (content : string) : Response :=
  {| res_status := status; res_headers := hs; res_content := content;
     res_type := "application/json" |}.

Definition quote : string := String "034" "".
Definition unauthorized : Response :=
  plain 401 [] ("{" +:+ quote +:+ "error" +:+ quote +:+ ":" +:+ quote +:+ "unauthorized" +:+ quote +:+ "}").
Definition too_many (retry_int : Z) : Response :=
  plain 429 [("Retry-After", to_string retry_int)]
    ("{" +:+ quote +:+ "error" +:+ quote +:+ ":" +:+ quote +:+ "rate limit exceeded" +:+ quote +:+ ","
     +:+ quote +:+ "retry_after_seconds" +:+ quote +:+ ":" +:+ to_string retry_int +:+ "}").

(** The pre-routing handler: None is [Unhandled]. *)
Definition pre_routing (req : Request) : Effects.M Server (option Response) :=
  if str_eqb (req_path req) "/v1/github/webhook" then mret None else
  if negb (Auth.validate api_key {| Auth.path := req_path req; Auth.header := req_header req |})
  then mret (Some unauthorized) else
  if existsb (str_eqb (req_path req)) ["/health"; "/v1/health"; "/v1/version"] then mret None else
  now ← steady_now;
  l ← gets sv_limiter;
  let '(l, ok) := RateLimit.allow rnd now (remote_addr req) l in
  modify (put_limiter l) ;;
  if negb ok then
    now ← steady_now;
    let retry := RateLimit.retry_after_seconds rnd now (remote_addr req) l in
    mret (Some (too_many (Z.quot (Qnum retry) (Zpos (Qden retry)) + 1)%Z))
  else mret None.

Definition serve (req : Request) : Effects.M Server Response :=
  handled ← pre_routing req;
  match handled with
  | Some res => mret res
  | None => zoom sv_world put_world (dispatch req)
  end.
End routes.
