(* ===== verification/RouteFacts.v ===== *)
(** * Facts about the routes

    What a handler can answer ([answers], a postcondition closed under the monad), what the
    validators guarantee when they pass, and the matching of paths against patterns. *)

From S2P Require Import Prelude Effects Text Json HmasTypes StateMachine Metrics World Planning.
From S2P Require Import Store HmasStore Orchestrator Messaging Guards GuardsTheorems StoreFacts.
From S2P Require Import Http Routes.

(** ** Postconditions on the answer *)

Definition answers {S A} (P : A -> Prop) (m : M S A) : Prop :=
  forall s s' a, m s = (s', inr a) -> P a.

Section answers.
Context {S A : Type} (P : A -> Prop).

Lemma answers_bind {B} (m : M S B) (f : B -> M S A) :
  (forall b, answers P (f b)) -> answers P (m ≫= f).
Proof.
  intros Hf s s' a. rewrite run_bind. destruct (m s) as [s1 [e|b]]; [done|]. apply Hf.
Qed.
Lemma answers_bind_result {B} (r : result B) (f : B -> M S A) :
  (forall b, r = inr b -> answers P (f b)) -> answers P (of_result r ≫= f).
Proof.
  intros Hf s s' a. rewrite run_bind, run_of_result. destruct r as [e|b]; [done|]. by apply Hf.
Qed.
Lemma answers_ret a : P a -> answers P (mret (M := M S) a).
Proof. intros Ha s s' b [= _ <-]. done. Qed.
Lemma answers_of_result (r : result A) : (forall a, r = inr a -> P a) -> answers P (of_result (S := S) r).
Proof. intros H s s' a [= _ Hr]. by apply H. Qed.
Lemma answers_try (m : M S A) h :
  answers P m -> (forall e, answers P (h e)) -> answers P (try_catch m h).
Proof.
  intros Hm Hh s s' a. unfold try_catch. destruct (m s) as [s1 [e|b]] eqn:E.
  - apply Hh.
  - intros [= <- <-]. by apply (Hm s s1).
Qed.
End answers.

Ltac answers_step :=
  lazymatch goal with
  | |- forall _, _ => intro
  | |- answers _ (mbind _ (of_result _)) => apply answers_bind_result
  | |- answers _ (mbind _ _) => apply answers_bind
  | |- answers _ (try_catch _ _) => apply answers_try
  | |- answers _ (let _ := _ in _) => cbv zeta
  | |- answers _ (match ?x with _ => _ end) => destruct x eqn:?
  | |- answers _ _ => solve [auto 4 with agamemnon nocore]
  end.
Ltac answers := repeat answers_step.

(** ** Replies *)

(** No internal field anywhere in a value. *)
Fixpoint clean (j : json) : bool :=
  match j with
  | JObj l => forallb (fun kv => negb (existsb (str_eqb kv.1) kInternalFields) && clean kv.2) l
  | JArr l => forallb clean l
  | _ => true
  end.

Lemma strip_clean j : clean (strip_internal_fields j) = true.
Proof.
  induction j as [| | | | |l IH|l IH] using json_ind; try done; simpl.
  - apply forallb_forall. intros x (y & <- & Hy)%in_map_iff.
    rewrite Forall_forall in IH. apply IH. by apply list_elem_of_In.
  - apply forallb_forall. intros kv Hin. unfold obj_erase in Hin. apply List.filter_In in Hin as [Hin Hk].
    apply in_map_iff in Hin as ([k v] & <- & Hy). simpl in *. rewrite orb_false_r.
    rewrite Forall_forall in IH. apply list_elem_of_In in Hy. pose proof (IH _ Hy) as Hv. simpl in Hv.
    rewrite Hv, andb_true_r.
    apply negb_true_iff, str_eqb_false. apply negb_true_iff, str_eqb_false in Hk. congruence.
Qed.

Lemma strip_of_clean j : clean j = true -> strip_internal_fields j = j.
Proof.
  induction j as [| | | | |l IH|l IH] using json_ind; try done; simpl; intros Hc.
  - f_equal. induction l as [|x l IHl]; [done|]. simpl in *. apply andb_prop in Hc as [Hx Hl].
    inversion IH; subst. f_equal; auto.
  - f_equal. induction l as [|[k v] l IHl]; [done|]. simpl in *. apply andb_prop in Hc as [Hx Hl].
    apply andb_prop in Hx as [Hk Hv]. inversion IH; subst. rewrite orb_false_r in Hk.
    assert (str_eqb "_github_issue" k = false) as Hf.
    { apply negb_true_iff, str_eqb_false in Hk. apply str_eqb_false. congruence. }
    rewrite Hf. simpl. rewrite IHl by done. simpl in H1. by rewrite H1.
Qed.

(** ** Query parameters *)

Lemma take_digits_forall s : str_forall isdigit (take_digits s).1 = true.
Proof.
  induction s as [|c s IH]; [done|]. cbn. destruct (isdigit c) eqn:E; [|done].
  destruct (take_digits s). simpl in *. by rewrite E.
Qed.

Lemma stoul_bounds s v : stoul s = inr v -> (0 <= v < 2 ^ 64)%Z.
Proof.
  unfold stoul. destruct (match skip_while isspace s with String "-" _ => _ | _ => _ end) as [neg t].
  pose proof (take_digits_forall t) as Hd. destruct (take_digits t) as [ds rest]. simpl in Hd.
  destruct (str_empty ds); [done|]. destruct (2 ^ 64 <=? _)%Z eqn:E; [done|].
  pose proof (digits_value_nonneg 0 ds Hd ltac:(lia)) as Hn. intros [= <-].
  destruct neg; [apply Z.mod_pos_bound|]; lia.
Qed.

Section replies.
Context `{JT : !JsonText}.

(** The content of a JSON response is the text of a value without internal fields. *)
Definition clean_response (r : Response) : Prop :=
  res_type r = "application/json" -> exists j, clean j = true /\ jdump (-1) j = inr (res_content r).

Lemma reply_json_inv status j r : reply_json status j = inr r ->
  res_status r = status /\ jdump (-1) (strip_internal_fields j) = inr (res_content r).
Proof.
  unfold reply_json. destruct (jdump _ _) as [|c]; [done|]. by intros [= <-].
Qed.

Lemma reply_json_clean status j r : reply_json status j = inr r -> clean_response r.
Proof. intros [_ H]%reply_json_inv _. eexists. split; [apply strip_clean|done]. Qed.

(** ** Validators *)

Lemma bad_request_stops msg : bad_request msg <> pass.
Proof. unfold bad_request. by destruct (reply_bad_request msg). Qed.

Lemma bad_request_inv msg r : bad_request msg = inr (Some r) -> res_status r = 400%Z /\ clean_response r.
Proof.
  unfold bad_request. destruct (reply_bad_request msg) as [|r'] eqn:E; [done|]. intros [= <-].
  pose proof (reply_json_inv _ _ _ E) as [? _]. pose proof (reply_json_clean _ _ _ E). done.
Qed.

Lemma checks_pass l : checks l = pass <-> Forall (fun v => v = pass) l.
Proof.
  induction l as [|v l IH]; simpl; [by split|]. rewrite Forall_cons, <- IH.
  destruct v as [e|[r|]]; [by split; [|intros [? _]]..|]. by split; [intros|intros [_ ?]].
Qed.

(** A verdict that answers does so with a clean 400. *)
Definition refuses (v : Verdict) : Prop :=
  forall r, v = inr (Some r) -> res_status r = 400%Z /\ clean_response r.

Lemma refuses_pass : refuses pass.
Proof. done. Qed.
Lemma refuses_bad msg : refuses (bad_request msg).
Proof. intros r. apply bad_request_inv. Qed.
Lemma refuses_checks l : Forall refuses l -> refuses (checks l).
Proof.
  induction 1 as [|v l Hv _ IH]; [done|]. intros r. simpl. destruct v as [e|[r'|]]; [done| |apply IH].
  apply Hv.
Qed.
Lemma refuses_if_present f body k : (forall v, refuses (k v)) -> refuses (if_present f body k).
Proof.
  intros Hk r. unfold if_present. destruct (contains f body); [|done].
  destruct (at_key f body); [done|]. apply Hk.
Qed.
Lemma refuses_if_present_str f body k : (forall s, refuses (k s)) -> refuses (if_present_str f body k).
Proof.
  intros Hk. apply refuses_if_present. intros v r. destruct (get_string v); [done|]. apply Hk.
Qed.

Ltac refuses :=
  repeat first
    [ apply refuses_bad | apply refuses_pass
    | apply refuses_checks; repeat apply Forall_cons_2; [..|apply Forall_nil_2]
    | apply refuses_if_present_str; intros ? | apply refuses_if_present; intros ?
    | match goal with |- refuses (match ?x with _ => _ end) => destruct x end ].

Lemma refuses_create_agent body : refuses (create_agent_checks body).
Proof.
  unfold create_agent_checks, name_checks, require_field_present, require_string_if_present,
    require_nonempty_string, check_field_length, enum_if_string, require_enum. refuses.
Qed.
Lemma refuses_patch_agent body : refuses (patch_agent_checks body).
Proof.
  unfold patch_agent_checks, name_checks, require_field_present, require_string_if_present,
    require_nonempty_string, check_field_length, enum_if_string, require_enum. refuses.
Qed.
Lemma refuses_put_team body : refuses (put_team_checks body).
Proof.
  unfold put_team_checks, name_checks, require_field_present, require_string_if_present,
    require_nonempty_string, check_field_length, require_string_array. refuses.
Qed.
Lemma refuses_create_team body : refuses (create_team_checks body).
Proof.
  unfold create_team_checks, require_field_present. apply refuses_checks.
  repeat apply Forall_cons_2; [refuses|apply refuses_put_team|apply Forall_nil_2].
Qed.
Lemma refuses_create_task body : refuses (create_task_checks body).
Proof.
  unfold create_task_checks, description_checks, require_field_present, require_string_if_present,
    require_nonempty_string, check_field_length, enum_if_string, require_enum, require_string_array.
  refuses.
Qed.
Lemma refuses_update_task body : refuses (update_task_checks body).
Proof.
  unfold update_task_checks, description_checks, require_string_if_present,
    check_field_length, enum_if_string, require_enum, require_string_array. refuses.
Qed.

(** *** What a passed validator guarantees *)

Definition field (f : string) (body : json) : option json := obj_get f (items body).

(** If the field is there it is a string with [P]; and the same for a field that must be. *)
Definition string_field (f : string) (P : string -> Prop) (body : json) : Prop :=
  forall v, field f body = Some v -> exists s, v = JStr s /\ P s.
Definition required_string (f : string) (P : string -> Prop) (body : json) : Prop :=
  exists s, field f body = Some (JStr s) /\ P s.

Definition blank (s : string) : bool := str_empty s || str_forall isspace s.
Definition at_most (n : Z) (s : string) : Prop := (Z.of_nat (String.length s) <= n)%Z.
Definition strings_array (v : json) : Prop := exists l, v = JArr l /\ Forall (fun x => is_string x = true) l.

Lemma contains_field f body : contains f body = true <-> is_Some (field f body).
Proof. destruct body; simpl; [by split; [|intros [? ?]]..|]. apply bool_decide_eq_true. Qed.

Lemma at_key_field f body v : field f body = Some v -> at_key f body = inr v.
Proof. unfold field. destruct body; try done. simpl. by intros ->. Qed.

Lemma if_present_pass f body k v : if_present f body k = pass -> field f body = Some v -> k v = pass.
Proof.
  unfold if_present. intros H Hv.
  assert (contains f body = true) as Hc by (apply contains_field; eauto).
  rewrite Hc, (at_key_field _ _ _ Hv) in H. done.
Qed.

Lemma if_present_str_pass f body k v : if_present_str f body k = pass -> field f body = Some v ->
  exists s, v = JStr s /\ k s = pass.
Proof.
  intros H Hv. pose proof (if_present_pass _ _ _ _ H Hv) as Hk. cbv beta in Hk.
  destruct v; try done. by eexists.
Qed.

Lemma check_field_length_pass f s n : check_field_length f s n = pass -> at_most n s.
Proof.
  unfold check_field_length, at_most. destruct (_ <? _)%Z eqn:E; [by intros ?%bad_request_stops|lia].
Qed.

Lemma require_nonempty_pass f s : require_nonempty_string s f = pass -> blank s = false.
Proof.
  unfold require_nonempty_string, blank. by destruct (_ || _); [intros ?%bad_request_stops|].
Qed.

Lemma require_field_pass body f : require_field_present body f = pass -> is_Some (field f body).
Proof.
  unfold require_field_present. destruct (contains f body) eqn:E; [|by intros ?%bad_request_stops].
  by intros _; apply contains_field.
Qed.

Lemma enum_pass body f allowed s :
  enum_if_string body f allowed = pass -> field f body = Some (JStr s) -> s ∈ allowed.
Proof.
  intros H Hv. pose proof (if_present_pass _ _ _ _ H Hv) as Hk. simpl in Hk. unfold require_enum in Hk.
  destruct (existsb _ allowed) eqn:E; [|by apply bad_request_stops in Hk].
  apply existsb_exists in E as (x & Hx & ->%str_eqb_true). by apply list_elem_of_In.
Qed.

Lemma string_array_pass body f v :
  if_present f body (fun v => require_string_array v f) = pass -> field f body = Some v -> strings_array v.
Proof.
  intros H Hv. pose proof (if_present_pass _ _ _ _ H Hv) as Hk. unfold require_string_array in Hk.
  destruct v as [| | | | |l|]; try by apply bad_request_stops in Hk.
  destruct (forallb is_string l) eqn:E; [|by apply bad_request_stops in Hk].
  exists l. split; [done|]. apply List.Forall_forall. by apply forallb_forall.
Qed.

Lemma length_pass f body n :
  if_present_str f body (fun s => check_field_length f s n) = pass -> string_field f (at_most n) body.
Proof.
  intros H v Hv. destruct (if_present_str_pass _ _ _ _ H Hv) as (s & -> & Hk).
  exists s. split; [done|]. by apply (check_field_length_pass f).
Qed.

Lemma required_pass f body n :
  require_field_present body f = pass ->
  if_present_str f body (fun s => require_nonempty_string s f) = pass ->
  if_present_str f body (fun s => check_field_length f s n) = pass ->
  required_string f (fun s => blank s = false /\ at_most n s) body.
Proof.
  intros [v Hv]%require_field_pass H1 H2.
  destruct (if_present_str_pass _ _ _ _ H1 Hv) as (s & -> & Hb).
  destruct (length_pass _ _ _ H2 _ Hv) as (s' & [= <-] & Hl).
  exists s. split_and!; [done| |done]. by eapply require_nonempty_pass.
Qed.

(** *** What the create handlers let through *)

Definition valid_agent (body : json) : Prop :=
  required_string "name" (fun s => blank s = false /\ at_most 256 s) body /\
  string_field "label" (at_most 256) body /\
  string_field "program" (at_most 1024) body /\
  string_field "taskDescription" (at_most 4096) body /\
  (forall s, field "status" body = Some (JStr s) -> s ∈ ["offline"; "online"; "error"]).

Definition valid_team (body : json) : Prop :=
  required_string "name" (fun s => blank s = false /\ at_most 256 s) body /\
  (forall v, field "agentIds" body = Some v -> strings_array v) /\
  (forall v, field "agent_ids" body = Some v -> strings_array v).

Definition valid_task (body : json) : Prop :=
  required_string "subject" (fun s => blank s = false /\ at_most 512 s) body /\
  string_field "description" (at_most 4096) body /\
  (forall s, field "type" body = Some (JStr s) ->
     s ∈ ["general"; "research"; "implementation"; "review"; "testing"; "hello"]) /\
  (forall v, field "blockedBy" body = Some v -> strings_array v).

Ltac passed H := apply checks_pass in H; repeat (apply Forall_cons in H as [? H]); clear H.

Lemma create_agent_pass body : create_agent_checks body = pass -> valid_agent body.
Proof.
  intros H. passed H.
  match goal with H : name_checks body = pass |- _ => rename H into Hn end. passed Hn.
  split_and!; [by apply required_pass|by apply length_pass|by apply length_pass|by apply length_pass|].
  intros s. by apply enum_pass.
Qed.

Lemma create_team_pass body : create_team_checks body = pass -> valid_team body.
Proof.
  intros H. passed H.
  match goal with H : put_team_checks body = pass |- _ => rename H into Ht end. passed Ht.
  match goal with H : name_checks body = pass |- _ => rename H into Hn end. passed Hn.
  split_and!; [by apply required_pass|by intros v; apply string_array_pass..].
Qed.

Lemma create_task_pass body : create_task_checks body = pass -> valid_task body.
Proof.
  intros H. passed H.
  match goal with H : description_checks body = pass |- _ => rename H into Hn end. passed Hn.
  split_and!; [by apply required_pass|by apply length_pass|by intros s; apply enum_pass|].
  by intros v; apply string_array_pass.
Qed.

(** *** Handlers behind their validators *)

Lemma guarded_cases {S} v (k : M S Response) s s' r :
  guarded v k s = (s', r) ->
  (s' = s /\ v <> pass /\ forall a, r = inr a -> v = inr (Some a)) \/ (v = pass /\ k s = (s', r)).
Proof.
  unfold guarded. rewrite run_bind, run_of_result. destruct v as [e|[a|]].
  - intros [= <- <-]. by left.
  - intros [= <- <-]. left. split_and!; [done|done|]. by intros ? [= <-].
  - by right.
Qed.

Context (parse_what : string -> string).

(** Either the body could not be read and the state is as before, or it is an object of no
    fields or the parsed text. *)
Definition body_of (req : Request) : option json :=
  if str_empty (req_body req) then Some (JObj []) else parse (req_body req).

Lemma with_body_cases {S} req (k : json -> M S Response) s s' r :
  with_body parse_what req k s = (s', r) ->
  (s' = s /\ forall a, r = inr a -> clean_response a /\ (res_status a = 413 \/ res_status a = 400)%Z)
  \/ (exists body, body_of req = Some body /\ k body s = (s', r)).
Proof.
  unfold with_body, or_reply, parse_body, body_of. rewrite run_bind, run_of_result.
  destruct (_ <? _)%Z.
  { destruct (reply_json 413 _) as [|a] eqn:E; simpl; intros [= <- <-]; left; [done|].
    split; [done|]. intros ? [= <-]. split; [by eapply reply_json_clean|].
    left. by apply reply_json_inv in E as [? _]. }
  destruct (str_empty _); [right; by eexists|].
  unfold jparse. destruct (parse (req_body req)) as [body|] eqn:Ep; [right; by eexists|].
  destruct (reply_bad_request _) as [|a] eqn:E; simpl; intros [= <- <-]; left; [done|].
  split; [done|]. intros ? [= <-]. split; [by eapply reply_json_clean|].
  right. by apply reply_json_inv in E as [? _].
Qed.

Lemma with_body_run {S} req (k : json -> M S Response) body s :
  (Z.of_nat (String.length (req_body req)) <= kMaxBodyBytes)%Z -> body_of req = Some body ->
  with_body parse_what req k s = k body s.
Proof.
  unfold with_body, or_reply, parse_body, body_of. intros Hl Hb. rewrite run_bind, run_of_result.
  destruct (_ <? _)%Z eqn:El; [lia|]. destruct (str_empty _); [by injection Hb as <-|].
  unfold jparse. by rewrite Hb.
Qed.

(** A handler that reads a body, validates it and goes on: what a change of state implies. *)
Lemma validated {S} (check : json -> Verdict) (k : json -> M S Response) req s :
  fst (with_body parse_what req (fun body => guarded (check body) (k body)) s) <> s ->
  exists body, body_of req = Some body /\ check body = pass.
Proof.
  intros Hne. destruct (with_body _ _ _ s) as [s' r] eqn:H.
  apply with_body_cases in H as [[-> _]|(body & Hb & H)]; [done|]. exists body. split; [done|].
  by apply guarded_cases in H as [(-> & _)|[? _]].
Qed.

(** And what an answer outside [ok] implies when the code after the checks stays in [ok]. *)
Lemma rejected {S} (ok : Response -> Prop) (check : json -> Verdict) (k : json -> M S Response) req s s' r :
  (forall body, answers ok (k body)) ->
  with_body parse_what req (fun body => guarded (check body) (k body)) s = (s', inr r) -> ~ ok r -> s' = s.
Proof.
  intros Hk H Hr. apply with_body_cases in H as [[-> _]|(body & Hb & H)]; [done|].
  apply guarded_cases in H as [(-> & _)|[_ H]]; [done|]. destruct Hr. exact (Hk body s s' r H).
Qed.

Lemma answers_guarded {S} (P : Response -> Prop) v (k : M S Response) :
  (forall r, v = inr (Some r) -> P r) -> answers P k -> answers P (guarded v k).
Proof.
  intros Hv Hk s s' a H. apply guarded_cases in H as [(_ & _ & H)|[_ H]]; [|by apply (Hk s s')].
  by apply Hv, H.
Qed.

Lemma answers_with_body {S} (P : Response -> Prop) req (k : json -> M S Response) :
  (forall a, clean_response a -> (res_status a = 413 \/ res_status a = 400)%Z -> P a) ->
  (forall body, answers P (k body)) -> answers P (with_body parse_what req k).
Proof.
  intros Hp Hk s s' a H. apply with_body_cases in H as [[_ H]|(body & _ & H)]; [|by apply (Hk body s s')].
  destruct (H a eq_refl) as [Hc Hs]. by apply Hp.
Qed.

Lemma answers_with_page {S} req (k : PaginationParams -> M S Response) :
  (forall p, answers clean_response (k p)) -> answers clean_response (with_page req k).
Proof.
  intros Hk. unfold with_page, or_reply. apply answers_bind_result. intros [r|p] Hr; [|apply Hk].
  apply answers_ret. unfold parse_pagination in Hr. destruct (read_pagination req); [|done].
  destruct (reply_bad_request _) eqn:E; [done|]. injection Hr as <-. by eapply reply_json_clean.
Qed.

Lemma answers_reply {S} status j : answers clean_response (reply (S := S) status j).
Proof. apply answers_of_result. intros a. apply reply_json_clean. Qed.
Lemma answers_not_found {S} what : answers clean_response (not_found (S := S) what).
Proof. apply answers_of_result. intros a. apply reply_json_clean. Qed.
Lemma answers_bad_request {S} msg : answers clean_response (of_result (S := S) (reply_bad_request msg)).
Proof. apply answers_of_result. intros a. apply reply_json_clean. Qed.
End replies.

(** ** Patterns *)

(** Two patterns that some path could match both. *)
Fixpoint overlap (p q : list Segment) : bool :=
  match p, q with
  | [], [] => true
  | Lit s :: p, Lit t :: q => str_eqb s t && overlap p q
  | _ :: p, _ :: q => overlap p q
  | _, _ => false
  end.

Lemma match_overlap p q segs :
  is_Some (match_segments p segs) -> is_Some (match_segments q segs) -> overlap p q = true.
Proof.
  revert q segs. induction p as [|a p IH]; intros q segs.
  { destruct segs; [|by intros [??]]. destruct q as [|[]]; [done|by intros _ [??]..]. }
  destruct segs as [|x segs]; [by destruct a; intros [??]|].
  destruct q as [|b q]; [by intros _ [??]|]. destruct a as [s|], b as [t|]; simpl.
  - destruct (str_eqb s x) eqn:E1; [|by intros [??]]. destruct (str_eqb t x) eqn:E2; [|by intros _ [??]].
    apply str_eqb_true in E1 as ->. apply str_eqb_true in E2 as ->. rewrite str_eqb_refl. apply IH.
  - destruct (str_eqb s x); [|by intros [??]]. destruct (str_empty x); [by intros _ [??]|].
    rewrite fmap_is_Some. apply IH.
  - destruct (str_eqb t x); [|by intros _ [??]]. destruct (str_empty x); [by intros [??]|].
    rewrite fmap_is_Some. apply IH.
  - destruct (str_empty x); [by intros [??]|]. rewrite !fmap_is_Some. apply IH.
Qed.

Section table.
Context {G N : Type} (gh_ : option (IGitHubClient G)) (np : NatsPublisher N) (admin : NatsAdmin N).
Context `{JT : !JsonText, HO : !HashOrder}.
Context (parse_what : string -> string) (what : exn -> string)
  (Serialize : MetricsRegistry -> string) (HMAC : string -> string -> option (list Z))
  (secret_env : option string).
Abbreviation W := (World G N).
Abbreviation table := (Routes.table gh_ np admin parse_what what Serialize HMAC secret_env).

(** The method and pattern of a route, and whether two routes can be confused. *)
Definition route_key (r : Route (G := G) (N := N)) : Method * list Segment := (r_method r, r_pattern r).
Definition confusable (a b : Method * list Segment) : bool :=
  bool_decide (a.1 = b.1) && overlap a.2 b.2.

Fixpoint unambiguous (l : list (Method * list Segment)) : bool :=
  match l with
  | [] => true
  | a :: l => forallb (fun b => negb (confusable a b)) l && unambiguous l
  end.

Lemma table_unambiguous : unambiguous (map route_key table) = true.
Proof. reflexivity. Qed.

(** Whether a route takes a request. *)
Definition takes (m : Method) (path : string) (r : Route (G := G) (N := N)) : Prop :=
  r_method r = m /\ is_Some (match_path (r_pattern r) path).

Lemma takes_confusable m path r r' :
  takes m path r -> takes m path r' -> confusable (route_key r) (route_key r') = true.
Proof.
  intros [Hm Hp] [Hm' Hp']. unfold confusable, route_key; simpl. rewrite bool_decide_true by congruence.
  unfold match_path in *. destruct path as [|c path]; [by destruct Hp|].
  destruct (decide (c = "/"%char)) as [->|Hc]; [by eapply match_overlap|].
  exfalso. destruct c as [[] [] [] [] [] [] [] []]; by destruct Hp.
Qed.

(** The route found is one that takes the request, and one is found if there is one. *)
Lemma find_route_spec (t : list Route) m path :
  match find_route t m path with
  | Some (h, c) => exists r, r ∈ t /\ takes m path r /\ h = r_handler r /\
                             match_path (r_pattern r) path = Some c
  | None => forall r : Route (G := G) (N := N), r ∈ t -> ~ takes m path r
  end.
Proof.
  induction t as [|r t IH]; simpl; [by intros r ?%not_elem_of_nil|].
  destruct (bool_decide (r_method r = m)) eqn:Em.
  - apply bool_decide_eq_true in Em. destruct (match_path (r_pattern r) path) as [c|] eqn:Ec.
    + exists r. split_and!; [by left| |done|done]. by split; [|eexists].
    + destruct (find_route t m path) as [[h c]|].
      * destruct IH as (r' & ? & ?). exists r'. split; [by right|done].
      * intros r' [->|Hr']%elem_of_cons; [|by apply IH]. intros [_ H]. rewrite Ec in H. by destruct H.
  - apply bool_decide_eq_false in Em. destruct (find_route t m path) as [[h c]|].
    + destruct IH as (r' & ? & ?). exists r'. split; [by right|done].
    + intros r' [->|Hr']%elem_of_cons; [|by apply IH]. by intros [? _].
Qed.

Lemma unambiguous_unique (t : list Route) m path r r' :
  unambiguous (map route_key t) = true -> r ∈ t -> r' ∈ t -> takes m path r -> takes m path r' -> r = r'.
Proof.
  induction t as [|a t IH]; simpl; [by intros _ ?%not_elem_of_nil|].
  intros [Ha Ht]%andb_prop Hr Hr' H H'. rewrite forallb_forall in Ha.
  assert (Hno : forall x, x ∈ t -> confusable (route_key a) (route_key x) = true -> False).
  { intros x Hx Hc. specialize (Ha (route_key x)). rewrite Hc in Ha. discriminate Ha.
    apply in_map. by apply list_elem_of_In. }
  apply elem_of_cons in Hr as [->|Hr], Hr' as [->|Hr']; [done| | |by apply IH].
  - destruct (Hno r' Hr'). by eapply takes_confusable.
  - destruct (Hno r Hr). by eapply takes_confusable.
Qed.

Lemma find_route_answers (P : Response -> Prop) (t : list Route) m path h c :
  Forall (fun r : Route (G := G) (N := N) => forall req c, answers P (r_handler r req c)) t ->
  find_route t m path = Some (h, c) -> forall req, answers P (h req c).
Proof.
  intros Ht Hf req. pose proof (find_route_spec t m path) as H. rewrite Hf in H.
  destruct H as (r & Hin & _ & -> & _). rewrite Forall_forall in Ht. by apply Ht.
Qed.

(** The registration order is irrelevant for an unambiguous table. *)
Lemma find_route_permutation (t t' : list (Route (G := G) (N := N))) m path :
  unambiguous (map route_key t) = true -> t' ≡ₚ t -> find_route t' m path = find_route t m path.
Proof.
  intros Hu Hp. pose proof (find_route_spec t' m path) as H1. pose proof (find_route_spec t m path) as H2.
  destruct (find_route t' m path) as [[h c]|], (find_route t m path) as [[h' c']|]; [| | |done].
  - destruct H1 as (r & Hin & Ht & -> & Hc), H2 as (r' & Hin' & Ht' & -> & Hc').
    rewrite Hp in Hin.
    assert (r = r') as <- by (eapply unambiguous_unique; eauto).
    rewrite Hc in Hc'. by injection Hc' as ->.
  - destruct H1 as (r & Hin & Ht & _). rewrite Hp in Hin. by destruct (H2 r Hin).
  - destruct H2 as (r & Hin & Ht & _). rewrite <- Hp in Hin. by destruct (H1 r Hin).
Qed.

(** *** Every handler answers with a clean response *)

#[local] Hint Resolve answers_reply answers_not_found answers_bad_request : agamemnon.

(** The constant an application applies. *)
Ltac head_of t := lazymatch t with ?f _ => head_of f | _ => t end.

Ltac clean_handler :=
  repeat first
    [ apply answers_with_body; [done|]
    | apply answers_with_page
    | apply answers_guarded; [by intros r Hr; eapply refuses_create_agent|]
    | apply answers_guarded; [by intros r Hr; eapply refuses_patch_agent|]
    | apply answers_guarded; [by intros r Hr; eapply refuses_create_team|]
    | apply answers_guarded; [by intros r Hr; eapply refuses_put_team|]
    | apply answers_guarded; [by intros r Hr; eapply refuses_create_task|]
    | apply answers_guarded; [by intros r Hr; eapply refuses_update_task|]
    | apply answers_ret; by intros [=]
    | answers_step ].

Lemma handlers_clean : Forall (fun r => forall req c, answers clean_response (r_handler r req c)) table.
Proof.
  unfold Routes.table.
  repeat apply Forall_cons_2; [..|apply Forall_nil_2]; intros req c; cbn [r_handler on0 on1 on2];
    match goal with |- answers _ ?m => let h := head_of m in try unfold h end; clean_handler.
Qed.
End table.

(** ** The store publishes nothing *)

Section quiet.
Context {G N : Type} (gh_ : option (IGitHubClient G)) `{JT : !JsonText, HO : !HashOrder}.
Abbreviation W := (World G N).

Definition quiet (w w' : W) : Prop := w_nats w' = w_nats w.
#[global] Instance quiet_preorder : PreOrder quiet.
Proof. split; [done|]. unfold quiet. intros w1 w2 w3 H1 H2. by rewrite H2. Qed.

Lemma quiet_call_gh {A} (m : M G A) : moves quiet (call_gh (N := N) m).
Proof. intros w. unfold call_gh, zoom. by destruct (m (w_gh w)). Qed.
Lemma quiet_metric f : moves quiet (@record_metric G N f).
Proof. intros w. unfold record_metric, quiet. simpl. by destruct (metrics_ (w_store w)). Qed.
Lemma quiet_uuid : moves quiet (generate_uuid : M W string).
Proof. intros w. by rewrite run_generate_uuid. Qed.
Lemma quiet_now : moves quiet (now_iso8601 : M W string).
Proof. by intros w. Qed.
#[local] Hint Resolve quiet_call_gh quiet_metric quiet_uuid quiet_now : agamemnon.

Lemma quiet_create_remote c t id j : moves quiet (create_remote gh_ c t id j : M W json).
Proof. unfold create_remote. destruct gh_; moves. Qed.
Lemma quiet_update_remote c id : moves quiet (update_remote gh_ c id : M W unit).
Proof. unfold update_remote, entity_at. destruct gh_; moves. Qed.
Lemma quiet_assign c id k v : moves quiet (assign c id k v : M W unit).
Proof. unfold assign, entity_at. moves. by apply moves_modify. Qed.
Lemma quiet_ensure c : moves quiet (ensure_loaded_ gh_ c : M W unit).
Proof.
  unfold ensure_loaded_, hydrate_issue. destruct gh_; moves; by apply moves_modify.
Qed.
#[local] Hint Resolve quiet_create_remote quiet_update_remote quiet_assign quiet_ensure : agamemnon.

(** A successful run of a bind, taken apart. *)
Lemma bind_inv {S A B} (m : M S A) (f : A -> M S B) s s' b :
  (m ≫= f) s = (s', inr b) -> exists s1 a, m s = (s1, inr a) /\ f a s1 = (s', inr b).
Proof. rewrite run_bind. destruct (m s) as [s1 [e|a]]; [done|]. eauto. Qed.

Lemma of_result_inv {S A} (r : result A) (s s' : S) a : of_result r s = (s', inr a) -> s' = s /\ r = inr a.
Proof. unfold of_result. intros H. split; congruence. Qed.

Lemma moved {S A} (R : relation S) (m : M S A) s s' r : moves R m -> m s = (s', r) -> R s s'.
Proof. intros Hm H. specialize (Hm s). by rewrite H in Hm. Qed.

(** The created entity: the object built, perhaps with its issue number added. *)
Lemma create_remote_field c title id e w w' j :
  (create_remote gh_ c title id e : M W json) w = (w', inr j) -> is_object e = true ->
  is_object j = true /\ forall k, k <> "_github_issue" -> field k j = field k e.
Proof.
  intros H He. revert H. unfold create_remote. destruct gh_ as [gh|]; [|by intros [= _ <-]]. intros H.
  apply bind_inv in H as (w1 & body & _ & H). apply bind_inv in H as (w2 & n & _ & H).
  destruct (str_empty n); [by injection H as _ <-|]. injection H as _ H.
  destruct e; try done. injection H as <-. split; [done|]. intros k Hk. unfold field. simpl. by rewrite obj_get_set_ne.
Qed.

Lemma value_str_field k d j s : is_object j = true -> field k j = Some (JStr s) -> value_str k d j = inr s.
Proof. destruct j; try done. unfold field, value_str, value_with. simpl. by intros _ ->. Qed.

Lemma create_task_inv team_id body w w' j :
  (create_task gh_ team_id body : M W json) w = (w', inr j) ->
  exists id ty task, j = jobj [("task", task)] /\ quiet w w' /\ map_of kTasks w' !! id = Some task /\
    is_object task = true /\ field "id" task = Some (JStr id) /\ field "type" task = Some (JStr ty) /\
    field "teamId" task = Some (JStr team_id).
Proof.
  intros H.
  assert (quiet w w') as Hq.
  { refine (moved _ (create_task gh_ team_id body) _ _ _ _ H). unfold create_task, ensure_tasks_loaded_.
    moves. by apply moves_modify. }
  unfold create_task in H.
  apply bind_inv in H as (w1 & _ & _ & H). apply bind_inv in H as (w2 & id & _ & H).
  apply bind_inv in H as (w3 & subj & _ & H). apply bind_inv in H as (w4 & desc & _ & H).
  apply bind_inv in H as (w5 & asg & _ & H). apply bind_inv in H as (w6 & blk & _ & H).
  apply bind_inv in H as (w7 & ty & _ & H). apply bind_inv in H as (w8 & now & _ & H).
  cbv zeta in H. apply bind_inv in H as (w9 & task & Hc & H).
  apply bind_inv in H as (w10 & [] & Hp & H). apply bind_inv in H as (w11 & [] & Hm & H).
  injection H as <- <-. exists id, ty, task.
  destruct (create_remote_field _ _ _ _ _ _ _ Hc eq_refl) as [Ho Hf].
  split_and!; [done|done| |done|by rewrite Hf..].
  assert (map_of kTasks w11 = map_of kTasks w10) as ->
    by exact (moved _ _ _ _ _ (same_metric record_task_created) Hm kTasks).
  injection Hp as <-. by rewrite map_of_put_entity, lookup_insert_eq.
Qed.

(** Starting and stopping answer with the new status and the id only. *)
Lemma set_agent_status_inv status id w w' j :
  (set_agent_status gh_ status id : M W json) w = (w', inr j) ->
  quiet w w' /\ (j = JNull \/ j = jobj [("status", JStr status); ("id", JStr id)]).
Proof.
  intros H. split.
  - refine (moved _ (set_agent_status gh_ status id) _ _ _ _ H). unfold set_agent_status, ensure_agents_loaded_.
    moves.
  - unfold set_agent_status in H. apply bind_inv in H as (w1 & _ & _ & H).
    apply bind_inv in H as (w2 & it & _ & H). destruct it; [|injection H as _ <-; by left].
    apply bind_inv in H as (w3 & _ & _ & H). apply bind_inv in H as (w4 & _ & _ & H).
    injection H as _ <-. by right.
Qed.
End quiet.

(** Messages of the recording publisher. *)
Section fake.
Context {G : Type}.
Abbreviation W := (World G FakeNats).

(** [w'] is [w] with the messages [l] sent. *)
Definition sent (l : list (string * string)) (w w' : W) : Prop :=
  w_store w' = w_store w /\ published (w_nats w') = published (w_nats w) ++ l.

Lemma sent_publish subj pay w w' u :
  Orchestrator.nats_publish FakeNatsPublisher subj pay w = (w', inr u) -> sent [(subj, pay)] w w'.
Proof. by intros [= <- _]. Qed.
Lemma sent_log subj level msg meta w w' u :
  Orchestrator.nats_log FakeNatsPublisher subj level msg meta w = (w', inr u) -> sent [] w w'.
Proof. intros [= <- _]. split; [done|]. simpl. by rewrite app_nil_r. Qed.
Lemma sent_trans l k w1 w2 w3 : sent l w1 w2 -> sent k w2 w3 -> sent (l ++ k) w1 w3.
Proof.
  intros [Hs Hp] [Hs' Hp']. split; [by rewrite Hs'|]. by rewrite Hp', Hp, app_assoc.
Qed.
End fake.

(** Take the first step of a successful run apart. *)
Ltac unbind H :=
  let w1 := fresh "w" in let a := fresh "a" in let Ha := fresh "Ha" in
  apply bind_inv in H as (w1 & a & Ha & H);
  try (apply of_result_inv in Ha as [-> Ha]).
