(* ===== verification/RouteTheorems.v ===== *)
(** * The REST API: theorems *)

From S2P Require Import Prelude Effects Text Json JsonCodec HmasTypes StateMachine Metrics World.
From S2P Require Import Planning Store StoreFacts HmasStore Orchestrator Messaging Guards.
From S2P Require Import GuardsTheorems Http Routes RouteFacts.
From Stdlib Require Import QArith.
Close Scope Q_scope.

Section theorems.
Context {G N : Type} (gh_ : option (IGitHubClient G)) (np : NatsPublisher N) (admin : NatsAdmin N).
Context `{JT : !JsonText, HO : !HashOrder}.
Context (parse_what : string -> string) (what : exn -> string)
  (Serialize : MetricsRegistry -> string) (HMAC : string -> string -> option (list Z))
  (secret_env : option string) (rnd : Q -> Q) (api_key : string).
Abbreviation W := (World G N).
Abbreviation table := (Routes.table gh_ np admin parse_what what Serialize HMAC secret_env).
Abbreviation dispatch := (Routes.dispatch gh_ np admin parse_what what Serialize HMAC secret_env).
Abbreviation serve :=
  (Routes.serve gh_ np admin parse_what what Serialize HMAC secret_env rnd api_key).
Abbreviation post_webhook := (Routes.post_webhook gh_ parse_what HMAC secret_env).

(** C11: no JSON response of any route carries an internal field: its content is the text of a
    value in which "_github_issue" occurs as a key at no depth. *)
Theorem responses_clean (req : Request) (w w' : W) (r : Response) :
  dispatch req w = (w', inr r) -> clean_response r.
Proof.
  unfold Routes.dispatch.
  pose proof (handlers_clean gh_ np admin parse_what what Serialize HMAC secret_env) as Hc.
  generalize dependent table. intros t Hc.
  destruct (find_route t (handlers_of (req_method req)) (req_path req)) as [[h c]|] eqn:Hf.
  - exact (find_route_answers _ _ _ _ _ _ Hc Hf req w w' r).
  - by intros [= _ <-].
Qed.

(** The order in which the routes are registered does not matter: whatever the order, a
    request is given to the same handler with the same captures. *)
Lemma routing_order_free (t : list Route) (m : Method) (path : string) :
  t ≡ₚ table -> find_route t m path = find_route table m path.
Proof.
  apply find_route_permutation, table_unambiguous.
Qed.


(** C33: a webhook delivery is authenticated by its signature alone: without a valid one (or
    without a configured secret) it is answered 401 or 503 and changes nothing; a signed
    "issues" delivery with a usable payload changes the state exactly as
    [apply_github_event] does. *)
Theorem webhook_gate (req : Request) (s : Server (G := G) (N := N)) :
  req_method req = Post -> req_path req = "/v1/github/webhook" ->
  let secret := default "" secret_env in
  (Webhook.verify_github_signature HMAC secret (header_value "X-Hub-Signature-256" req) (req_body req)
   = false ->
   fst (serve req s) = s /\
   forall r, snd (serve req s) = inr r -> (res_status r = 401 \/ res_status r = 503)%Z) /\
  (Webhook.verify_github_signature HMAC secret (header_value "X-Hub-Signature-256" req) (req_body req)
   = true ->
   header_value "X-GitHub-Event" req = "issues" ->
   (Z.of_nat (String.length (req_body req)) <= kMaxBodyBytes)%Z ->
   forall payload e, body_of req = Some payload -> Webhook.normalize_issues_event payload = Some e ->
   sv_world (fst (serve req s))
   = fst (apply_github_event gh_ (Webhook.entity_label e) (Webhook.action e) (Webhook.issue_shape e)
            (Webhook.updated_at e) (sv_world s))).
Proof.
  intros Hm Hp secret.
  assert (Hs : serve req s = zoom sv_world put_world (post_webhook req) s).
  { unfold Routes.serve, pre_routing, Routes.dispatch. by rewrite Hp, Hm, run_bind. }
  rewrite Hs. unfold zoom, Routes.post_webhook. split.
  - intros Hv. destruct secret_env as [[|ch sec]|]; cbn [default from_option id] in secret; subst secret;
      [unfold reply| |unfold reply].
    2: rewrite Hv; cbn [negb]; unfold reply.
    all: rewrite run_of_result; split; [by destruct s|]; simpl; intros r [-> _]%reply_json_inv; eauto.
  - intros Hv Hev Hlen payload e Hb He.
    destruct secret_env as [[|ch sec]|]; cbn [default from_option id] in secret; subst secret; [discriminate Hv| |discriminate Hv].
    rewrite Hv, Hev. cbn [negb]. change (str_eqb "issues" "ping") with false.
    change (negb (str_eqb "issues" "issues")) with false. cbv iota.
    rewrite (with_body_run _ _ _ _ _ Hlen Hb), He, run_bind.
    by destruct (apply_github_event _ _ _ _ _ _) as [w' [?|?]].
Qed.


(** The statuses of the code behind the checks. *)
Definition processed (r : Response) : Prop :=
  (res_status r = 200 \/ res_status r = 201 \/ res_status r = 404)%Z.

Ltac status_handler :=
  repeat first [ apply answers_of_result; intros ? [? _]%reply_json_inv; unfold processed; lia
               | answers_step
               | progress unfold reply, not_found, reply_not_found ].

(** An agent, team or task request answered 400 or 413 left the store, the remote side, the
    messages and the metrics as they were. *)
Lemma rejections_change_nothing (req : Request) (h : M W Response) (id team_id : string)
    (w w' : W) (r : Response) :
  h ∈ [post_agents gh_ np parse_what req; patch_agent gh_ np parse_what id req;
       post_teams gh_ np parse_what req; put_team gh_ np parse_what id req;
       post_team_tasks gh_ np parse_what team_id req;
       update_task_handler gh_ np parse_what team_id id req] ->
  h w = (w', inr r) -> (res_status r = 400 \/ res_status r = 413)%Z -> w' = w.
Proof.
  intros Hh H Hs. assert (Hno : ~ processed r) by (unfold processed; lia).
  repeat (apply elem_of_cons in Hh as [->|Hh]); [..|by apply elem_of_nil in Hh];
    refine (rejected parse_what processed _ _ _ _ _ _ _ H Hno); status_handler.
Qed.
End theorems.

Section messages.
Context {G : Type} (gh_ : option (IGitHubClient G)) `{JT : !JsonText, HO : !HashOrder}.
Context (parse_what : string -> string).
Abbreviation W := (World G FakeNats).
Abbreviation np := FakeNatsPublisher.


(** The event of a started or stopped agent never names the agent: whatever its host and
    name, it is published as "hi.agents.local.unknown.updated". *)
Lemma start_stop_event_anonymous (h : M W Response) (id : string) (w w' : W) (r : Response) :
  h ∈ [post_agent_start gh_ np id; post_agent_stop gh_ np id] ->
  h w = (w', inr r) -> res_status r = 200%Z ->
  exists d, published (w_nats w') = published (w_nats w) ++ [("hi.agents.local.unknown.updated", d)].
Proof.
  assert (Hany : forall status, (j ← set_agent_status gh_ status id;
            if is_null j then not_found "agent" else publish_agent_updated np j ;; reply 200 j) w = (w', inr r) ->
          res_status r = 200%Z ->
          exists d, published (w_nats w') = published (w_nats w) ++ [("hi.agents.local.unknown.updated", d)]).
  { intros status H Hr. apply bind_inv in H as (w1 & j & Hj & H).
    apply set_agent_status_inv in Hj as [Hq [->| ->]].
    - injection H as _ [? _]%reply_json_inv. lia.
    - simpl (is_null _) in H. cbv iota in H. apply bind_inv in H as (w2 & u & Hu & H).
      injection H as <- _. unfold publish_agent_updated in Hu. unbind Hu. vm_compute in Ha. injection Ha as <-.
      unbind Hu. vm_compute in Ha. injection Ha as <-. unbind Hu. apply sent_publish in Hu as [_ Hp].
      exists a. by rewrite Hp, Hq. }
  intros Hh. repeat (apply elem_of_cons in Hh as [->|Hh]); [..|by apply elem_of_nil in Hh].
  - apply (Hany "online").
  - apply (Hany "offline").
Qed.

(** A creation request for an agent with a valid name whose label is not a string makes the
    handler throw a type error instead of answering 400. *)
Lemma non_string_label_throws (req : Request) (w : W) (l : list (string * json)) (name : string)
    (v : json) :
  (Z.of_nat (String.length (req_body req)) <= kMaxBodyBytes)%Z -> body_of req = Some (JObj l) ->
  obj_get "name" l = Some (JStr name) -> blank name = false -> at_most 256 name ->
  obj_get "label" l = Some v -> is_string v = false ->
  post_agents gh_ np parse_what req w = (w, inl (type_error 302)).
Proof.
  intros Hlen Hb Hn Hbl Hat Hv Hns. unfold post_agents. rewrite (with_body_run _ _ _ _ _ Hlen Hb).
  unfold guarded. rewrite run_bind, run_of_result.
  assert (create_agent_checks (JObj l) = inl (type_error 302)) as ->; [|done].
  assert (forall f v, obj_get f l = Some v -> contains f (JObj l) = true) as Hc.
  { intros f x Hx. apply contains_obj. by rewrite Hx. }
  unfold create_agent_checks, name_checks, require_field_present, require_string_if_present,
    if_present_str, if_present. rewrite (Hc _ _ Hn), (Hc _ _ Hv). simpl. rewrite Hn, Hv. simpl.
  unfold require_nonempty_string, check_field_length. unfold blank in Hbl. rewrite Hbl. simpl.
  unfold at_most, kMaxNameLen in *. destruct (256 <? _)%Z eqn:E; [lia|]. simpl. by destruct v.
Qed.
End messages.

(** Whatever the query, a list request is answered 400 or runs with a limit of at most 1000
    and an offset below 2^64, neither negative. *)
Lemma pagination_bounds (req : Request) (p : PaginationParams) :
  read_pagination req = inr p -> (0 <= limit p <= 1000 /\ 0 <= offset p < 2 ^ 64)%Z.
Proof.
  unfold read_pagination. intros H.
  destruct (match req_param req "limit" with Some _ => _ | None => _ end) as [|n] eqn:En; [done|].
  destruct (match req_param req "offset" with Some _ => _ | None => _ end) as [|o] eqn:Eo; [done|].
  injection H as <-. simpl. split.
  - destruct (req_param req "limit") as [s|]; [|injection En as <-; unfold kDefaultLimit; lia].
    destruct (stoul s) as [|v] eqn:Ev; [done|]. apply stoul_bounds in Ev.
    injection En as <-. unfold kMaxLimit. lia.
  - destruct (req_param req "offset") as [s|]; [by apply stoul_bounds in Eo|injection Eo as <-; lia].
Qed.

(** ** Witnesses *)

#[local] Existing Instances codec list_order.

Definition no_text (_ : string) : string := "".
Definition no_what (_ : exn) : string := "".
Definition no_metrics (_ : MetricsRegistry) : string := "".
Definition exact_double (q : Q) : Q := q.

Definition request (m : Method) (path body : string) (headers : list (string * string)) : Request :=
  {| req_method := m; req_path := path;
     req_header := fun k => snd <$> List.find (fun kv => str_eqb k kv.1) headers;
     req_param := fun _ => None; req_body := body; remote_addr := "10.0.0.1" |}.

Definition text_of (j : json) : string := default "" (dump (-1) j).
Definition world0 : World MockGitHub FakeNats := boot env0 mock0 true nats0.
Definition server0 : Server :=
  {| sv_world := world0; sv_limiter := RateLimit.new_limiter 60 120; sv_steady := fun _ => 0%Z;
     sv_steady_i := 0 |}.

Abbreviation table0 :=
  (Routes.table (Some MockGitHubClient) FakeNatsPublisher FakeNatsAdmin no_text no_what no_metrics
     zero_mac (Some "key")).
Abbreviation dispatch0 :=
  (Routes.dispatch (Some MockGitHubClient) FakeNatsPublisher FakeNatsAdmin no_text no_what no_metrics
     zero_mac (Some "key")).
Abbreviation serve0 :=
  (Routes.serve (Some MockGitHubClient) FakeNatsPublisher FakeNatsAdmin no_text no_what no_metrics
     zero_mac (Some "key") exact_double "s3cret").


Lemma responses_clean_witness :
  exists r, snd (dispatch0 (request Get "/health" "" []) world0) = inr r /\ clean_response r.
Proof.
  eexists. split; [reflexivity|].
  apply (responses_clean (Some MockGitHubClient) FakeNatsPublisher FakeNatsAdmin no_text no_what no_metrics
           zero_mac (Some "key") (request Get "/health" "" []) world0 world0). reflexivity.
Defined.

Lemma routing_order_free_witness :
  find_route (reverse table0) Get "/v1/agents/by-name/hector"
  = find_route table0 Get "/v1/agents/by-name/hector".
Proof. apply routing_order_free, reverse_Permutation. Defined.


Lemma webhook_gate_witness :
  fst (serve0 (request Post "/v1/github/webhook" "{}" [("X-Hub-Signature-256", "sha256=00")]) server0)
  = server0.
Proof.
  refine (proj1 (proj1 (webhook_gate (Some MockGitHubClient) FakeNatsPublisher FakeNatsAdmin no_text
    no_what no_metrics zero_mac (Some "key") exact_double "s3cret"
    (request Post "/v1/github/webhook" "{}" [("X-Hub-Signature-256", "sha256=00")]) server0 _ _) _));
  reflexivity.
Defined.


Lemma rejections_change_nothing_witness :
  fst (post_agents (Some MockGitHubClient) FakeNatsPublisher no_text (request Post "/v1/agents" "" []) world0)
  = world0.
Proof.
  eapply (rejections_change_nothing (Some MockGitHubClient) FakeNatsPublisher no_text
            (request Post "/v1/agents" "" []) _ "" "" world0);
    [left|reflexivity|left; reflexivity].
Defined.



(** An agent on host "docker" named "hector", started. *)
Definition hector_world : World MockGitHub FakeNats :=
  put_entity kAgents "a1"
    (jobj [("id", JStr "a1"); ("name", JStr "hector"); ("host", JStr "docker")])
    (boot env0 mock0 true nats0).
Definition start_run : World MockGitHub FakeNats * (exn + Response) :=
  post_agent_start None FakeNatsPublisher "a1" hector_world.

Lemma start_stop_event_anonymous_witness :
  exists d, published (w_nats (fst start_run)) = [("hi.agents.local.unknown.updated", d)].
Proof.
  assert (exists r, snd start_run = inr r /\ res_status r = 200%Z) as (r & Hr & H200)
    by (eexists; split; [vm_compute; reflexivity|reflexivity]).
  destruct (start_stop_event_anonymous None (post_agent_start None FakeNatsPublisher "a1") "a1"
    hector_world (fst start_run) r) as [d H].
  - left.
  - rewrite <- Hr. apply surjective_pairing.
  - exact H200.
  - exists d. exact H.
Defined.

Lemma non_string_label_throws_witness :
  snd (post_agents (Some MockGitHubClient) FakeNatsPublisher no_text
    (request Post "/v1/agents" (text_of (jobj [("name", JStr "a"); ("label", JInt 5)])) []) world0)
  = inl (type_error 302).
Proof.
  rewrite (non_string_label_throws (Some MockGitHubClient) no_text
    (request Post "/v1/agents" (text_of (jobj [("name", JStr "a"); ("label", JInt 5)])) []) world0
    [("label", JInt 5); ("name", JStr "a")] "a" (JInt 5)); [reflexivity|..].
  all: try reflexivity. all: vm_compute; discriminate.
Defined.
