(* ===== verification/Regex.v ===== *)
(** * Regular expressions

    The part of [std::regex] (ECMAScript grammar) that the agent runtime uses: a backtracking
    matcher that returns the ways an expression matches at the start of a text, in the order
    the engine tries them, and on top of it [std::regex_match] (the whole text),
    [std::sregex_iterator] (every match, left to right) and [std::regex_replace].  The matcher
    is proved to agree with the usual language of an expression.  The expressions of the
    sources never match the empty text and have no group under a repetition whose capture is
    read; the iteration over empty matches is not modelled. *)

From S2P Require Import Prelude Effects Text.

Inductive re :=
| Eps
| Cls (p : ascii -> bool)            (* one character of a class *)
| Seq (a b : re)
| Alt (a b : re)                     (* a|b *)
| Star (a : re)                      (* a*, greedy *)
| Grp (a : re).                      (* (a), captured *)

(** A match: the text consumed, the captures in order, the rest of the text. *)
Definition rmatch : Type := string * list string * string.

Definition consumed (m : rmatch) : string := m.1.1.
Definition captures (m : rmatch) : list string := m.1.2.
Definition remaining (m : rmatch) : string := m.2.

Definition rcat (m1 m2 : rmatch) : rmatch :=
  (consumed m1 +:+ consumed m2, captures m1 ++ captures m2, remaining m2).

(** The ways [a*] matches, the longest first; an iteration that consumes nothing ends it. *)
Fixpoint star_loop (f : string -> list rmatch) (fuel : nat) (s : string) : list rmatch :=
  match fuel with
  | O => [("", [], s)]
  | S fuel =>
      flat_map (fun m => if str_empty (consumed m) then []
                         else map (rcat m) (star_loop f fuel (remaining m))) (f s)
      ++ [("", [], s)]
  end.

Fixpoint matches (r : re) (s : string) : list rmatch :=
  match r with
  | Eps => [("", [], s)]
  | Cls p => match s with
             | "" => []
             | String c rest => if p c then [(String c "", [], rest)] else []
             end
  | Seq a b => flat_map (fun m => map (rcat m) (matches b (remaining m))) (matches a s)
  | Alt a b => matches a s ++ matches b s
  | Star a => star_loop (matches a) (String.length s) s
  | Grp a => map (fun m => (consumed m, consumed m :: captures m, remaining m)) (matches a s)
  end.

(** [std::regex_match(s, m, r)]: the captures of the first way to match all of [s]. *)
Definition regex_match (r : re) (s : string) : option (list string) :=
  captures <$> head (List.filter (fun m => str_empty (remaining m)) (matches r s)).

(** The matches [std::sregex_iterator] enumerates. *)
Fixpoint regex_iter (fuel : nat) (r : re) (s : string) : list rmatch :=
  match fuel with
  | O => []
  | S fuel =>
      match head (matches r s) with
      | Some m => if str_empty (consumed m) then [] else m :: regex_iter fuel r (remaining m)
      | None => match s with "" => [] | String _ rest => regex_iter fuel r rest end
      end
  end.
Definition sregex_iterator (r : re) (s : string) : list rmatch := regex_iter (S (String.length s)) r s.

(** [std::regex_replace(s, r, text)] for a [text] without format escapes. *)
Fixpoint replace_loop (fuel : nat) (r : re) (text s : string) : string :=
  match fuel with
  | O => s
  | S fuel =>
      match head (matches r s) with
      | Some m => if str_empty (consumed m) then s else text +:+ replace_loop fuel r text (remaining m)
      | None => match s with "" => "" | String c rest => String c (replace_loop fuel r text rest) end
      end
  end.
Definition regex_replace (r : re) (text s : string) : string := replace_loop (S (String.length s)) r text s.

(** ** Notations of the grammar *)

Definition Chr (c : ascii) : re := Cls (fun d => bool_decide (c = d)).
Fixpoint Lit (s : string) : re := match s with "" => Eps | String c r => Seq (Chr c) (Lit r) end.
Definition Plus (a : re) : re := Seq a (Star a).
Definition Opt (a : re) : re := Alt a Eps.

(** [[...]] and [[^...]] given by their characters, and the escapes \d, \s, \w. *)
Fixpoint str_mem (c : ascii) (s : string) : bool :=
  match s with "" => false | String d r => bool_decide (c = d) || str_mem c r end.
Definition islower (c : ascii) : bool := (97 <=? byte_of c)%Z && (byte_of c <=? 122)%Z.
Definition isupper (c : ascii) : bool := (65 <=? byte_of c)%Z && (byte_of c <=? 90)%Z.
Definition isword (c : ascii) : bool := isdigit c || islower c || isupper c || bool_decide (c = "_"%char).

(** ** The language of an expression *)

Inductive lang : re -> string -> Prop :=
| lang_eps : lang Eps ""
| lang_cls p c : p c = true -> lang (Cls p) (String c "")
| lang_seq a b s t : lang a s -> lang b t -> lang (Seq a b) (s +:+ t)
| lang_alt_l a b s : lang a s -> lang (Alt a b) s
| lang_alt_r a b s : lang b s -> lang (Alt a b) s
| lang_star_nil a : lang (Star a) ""
| lang_star_cons a s t : lang a s -> lang (Star a) t -> lang (Star a) (s +:+ t)
| lang_grp a s : lang a s -> lang (Grp a) s.

Definition agrees (r : re) : Prop := forall s,
  (forall m, In m (matches r s) -> s = consumed m +:+ remaining m /\ lang r (consumed m)) /\
  (forall c rest, s = c +:+ rest -> lang r c -> exists g, In (c, g, rest) (matches r s)).

Lemma str_app_nonempty_length (a b : string) : a <> "" -> String.length b < String.length (a +:+ b).
Proof. destruct a; [done|]. rewrite str_app_length. simpl. lia. Qed.

Lemma star_loop_sound a fuel s m :
  agrees a -> In m (star_loop (matches a) fuel s) ->
  s = consumed m +:+ remaining m /\ lang (Star a) (consumed m).
Proof.
  intros Ha. revert s m; induction fuel as [|fuel IH]; intros s m; simpl.
  - intros [<-|[]]. by split; [|constructor].
  - intros [Hin|[<-|[]]]%in_app_or; [|by split; [|constructor]].
    apply in_flat_map in Hin as (m1 & H1 & Hin). destruct (str_empty (consumed m1)); [done|].
    apply in_map_iff in Hin as (m2 & <- & H2).
    destruct (proj1 (Ha s) _ H1) as [E1 L1]. destruct (IH _ _ H2) as [E2 L2].
    unfold rcat, consumed, remaining in *; simpl in *. rewrite str_app_assoc, <- E2.
    split; [done|by constructor].
Qed.

Lemma star_loop_complete a fuel s c rest :
  agrees a -> String.length s <= fuel -> s = c +:+ rest -> lang (Star a) c ->
  exists g, In (c, g, rest) (star_loop (matches a) fuel s).
Proof.
  intros Ha. revert s c. induction fuel as [|fuel IH]; intros s c Hf Es Hl.
  { exists []. destruct s; [|simpl in Hf; lia]. destruct c; [|done].
    rewrite str_app_nil_l in Es. subst. simpl. by left. }
  remember (Star a) as r eqn:Er. revert s Es Hf. induction Hl as [| | | | | |a' s1 s2 H1 _ H2 IH2|];
    try discriminate Er; intros s Es Hf; injection Er as ->.
  { exists []. simpl. apply in_or_app. right. left. rewrite str_app_nil_l in Es. by subst. }
  destruct (decide (s1 = "")) as [->|Hne].
  { rewrite str_app_nil_l in Es |- *. by apply IH2. }
  rewrite str_app_assoc in Es.
  destruct (proj2 (Ha s) s1 (s2 +:+ rest) Es H1) as [g1 Hg1].
  destruct (IH (s2 +:+ rest) s2) as [g2 Hg2]; [|done|done|].
  { pose proof (str_app_nonempty_length s1 (s2 +:+ rest) Hne). rewrite <- Es in *. lia. }
  exists (g1 ++ g2). simpl. apply in_or_app. left. apply in_flat_map. exists (s1, g1, s2 +:+ rest).
  split; [done|]. unfold consumed, remaining; simpl. rewrite (proj2 (str_empty_false s1) Hne).
  apply in_map_iff. exists (s2, g2, rest). done.
Qed.

(** The matcher finds exactly the prefixes in the language of the expression. *)
Lemma matches_agrees r : agrees r.
Proof.
  induction r as [|p|a Ha b Hb|a Ha b Hb|a Ha|a Ha]; intros s; split; simpl.
  - intros m [<-|[]]. split; [done|constructor].
  - intros c rest -> Hl. inversion Hl; subst. exists []. by left.
  - intros m. destruct s as [|c r]; [done|]. destruct (p c) eqn:E; [|done]. intros [<-|[]].
    split; [done|by constructor].
  - intros c rest -> Hl. inversion Hl; subst. exists []. rewrite str_app_cons. rewrite H0. by left.
  - intros m (m1 & H1 & Hin)%in_flat_map. apply in_map_iff in Hin as (m2 & <- & H2).
    destruct (proj1 (Ha s) _ H1) as [E1 L1]. destruct (proj1 (Hb _) _ H2) as [E2 L2].
    unfold rcat, consumed, remaining in *; simpl in *. rewrite str_app_assoc, <- E2.
    split; [done|by constructor].
  - intros c rest -> Hl. inversion Hl as [| |? ? s1 s2 L1 L2| | | | |]; subst. rewrite str_app_assoc.
    destruct (proj2 (Ha (s1 +:+ s2 +:+ rest)) s1 _ eq_refl L1) as [g1 H1].
    destruct (proj2 (Hb (s2 +:+ rest)) s2 _ eq_refl L2) as [g2 H2].
    exists (g1 ++ g2). apply in_flat_map. eexists. split; [exact H1|]. apply in_map_iff.
    by exists (s2, g2, rest).
  - intros m [H|H]%in_app_or; [destruct (proj1 (Ha s) _ H)|destruct (proj1 (Hb s) _ H)];
      (split; [done|by constructor]).
  - intros c rest -> Hl.
    inversion Hl as [| | |? ? ? L|? ? ? L| | |]; subst;
      [destruct (proj2 (Ha _) c rest eq_refl L) as [g H]|destruct (proj2 (Hb _) c rest eq_refl L) as [g H]];
      exists g; apply in_or_app; auto.
  - intros m Hm. by apply (star_loop_sound a (String.length s)).
  - intros c rest Es Hl. by apply star_loop_complete.
  - intros m (m1 & <- & H1)%in_map_iff. destruct (proj1 (Ha s) _ H1) as [E1 L1].
    split; [done|by constructor].
  - intros c rest -> Hl. inversion Hl as [| | | | | | |? ? L]; subst.
    destruct (proj2 (Ha _) c rest eq_refl L) as [g H].
    exists (c :: g). apply in_map_iff. by exists (c, g, rest).
Qed.

(** [std::regex_match] accepts exactly the language. *)
Lemma regex_match_lang r s : is_Some (regex_match r s) <-> lang r s.
Proof.
  unfold regex_match. rewrite fmap_is_Some. split.
  - intros [m Hm]. destruct (List.filter _ _) as [|m' l] eqn:E; [done|]. simpl in Hm. injection Hm as ->.
    assert (Hin : In m (List.filter (fun m => str_empty (remaining m)) (matches r s)))
      by (rewrite E; by left).
    apply filter_In in Hin as [Hin Hrest]. apply str_empty_true in Hrest.
    destruct (proj1 (matches_agrees r s) _ Hin) as [Es L]. rewrite Es, Hrest, str_app_nil_r. done.
  - intros L. destruct (proj2 (matches_agrees r s) s "" ltac:(by rewrite str_app_nil_r) L) as [g Hin].
    assert (Hf : In (s, g, "") (List.filter (fun m => str_empty (remaining m)) (matches r s)))
      by by apply filter_In.
    destruct (List.filter _ _) as [|m' l]; [done|]. by exists m'.
Qed.

(** ** Languages of common shapes *)

Lemma lang_seq_iff a b s : lang (Seq a b) s <-> exists s1 s2, s = s1 +:+ s2 /\ lang a s1 /\ lang b s2.
Proof.
  split; [intros H; inversion H; subst; eauto|]. intros (s1 & s2 & -> & ? & ?). by constructor.
Qed.

Lemma lang_alt_iff a b s : lang (Alt a b) s <-> lang a s \/ lang b s.
Proof. split; [intros H; inversion H; subst; auto|]. intros [?|?]; [by apply lang_alt_l|by apply lang_alt_r]. Qed.

Lemma lang_grp_iff a s : lang (Grp a) s <-> lang a s.
Proof. split; [intros H; by inversion H|by constructor]. Qed.

Lemma lang_eps_iff s : lang Eps s <-> s = "".
Proof. split; [intros H; by inversion H|intros ->; constructor]. Qed.

Lemma lang_cls_iff p s : lang (Cls p) s <-> exists c, s = String c "" /\ p c = true.
Proof. split; [intros H; inversion H; subst; eauto|]. intros (c & -> & ?). by constructor. Qed.

Lemma lang_lit t s : lang (Lit t) s <-> s = t.
Proof.
  revert s; induction t as [|c t IH]; intros s; simpl; [apply lang_eps_iff|].
  rewrite lang_seq_iff. split.
  - intros (s1 & s2 & -> & (d & -> & Hd%bool_decide_eq_true)%lang_cls_iff & ->%IH). by subst.
  - intros ->. exists (String c ""), t. split; [done|]. split; [|by apply IH].
    constructor. by apply bool_decide_eq_true.
Qed.

Lemma lang_star_cls p s : lang (Star (Cls p)) s <-> str_forall p s = true.
Proof.
  split.
  - intros H. remember (Star (Cls p)) as r eqn:Er.
    induction H as [| | | | |a|a s t H1 _ H2 IH2|]; try discriminate Er; injection Er as ->; [done|].
    apply lang_cls_iff in H1 as (c & -> & Hc). rewrite str_app_cons, str_app_nil_l. simpl.
    by rewrite Hc, IH2.
  - induction s as [|c s IH]; simpl; [constructor|]. intros [Hc Hs]%andb_prop.
    change (String c s) with (String c "" +:+ s). apply lang_star_cons; [by constructor|by apply IH].
Qed.

Lemma lang_plus_cls p s : lang (Plus (Cls p)) s <-> s <> "" /\ str_forall p s = true.
Proof.
  unfold Plus. rewrite lang_seq_iff. split.
  - intros (s1 & s2 & -> & (c & -> & Hc)%lang_cls_iff & Hs%lang_star_cls).
    rewrite str_app_cons, str_app_nil_l. split; [done|]. simpl. by rewrite Hc.
  - intros [Hne Hs]. destruct s as [|c s]; [done|]. simpl in Hs. apply andb_prop in Hs as [Hc Hs].
    exists (String c ""), s. split; [done|]. split; [by constructor|by apply lang_star_cls].
Qed.

Lemma regex_match_some r s : lang r s -> exists g, regex_match r s = Some g.
Proof. intros H. apply regex_match_lang in H as [g Hg]. eauto. Qed.

(** ** The first match of a run of a class *)

Fixpoint take_while (p : ascii -> bool) (s : string) : string :=
  match s with "" => "" | String c r => if p c then String c (take_while p r) else "" end.

Lemma take_skip_while p s : s = take_while p s +:+ skip_while p s.
Proof. induction s as [|c s IH]; [done|]. simpl. destruct (p c); [|done]. by rewrite str_app_cons, <- IH. Qed.

Lemma take_while_forall p s : str_forall p (take_while p s) = true.
Proof. induction s as [|c s IH]; [done|]. simpl. destruct (p c) eqn:E; [|done]. simpl. by rewrite E. Qed.

Lemma skip_while_head p s c r : skip_while p s = String c r -> p c = false.
Proof.
  induction s as [|d s IH]; simpl; [done|]. destruct (p d) eqn:E; [done|]. by intros [= -> ->].
Qed.

(** A split of the text into a run of [p] and a rest that does not start with [p] is unique. *)
Lemma take_while_app p a r :
  str_forall p a = true -> (forall c r', r = String c r' -> p c = false) ->
  take_while p (a +:+ r) = a /\ skip_while p (a +:+ r) = r.
Proof.
  intros Ha Hr. induction a as [|c a IH].
  - rewrite str_app_nil_l. destruct r as [|c r]; [done|]. simpl. by rewrite (Hr c r).
  - rewrite str_app_cons. simpl in *. apply andb_prop in Ha as [-> Ha]. by destruct (IH Ha) as [-> ->].
Qed.

Lemma head_star_cls p s :
  head (matches (Star (Cls p)) s) = Some (take_while p s, [], skip_while p s).
Proof.
  simpl. remember (String.length s) as n eqn:Hn. revert s Hn.
  induction n as [|n IH]; intros s Hn; [by destruct s|].
  destruct s as [|c s]; [done|]. simpl in *. injection Hn as Hn. destruct (p c); [|done].
  cbn [flat_map]. unfold consumed at 1. simpl str_empty. cbv iota.
  specialize (IH s Hn). unfold remaining at 1. cbn [snd]. destruct (star_loop _ n s) as [|m l]; [done|].
  simpl in *. by injection IH as ->.
Qed.

Lemma head_plus_cls p c s :
  p c = true ->
  head (matches (Plus (Cls p)) (String c s)) = Some (String c (take_while p s), [], skip_while p s).
Proof.
  intros Hc. unfold Plus. cbn [matches]. rewrite Hc. cbn [flat_map]. change (remaining (String c "", [], s)) with s.
  pose proof (head_star_cls p s) as H. cbn [matches] in H. rewrite app_nil_r.
  destruct (star_loop _ _ s) as [|m l]; [done|]. simpl in *. by injection H as ->.
Qed.

Lemma matches_plus_cls_nil p c s : p c = false -> matches (Plus (Cls p)) (String c s) = [].
Proof. intros Hc. unfold Plus. simpl. by rewrite Hc. Qed.

(** ** Iteration over the runs of a class *)

Fixpoint runs_fuel (fuel : nat) (p : ascii -> bool) (s : string) : list string :=
  match fuel with
  | O => []
  | S fuel =>
      match s with
      | "" => []
      | String c r => if p c then String c (take_while p r) :: runs_fuel fuel p (skip_while p r)
                      else runs_fuel fuel p r
      end
  end.
(** The maximal runs of characters of [p], left to right. *)
Definition runs (p : ascii -> bool) (s : string) : list string := runs_fuel (S (String.length s)) p s.

Lemma regex_iter_runs fuel p s :
  map consumed (regex_iter fuel (Plus (Cls p)) s) = runs_fuel fuel p s.
Proof.
  revert s; induction fuel as [|fuel IH]; intros s; [done|]. cbn [regex_iter runs_fuel].
  destruct s as [|c s]; [done|]. destruct (p c) eqn:Hc.
  - rewrite head_plus_cls by done. cbn. f_equal. apply IH.
  - rewrite matches_plus_cls_nil by done. apply IH.
Qed.

Lemma sregex_iterator_runs p s : map consumed (sregex_iterator (Plus (Cls p)) s) = runs p s.
Proof. apply regex_iter_runs. Qed.

Lemma runs_fuel_forall fuel p s x : In x (runs_fuel fuel p s) -> x <> "" /\ str_forall p x = true.
Proof.
  revert s; induction fuel as [|fuel IH]; intros s; [done|]. cbn [runs_fuel].
  destruct s as [|c s]; [done|]. destruct (p c) eqn:Hc; [|apply IH].
  intros [<-|Hin]; [|by eapply IH]. split; [done|]. simpl. by rewrite Hc, take_while_forall.
Qed.

Lemma runs_forall p s x : In x (runs p s) -> x <> "" /\ str_forall p x = true.
Proof. apply runs_fuel_forall. Qed.
