(* ===== verification/AgentMessages.v ===== *)
(** * Messages of the agent runtime

    include/agamemnon_agents/core/message.hpp with src/core/message.cpp (the messages and
    responses agents exchange, their identifiers and deadlines) and
    src/agents/agent_envelope.cpp with include/agamemnon/agents (the envelope that carries an
    orchestration action through a transport message).

    The runtime reads two clocks, [std::chrono::system_clock] and [std::chrono::steady_clock];
    here the readings of both are in nanoseconds. *)

From S2P Require Import Prelude Effects Text.

(** ** Surroundings *)

Record Ambient := {
  a_env : Env;              (* random draws, and the readings of system_clock *)
  a_steady : nat -> Z;      (* successive readings of steady_clock *)
  a_steady_i : nat;
}.

#[global] Program Instance ambient_has_env : HasEnv Ambient :=
  {| env_of := a_env;
     with_env := fun e a => {| a_env := e; a_steady := a_steady a; a_steady_i := a_steady_i a |} |}.
Solve Obligations with (intros; simpl; by try match goal with a : Ambient |- _ => destruct a end).

(** [std::chrono::system_clock::now()]. *)
Definition system_now {S} `{!HasEnv S} : M S Z := fun s =>
  (with_env (clock_next (env_of s)) s, inr (clock (env_of s) (clock_i (env_of s)))).

(** ** Enumerations *)

Inductive Priority := HIGH | NORMAL | LOW.
Inductive ActionType := DECOMPOSE | EXECUTE | RETURN_RESULT | SHUTDOWN | CANCEL_TASK | TASK_FAILED.
Inductive ContentType := TEXT_PLAIN | BINARY_CISTA.

#[global] Instance Priority_eq_dec : EqDecision Priority.
Proof. solve_decision. Defined.
#[global] Instance ActionType_eq_dec : EqDecision ActionType.
Proof. solve_decision. Defined.
#[global] Instance ContentType_eq_dec : EqDecision ContentType.
Proof. solve_decision. Defined.

Definition priorityToString (p : Priority) : string :=
  match p with HIGH => "HIGH" | NORMAL => "NORMAL" | LOW => "LOW" end.
Definition actionTypeToString (a : ActionType) : string :=
  match a with
  | DECOMPOSE => "DECOMPOSE" | EXECUTE => "EXECUTE" | RETURN_RESULT => "RETURN_RESULT"
  | SHUTDOWN => "SHUTDOWN" | CANCEL_TASK => "CANCEL_TASK" | TASK_FAILED => "TASK_FAILED"
  end.
Definition contentTypeToString (c : ContentType) : string :=
  match c with TEXT_PLAIN => "TEXT_PLAIN" | BINARY_CISTA => "BINARY_CISTA" end.

(** ** Messages *)

Record KeystoneMessage := {
  msg_id : string;
  sender_id : string;
  receiver_id : string;
  action_type : ActionType;
  content_type : ContentType;
  session_id : string;
  metadata : gmap string string;
  priority : Priority;
  deadline : option Z;
  task_id : option string;
  correlation_id : option string;
  command : string;
  payload : option string;
  timestamp : Z;
}.

#[global] Instance KeystoneMessage_eq_dec : EqDecision KeystoneMessage.
Proof. solve_decision. Defined.

(** The assignments [msg.msg_id = ...], [msg.action_type = ...] and
    [msg.deadline = ...] made on a created message. *)
Definition with_msg_id (id : string) (m : KeystoneMessage) : KeystoneMessage :=
  {| msg_id := id; sender_id := sender_id m; receiver_id := receiver_id m;
     action_type := action_type m; content_type := content_type m; session_id := session_id m;
     metadata := metadata m; priority := priority m; deadline := deadline m; task_id := task_id m;
     correlation_id := correlation_id m; command := command m; payload := payload m;
     timestamp := timestamp m |}.
Definition with_action (a : ActionType) (m : KeystoneMessage) : KeystoneMessage :=
  {| msg_id := msg_id m; sender_id := sender_id m; receiver_id := receiver_id m;
     action_type := a; content_type := content_type m; session_id := session_id m;
     metadata := metadata m; priority := priority m; deadline := deadline m; task_id := task_id m;
     correlation_id := correlation_id m; command := command m; payload := payload m;
     timestamp := timestamp m |}.
Definition with_deadline (d : option Z) (m : KeystoneMessage) : KeystoneMessage :=
  {| msg_id := msg_id m; sender_id := sender_id m; receiver_id := receiver_id m;
     action_type := action_type m; content_type := content_type m; session_id := session_id m;
     metadata := metadata m; priority := priority m; deadline := d; task_id := task_id m;
     correlation_id := correlation_id m; command := command m; payload := payload m;
     timestamp := timestamp m |}.

Section create.
Context {S : Type} `{!HasEnv S}.

(** [generate_uuid] of message.cpp: 32 hexadecimal digits, a dash before four of them. *)
Fixpoint msg_uuid_loop (n : nat) (i : Z) : M S string :=
  match n with
  | O => mret ""
  | Datatypes.S n =>
      v ← uniform 0 15;
      rest ← msg_uuid_loop n (i + 1);
      mret ((if ((i =? 8) || (i =? 12) || (i =? 16) || (i =? 20))%Z then "-" else "")
            +:+ String (hex v) rest)
  end.
Definition msg_generate_uuid : M S string := msg_uuid_loop 32 0.

(** [create(sender, receiver, cmd, data)]. *)
Definition msg_create (sender receiver cmd : string) (data : option string) : M S KeystoneMessage :=
  id ← msg_generate_uuid;
  now ← system_now;
  mret {| msg_id := id; sender_id := sender; receiver_id := receiver; action_type := EXECUTE;
          content_type := TEXT_PLAIN; session_id := "default"; metadata := ∅; priority := NORMAL;
          deadline := None; task_id := None; correlation_id := None; command := cmd;
          payload := data; timestamp := now |}.

(** [create(sender, receiver, action, session, data, content)]. *)
Definition msg_create_action (sender receiver : string) (action : ActionType) (session : string)
    (data : option string) (content : ContentType) : M S KeystoneMessage :=
  id ← msg_generate_uuid;
  now ← system_now;
  mret {| msg_id := id; sender_id := sender; receiver_id := receiver; action_type := action;
          content_type := content; session_id := session; metadata := ∅; priority := NORMAL;
          deadline := None; task_id := None; correlation_id := None;
          command := actionTypeToString action; payload := data; timestamp := now |}.

Definition msg_createCancellation (sender receiver task session : string) : M S KeystoneMessage :=
  id ← msg_generate_uuid;
  now ← system_now;
  mret {| msg_id := id; sender_id := sender; receiver_id := receiver; action_type := CANCEL_TASK;
          content_type := TEXT_PLAIN; session_id := session; metadata := ∅; priority := HIGH;
          deadline := None; task_id := Some task; correlation_id := None;
          command := "CANCEL_TASK"; payload := None; timestamp := now |}.

(** Deadlines; a duration in milliseconds is 10^6 times as many nanoseconds. *)
Definition setDeadlineFromNow (duration_ms : Z) (m : KeystoneMessage) : M S KeystoneMessage :=
  now ← system_now; mret (with_deadline (Some (now + duration_ms * 1000000)%Z) m).

Definition hasDeadlinePassed (m : KeystoneMessage) : M S bool :=
  match deadline m with
  | None => mret false
  | Some d => now ← system_now; mret (d <? now)%Z
  end.

Definition getTimeUntilDeadline (m : KeystoneMessage) : M S (option Z) :=
  match deadline m with
  | None => mret None
  | Some d =>
      now ← system_now;
      mret (Some (if (d <? now)%Z then 0 else Z.quot (d - now) 1000000)%Z)
  end.

(** ** Responses *)

Inductive Status := Success | Error.
#[global] Instance Status_eq_dec : EqDecision Status.
Proof. solve_decision. Defined.

Record AgentResponse := {
  rs_msg_id : string;
  rs_sender_id : string;
  rs_receiver_id : string;
  rs_status : Status;
  rs_result : string;
  rs_timestamp : Z;
}.

Definition response_of (st : Status) (original : KeystoneMessage) (sender data : string) : M S AgentResponse :=
  now ← system_now;
  mret {| rs_msg_id := msg_id original; rs_sender_id := sender; rs_receiver_id := sender_id original;
          rs_status := st; rs_result := data; rs_timestamp := now |}.

Definition createSuccess (original : KeystoneMessage) (sender result_data : string) : M S AgentResponse :=
  response_of Success original sender result_data.
Definition createError (original : KeystoneMessage) (sender error_msg : string) : M S AgentResponse :=
  response_of Error original sender error_msg.
End create.

(** ** The envelope *)

Inductive AgentActionType := AA_DECOMPOSE | AA_CANCEL_TASK | AA_TASK_FAILED.
#[global] Instance AgentActionType_eq_dec : EqDecision AgentActionType.
Proof. solve_decision. Defined.
Inductive TransportActionType := T_EXECUTE | T_RETURN_RESULT | T_SHUTDOWN.
Inductive TransportPriority := T_HIGH | T_NORMAL | T_LOW.

Definition agentActionTypeToString (a : AgentActionType) : string :=
  match a with
  | AA_DECOMPOSE => "DECOMPOSE" | AA_CANCEL_TASK => "CANCEL_TASK" | AA_TASK_FAILED => "TASK_FAILED"
  end.

Record TransportMessage := {
  t_sender : string;
  t_receiver : string;
  t_action : TransportActionType;
  t_payload : option string;
  t_priority : TransportPriority;
}.

Definition transport_create (sender receiver : string) (action : TransportActionType)
    (data : option string) : TransportMessage :=
  {| t_sender := sender; t_receiver := receiver; t_action := action; t_payload := data;
     t_priority := T_NORMAL |}.

Record AgentEnvelope := {
  transport_msg : TransportMessage;
  agent_action : option AgentActionType;
  e_session_id : string;
  e_task_id : option string;
  e_metadata : gmap string string;
}.

Definition kCancelPrefix : string := "CANCEL_TASK:".
Definition kFailedPrefix : string := "TASK_FAILED:".
Definition kDecomposePrefix : string := "DECOMPOSE:".

Definition wrap (m : TransportMessage) : AgentEnvelope :=
  let env action tid := {| transport_msg := m; agent_action := action; e_session_id := "default";
                           e_task_id := tid; e_metadata := ∅ |} in
  match t_payload m with
  | None => env None None
  | Some p =>
      if starts_with kCancelPrefix p then
        let tid := str_drop p (String.length kCancelPrefix) in
        env (Some AA_CANCEL_TASK) (if str_empty tid then None else Some tid)
      else if starts_with kFailedPrefix p then env (Some AA_TASK_FAILED) None
      else if starts_with kDecomposePrefix p then env (Some AA_DECOMPOSE) None
      else env None None
  end.

Definition prefix_of (a : AgentActionType) : string :=
  match a with
  | AA_CANCEL_TASK => kCancelPrefix | AA_TASK_FAILED => kFailedPrefix | AA_DECOMPOSE => kDecomposePrefix
  end.

Definition envelope_create (sender receiver : string) (action : AgentActionType) (session : string)
    (data : option string) : AgentEnvelope :=
  {| transport_msg := transport_create sender receiver T_EXECUTE (Some (prefix_of action +:+ default "" data));
     agent_action := Some action; e_session_id := session; e_task_id := None; e_metadata := ∅ |}.

Definition envelope_createCancellation (sender receiver task_id_val session : string) : AgentEnvelope :=
  let t := transport_create sender receiver T_EXECUTE (Some (kCancelPrefix +:+ task_id_val)) in
  {| transport_msg := {| t_sender := t_sender t; t_receiver := t_receiver t; t_action := t_action t;
                         t_payload := t_payload t; t_priority := T_HIGH |};
     agent_action := Some AA_CANCEL_TASK; e_session_id := session; e_task_id := Some task_id_val;
     e_metadata := ∅ |}.

Definition envelope_createFailure (sender receiver error_msg session : string) : AgentEnvelope :=
  {| transport_msg := transport_create sender receiver T_EXECUTE (Some (kFailedPrefix +:+ error_msg));
     agent_action := Some AA_TASK_FAILED; e_session_id := session; e_task_id := None; e_metadata := ∅ |}.

(** ** Round trips *)

Lemma starts_with_app p s : starts_with p (p +:+ s) = true.
Proof. apply str_prefix_app. Qed.

(** What an agent envelope carries survives the transport: decoding the transport message of an
    envelope made with [create], [createCancellation] or [createFailure] gives back the agent
    action and the message; the task id of a cancellation comes back unless it is empty, the data of
    a CANCEL_TASK made with [create] becomes the task id, and the session is always "default". *)
Lemma envelope_roundtrip (sender receiver session : string) (action : AgentActionType) (data : option string)
    (task error : string) :
  let nonempty s := if str_empty s then None else Some s in
  let decoded e tid := {| transport_msg := transport_msg e; agent_action := agent_action e;
                          e_session_id := "default"; e_task_id := tid; e_metadata := ∅ |} in
  let made := envelope_create sender receiver action session data in
  let cancel := envelope_createCancellation sender receiver task session in
  let failure := envelope_createFailure sender receiver error session in
  wrap (transport_msg made)
    = decoded made (if decide (action = AA_CANCEL_TASK) then nonempty (default "" data) else None) /\
  wrap (transport_msg cancel) = decoded cancel (nonempty task) /\
  wrap (transport_msg failure) = decoded failure None.
Proof.
  cbv zeta. unfold wrap, envelope_create, envelope_createCancellation, envelope_createFailure.
  cbn [transport_msg t_payload transport_create]. split_and!.
  - destruct action; cbn [prefix_of].
    + change (starts_with kCancelPrefix (kDecomposePrefix +:+ default "" data)) with false.
      change (starts_with kFailedPrefix (kDecomposePrefix +:+ default "" data)) with false.
      by rewrite starts_with_app.
    + by rewrite starts_with_app, str_drop_app.
    + change (starts_with kCancelPrefix (kFailedPrefix +:+ default "" data)) with false.
      by rewrite starts_with_app.
  - by rewrite starts_with_app, str_drop_app.
  - change (starts_with kCancelPrefix (kFailedPrefix +:+ error)) with false. by rewrite starts_with_app.
Qed.

(** The transport's own action is not looked at. *)
Lemma wrap_ignores_action m a :
  agent_action (wrap {| t_sender := t_sender m; t_receiver := t_receiver m; t_action := a;
                        t_payload := t_payload m; t_priority := t_priority m |}) = agent_action (wrap m).
Proof.
  unfold wrap. simpl. destruct (t_payload m) as [p|]; [|done].
  repeat (match goal with |- context[if ?b then _ else _] => destruct b end; try done).
Qed.
