(* ===== verification/CoreMetrics.v ===== *)
(** * Metrics of the agent runtime

    src/core/metrics.cpp, class [Metrics]: counters, the send times of messages in flight,
    queue depths, worker samples, deadline misses.  The process has one instance.  Clock
    readings (steady_clock, nanoseconds) are arguments.  Atomic counters are unsigned 64-bit
    and wrap.  [double] arithmetic is rational arithmetic followed by a rounding function. *)

From S2P Require Import Prelude Effects AgentMessages.
From Stdlib Require Import QArith.
#[local] Close Scope Q_scope.

Definition METRICS_MAX_TIMESTAMP_ENTRIES : nat := Z.to_nat 10000.
#[global] Arguments METRICS_MAX_TIMESTAMP_ENTRIES : simpl never.
Definition METRICS_TIMESTAMP_EXPIRY_NS : Z := 60 * 1000000000.

(** 64-bit unsigned and signed addition. *)
Definition add64 (a b : Z) : Z := ((a + b) mod 2 ^ 64)%Z.
Definition sadd64 (a b : Z) : Z := ((a + b + 2 ^ 63) mod 2 ^ 64 - 2 ^ 63)%Z.

Record CoreMetrics := {
  messages_sent_ : Z;
  messages_processed_ : Z;
  high_priority_count_ : Z;
  normal_priority_count_ : Z;
  low_priority_count_ : Z;
  message_timestamps_ : gmap string Z;
  total_latency_us_ : Z;
  latency_sample_count_ : Z;
  agent_queue_depths_ : gmap string Z;
  max_queue_depth_ : Z;
  worker_busy_states_ : gmap Z bool;
  total_busy_samples_ : Z;
  total_worker_samples_ : Z;
  deadline_misses_ : Z;
  total_deadline_miss_ms_ : Z;
  in_flight_count_ : Z;
  start_time_ : Z;
}.

(** The constructor, and the state [reset] leaves. *)
Definition metrics_at (now : Z) : CoreMetrics :=
  {| messages_sent_ := 0; messages_processed_ := 0; high_priority_count_ := 0;
     normal_priority_count_ := 0; low_priority_count_ := 0; message_timestamps_ := ∅;
     total_latency_us_ := 0; latency_sample_count_ := 0; agent_queue_depths_ := ∅;
     max_queue_depth_ := 0; worker_busy_states_ := ∅; total_busy_samples_ := 0;
     total_worker_samples_ := 0; deadline_misses_ := 0; total_deadline_miss_ms_ := 0;
     in_flight_count_ := 0; start_time_ := now |}.

(** [std::sort] by send time does not say how it orders equal times: any sort is allowed. *)
Definition sent_before (x y : string * Z) : Prop := (x.2 <= y.2)%Z.
#[global] Instance sent_before_dec : RelDecision sent_before := fun x y => decide (x.2 <= y.2)%Z.
Class TimeSort := { time_sort : list (string * Z) -> list (string * Z) }.
Class TimeSortLaw `{!TimeSort} :=
  { time_sort_perm l : time_sort l ≡ₚ l; time_sort_sorted l : StronglySorted sent_before (time_sort l) }.

Section metrics.
Context `{!TimeSort}.

Definition set_timestamps (ts : gmap string Z) (m : CoreMetrics) : CoreMetrics :=
  {| messages_sent_ := messages_sent_ m; messages_processed_ := messages_processed_ m;
     high_priority_count_ := high_priority_count_ m; normal_priority_count_ := normal_priority_count_ m;
     low_priority_count_ := low_priority_count_ m; message_timestamps_ := ts;
     total_latency_us_ := total_latency_us_ m; latency_sample_count_ := latency_sample_count_ m;
     agent_queue_depths_ := agent_queue_depths_ m; max_queue_depth_ := max_queue_depth_ m;
     worker_busy_states_ := worker_busy_states_ m; total_busy_samples_ := total_busy_samples_ m;
     total_worker_samples_ := total_worker_samples_ m; deadline_misses_ := deadline_misses_ m;
     total_deadline_miss_ms_ := total_deadline_miss_ms_ m; in_flight_count_ := in_flight_count_ m;
     start_time_ := start_time_ m |}.

(** [cleanupOldTimestamps]: entries older than the expiry are erased. *)
Definition cleanupOldTimestamps (now : Z) (ts : gmap string Z) : gmap string Z :=
  filter (fun kv => (now - kv.2 <= METRICS_TIMESTAMP_EXPIRY_NS)%Z) ts.

(** [for (i = 0; i < n && i < v.size(); ++i) erase(v[i].first)]. *)
Definition erase_oldest (n : nat) (ts : gmap string Z) : gmap string Z :=
  foldl (fun ts kv => delete kv.1 ts) ts (take n (time_sort (map_to_list ts))).

(** The block under [timestamps_mutex_] of [recordMessageSent]. *)
Definition stamp_message (msg_id : string) (now cleanup_now : Z) (ts : gmap string Z) : gmap string Z :=
  let ts := <[msg_id := now]> ts in
  if bool_decide (METRICS_MAX_TIMESTAMP_ENTRIES < size ts) then
    let ts := cleanupOldTimestamps cleanup_now ts in
    if bool_decide (METRICS_MAX_TIMESTAMP_ENTRIES < size ts)
    then erase_oldest (size ts - METRICS_MAX_TIMESTAMP_ENTRIES) ts
    else ts
  else ts.

Definition recordMessageSent (msg_id : string) (priority : Priority) (now cleanup_now : Z)
    (m : CoreMetrics) : CoreMetrics :=
  {| messages_sent_ := add64 (messages_sent_ m) 1; messages_processed_ := messages_processed_ m;
     high_priority_count_ :=
       if decide (priority = HIGH) then add64 (high_priority_count_ m) 1 else high_priority_count_ m;
     normal_priority_count_ :=
       if decide (priority = NORMAL) then add64 (normal_priority_count_ m) 1 else normal_priority_count_ m;
     low_priority_count_ :=
       if decide (priority = LOW) then add64 (low_priority_count_ m) 1 else low_priority_count_ m;
     message_timestamps_ := stamp_message msg_id now cleanup_now (message_timestamps_ m);
     total_latency_us_ := total_latency_us_ m; latency_sample_count_ := latency_sample_count_ m;
     agent_queue_depths_ := agent_queue_depths_ m; max_queue_depth_ := max_queue_depth_ m;
     worker_busy_states_ := worker_busy_states_ m; total_busy_samples_ := total_busy_samples_ m;
     total_worker_samples_ := total_worker_samples_ m; deadline_misses_ := deadline_misses_ m;
     total_deadline_miss_ms_ := total_deadline_miss_ms_ m; in_flight_count_ := in_flight_count_ m;
     start_time_ := start_time_ m |}.

(** The latency is in microseconds, truncated. *)
Definition recordMessageProcessed (msg_id : string) (now : Z) (m : CoreMetrics) : CoreMetrics :=
  let sent := message_timestamps_ m !! msg_id in
  {| messages_sent_ := messages_sent_ m; messages_processed_ := add64 (messages_processed_ m) 1;
     high_priority_count_ := high_priority_count_ m; normal_priority_count_ := normal_priority_count_ m;
     low_priority_count_ := low_priority_count_ m;
     message_timestamps_ := delete msg_id (message_timestamps_ m);
     total_latency_us_ :=
       match sent with
       | Some t => add64 (total_latency_us_ m) (Z.quot (now - t) 1000)
       | None => total_latency_us_ m
       end;
     latency_sample_count_ :=
       match sent with Some _ => add64 (latency_sample_count_ m) 1 | None => latency_sample_count_ m end;
     agent_queue_depths_ := agent_queue_depths_ m; max_queue_depth_ := max_queue_depth_ m;
     worker_busy_states_ := worker_busy_states_ m; total_busy_samples_ := total_busy_samples_ m;
     total_worker_samples_ := total_worker_samples_ m; deadline_misses_ := deadline_misses_ m;
     total_deadline_miss_ms_ := total_deadline_miss_ms_ m; in_flight_count_ := in_flight_count_ m;
     start_time_ := start_time_ m |}.

(** The compare-and-exchange loop leaves the larger of the two depths. *)
Definition recordQueueDepth (agent_id : string) (depth : Z) (m : CoreMetrics) : CoreMetrics :=
  {| messages_sent_ := messages_sent_ m; messages_processed_ := messages_processed_ m;
     high_priority_count_ := high_priority_count_ m; normal_priority_count_ := normal_priority_count_ m;
     low_priority_count_ := low_priority_count_ m; message_timestamps_ := message_timestamps_ m;
     total_latency_us_ := total_latency_us_ m; latency_sample_count_ := latency_sample_count_ m;
     agent_queue_depths_ := <[agent_id := depth]> (agent_queue_depths_ m);
     max_queue_depth_ := if (max_queue_depth_ m <? depth)%Z then depth else max_queue_depth_ m;
     worker_busy_states_ := worker_busy_states_ m; total_busy_samples_ := total_busy_samples_ m;
     total_worker_samples_ := total_worker_samples_ m; deadline_misses_ := deadline_misses_ m;
     total_deadline_miss_ms_ := total_deadline_miss_ms_ m; in_flight_count_ := in_flight_count_ m;
     start_time_ := start_time_ m |}.

Definition recordWorkerActivity (worker_id : Z) (is_busy : bool) (m : CoreMetrics) : CoreMetrics :=
  {| messages_sent_ := messages_sent_ m; messages_processed_ := messages_processed_ m;
     high_priority_count_ := high_priority_count_ m; normal_priority_count_ := normal_priority_count_ m;
     low_priority_count_ := low_priority_count_ m; message_timestamps_ := message_timestamps_ m;
     total_latency_us_ := total_latency_us_ m; latency_sample_count_ := latency_sample_count_ m;
     agent_queue_depths_ := agent_queue_depths_ m; max_queue_depth_ := max_queue_depth_ m;
     worker_busy_states_ := <[worker_id := is_busy]> (worker_busy_states_ m);
     total_busy_samples_ := if is_busy then add64 (total_busy_samples_ m) 1 else total_busy_samples_ m;
     total_worker_samples_ := add64 (total_worker_samples_ m) 1; deadline_misses_ := deadline_misses_ m;
     total_deadline_miss_ms_ := total_deadline_miss_ms_ m; in_flight_count_ := in_flight_count_ m;
     start_time_ := start_time_ m |}.

Definition setInFlightCount (count : Z) (m : CoreMetrics) : CoreMetrics :=
  {| messages_sent_ := messages_sent_ m; messages_processed_ := messages_processed_ m;
     high_priority_count_ := high_priority_count_ m; normal_priority_count_ := normal_priority_count_ m;
     low_priority_count_ := low_priority_count_ m; message_timestamps_ := message_timestamps_ m;
     total_latency_us_ := total_latency_us_ m; latency_sample_count_ := latency_sample_count_ m;
     agent_queue_depths_ := agent_queue_depths_ m; max_queue_depth_ := max_queue_depth_ m;
     worker_busy_states_ := worker_busy_states_ m; total_busy_samples_ := total_busy_samples_ m;
     total_worker_samples_ := total_worker_samples_ m; deadline_misses_ := deadline_misses_ m;
     total_deadline_miss_ms_ := total_deadline_miss_ms_ m; in_flight_count_ := count;
     start_time_ := start_time_ m |}.

Definition recordDeadlineMiss (late_by_ms : Z) (m : CoreMetrics) : CoreMetrics :=
  {| messages_sent_ := messages_sent_ m; messages_processed_ := messages_processed_ m;
     high_priority_count_ := high_priority_count_ m; normal_priority_count_ := normal_priority_count_ m;
     low_priority_count_ := low_priority_count_ m; message_timestamps_ := message_timestamps_ m;
     total_latency_us_ := total_latency_us_ m; latency_sample_count_ := latency_sample_count_ m;
     agent_queue_depths_ := agent_queue_depths_ m; max_queue_depth_ := max_queue_depth_ m;
     worker_busy_states_ := worker_busy_states_ m; total_busy_samples_ := total_busy_samples_ m;
     total_worker_samples_ := total_worker_samples_ m;
     deadline_misses_ := add64 (deadline_misses_ m) 1;
     total_deadline_miss_ms_ := sadd64 (total_deadline_miss_ms_ m) late_by_ms;
     in_flight_count_ := in_flight_count_ m; start_time_ := start_time_ m |}.

Definition metrics_reset (now : Z) (m : CoreMetrics) : CoreMetrics := metrics_at now.
End metrics.

(** ** Derived figures *)

Section figures.
Context (rnd : Q -> Q).     (* the nearest double *)

(** [static_cast<double>(n)], and division and product of doubles. *)
Definition to_double (n : Z) : Q := rnd (inject_Z n).
Definition fdiv (a b : Q) : Q := rnd (a / b).
Definition fmul (a b : Q) : Q := rnd (a * b).

Definition getAverageLatencyUs (m : CoreMetrics) : option Q :=
  if (latency_sample_count_ m =? 0)%Z then None
  else Some (fdiv (to_double (total_latency_us_ m)) (to_double (latency_sample_count_ m))).

(** Elapsed time below a millisecond gives zero. *)
Definition getMessagesPerSecond (now : Z) (m : CoreMetrics) : Q :=
  let elapsed_s := fdiv (to_double (now - start_time_ m)) (inject_Z 1000000000) in
  if Qlt_le_dec elapsed_s (rnd (1 # 1000)) then inject_Z 0
  else fdiv (to_double (messages_processed_ m)) elapsed_s.

Definition getWorkerUtilization (m : CoreMetrics) : Q :=
  if (total_worker_samples_ m =? 0)%Z then inject_Z 0
  else fmul (fdiv (to_double (total_busy_samples_ m)) (to_double (total_worker_samples_ m))) (inject_Z 100).

Definition getAverageDeadlineMissMs (m : CoreMetrics) : option Q :=
  if (deadline_misses_ m =? 0)%Z then None
  else Some (fdiv (to_double (total_deadline_miss_ms_ m)) (to_double (deadline_misses_ m))).
End figures.

Definition getPriorityStats (m : CoreMetrics) : Z * Z * Z :=
  (high_priority_count_ m, normal_priority_count_ m, low_priority_count_ m).

(** ** Lemmas: the send times *)

Section timestamps.
Context `{!TimeSort, !TimeSortLaw}.
Implicit Types ts : gmap string Z.

Lemma foldl_delete_lookup (l : list (string * Z)) ts k :
  foldl (fun ts kv => delete kv.1 ts) ts l !! k = if decide (k ∈ l.*1) then None else ts !! k.
Proof.
  revert ts; induction l as [|[k1 v1] l IH]; intros ts.
  { rewrite decide_False; [done|]. apply not_elem_of_nil. }
  cbn [foldl fmap list_fmap fst]. rewrite IH. destruct (decide (k ∈ l.*1)) as [Hin|Hin].
  { rewrite decide_True; [done|]. by right. }
  destruct (decide (k = k1)) as [->|Hne].
  - rewrite lookup_delete_eq, decide_True; [done|]. by left.
  - rewrite lookup_delete_ne by done. rewrite decide_False; [done|].
    rewrite elem_of_cons. by intros [|].
Qed.

Lemma foldl_delete_size (l : list (string * Z)) ts :
  NoDup l.*1 -> (forall kv, kv ∈ l -> ts !! kv.1 = Some kv.2) ->
  size (foldl (fun ts kv => delete kv.1 ts) ts l) = size ts - length l.
Proof.
  revert ts; induction l as [|[k v] l IH]; intros ts Hnd Hl; simpl; [lia|].
  apply NoDup_cons in Hnd as [Hk Hnd].
  assert (Hts : ts !! k = Some v) by (apply (Hl (k, v)); left).
  rewrite IH; [rewrite (map_size_delete_Some k ts) by eauto; lia|done|].
  intros [k' v'] Hin. simpl. rewrite lookup_delete_ne; [apply (Hl (k', v')); by right|].
  intros <-. apply Hk. apply list_elem_of_fmap. by exists (k, v').
Qed.

Lemma time_sort_keys ts : NoDup (time_sort (map_to_list ts)).*1.
Proof. rewrite time_sort_perm. apply NoDup_fst_map_to_list. Qed.

Lemma elem_of_time_sort ts k t : (k, t) ∈ time_sort (map_to_list ts) <-> ts !! k = Some t.
Proof. by rewrite time_sort_perm, elem_of_map_to_list. Qed.

Lemma erase_oldest_size n ts : size (erase_oldest n ts) = size ts - n.
Proof.
  unfold erase_oldest. rewrite foldl_delete_size.
  - rewrite length_take, time_sort_perm, length_map_to_list. lia.
  - eapply sublist_NoDup; [apply (time_sort_keys ts)|]. apply fmap_sublist, sublist_take.
  - intros [k t] Hin. simpl. apply elem_of_time_sort. by eapply subseteq_take.
Qed.

(** What was erased is at least as old as what is kept. *)
Lemma erase_oldest_order n ts k t k' t' :
  ts !! k = Some t -> erase_oldest n ts !! k = None -> erase_oldest n ts !! k' = Some t' -> (t <= t')%Z.
Proof.
  unfold erase_oldest. rewrite !foldl_delete_lookup. intros Hk He Hk'.
  destruct (decide (k ∈ _)) as [Hin|]; [|congruence].
  destruct (decide (k' ∈ _)) as [|Hout]; [done|].
  apply list_elem_of_fmap in Hin as ([k0 t0] & Hk0 & Hin). simpl in Hk0. subst k0.
  pose proof (time_sort_sorted (map_to_list ts)) as Hs.
  apply elem_of_time_sort in Hk' as Hin'.
  rewrite <- (take_drop n (time_sort (map_to_list ts))) in Hs, Hin'.
  apply elem_of_app in Hin' as [Hin'|Hin'].
  { destruct Hout. apply list_elem_of_fmap. by exists (k', t'). }
  assert (ts !! k = Some t0) as Ht0.
  { apply elem_of_time_sort. by eapply subseteq_take. }
  simplify_eq. apply StronglySorted_app in Hs as (Hs & _ & _). by apply (Hs (k, t) (k', t')).
Qed.

Lemma stamp_message_size id now now' ts :
  size ts <= METRICS_MAX_TIMESTAMP_ENTRIES ->
  size (stamp_message id now now' ts) <= METRICS_MAX_TIMESTAMP_ENTRIES.
Proof.
  intros Hsz. unfold stamp_message. case_bool_decide; [|lia]. case_bool_decide; [|lia].
  rewrite erase_oldest_size. lia.
Qed.
End timestamps.

(** ** Runs of the metrics *)

Inductive MetricsOp :=
| OSent (msg_id : string) (p : Priority) (now now' : Z)
| OProcessed (msg_id : string) (now : Z)
| ODepth (agent_id : string) (depth : Z)
| OWorker (worker_id : Z) (is_busy : bool)
| OInFlight (count : Z)
| OMiss (late_by_ms : Z)
| OReset (now : Z).

Definition metrics_step `{!TimeSort} (o : MetricsOp) (m : CoreMetrics) : CoreMetrics :=
  match o with
  | OSent id p now now' => recordMessageSent id p now now' m
  | OProcessed id now => recordMessageProcessed id now m
  | ODepth id d => recordQueueDepth id d m
  | OWorker w b => recordWorkerActivity w b m
  | OInFlight c => setInFlightCount c m
  | OMiss ms => recordDeadlineMiss ms m
  | OReset now => metrics_reset now m
  end.

(** What holds of the metrics after [k] operations. *)
Record metrics_ok (k : Z) (m : CoreMetrics) : Prop := {
  ok_stamps : size (message_timestamps_ m) <= METRICS_MAX_TIMESTAMP_ENTRIES;
  ok_depths : forall a d, agent_queue_depths_ m !! a = Some d -> (d <= max_queue_depth_ m)%Z;
  ok_sent : messages_sent_ m
    = ((high_priority_count_ m + normal_priority_count_ m + low_priority_count_ m) mod 2 ^ 64)%Z;
  ok_busy : (0 <= total_busy_samples_ m <= total_worker_samples_ m)%Z;
  ok_samples : (total_worker_samples_ m <= k)%Z;
}.

Lemma mod64_one (x r : Z) : (((x + 1) mod 2 ^ 64 + r) mod 2 ^ 64 = (x + r + 1) mod 2 ^ 64)%Z.
Proof. rewrite Zplus_mod_idemp_l. f_equal. lia. Qed.

Lemma metrics_step_ok `{!TimeSort, !TimeSortLaw} o k m :
  (0 <= k < 2 ^ 64 - 1)%Z -> metrics_ok k m -> metrics_ok (k + 1) (metrics_step o m).
Proof.
  intros Hk [H1 H2 H3 H4 H5]. destruct o as [id p now now'|id now|a d|w b|c|ms|now].
  - split; cbn -[Z.pow]; [by apply stamp_message_size|done| |done|lia]. rewrite H3. unfold add64.
    rewrite Zplus_mod_idemp_l. set (h := high_priority_count_ m) in *.
    set (n := normal_priority_count_ m) in *. set (l := low_priority_count_ m) in *.
    destruct p; rewrite (decide_True _ _ eq_refl), !decide_False by done.
    + rewrite <- (Z.add_assoc ((h + 1) mod 2 ^ 64)%Z), mod64_one.
      by replace (h + (n + l) + 1)%Z with (h + n + l + 1)%Z by lia.
    + rewrite (Z.add_comm h ((n + 1) mod 2 ^ 64)%Z), <- (Z.add_assoc ((n + 1) mod 2 ^ 64)%Z), mod64_one.
      by replace (n + (h + l) + 1)%Z with (h + n + l + 1)%Z by lia.
    + rewrite (Z.add_comm (h + n) ((l + 1) mod 2 ^ 64)%Z), mod64_one.
      by replace (l + (h + n) + 1)%Z with (h + n + l + 1)%Z by lia.
  - split; simpl; [|done|done|done|lia].
    rewrite map_size_delete. case_match; [|done]. by etransitivity; [apply Nat.le_pred_l|].
  - split; simpl; [done| |done|done|lia]. intros a' d'.
    destruct (decide (a = a')) as [->|Hne].
    + rewrite lookup_insert_eq. intros [= ->]. destruct (_ <? _)%Z eqn:E; lia.
    + rewrite lookup_insert_ne by done. intros Hd%H2. destruct (_ <? _)%Z eqn:E; lia.
  - split; simpl; [done|done|done| |]; unfold add64; rewrite (Z.mod_small (total_worker_samples_ m + 1)) by lia;
      [|lia]. destruct b; [rewrite Z.mod_small by lia|]; lia.
  - split; simpl; try done; lia.
  - split; simpl; try done; lia.
  - split; simpl; try done; try lia; unfold METRICS_MAX_TIMESTAMP_ENTRIES; rewrite ?map_size_empty; lia.
Qed.

Lemma metrics_run_ok `{!TimeSort, !TimeSortLaw} ops k m :
  (0 <= k)%Z -> (k + Z.of_nat (length ops) < 2 ^ 64 - 1)%Z -> metrics_ok k m ->
  metrics_ok (k + Z.of_nat (length ops)) (foldl (fun m o => metrics_step o m) m ops).
Proof.
  revert k m; induction ops as [|o ops IH]; intros k m Hk Hlen Hm; simpl.
  { by rewrite Z.add_0_r. }
  replace (k + Z.of_nat (S (length ops)))%Z with (k + 1 + Z.of_nat (length ops))%Z by lia.
  cbn [length] in Hlen. apply IH; [lia|lia|]. apply metrics_step_ok; [lia|done].
Qed.

(** After any sequence of fewer than 2^64 operations on the runtime's metrics, at most
    10,000 send times are held, no recorded queue depth exceeds the maximum depth, the messages
    sent are those of the three priorities together (modulo 2^64), and the busy samples do not
    exceed the samples, so the utilization is at most one hundred per cent. *)
Lemma metrics_bounded `{!TimeSort, !TimeSortLaw} (now : Z) (ops : list MetricsOp) :
  (Z.of_nat (length ops) < 2 ^ 64 - 1)%Z ->
  metrics_ok (Z.of_nat (length ops)) (foldl (fun m o => metrics_step o m) (metrics_at now) ops).
Proof.
  intros Hlen. apply (metrics_run_ok ops 0); [done|done|].
  split; simpl; try done; unfold METRICS_MAX_TIMESTAMP_ENTRIES; rewrite ?map_size_empty; lia.
Qed.

(** One admissible sort. *)
Definition merge_time_sort : TimeSort := {| time_sort := merge_sort sent_before |}.
#[global] Instance sent_before_trans : Transitive sent_before.
Proof. intros x y z. unfold sent_before. lia. Qed.
#[global] Instance sent_before_total : Total sent_before.
Proof. intros x y. unfold sent_before. lia. Qed.
Definition merge_time_sort_law : @TimeSortLaw merge_time_sort :=
  @Build_TimeSortLaw merge_time_sort (merge_sort_Permutation sent_before)
    (StronglySorted_merge_sort sent_before).

Lemma metrics_bounded_witness :
  metrics_ok 3 (foldl (fun m o => @metrics_step merge_time_sort o m) (metrics_at 0)
    [OSent "m1" HIGH 10 10; OWorker 1 true; OProcessed "m1" 2500010]).
Proof.
  apply (@metrics_bounded merge_time_sort merge_time_sort_law 0
           [OSent "m1" HIGH 10 10; OWorker 1 true; OProcessed "m1" 2500010]).
  reflexivity.
Defined.
