(* ===== verification/AgentCore.v ===== *)
(** * The agent core: inboxes, backpressure, fairness, cancellation

    src/agents/agent_core.cpp, class [AgentCore].  An agent has three inboxes, one per
    priority.  The lock-free queue is third-party code (moodycamel::ConcurrentQueue): it is a
    parameter with its documented behaviour, a bag of elements from which a dequeue takes one;
    the order among elements of different producers is not specified.  The theorems hold for
    every such queue.  Routing ([sendMessage]) is modelled with the agents that send, in
    [Runtime]. *)

From S2P Require Import Prelude Effects AgentMessages.

(** ** The queue *)

Class ConcurrentQueue (A : Type) := {
  cq : Type;
  cq_new : cq;
  enqueue : A -> cq -> cq;
  try_dequeue : cq -> option (A * cq);
  size_approx : cq -> nat;
}.
Arguments cq A {_}.

(** The documented behaviour that holds whatever other threads do meanwhile: a queue starts
    empty, an element put in is in it, and a dequeue that succeeds takes out one that is. *)
Class ConcurrentQueueLaws (A : Type) `{!ConcurrentQueue A} := {
  contents : cq A -> list A;
  contents_new : contents cq_new = [];
  contents_enqueue x q : contents (enqueue x q) ≡ₚ x :: contents q;
  contents_dequeue q x q' : try_dequeue q = Some (x, q') -> contents q ≡ₚ x :: contents q';
}.

(** What is documented for a queue on which no other operation is in flight: a failed dequeue
    means that it is empty, and the approximate size is the size. *)
Class QuiescentQueueLaws (A : Type) `{!ConcurrentQueue A, !ConcurrentQueueLaws A} : Prop := {
  contents_dequeue_none q : try_dequeue q = None -> contents q = [];
  size_approx_contents q : size_approx q = length (contents q);
}.

(** A first-in first-out queue is one of them. *)
Definition fifo (A : Type) : ConcurrentQueue A :=
  {| cq := list A; cq_new := []; enqueue := fun x q => q ++ [x];
     try_dequeue := fun q => match q with [] => None | x :: q => Some (x, q) end;
     size_approx := length |}.
#[global] Program Definition fifo_laws (A : Type) : @ConcurrentQueueLaws A (fifo A) :=
  @Build_ConcurrentQueueLaws A (fifo A) (fun q => q) _ _ _.
Next Obligation. done. Qed.
Next Obligation. intros A x q. simpl. by rewrite Permutation_app_comm. Qed.
Next Obligation. intros A [|y q] x q'; simpl; [done|]. by intros [= -> ->]. Qed.
#[global] Instance fifo_quiescent (A : Type) : @QuiescentQueueLaws A (fifo A) (fifo_laws A).
Proof. split; [by intros [|x q]|done]. Qed.

(** ** The agent core *)

Definition AGENT_MAX_QUEUE_SIZE : nat := Z.to_nat 10000.
#[global] Arguments AGENT_MAX_QUEUE_SIZE : simpl never.
(** [static_cast<size_t>(AGENT_MAX_QUEUE_SIZE * 0.8)]. *)
Definition low_watermark : nat := Z.to_nat 8000.
#[global] Arguments low_watermark : simpl never.
(** 100 milliseconds. *)
Definition AGENT_LOW_PRIORITY_CHECK_INTERVAL_NS : Z := 100 * 1000000.

Section core.
Context `{CQ : !ConcurrentQueue KeystoneMessage}.

Record AgentCore := {
  agent_id_ : string;
  message_bus_ : bool;                          (* message_bus_ != nullptr *)
  scheduler_ : bool;                            (* scheduler_ != nullptr *)
  high_priority_inbox_ : cq KeystoneMessage;
  normal_priority_inbox_ : cq KeystoneMessage;
  low_priority_inbox_ : cq KeystoneMessage;
  last_low_priority_check_ns_ : Z;
  low_priority_check_interval_ns_ : Z;
  backpressure_applied_ : bool;
  cancelled_tasks_ : gset string;
}.

Definition new_core (agent_id : string) : AgentCore :=
  {| agent_id_ := agent_id; message_bus_ := false; scheduler_ := false;
     high_priority_inbox_ := cq_new; normal_priority_inbox_ := cq_new; low_priority_inbox_ := cq_new;
     last_low_priority_check_ns_ := 0;
     low_priority_check_interval_ns_ := AGENT_LOW_PRIORITY_CHECK_INTERVAL_NS;
     backpressure_applied_ := false; cancelled_tasks_ := ∅ |}.

Definition set_inboxes (h n l : cq KeystoneMessage) (c : AgentCore) : AgentCore :=
  {| agent_id_ := agent_id_ c; message_bus_ := message_bus_ c; scheduler_ := scheduler_ c;
     high_priority_inbox_ := h; normal_priority_inbox_ := n; low_priority_inbox_ := l;
     last_low_priority_check_ns_ := last_low_priority_check_ns_ c;
     low_priority_check_interval_ns_ := low_priority_check_interval_ns_ c;
     backpressure_applied_ := backpressure_applied_ c; cancelled_tasks_ := cancelled_tasks_ c |}.
Definition set_last_check (t : Z) (c : AgentCore) : AgentCore :=
  {| agent_id_ := agent_id_ c; message_bus_ := message_bus_ c; scheduler_ := scheduler_ c;
     high_priority_inbox_ := high_priority_inbox_ c; normal_priority_inbox_ := normal_priority_inbox_ c;
     low_priority_inbox_ := low_priority_inbox_ c; last_low_priority_check_ns_ := t;
     low_priority_check_interval_ns_ := low_priority_check_interval_ns_ c;
     backpressure_applied_ := backpressure_applied_ c; cancelled_tasks_ := cancelled_tasks_ c |}.
Definition set_backpressure (b : bool) (c : AgentCore) : AgentCore :=
  {| agent_id_ := agent_id_ c; message_bus_ := message_bus_ c; scheduler_ := scheduler_ c;
     high_priority_inbox_ := high_priority_inbox_ c; normal_priority_inbox_ := normal_priority_inbox_ c;
     low_priority_inbox_ := low_priority_inbox_ c;
     last_low_priority_check_ns_ := last_low_priority_check_ns_ c;
     low_priority_check_interval_ns_ := low_priority_check_interval_ns_ c;
     backpressure_applied_ := b; cancelled_tasks_ := cancelled_tasks_ c |}.
Definition set_cancelled (s : gset string) (c : AgentCore) : AgentCore :=
  {| agent_id_ := agent_id_ c; message_bus_ := message_bus_ c; scheduler_ := scheduler_ c;
     high_priority_inbox_ := high_priority_inbox_ c; normal_priority_inbox_ := normal_priority_inbox_ c;
     low_priority_inbox_ := low_priority_inbox_ c;
     last_low_priority_check_ns_ := last_low_priority_check_ns_ c;
     low_priority_check_interval_ns_ := low_priority_check_interval_ns_ c;
     backpressure_applied_ := backpressure_applied_ c; cancelled_tasks_ := s |}.
Definition set_bus (b : bool) (c : AgentCore) : AgentCore :=
  {| agent_id_ := agent_id_ c; message_bus_ := b; scheduler_ := scheduler_ c;
     high_priority_inbox_ := high_priority_inbox_ c; normal_priority_inbox_ := normal_priority_inbox_ c;
     low_priority_inbox_ := low_priority_inbox_ c;
     last_low_priority_check_ns_ := last_low_priority_check_ns_ c;
     low_priority_check_interval_ns_ := low_priority_check_interval_ns_ c;
     backpressure_applied_ := backpressure_applied_ c; cancelled_tasks_ := cancelled_tasks_ c |}.
Definition setScheduler (b : bool) (c : AgentCore) : AgentCore :=
  {| agent_id_ := agent_id_ c; message_bus_ := message_bus_ c; scheduler_ := b;
     high_priority_inbox_ := high_priority_inbox_ c; normal_priority_inbox_ := normal_priority_inbox_ c;
     low_priority_inbox_ := low_priority_inbox_ c;
     last_low_priority_check_ns_ := last_low_priority_check_ns_ c;
     low_priority_check_interval_ns_ := low_priority_check_interval_ns_ c;
     backpressure_applied_ := backpressure_applied_ c; cancelled_tasks_ := cancelled_tasks_ c |}.

(** The interval is given in milliseconds. *)
Definition setLowPriorityCheckInterval (ms : Z) (c : AgentCore) : AgentCore :=
  {| agent_id_ := agent_id_ c; message_bus_ := message_bus_ c; scheduler_ := scheduler_ c;
     high_priority_inbox_ := high_priority_inbox_ c; normal_priority_inbox_ := normal_priority_inbox_ c;
     low_priority_inbox_ := low_priority_inbox_ c;
     last_low_priority_check_ns_ := last_low_priority_check_ns_ c;
     low_priority_check_interval_ns_ := ms * 1000000;
     backpressure_applied_ := backpressure_applied_ c; cancelled_tasks_ := cancelled_tasks_ c |}.
Definition getLowPriorityCheckInterval (c : AgentCore) : Z :=
  Z.quot (low_priority_check_interval_ns_ c) 1000000.

(** The sum of the three [size_approx()]. *)
Definition total_depth (c : AgentCore) : nat :=
  size_approx (high_priority_inbox_ c) + size_approx (normal_priority_inbox_ c)
  + size_approx (low_priority_inbox_ c).

Definition enqueue_by_priority (m : KeystoneMessage) (c : AgentCore) : AgentCore :=
  match priority m with
  | HIGH => set_inboxes (enqueue m (high_priority_inbox_ c)) (normal_priority_inbox_ c)
              (low_priority_inbox_ c) c
  | NORMAL => set_inboxes (high_priority_inbox_ c) (enqueue m (normal_priority_inbox_ c))
                (low_priority_inbox_ c) c
  | LOW => set_inboxes (high_priority_inbox_ c) (normal_priority_inbox_ c)
             (enqueue m (low_priority_inbox_ c)) c
  end.

(** [AgentCore::receiveMessage]. *)
Definition core_receiveMessage (m : KeystoneMessage) (c : AgentCore) : AgentCore :=
  if bool_decide (AGENT_MAX_QUEUE_SIZE <= total_depth c) then
    if backpressure_applied_ c then c else set_backpressure true c
  else
    let c := if bool_decide (total_depth c < low_watermark) && backpressure_applied_ c
             then set_backpressure false c else c in
    enqueue_by_priority m c.

(** [AgentCore::getMessage] at a reading of the steady clock.  The depth of the inboxes is
    reported to the metrics when a message is returned. *)
Definition core_getMessage (now_ns : Z) (c : AgentCore) : AgentCore * option KeystoneMessage :=
  let last_check_ns := last_low_priority_check_ns_ c in
  let interval_ns := low_priority_check_interval_ns_ c in
  match try_dequeue (high_priority_inbox_ c) with
  | Some (m, h) =>
      let c1 := set_last_check now_ns (set_inboxes h (normal_priority_inbox_ c) (low_priority_inbox_ c) c) in
      if (negb (last_check_ns =? 0) && (interval_ns <=? now_ns - last_check_ns))%Z then
        match try_dequeue (normal_priority_inbox_ c) with
        | Some (f, n) => (set_last_check now_ns (set_inboxes (enqueue m h) n (low_priority_inbox_ c) c), Some f)
        | None =>
            match try_dequeue (low_priority_inbox_ c) with
            | Some (f, l) =>
                (set_last_check now_ns (set_inboxes (enqueue m h) (normal_priority_inbox_ c) l c), Some f)
            | None => (c1, Some m)
            end
        end
      else (c1, Some m)
  | None =>
      match try_dequeue (normal_priority_inbox_ c) with
      | Some (m, n) =>
          (set_last_check now_ns (set_inboxes (high_priority_inbox_ c) n (low_priority_inbox_ c) c), Some m)
      | None =>
          match try_dequeue (low_priority_inbox_ c) with
          | Some (m, l) =>
              (set_last_check now_ns (set_inboxes (high_priority_inbox_ c) (normal_priority_inbox_ c) l c),
               Some m)
          | None => (c, None)
          end
      end
  end.

(** [setMessageBus], given whether the pointer is null. *)
Definition core_setMessageBus (null : bool) (c : AgentCore) : result AgentCore :=
  if null then inl (invalid_argument ("setMessageBus received nullptr for agent: " +:+ agent_id_ c))
  else inr (set_bus true c).

Definition requestCancellation (task_id : string) (c : AgentCore) : AgentCore :=
  set_cancelled ({[task_id]} ∪ cancelled_tasks_ c) c.
Definition isCancelled (task_id : string) (c : AgentCore) : bool :=
  bool_decide (task_id ∈ cancelled_tasks_ c).
Definition clearCancellation (task_id : string) (c : AgentCore) : AgentCore :=
  set_cancelled (cancelled_tasks_ c ∖ {[task_id]}) c.
End core.

(** ** What the inboxes hold *)

Section inbox.
Context `{CQ : !ConcurrentQueue KeystoneMessage, CL : !ConcurrentQueueLaws KeystoneMessage}.
Context {QL : QuiescentQueueLaws KeystoneMessage}.
Implicit Types c : AgentCore.

Definition pending (c : AgentCore) : list KeystoneMessage :=
  contents (high_priority_inbox_ c) ++ contents (normal_priority_inbox_ c)
  ++ contents (low_priority_inbox_ c).

Lemma total_depth_pending c : total_depth c = length (pending c).
Proof. unfold total_depth, pending. rewrite !size_approx_contents, !length_app. lia. Qed.

Lemma pending_enqueue m c : pending (enqueue_by_priority m c) ≡ₚ m :: pending c.
Proof.
  unfold pending, enqueue_by_priority. destruct (priority m); simpl; rewrite contents_enqueue; [done| |];
    rewrite ?app_assoc; by rewrite <- Permutation_middle.
Qed.

(** A message is taken in, or dropped when 10,000 are waiting. *)
Lemma pending_receive m c :
  pending (core_receiveMessage m c) ≡ₚ
  if bool_decide (AGENT_MAX_QUEUE_SIZE <= length (pending c)) then pending c else m :: pending c.
Proof.
  unfold core_receiveMessage. rewrite total_depth_pending. case_bool_decide.
  - by destruct (backpressure_applied_ c).
  - cbv zeta. rewrite pending_enqueue. destruct (_ && _); done.
Qed.

(** A message taken out was waiting, and the others still are. *)
Lemma pending_get now c :
  match core_getMessage now c with
  | (c', Some m) => pending c ≡ₚ m :: pending c'
  | (c', None) => c' = c /\ pending c = []
  end.
Proof.
  unfold core_getMessage. destruct (try_dequeue (high_priority_inbox_ c)) as [[m h]|] eqn:Eh.
  - apply contents_dequeue in Eh.
    assert (Hkeep : pending c ≡ₚ m :: pending (set_last_check now
              (set_inboxes h (normal_priority_inbox_ c) (low_priority_inbox_ c) c))).
    { unfold pending; simpl. by rewrite Eh. }
    destruct (_ && _); [|done].
    destruct (try_dequeue (normal_priority_inbox_ c)) as [[f n]|] eqn:En.
    { apply contents_dequeue in En. unfold pending; simpl. rewrite Eh, En, contents_enqueue.
      simpl. rewrite <- Permutation_middle. apply perm_swap. }
    destruct (try_dequeue (low_priority_inbox_ c)) as [[f l]|] eqn:El; [|done].
    apply contents_dequeue in El. unfold pending; simpl. rewrite Eh, El, contents_enqueue.
    simpl. rewrite !app_assoc, <- Permutation_middle. apply perm_swap.
  - apply contents_dequeue_none in Eh.
    destruct (try_dequeue (normal_priority_inbox_ c)) as [[m n]|] eqn:En.
    { apply contents_dequeue in En. unfold pending; simpl. by rewrite Eh, En. }
    apply contents_dequeue_none in En.
    destruct (try_dequeue (low_priority_inbox_ c)) as [[m l]|] eqn:El.
    { apply contents_dequeue in El. unfold pending; simpl. by rewrite Eh, En, El. }
    apply contents_dequeue_none in El. unfold pending. by rewrite Eh, En, El.
Qed.

(** ** Runs of an inbox *)

Inductive InboxOp := IReceive (m : KeystoneMessage) | IGet (now_ns : Z).

(** The core after the operations, the messages handed out and the messages dropped, each in
    order. *)
Record InboxRun := { i_core : AgentCore; i_got : list KeystoneMessage; i_dropped : list KeystoneMessage }.

Definition inbox_step (r : InboxRun) (o : InboxOp) : InboxRun :=
  match o with
  | IReceive m =>
      {| i_core := core_receiveMessage m (i_core r); i_got := i_got r;
         i_dropped := if bool_decide (AGENT_MAX_QUEUE_SIZE <= total_depth (i_core r))
                      then i_dropped r ++ [m] else i_dropped r |}
  | IGet now =>
      let '(c, m) := core_getMessage now (i_core r) in
      {| i_core := c; i_got := i_got r ++ option_list m; i_dropped := i_dropped r |}
  end.

Definition run_inbox (ops : list InboxOp) (c : AgentCore) : InboxRun :=
  foldl inbox_step {| i_core := c; i_got := []; i_dropped := [] |} ops.

(** The messages that arrive in a run. *)
Definition arrivals (ops : list InboxOp) : list KeystoneMessage :=
  omap (fun o => match o with IReceive m => Some m | IGet _ => None end) ops.

Definition accounted (r : InboxRun) : list KeystoneMessage :=
  i_got r ++ i_dropped r ++ pending (i_core r).

Lemma perm_second {A} (x : A) l1 l2 l3 : l1 ++ (l2 ++ [x]) ++ l3 ≡ₚ x :: l1 ++ l2 ++ l3.
Proof. rewrite <- app_assoc. simpl. by rewrite app_assoc, <- Permutation_middle, app_assoc. Qed.
Lemma perm_third {A} (x : A) l1 l2 l3 : l1 ++ l2 ++ x :: l3 ≡ₚ x :: l1 ++ l2 ++ l3.
Proof. by rewrite app_assoc, <- Permutation_middle, app_assoc. Qed.

Lemma inbox_step_accounted r o :
  accounted (inbox_step r o) ≡ₚ arrivals [o] ++ accounted r.
Proof.
  unfold accounted. destruct o as [m|now]; simpl.
  - rewrite pending_receive, total_depth_pending. case_bool_decide; [apply perm_second|apply perm_third].
  - pose proof (pending_get now (i_core r)) as H. destruct (core_getMessage now (i_core r)) as [c [m|]]; simpl.
    + rewrite H, perm_third, <- app_assoc. simpl. by rewrite <- Permutation_middle.
    + destruct H as [-> _]. by rewrite app_nil_r.
Qed.

Lemma inbox_step_bound r o :
  length (pending (i_core r)) <= AGENT_MAX_QUEUE_SIZE ->
  length (pending (i_core (inbox_step r o))) <= AGENT_MAX_QUEUE_SIZE.
Proof.
  intros Hb. destruct o as [m|now]; simpl.
  - rewrite pending_receive. case_bool_decide; simpl; lia.
  - pose proof (pending_get now (i_core r)) as H. destruct (core_getMessage now (i_core r)) as [c [m|]]; simpl.
    + apply Permutation_length in H. simpl in H. lia.
    + by destruct H as [-> _].
Qed.

Lemma run_inbox_accounted ops r :
  accounted (foldl inbox_step r ops) ≡ₚ arrivals ops ++ accounted r.
Proof.
  revert r; induction ops as [|o ops IH]; intros r; [done|].
  simpl. rewrite IH, inbox_step_accounted.
  destruct o as [m|now]; simpl; [|done]. by rewrite Permutation_middle.
Qed.

Lemma run_inbox_bound ops r :
  length (pending (i_core r)) <= AGENT_MAX_QUEUE_SIZE ->
  length (pending (i_core (foldl inbox_step r ops))) <= AGENT_MAX_QUEUE_SIZE.
Proof. revert r; induction ops as [|o ops IH]; intros r Hb; [done|]. by apply IH, inbox_step_bound. Qed.

Lemma new_core_pending id : pending (new_core id) = [].
Proof. unfold pending; simpl. by rewrite !contents_new. Qed.

(** ** Fairness *)

(** The readings of the clock at the calls are less than the interval apart. *)
Fixpoint brisk (interval last : Z) (ts : list Z) : Prop :=
  match ts with
  | [] => True
  | t :: ts => (t - last < interval)%Z /\ brisk interval t ts
  end.

(** Successive calls of [getMessage]. *)
Fixpoint get_all (ts : list Z) (c : AgentCore) : AgentCore * list KeystoneMessage :=
  match ts with
  | [] => (c, [])
  | t :: ts => let '(c1, m) := core_getMessage t c in
               let '(c2, ms) := get_all ts c1 in (c2, option_list m ++ ms)
  end.

Lemma get_high now c :
  (last_low_priority_check_ns_ c = 0 \/ now - last_low_priority_check_ns_ c < low_priority_check_interval_ns_ c)%Z ->
  contents (high_priority_inbox_ c) <> [] ->
  exists m h, core_getMessage now c
    = (set_last_check now (set_inboxes h (normal_priority_inbox_ c) (low_priority_inbox_ c) c), Some m) /\
    contents (high_priority_inbox_ c) ≡ₚ m :: contents h.
Proof.
  intros Ht Hne. unfold core_getMessage.
  destruct (try_dequeue (high_priority_inbox_ c)) as [[m h]|] eqn:Eh.
  2: { by apply contents_dequeue_none in Eh. }
  apply contents_dequeue in Eh. exists m, h. split; [|done].
  destruct (negb _ && _)%Z eqn:E; [|done]. exfalso.
  apply andb_prop in E as [E1%negb_true_iff%Z.eqb_neq E2%Z.leb_le]. destruct Ht; [done|lia].
Qed.

Lemma get_all_high ts c :
  (last_low_priority_check_ns_ c = 0 \/ brisk (low_priority_check_interval_ns_ c) (last_low_priority_check_ns_ c) (take 1 ts))%Z ->
  match ts with t :: ts => brisk (low_priority_check_interval_ns_ c) t ts | [] => True end ->
  length ts <= length (contents (high_priority_inbox_ c)) ->
  exists c' ms, get_all ts c = (c', ms) /\ length ms = length ts /\
    contents (high_priority_inbox_ c) ≡ₚ ms ++ contents (high_priority_inbox_ c') /\
    normal_priority_inbox_ c' = normal_priority_inbox_ c /\ low_priority_inbox_ c' = low_priority_inbox_ c.
Proof.
  revert c; induction ts as [|t ts IH]; intros c Hfirst Hb Hlen.
  { by exists c, []. }
  destruct (get_high t c) as (m & h & Hg & Hp).
  { destruct Hfirst as [?|[? _]]; [by left|by right]. }
  { intros E. rewrite E in Hlen. simpl in Hlen. lia. }
  set (c1 := set_last_check t (set_inboxes h (normal_priority_inbox_ c) (low_priority_inbox_ c) c)) in *.
  destruct (IH c1) as (c' & ms & Hr & Hl & Hperm & Hn & Hlo).
  - right. destruct ts; [done|]. simpl. destruct Hb as [? _]. by split.
  - destruct ts; [done|]. by destruct Hb.
  - apply Permutation_length in Hp. simpl in *. lia.
  - exists c', (m :: ms). cbn [get_all]. rewrite Hg. fold c1. rewrite Hr. split; [done|].
    split; [simpl; by rewrite Hl|]. split; [rewrite Hp; simpl; by constructor|done].
Qed.
End inbox.

(** ** The properties *)

Section properties.
Context `{CQ : !ConcurrentQueue KeystoneMessage, CL : !ConcurrentQueueLaws KeystoneMessage}.
Context {QL : QuiescentQueueLaws KeystoneMessage}.

Lemma run_inbox_no_drop ops r :
  i_dropped r = [] -> length (arrivals ops) + length (accounted r) <= AGENT_MAX_QUEUE_SIZE ->
  i_dropped (foldl inbox_step r ops) = [].
Proof.
  revert r; induction ops as [|o ops IH]; intros r Hd Hlen; [done|]. simpl. apply IH.
  - destruct o as [m|now]; simpl in *; [|by destruct (core_getMessage now (i_core r))].
    rewrite total_depth_pending. rewrite bool_decide_eq_false_2; [done|].
    unfold accounted in Hlen. rewrite !length_app in Hlen. lia.
  - rewrite inbox_step_accounted, length_app. destruct o; simpl in *; lia.
Qed.

(** The inboxes of an agent lose and duplicate nothing, whatever messages arrive and
    whenever messages are fetched, fairness swaps included: what arrived is what was handed
    out, what was dropped under backpressure and what waits; at most 10,000 messages wait, and
    nothing is dropped unless more than 10,000 arrived. *)
Lemma inbox_conserves (id : string) (ops : list InboxOp) :
  arrivals ops ≡ₚ i_got (run_inbox ops (new_core id)) ++ i_dropped (run_inbox ops (new_core id))
                  ++ pending (i_core (run_inbox ops (new_core id))) /\
  length (pending (i_core (run_inbox ops (new_core id)))) <= AGENT_MAX_QUEUE_SIZE /\
  (length (arrivals ops) <= AGENT_MAX_QUEUE_SIZE -> i_dropped (run_inbox ops (new_core id)) = []).
Proof.
  set (r0 := {| i_core := new_core id; i_got := []; i_dropped := [] |}).
  assert (H0 : accounted r0 = []) by (unfold accounted; simpl; apply new_core_pending).
  split; [|split].
  - pose proof (run_inbox_accounted ops r0) as H. rewrite H0, app_nil_r in H. by symmetry.
  - apply (run_inbox_bound ops r0). simpl. rewrite new_core_pending. simpl. lia.
  - intros Hlen. apply (run_inbox_no_drop ops r0); [done|]. rewrite H0. simpl. lia.
Qed.

(** Fairness does not prevent starvation: as long as HIGH messages wait and [getMessage] is
    called at least once per interval, every call returns a HIGH message and the NORMAL and LOW
    inboxes are untouched, however long this goes on, since every returned message restarts
    the fairness timer. *)
Lemma high_priority_starves (ts : list Z) (c : AgentCore) :
  last_low_priority_check_ns_ c = 0%Z ->
  brisk (low_priority_check_interval_ns_ c) (default 0%Z (head ts)) (tail ts) ->
  length ts <= length (contents (high_priority_inbox_ c)) ->
  exists c' ms, get_all ts c = (c', ms) /\ length ms = length ts /\
    contents (high_priority_inbox_ c) ≡ₚ ms ++ contents (high_priority_inbox_ c') /\
    normal_priority_inbox_ c' = normal_priority_inbox_ c /\ low_priority_inbox_ c' = low_priority_inbox_ c.
Proof. intros H0 Hb Hlen. apply get_all_high; [by left| |done]. by destruct ts. Qed.
End properties.

(** ** Instances *)

#[local] Existing Instance fifo.

Definition sample_message (id : string) (p : Priority) : KeystoneMessage :=
  {| msg_id := id; sender_id := "a"; receiver_id := "b"; action_type := EXECUTE;
     content_type := TEXT_PLAIN; session_id := "default"; metadata := ∅; priority := p;
     deadline := None; task_id := None; correlation_id := None; command := "echo 1";
     payload := None; timestamp := 0 |}.

(** Three HIGH messages and a LOW one; the calls are 99 ms apart. *)
Definition busy_core : AgentCore :=
  foldr core_receiveMessage (new_core "b")
    [sample_message "h3" HIGH; sample_message "h2" HIGH; sample_message "l1" LOW; sample_message "h1" HIGH].

Lemma high_priority_starves_witness :
  exists c' ms, get_all [5; 99000005; 198000005]%Z busy_core = (c', ms) /\ length ms = 3 /\
    contents (ConcurrentQueueLaws := fifo_laws KeystoneMessage) (high_priority_inbox_ busy_core)
      ≡ₚ ms ++ contents (ConcurrentQueueLaws := fifo_laws KeystoneMessage) (high_priority_inbox_ c') /\
    normal_priority_inbox_ c' = normal_priority_inbox_ busy_core /\
    low_priority_inbox_ c' = low_priority_inbox_ busy_core.
Proof.
  apply (high_priority_starves (CL := fifo_laws KeystoneMessage)
           [5; 99000005; 198000005]%Z busy_core); vm_compute; [reflexivity|tauto|lia].
Defined.

Lemma inbox_conserves_witness :
  exists r, r = run_inbox [IReceive (sample_message "m1" LOW); IGet 7] (new_core "b") /\
    [sample_message "m1" LOW] ≡ₚ i_got r ++ i_dropped r
      ++ pending (CL := fifo_laws KeystoneMessage) (i_core r).
Proof.
  eexists. split; [reflexivity|].
  apply (inbox_conserves (CL := fifo_laws KeystoneMessage) "b"
           [IReceive (sample_message "m1" LOW); IGet 7]).
Defined.
