(* ===== verification/Logging.v ===== *)
(** * Logging context

    src/concurrency/logger.cpp and include/agamemnon_agents/concurrency/logger.hpp: the
    thread-local context of a thread, correlation scopes, the brace formatter and the lines the
    logger emits.  A thread's context is a value its operations pass on. *)

From S2P Require Import Prelude Effects Text.

Inductive LogLevel := L_trace | L_debug | L_info | L_warn | L_err | L_critical | L_off.

Definition level_value (l : LogLevel) : nat :=
  match l with
  | L_trace => 0 | L_debug => 1 | L_info => 2 | L_warn => 3 | L_err => 4 | L_critical => 5 | L_off => 6
  end.
Definition levelName (l : LogLevel) : string :=
  match l with
  | L_trace => "trace" | L_debug => "debug" | L_info => "info" | L_warn => "warn" | L_err => "error"
  | L_critical => "critical" | L_off => "off"
  end.

(** ** [LogContext] *)

Record LogContext := {
  lc_agent_id : string;
  lc_worker_id : Z;
  lc_session_id : string;
  lc_correlation_id : string;
}.
Definition new_context : LogContext :=
  {| lc_agent_id := ""; lc_worker_id := -1; lc_session_id := ""; lc_correlation_id := "" |}.

Definition context_set (agent_id : string) (worker_id : Z) (session_id : string) (c : LogContext) : LogContext :=
  {| lc_agent_id := agent_id; lc_worker_id := worker_id; lc_session_id := session_id;
     lc_correlation_id := lc_correlation_id c |}.
Definition context_clear (c : LogContext) : LogContext :=
  {| lc_agent_id := ""; lc_worker_id := -1; lc_session_id := ""; lc_correlation_id := "" |}.
Definition setCorrelationId (id : string) (c : LogContext) : LogContext :=
  {| lc_agent_id := lc_agent_id c; lc_worker_id := lc_worker_id c; lc_session_id := lc_session_id c;
     lc_correlation_id := id |}.
Definition clearCorrelationId : LogContext -> LogContext := setCorrelationId "".

Definition getContextString (c : LogContext) : string :=
  if str_empty (lc_agent_id c) then "[no-context]" else
  "[" +:+ lc_agent_id c +:+ ":" +:+ to_string (lc_worker_id c) +:+ ":" +:+ lc_session_id c
  +:+ (if str_empty (lc_correlation_id c) then "" else ":corr=" +:+ lc_correlation_id c) +:+ "]".

(** [CorrelationScope]: what its constructor keeps and sets, what its destructor restores. *)
Definition scope_enter (id : string) (c : LogContext) : LogContext * string :=
  (setCorrelationId id c, lc_correlation_id c).
Definition scope_exit (previous : string) (c : LogContext) : LogContext := setCorrelationId previous c.

(** ** The formatter *)

(** [fmt.find(pattern)]: the text before the first placeholder and the text after it. *)
Fixpoint find_braces (s : string) : option (string * string) :=
  match s with
  | "" => None
  | String c r =>
      if starts_with "{}" s then Some ("", str_drop s 2)
      else match find_braces r with
           | Some (a, b) => Some (String c a, b)
           | None => None
           end
  end.

(** [substituteNext]: what is appended to the output, and what is left to scan. *)
Definition substituteNext (fmt replacement : string) : string * option string :=
  match find_braces fmt with
  | None => (fmt, None)
  | Some (before, after) => (before +:+ replacement, Some after)
  end.

Fixpoint format (fmt : string) (args : list string) : string :=
  match args with
  | [] => fmt
  | a :: args =>
      match substituteNext fmt a with
      | (out, None) => out
      | (out, Some rest) => out +:+ format rest args
      end
  end.

(** [Logger::log]: the line written to stderr, if any. *)
Definition log (threshold level : LogLevel) (c : LogContext) (fmt : string) (args : list string) : option string :=
  if level_value level <? level_value threshold then None
  else Some ("[" +:+ levelName level +:+ "] " +:+ getContextString c +:+ " " +:+ format fmt args).

(** ** The formatter against its specification *)

(** Texts with a placeholder between each two, filled from the left: surplus arguments are
    ignored, surplus placeholders stay. *)
Fixpoint fill (parts args : list string) : string :=
  match parts, args with
  | [], _ => ""
  | [p], _ => p
  | p :: parts, a :: args => p +:+ a +:+ fill parts args
  | p :: parts, [] => p +:+ "{}" +:+ fill parts []
  end.

Definition plain (s : string) : bool := str_forall (fun c => negb (bool_decide (c = "{"%char))) s.

Lemma find_braces_plain p : plain p = true -> find_braces p = None.
Proof.
  induction p as [|c p IH]; [done|]. unfold plain in *. cbn [str_forall]. intros [Hc Hp]%andb_prop.
  cbn [find_braces]. unfold starts_with. cbn [String.prefix].
  destruct (ascii_dec "{" c) as [<-|Hne]; [by rewrite bool_decide_eq_true_2 in Hc|]. by rewrite IH.
Qed.

Lemma find_braces_app p s : plain p = true -> find_braces (p +:+ "{}" +:+ s) = Some (p, s).
Proof.
  induction p as [|c p IH].
  - intros _. rewrite str_app_nil_l. change ("{}" +:+ s) with (String "{" (String "}" s)).
    cbn [find_braces]. unfold starts_with. cbn [String.prefix]. do 2 (destruct (ascii_dec _ _); [|done]).
    replace (String.prefix "" s) with true by (by destruct s). do 2 f_equal. apply (str_drop_app "{}" s).
  - unfold plain in *. cbn [str_forall]. intros [Hc Hp]%andb_prop. rewrite str_app_cons.
    cbn [find_braces]. unfold starts_with. cbn [String.prefix].
    destruct (ascii_dec "{" c) as [<-|Hne]; [by rewrite bool_decide_eq_true_2 in Hc|]. by rewrite IH.
Qed.

Lemma fill_nil parts : fill parts [] = join "{}" parts.
Proof.
  induction parts as [|p [|q parts] IH]; [done|done|].
  change (fill (p :: q :: parts) []) with (p +:+ "{}" +:+ fill (q :: parts) []). by rewrite IH.
Qed.

(** The log formatter fills placeholders from the left: for texts without an opening brace
    with a placeholder between each two, the arguments go into the placeholders in order; surplus
    arguments are ignored and surplus placeholders stay as they are. *)
Lemma format_fills (parts args : list string) :
  Forall (fun p => plain p = true) parts -> format (join "{}" parts) args = fill parts args.
Proof.
  intros Hp. revert args. induction Hp as [|p [|q parts] Hp Hparts IH]; intros args.
  - by destruct args.
  - destruct args as [|a args]; [done|]. cbn [join format fill]. unfold substituteNext.
    by rewrite find_braces_plain.
  - destruct args as [|a args]; [by rewrite fill_nil|].
    change (fill (p :: q :: parts) (a :: args)) with (p +:+ a +:+ fill (q :: parts) args).
    change (join "{}" (p :: q :: parts)) with (p +:+ "{}" +:+ join "{}" (q :: parts)).
    cbn [format]. unfold substituteNext. rewrite find_braces_app by done. by rewrite IH, str_app_assoc.
Qed.

Lemma format_fills_witness :
  format "Worker {} stole work from worker {} ({} phase)" ["1"; "0"]
  = "Worker 1 stole work from worker 0 ({} phase)".
Proof. apply (format_fills ["Worker "; " stole work from worker "; " ("; " phase)"] ["1"; "0"]). by repeat constructor. Defined.
