(* ===== verification/Scheduler.v ===== *)
(** * The work-stealing scheduler

    src/concurrency/work_stealing_scheduler.cpp and work_stealing_queue.cpp: one queue per
    worker, round-robin submission, workers that take work from their own queue or steal it,
    and shutdown.  The threads interleave: a worker is a program counter with its thread-local
    log context, and one step is one operation on shared state (an atomic flag, one queue
    operation, the run of one piece of work).  What a piece of work does is a parameter: it may
    change the log context of its thread and submit more work.  CPU affinity and the sleeps of
    the back-off phases change no state and are not modelled. *)

From S2P Require Import Prelude Effects Text AgentMessages AgentCore Logging.

Inductive WorkType := Function_ | Coroutine_.

Section scheduler.
Context {J : Type}.

Record WorkItem := {
  w_type : WorkType;
  w_func : option J;
  w_handle : option J;
  w_correlation_id : string;
}.

Definition makeFunction (f : option J) : WorkItem :=
  {| w_type := Function_; w_func := f; w_handle := None; w_correlation_id := "" |}.
Definition makeCoroutine (h : option J) : WorkItem :=
  {| w_type := Coroutine_; w_func := None; w_handle := h; w_correlation_id := "" |}.
Definition with_correlation (id : string) (i : WorkItem) : WorkItem :=
  {| w_type := w_type i; w_func := w_func i; w_handle := w_handle i; w_correlation_id := id |}.

(** [execute()] runs what [valid()] says is there. *)
Definition work_of (i : WorkItem) : option J :=
  match w_type i with Function_ => w_func i | Coroutine_ => w_handle i end.
Definition valid (i : WorkItem) : bool := bool_decide (is_Some (work_of i)).

Context `{CQ : !ConcurrentQueue WorkItem}.
(** A piece of work, run in a thread's context: the context it leaves, the functions it submits. *)
Context (behave : J -> LogContext -> LogContext * list J).

(** ** Queues *)

Definition queue_push (ctx : LogContext) (i : WorkItem) (q : cq WorkItem) : cq WorkItem :=
  enqueue (if str_empty (w_correlation_id i) then with_correlation (lc_correlation_id ctx) i else i) q.
Definition queue_pop (q : cq WorkItem) : option (WorkItem * cq WorkItem) := try_dequeue q.
(** [steal()] also sets the thief's correlation id. *)
Definition queue_steal (ctx : LogContext) (q : cq WorkItem) : option (WorkItem * LogContext * cq WorkItem) :=
  match try_dequeue q with
  | Some (i, q) =>
      Some (i, if str_empty (w_correlation_id i) then ctx else setCorrelationId (w_correlation_id i) ctx, q)
  | None => None
  end.

(** ** Threads and the scheduler *)

(** Where a worker is in [workerLoop] and the functions it calls. *)
Inductive wpc :=
| AtLoop                                        (* the condition of the main loop *)
| Searching (iterations probe : nat)            (* tryStealOnce: probe 0 is its own queue *)
| Missed (iterations : nat)                     (* tryStealOnce found nothing *)
| Found (drain : bool) (i : WorkItem)
| Running (drain : bool) (previous_id : string) (todo : list J)
| Draining                                      (* the condition of the draining loop *)
| Exited.

Record Worker := { wk_pc : wpc; wk_ctx : LogContext }.

Record Scheduler := {
  worker_queues_ : list (cq WorkItem);
  workers_ : list Worker;
  shutdown_requested_ : bool;
  running_ : bool;
  next_worker_index_ : Z;
  pushed : list WorkItem;                       (* every item put in a queue *)
  executed : list (nat * WorkItem * string);    (* worker, item, correlation id it ran under *)
  discarded : list WorkItem;                    (* items taken that were not valid *)
}.

Definition num_workers_ (s : Scheduler) : nat := length (worker_queues_ s).

Definition set_queues (qs : list (cq WorkItem)) (s : Scheduler) : Scheduler :=
  {| worker_queues_ := qs; workers_ := workers_ s; shutdown_requested_ := shutdown_requested_ s;
     running_ := running_ s; next_worker_index_ := next_worker_index_ s; pushed := pushed s;
     executed := executed s; discarded := discarded s |}.
Definition set_worker (w : nat) (t : Worker) (s : Scheduler) : Scheduler :=
  {| worker_queues_ := worker_queues_ s; workers_ := <[w := t]> (workers_ s);
     shutdown_requested_ := shutdown_requested_ s; running_ := running_ s;
     next_worker_index_ := next_worker_index_ s; pushed := pushed s; executed := executed s;
     discarded := discarded s |}.
Definition set_next (n : Z) (s : Scheduler) : Scheduler :=
  {| worker_queues_ := worker_queues_ s; workers_ := workers_ s; shutdown_requested_ := shutdown_requested_ s;
     running_ := running_ s; next_worker_index_ := n; pushed := pushed s; executed := executed s;
     discarded := discarded s |}.
Definition note_pushed (i : WorkItem) (s : Scheduler) : Scheduler :=
  {| worker_queues_ := worker_queues_ s; workers_ := workers_ s; shutdown_requested_ := shutdown_requested_ s;
     running_ := running_ s; next_worker_index_ := next_worker_index_ s; pushed := pushed s ++ [i];
     executed := executed s; discarded := discarded s |}.
Definition note_executed (e : nat * WorkItem * string) (s : Scheduler) : Scheduler :=
  {| worker_queues_ := worker_queues_ s; workers_ := workers_ s; shutdown_requested_ := shutdown_requested_ s;
     running_ := running_ s; next_worker_index_ := next_worker_index_ s; pushed := pushed s;
     executed := executed s ++ [e]; discarded := discarded s |}.
Definition note_discarded (i : WorkItem) (s : Scheduler) : Scheduler :=
  {| worker_queues_ := worker_queues_ s; workers_ := workers_ s; shutdown_requested_ := shutdown_requested_ s;
     running_ := running_ s; next_worker_index_ := next_worker_index_ s; pushed := pushed s;
     executed := executed s; discarded := discarded s ++ [i] |}.

Definition MAX_WORKER_THREADS : nat := 256.

(** The constructor. *)
Definition new_scheduler (num_workers : nat) : result Scheduler :=
  if MAX_WORKER_THREADS <? num_workers then
    inl (invalid_argument ("Too many worker threads requested: " +:+ to_string (Z.of_nat num_workers)
         +:+ " (max: " +:+ to_string (Z.of_nat MAX_WORKER_THREADS) +:+ ")"))
  else
    inr {| worker_queues_ := replicate (if num_workers =? 0 then 1 else num_workers) cq_new; workers_ := [];
           shutdown_requested_ := false; running_ := false; next_worker_index_ := 0;
           pushed := []; executed := []; discarded := [] |}.

(** A new thread that enters [workerLoop]. *)
Definition new_worker (index : nat) : Worker :=
  {| wk_pc := AtLoop;
     wk_ctx := context_set ("worker_" +:+ to_string (Z.of_nat index)) (Z.of_nat index) "scheduler" new_context |}.

Definition start (s : Scheduler) : Scheduler :=
  if running_ s then s else
  {| worker_queues_ := worker_queues_ s; workers_ := workers_ s ++ map new_worker (seq 0 (num_workers_ s));
     shutdown_requested_ := false; running_ := true; next_worker_index_ := next_worker_index_ s;
     pushed := pushed s; executed := executed s; discarded := discarded s |}.

(** ** Submission *)

(** [size_t] wraps at 64 bits. *)
Definition getNextWorkerIndex (s : Scheduler) : nat * Scheduler :=
  (Z.to_nat (next_worker_index_ s mod Z.of_nat (num_workers_ s))%Z,
   set_next ((next_worker_index_ s + 1) mod 2 ^ 64) s).

(** [ctx] is the log context of the submitting thread. *)
Definition submitTo (ctx : LogContext) (worker_index : nat) (i : WorkItem) (s : Scheduler) : Scheduler :=
  if num_workers_ s <=? worker_index then s else
  match worker_queues_ s !! worker_index with
  | None => s
  | Some q =>
      let work_item := with_correlation (lc_correlation_id ctx) i in
      note_pushed work_item (set_queues (<[worker_index := queue_push ctx work_item q]> (worker_queues_ s)) s)
  end.

Definition submit (ctx : LogContext) (i : WorkItem) (s : Scheduler) : Scheduler :=
  let '(worker_idx, s) := getNextWorkerIndex s in
  submitTo ctx worker_idx i s.

Definition getApproximateWorkCount (s : Scheduler) : nat :=
  foldl (fun total q => total + size_approx q) 0 (worker_queues_ s).

(** [tryStealWork], given the victim the random engine picks; [done] says whether a coroutine
    handle has run to its end. *)
Definition tryStealWork (done : J -> bool) (victim_idx : nat) (ctx : LogContext) (s : Scheduler)
    : Scheduler * LogContext * option J :=
  match worker_queues_ s !! victim_idx with
  | None => (s, ctx, None)
  | Some q =>
      match queue_steal ctx q with
      | None => (s, ctx, None)
      | Some (i, ctx, q) =>
          (set_queues (<[victim_idx := q]> (worker_queues_ s)) s, ctx,
           match w_type i with
           | Function_ => w_func i
           | Coroutine_ => match w_handle i with Some h => if done h then None else Some h | None => None end
           end)
      end
  end.

(** ** The worker threads *)

Definition YIELD_ITERATIONS : nat := Z.to_nat 1000.

(** One probe of [tryStealOnce]. *)
Definition probe_step (w iterations probe : nat) (t : Worker) (s : Scheduler) : Scheduler :=
  let n := num_workers_ s in
  if probe =? 0 then
    match worker_queues_ s !! w with
    | None => s
    | Some q =>
        match queue_pop q with
        | Some (i, q) =>
            set_worker w {| wk_pc := Found false i; wk_ctx := wk_ctx t |}
              (set_queues (<[w := q]> (worker_queues_ s)) s)
        | None => set_worker w {| wk_pc := Searching iterations 1; wk_ctx := wk_ctx t |} s
        end
    end
  else if probe <? n then
    let victim_idx := (w + probe) mod n in
    match worker_queues_ s !! victim_idx with
    | None => s
    | Some q =>
        match queue_steal (wk_ctx t) q with
        | Some (i, ctx, q) =>
            set_worker w {| wk_pc := Found false i; wk_ctx := ctx |}
              (set_queues (<[victim_idx := q]> (worker_queues_ s)) s)
        | None => set_worker w {| wk_pc := Searching iterations (S probe); wk_ctx := wk_ctx t |} s
        end
    end
  else set_worker w {| wk_pc := Missed iterations; wk_ctx := wk_ctx t |} s.

(** [tryStealWithBackoff] between two calls of [tryStealOnce]: iterations are counted in the
    spinning and yielding phases; [shutdown_requested_] is looked at in every phase. *)
Definition backoff_step (w iterations : nat) (t : Worker) (s : Scheduler) : Scheduler :=
  let iterations := if iterations <? YIELD_ITERATIONS then S iterations else iterations in
  set_worker w {| wk_pc := if shutdown_requested_ s then AtLoop else Searching iterations 0;
                  wk_ctx := wk_ctx t |} s.

(** A valid item is run under its correlation id, an invalid one is let go. *)
Definition execute_step (w : nat) (drain : bool) (i : WorkItem) (t : Worker) (s : Scheduler) : Scheduler :=
  match work_of i with
  | None => set_worker w {| wk_pc := if drain then Draining else AtLoop; wk_ctx := wk_ctx t |} (note_discarded i s)
  | Some j =>
      let previous_id := lc_correlation_id (wk_ctx t) in
      let ctx := if str_empty (w_correlation_id i) then wk_ctx t
                 else setCorrelationId (w_correlation_id i) (wk_ctx t) in
      let '(ctx', todo) := behave j ctx in
      set_worker w {| wk_pc := Running drain previous_id todo; wk_ctx := ctx' |}
        (note_executed (w, i, lc_correlation_id ctx) s)
  end.

(** What the running work still submits, then the restoration of the correlation id. *)
Definition running_step (w : nat) (drain : bool) (previous_id : string) (todo : list J) (t : Worker)
    (s : Scheduler) : Scheduler :=
  match todo with
  | j :: todo =>
      set_worker w {| wk_pc := Running drain previous_id todo; wk_ctx := wk_ctx t |}
        (submit (wk_ctx t) (makeFunction (Some j)) s)
  | [] =>
      set_worker w {| wk_pc := if drain then Draining else AtLoop;
                      wk_ctx := if str_empty previous_id then clearCorrelationId (wk_ctx t)
                                else setCorrelationId previous_id (wk_ctx t) |} s
  end.

(** The draining loop: its own queue only. *)
Definition drain_step (w : nat) (t : Worker) (s : Scheduler) : Scheduler :=
  match worker_queues_ s !! w with
  | None => s
  | Some q =>
      match queue_pop q with
      | Some (i, q) =>
          set_worker w {| wk_pc := Found true i; wk_ctx := wk_ctx t |}
            (set_queues (<[w := q]> (worker_queues_ s)) s)
      | None => set_worker w {| wk_pc := Exited; wk_ctx := context_clear (wk_ctx t) |} s
      end
  end.

(** One step of [workerLoop(w)]. *)
Definition worker_step (w : nat) (s : Scheduler) : Scheduler :=
  match workers_ s !! w with
  | None => s
  | Some t =>
      match wk_pc t with
      | AtLoop => set_worker w {| wk_pc := if shutdown_requested_ s then Draining else Searching 0 0;
                                  wk_ctx := wk_ctx t |} s
      | Searching iterations probe => probe_step w iterations probe t s
      | Missed iterations => backoff_step w iterations t s
      | Found drain i => execute_step w drain i t s
      | Running drain previous_id todo => running_step w drain previous_id todo t s
      | Draining => drain_step w t s
      | Exited => s
      end
  end.

(** ** Shutdown *)

Definition is_exited (t : Worker) : bool := match wk_pc t with Exited => true | _ => false end.

(** [shutdown()] up to the joins, and from the joins on. *)
Definition shutdown_request (s : Scheduler) : Scheduler :=
  if negb (running_ s) then s else
  {| worker_queues_ := worker_queues_ s; workers_ := workers_ s; shutdown_requested_ := true;
     running_ := running_ s; next_worker_index_ := next_worker_index_ s; pushed := pushed s;
     executed := executed s; discarded := discarded s |}.
Definition shutdown_join (s : Scheduler) : Scheduler :=
  if shutdown_requested_ s && forallb is_exited (workers_ s) then
    {| worker_queues_ := worker_queues_ s; workers_ := []; shutdown_requested_ := shutdown_requested_ s;
       running_ := false; next_worker_index_ := next_worker_index_ s; pushed := pushed s;
       executed := executed s; discarded := discarded s |}
  else s.

(** ** Runs *)

Inductive event :=
| EvSubmit (ctx : LogContext) (i : WorkItem)    (* a thread that is not a worker *)
| EvSubmitTo (ctx : LogContext) (worker_index : nat) (i : WorkItem)
| EvStart | EvRequest | EvJoin
| EvWorker (w : nat).

Definition sched_event (e : event) (s : Scheduler) : Scheduler :=
  match e with
  | EvSubmit ctx i => submit ctx i s
  | EvSubmitTo ctx w i => submitTo ctx w i s
  | EvStart => start s
  | EvRequest => shutdown_request s
  | EvJoin => shutdown_join s
  | EvWorker w => worker_step w s
  end.
Definition sched_run (es : list event) (s : Scheduler) : Scheduler := foldl (fun s e => sched_event e s) s es.
End scheduler.
Arguments WorkItem J : clear implicits.
Arguments wpc J : clear implicits.
Arguments Worker J : clear implicits.
Arguments Scheduler J {_}.
Arguments event J : clear implicits.
