(* ===== verification/SchedulerTheorems.v ===== *)
(** * The work-stealing scheduler: theorems *)

From S2P Require Import Prelude Effects Text AgentMessages AgentCore Logging Scheduler.

Section theorems.
Context {J : Type} `{CQ : !ConcurrentQueue (WorkItem J)}.
Context {CL : ConcurrentQueueLaws (WorkItem J)}.
Context (behave : J -> LogContext -> LogContext * list J).
Implicit Types s : Scheduler J.

(** ** Where the items are *)

Definition queued s : list (WorkItem J) := flat_map contents (worker_queues_ s).
Definition held_by (t : Worker J) : list (WorkItem J) := match wk_pc t with Found _ i => [i] | _ => [] end.
Definition held s : list (WorkItem J) := flat_map held_by (workers_ s).
Definition executed_items s : list (WorkItem J) := map (fun e => e.1.2) (executed s).

Record conserved s : Prop := {
  cv_items : pushed s ≡ₚ executed_items s ++ held s ++ queued s ++ discarded s;
  cv_valid : Forall (fun i => valid i = true) (executed_items s);
  cv_invalid : Forall (fun i => valid i = false) (discarded s);
}.

Lemma queued_push s w q q' i :
  worker_queues_ s !! w = Some q -> contents q' ≡ₚ i :: contents q ->
  queued (set_queues (<[w := q']> (worker_queues_ s)) s) ≡ₚ i :: queued s.
Proof. intros. by eapply flat_map_gain. Qed.

Lemma queued_pop s w q q' i :
  worker_queues_ s !! w = Some q -> contents q ≡ₚ i :: contents q' ->
  queued s ≡ₚ i :: queued (set_queues (<[w := q']> (worker_queues_ s)) s).
Proof. intros. by eapply flat_map_loss. Qed.

Lemma held_set s w t t' : workers_ s !! w = Some t ->
  held_by t ++ held (set_worker w t' s) ≡ₚ held_by t' ++ held s.
Proof. apply flat_map_insert. Qed.

Lemma valid_work i (j : J) : work_of i = Some j -> valid i = true.
Proof. intros H. apply bool_decide_eq_true_2. by eexists. Qed.
Lemma invalid_work (i : WorkItem J) : work_of i = None -> valid i = false.
Proof. intros H. apply bool_decide_eq_false_2. rewrite H. by intros []. Qed.

(** A change of program counter that takes or lets go of no item. *)
Lemma conserved_move s w t t' :
  workers_ s !! w = Some t -> held_by t' = held_by t -> conserved s -> conserved (set_worker w t' s).
Proof.
  intros Ht Hh [H1 H2 H3]. split; [|done|done]. pose proof (held_set s w t t' Ht) as H. rewrite Hh in H.
  apply Permutation_app_inv_l in H. change (executed_items (set_worker w t' s)) with (executed_items s).
  change (queued (set_worker w t' s)) with (queued s). simpl. by rewrite H.
Qed.

(** An item taken from a queue. *)
Lemma conserved_take s v q q' w t drain i ctx :
  worker_queues_ s !! v = Some q -> try_dequeue q = Some (i, q') ->
  workers_ s !! w = Some t -> held_by t = [] -> conserved s ->
  conserved (set_worker w {| wk_pc := Found drain i; wk_ctx := ctx |}
               (set_queues (<[v := q']> (worker_queues_ s)) s)).
Proof.
  intros Hq Hd Ht Hh [H1 H2 H3]. split; [|done|done].
  pose proof (queued_pop s v q q' i Hq (contents_dequeue _ _ _ Hd)) as Hqs.
  set (s1 := set_queues _ s) in *.
  pose proof (held_set s1 w t {| wk_pc := Found drain i; wk_ctx := ctx |} Ht) as Hhs. rewrite Hh in Hhs. simpl in Hhs.
  change (queued (set_worker _ _ s1)) with (queued s1). change (executed_items (set_worker _ _ s1)) with (executed_items s).
  change (held s1) with (held s) in Hhs. simpl pushed. simpl discarded. rewrite H1, Hqs, Hhs. solve_Permutation.
Qed.

Lemma conserved_submitTo s ctx w i : conserved s -> conserved (submitTo ctx w i s).
Proof.
  intros [H1 H2 H3]. unfold submitTo. destruct (num_workers_ s <=? w); [by split|].
  destruct (worker_queues_ s !! w) as [q|] eqn:Hq; [|by split].
  split; [|done|done]. set (i' := with_correlation (lc_correlation_id ctx) i).
  assert (Hp : contents (queue_push ctx i' q) ≡ₚ i' :: contents q).
  { unfold queue_push. destruct (str_empty (w_correlation_id i')); apply contents_enqueue. }
  pose proof (queued_push s w q _ i' Hq Hp) as Hqs.
  change (executed_items (note_pushed i' _)) with (executed_items s). change (held (note_pushed i' _)) with (held s).
  change (queued (note_pushed i' ?x)) with (queued x). simpl pushed. simpl discarded.
  rewrite H1, Hqs. solve_Permutation.
Qed.

Lemma conserved_submit s ctx i : conserved s -> conserved (submit ctx i s).
Proof. intros [H1 H2 H3]. unfold submit. simpl. apply conserved_submitTo. by split. Qed.

Lemma submit_workers s ctx i : workers_ (submit ctx i s) = workers_ s.
Proof. unfold submit, submitTo. simpl. destruct (_ <=? _); [done|]. by destruct (_ !! _). Qed.

Lemma conserved_probe s w it p t :
  workers_ s !! w = Some t -> wk_pc t = Searching it p -> conserved s -> conserved (probe_step w it p t s).
Proof.
  intros Ht Hpc Hs. assert (Hh : held_by t = []) by (unfold held_by; by rewrite Hpc).
  unfold probe_step, queue_pop, queue_steal. cbv zeta. destruct (p =? 0).
  - destruct (worker_queues_ s !! w) as [q|] eqn:Hq; [|done]. destruct (try_dequeue q) as [[i q']|] eqn:Hd.
    + by eapply conserved_take.
    + by eapply conserved_move.
  - destruct (p <? num_workers_ s); [|by eapply conserved_move].
    destruct (worker_queues_ s !! _) as [q|] eqn:Hq; [|done]. destruct (try_dequeue q) as [[i q']|] eqn:Hd.
    + by eapply conserved_take.
    + by eapply conserved_move.
Qed.

Lemma conserved_execute s w drain i t :
  workers_ s !! w = Some t -> wk_pc t = Found drain i -> conserved s -> conserved (execute_step behave w drain i t s).
Proof.
  intros Ht Hpc [H1 H2 H3]. assert (Hh : held_by t = [i]) by (unfold held_by; by rewrite Hpc).
  assert (Hout : forall t', held_by t' = [] -> held s ≡ₚ i :: held (set_worker w t' s)).
  { intros t' Ht'. pose proof (held_set s w t t' Ht) as H. rewrite Ht', Hh in H. by symmetry. }
  unfold execute_step. destruct (work_of i) as [j|] eqn:Hj.
  - destruct (behave j _) as [ctx' todo]. set (t' := {| wk_pc := Running _ _ _; wk_ctx := _ |}).
    specialize (Hout t' eq_refl). split.
    + change (executed_items (set_worker w t' _)) with (map (fun e : nat * WorkItem J * string => e.1.2) (executed s ++ [(w, i, lc_correlation_id
        (if str_empty (w_correlation_id i) then wk_ctx t else setCorrelationId (w_correlation_id i) (wk_ctx t)))])).
      rewrite map_app. change (held (set_worker w t' (note_executed ?e s))) with (held (set_worker w t' s)).
      change (queued (set_worker w t' (note_executed ?e s))) with (queued s). simpl. rewrite H1, Hout.
      unfold executed_items. solve_Permutation.
    + unfold executed_items. simpl. rewrite map_app. apply Forall_app. split; [done|].
      constructor; [by apply (valid_work i j)|done].
    + done.
  - set (t' := {| wk_pc := _; wk_ctx := _ |}). assert (Ht' : held_by t' = []) by (by destruct drain).
    specialize (Hout t' Ht'). split.
    + change (executed_items (set_worker w t' (note_discarded i s))) with (executed_items s).
      change (held (set_worker w t' (note_discarded i s))) with (held (set_worker w t' s)).
      change (queued (set_worker w t' (note_discarded i s))) with (queued s). simpl. rewrite H1, Hout. solve_Permutation.
    + done.
    + simpl. apply Forall_app. split; [done|]. constructor; [by apply invalid_work|done].
Qed.

Lemma conserved_step s w : conserved s -> conserved (worker_step behave w s).
Proof.
  intros Hs. unfold worker_step. destruct (workers_ s !! w) as [t|] eqn:Ht; [|done].
  destruct (wk_pc t) as [|it p|it|drain i|drain prev todo| |] eqn:Hpc; try done.
  - apply (conserved_move s w t); [done| |done]. unfold held_by. rewrite Hpc. by destruct (shutdown_requested_ s).
  - by apply conserved_probe.
  - apply (conserved_move s w t); [done| |done]. unfold held_by. rewrite Hpc. simpl. by destruct (shutdown_requested_ s).
  - by apply conserved_execute.
  - unfold running_step. destruct todo as [|j todo].
    + apply (conserved_move s w t); [done| |done]. unfold held_by. rewrite Hpc. by destruct drain.
    + apply (conserved_move _ w t); [by rewrite submit_workers| |by apply conserved_submit].
      unfold held_by. by rewrite Hpc.
  - unfold drain_step, queue_pop. destruct (worker_queues_ s !! w) as [q|] eqn:Hq; [|done].
    destruct (try_dequeue q) as [[i q']|] eqn:Hd.
    + eapply conserved_take; try done. unfold held_by. by rewrite Hpc.
    + apply (conserved_move s w t); [done| |done]. unfold held_by. by rewrite Hpc.
Qed.

Lemma held_exited ts : forallb is_exited ts = true -> flat_map held_by ts = [].
Proof.
  induction ts as [|t ts IH]; [done|]. simpl. intros [Ht Hts]%andb_prop. rewrite IH by done.
  unfold is_exited in Ht. unfold held_by. by destruct (wk_pc t).
Qed.

Lemma conserved_event e s : conserved s -> conserved (sched_event behave e s).
Proof.
  intros Hs. destruct e as [ctx i|ctx w i| | | |w]; simpl.
  - by apply conserved_submit.
  - by apply conserved_submitTo.
  - unfold start. destruct (running_ s); [done|]. destruct Hs as [H1 H2 H3]. split; [|done|done].
    unfold held. simpl. rewrite flat_map_app.
    replace (flat_map held_by (map new_worker _)) with (@nil (WorkItem J)); [by rewrite app_nil_r|].
    induction (seq _ _) as [|k ks IH]; [done|]. simpl. by rewrite <- IH.
  - unfold shutdown_request. destruct (running_ s); simpl; [|done]. by destruct Hs as [H1 H2 H3]; split.
  - unfold shutdown_join. destruct (_ && _) eqn:Hb; [|done]. apply andb_prop in Hb as [_ Hb].
    destruct Hs as [H1 H2 H3]. split; [|done|done]. unfold held in *. by rewrite (held_exited _ Hb) in H1.
  - by apply conserved_step.
Qed.

Lemma conserved_run es s : conserved s -> conserved (sched_run behave es s).
Proof. revert s; induction es as [|e es IH]; intros s Hs; [done|]. by apply IH, conserved_event. Qed.

Lemma conserved_new n s : new_scheduler n = inr s -> conserved s.
Proof.
  unfold new_scheduler. destruct (_ <? n); [done|]. intros [= <-]. split; [|constructor|constructor].
  unfold executed_items, held, queued. simpl. induction (if _ : bool then _ else _) as [|k IH]; simpl; [done|].
  by rewrite contents_new.
Qed.

(** ** Well-formed threads *)

(** Work that submits no work. *)
Definition no_spawn : Prop := forall j ctx, (behave j ctx).2 = [].

Definition pc_ok (n : nat) (flag : bool) (pc : wpc J) : Prop :=
  match pc with
  | AtLoop | Missed _ | Found false _ => True
  | Searching _ p => p <= n
  | Running drain _ todo => todo = [] /\ (drain = true -> flag = true)
  | Found true _ | Draining | Exited => flag = true
  end.

Record threads_ok s : Prop := {
  th_queues : 0 < num_workers_ s;
  th_count : length (workers_ s) = if running_ s then num_workers_ s else 0;
  th_pcs : forall w t, workers_ s !! w = Some t -> pc_ok (num_workers_ s) (shutdown_requested_ s) (wk_pc t);
}.

Lemma threads_set s w t t' :
  workers_ s !! w = Some t -> pc_ok (num_workers_ s) (shutdown_requested_ s) (wk_pc t') ->
  threads_ok s -> threads_ok (set_worker w t' s).
Proof.
  intros Ht Hpc [H1 H2 H3]. split; simpl; [done|by rewrite length_insert|]. intros v u.
  destruct (decide (v = w)) as [->|Hne].
  - rewrite list_lookup_insert_eq by (by eapply lookup_lt_Some). by intros [= <-].
  - rewrite list_lookup_insert_ne by done. apply H3.
Qed.

Lemma threads_queues s v q : threads_ok s -> threads_ok (set_queues (<[v := q]> (worker_queues_ s)) s).
Proof.
  intros [H1 H2 H3]. unfold num_workers_ in *.
  split; unfold num_workers_; simpl; rewrite ?length_insert; done.
Qed.

Lemma threads_submitTo s ctx w i : threads_ok s -> threads_ok (submitTo ctx w i s).
Proof.
  intros Hs. unfold submitTo. destruct (_ <=? w); [done|]. destruct (_ !! w) as [q|]; [|done].
  by destruct (threads_queues s w (queue_push ctx (with_correlation (lc_correlation_id ctx) i) q) Hs).
Qed.

Lemma threads_step s w : no_spawn -> threads_ok s -> threads_ok (worker_step behave w s).
Proof.
  intros Hns Hs. unfold worker_step. destruct (workers_ s !! w) as [t|] eqn:Ht; [|done].
  pose proof (th_pcs s Hs w t Ht) as Hpc. pose proof (th_queues s Hs) as Hn.
  destruct (wk_pc t) as [|it p|it|drain i|drain prev todo| |] eqn:Epc; simpl in Hpc; try done.
  - apply (threads_set s w t); [done| |done]. simpl. destruct (shutdown_requested_ s); simpl; [done|lia].
  - unfold probe_step, queue_pop, queue_steal. cbv zeta. destruct (p =? 0).
    + destruct (worker_queues_ s !! w) as [q|] eqn:Hq; [|done]. destruct (try_dequeue q) as [[i q']|].
      * by apply (threads_set _ w t); [done|done|apply threads_queues].
      * apply (threads_set s w t); [done| |done]. simpl. lia.
    + destruct (p <? num_workers_ s) eqn:Hp; [|by apply (threads_set s w t)]. apply Nat.ltb_lt in Hp.
      destruct (worker_queues_ s !! _) as [q|] eqn:Hq; [|done]. destruct (try_dequeue q) as [[i q']|].
      * by apply (threads_set _ w t); [done|done|apply threads_queues].
      * apply (threads_set s w t); [done| |done]. simpl. lia.
  - apply (threads_set s w t); [done| |done]. simpl. destruct (shutdown_requested_ s); simpl; [done|lia].
  - unfold execute_step. destruct (work_of i) as [j|].
    + pose proof (Hns j) as Hj. destruct (behave j _) as [ctx' todo] eqn:Eb.
      apply (threads_set _ w t); [done| |by destruct Hs]. simpl.
      pose proof (Hj (if str_empty (w_correlation_id i) then wk_ctx t else setCorrelationId (w_correlation_id i) (wk_ctx t))) as Hj'.
      rewrite Eb in Hj'. split; [done|]. by intros ->.
    + apply (threads_set _ w t); [done| |by destruct Hs]. simpl. by destruct drain.
  - destruct Hpc as [-> Hd]. simpl. apply (threads_set s w t); [done| |done]. simpl. destruct drain; [by apply Hd|done].
  - unfold drain_step, queue_pop. destruct (worker_queues_ s !! w) as [q|]; [|done].
    destruct (try_dequeue q) as [[i q']|].
    + by apply (threads_set _ w t); [done|done|apply threads_queues].
    + by apply (threads_set s w t).
Qed.

Lemma threads_event e s : no_spawn -> threads_ok s -> threads_ok (sched_event behave e s).
Proof.
  intros Hns Hs. destruct e as [ctx i|ctx w i| | | |w]; simpl.
  - unfold submit. simpl. apply threads_submitTo. by destruct Hs.
  - by apply threads_submitTo.
  - unfold start. destruct (running_ s) eqn:Hr; [done|]. destruct Hs as [H1 H2 H3]. rewrite Hr in H2.
    apply nil_length_inv in H2. rewrite H2. unfold num_workers_ in *.
    split; unfold num_workers_; simpl; [done|by rewrite length_map, length_seq|].
    intros w t Hw. apply list_lookup_fmap_Some in Hw as (k & -> & _). done.
  - unfold shutdown_request. destruct (running_ s) eqn:Hr; simpl; [|done]. destruct Hs as [H1 H2 H3].
    unfold num_workers_ in *. split; unfold num_workers_; simpl; [done|by rewrite H2, Hr|].
    intros w t Hw. specialize (H3 w t Hw).
    destruct (wk_pc t) as [| | |[]|[]| |]; simpl in *; naive_solver.
  - unfold shutdown_join. destruct (_ && _) eqn:Hb; [|done]. destruct Hs as [H1 H2 H3]. by split.
  - by apply threads_step.
Qed.

Lemma threads_run es s : no_spawn -> threads_ok s -> threads_ok (sched_run behave es s).
Proof. intros Hns. revert s; induction es as [|e es IH]; intros s Hs; [done|]. by apply IH, threads_event. Qed.

Lemma threads_new n s : new_scheduler n = inr s -> threads_ok s.
Proof.
  unfold new_scheduler. destruct (_ <? n); [done|]. intros [= <-]. split; simpl; [|done|done].
  unfold num_workers_. simpl. rewrite length_replicate. destruct (n =? 0) eqn:E; [lia|]. apply Nat.eqb_neq in E. lia.
Qed.

(** ** Draining *)

Definition pc_weight (n : nat) (t : Worker J) : nat :=
  match wk_pc t with
  | Exited => 0 | Draining => 1 | AtLoop => 2 | Missed _ | Running _ _ _ => 3 | Found _ _ => 4
  | Searching _ p => 4 + (n - p)
  end.
Definition drain_weight s : nat :=
  sum_list_with (pc_weight (num_workers_ s)) (workers_ s) + 5 * length (queued s).

(** Steps of workers that have not exited. *)
Inductive drain_run : nat -> Scheduler J -> Scheduler J -> Prop :=
| drain_nil s : drain_run 0 s s
| drain_cons k s w t s' :
    workers_ s !! w = Some t -> is_exited t = false ->
    drain_run k (worker_step behave w s) s' -> drain_run (S k) s s'.

(** What a step of a draining worker does: the weight goes down, an exited worker's queue gives
    nothing any more, and nothing is pushed. *)
Definition exited_empty s : Prop := forall w t q,
  workers_ s !! w = Some t -> is_exited t = true -> worker_queues_ s !! w = Some q -> try_dequeue q = None.

Definition drains s s' : Prop :=
  drain_weight s' < drain_weight s /\ exited_empty s' /\ pushed s' = pushed s /\
  shutdown_requested_ s' = true.

Lemma drains_set s s0 w t t' :
  queued s0 = queued s -> workers_ s0 = workers_ s -> worker_queues_ s0 = worker_queues_ s ->
  pushed s0 = pushed s -> shutdown_requested_ s0 = true ->
  workers_ s !! w = Some t -> exited_empty s -> pc_weight (num_workers_ s) t' < pc_weight (num_workers_ s) t ->
  (is_exited t' = true -> forall q, worker_queues_ s !! w = Some q -> try_dequeue q = None) ->
  drains s (set_worker w t' s0).
Proof.
  intros Eq Ew Eqs Ep Ef Ht He Hlt Hex. split; [|split; [|done]].
  - unfold drain_weight. change (queued (set_worker w t' s0)) with (queued s0). unfold num_workers_ in *.
    simpl. rewrite Eq, Ew, Eqs. pose proof (sum_insert (pc_weight (length (worker_queues_ s))) _ w t t' Ht). lia.
  - intros v u q. simpl. rewrite Ew, Eqs. destruct (decide (v = w)) as [->|Hne].
    + rewrite list_lookup_insert_eq by (by eapply lookup_lt_Some). intros [= <-] Hu Hq. by apply (Hex Hu).
    + rewrite list_lookup_insert_ne by done. apply He.
Qed.

Lemma drains_take s v q q' w t drain i ctx :
  worker_queues_ s !! v = Some q -> try_dequeue q = Some (i, q') -> workers_ s !! w = Some t ->
  exited_empty s -> shutdown_requested_ s = true -> 0 < pc_weight (num_workers_ s) t ->
  drains s (set_worker w {| wk_pc := Found drain i; wk_ctx := ctx |} (set_queues (<[v := q']> (worker_queues_ s)) s)).
Proof.
  intros Hq Hd Ht He Hf Hw. pose proof (contents_dequeue _ _ _ Hd) as Hc.
  pose proof (queued_pop s v q q' i Hq Hc) as Hqs. apply Permutation_length in Hqs. simpl in Hqs.
  split; [|split; [|done]].
  - unfold drain_weight. change (queued (set_worker w _ ?x)) with (queued x). set (t' := {| wk_pc := _; wk_ctx := _ |}).
    pose proof (sum_insert (pc_weight (num_workers_ s)) (workers_ s) w t t' Ht) as Hs.
    unfold num_workers_ in *. simpl. rewrite length_insert. rewrite Hqs.
    change (pc_weight (length (worker_queues_ s)) t') with 4 in Hs. lia.
  - intros x u qu. simpl. destruct (decide (x = w)) as [->|Hne].
    { rewrite list_lookup_insert_eq by (by eapply lookup_lt_Some). by intros [= <-]. }
    rewrite list_lookup_insert_ne by done. intros Hu Hex. destruct (decide (x = v)) as [->|Hnv].
    + pose proof (He v u q Hu Hex Hq) as Hnil. congruence.
    + rewrite list_lookup_insert_ne by done. by apply (He x u).
Qed.

Lemma drain_step_drains s w t :
  no_spawn -> threads_ok s -> shutdown_requested_ s = true -> exited_empty s ->
  workers_ s !! w = Some t -> is_exited t = false -> drains s (worker_step behave w s).
Proof.
  intros Hns Hs Hf He Ht Hx. pose proof (th_pcs s Hs w t Ht) as Hpc. pose proof (th_queues s Hs) as Hn.
  assert (Hw : w < num_workers_ s).
  { pose proof (lookup_lt_Some _ _ _ Ht) as Hl. rewrite (th_count s Hs) in Hl. destruct (running_ s); lia. }
  destruct (lookup_lt_is_Some_2 (worker_queues_ s) w Hw) as [q Hq].
  unfold worker_step. rewrite Ht. unfold is_exited in Hx.
  assert (Hpw : forall pc, wk_pc t = pc -> pc_weight (num_workers_ s) t = pc_weight (num_workers_ s) {| wk_pc := pc; wk_ctx := wk_ctx t |})
    by (intros pc <-; done).
  destruct (wk_pc t) as [|it p|it|drain i|drain prev todo| |] eqn:Epc; simpl in Hpc; try done;
    specialize (Hpw _ eq_refl); unfold pc_weight at 2 in Hpw; simpl in Hpw.
  - rewrite Hf. apply (drains_set s s w t); try done. rewrite Hpw. simpl. unfold pc_weight. simpl. lia.
  - unfold probe_step, queue_pop, queue_steal. cbv zeta. destruct (p =? 0) eqn:Hp0.
    + apply Nat.eqb_eq in Hp0. subst p. rewrite Hq. destruct (try_dequeue q) as [[i q']|] eqn:Hd.
      * eapply drains_take; try done. lia.
      * apply (drains_set s s w t); try done. rewrite Hpw. unfold pc_weight. simpl. lia.
    + destruct (p <? num_workers_ s) eqn:Hp.
      * apply Nat.ltb_lt in Hp.
        assert (Hv : (w + p) mod num_workers_ s < num_workers_ s) by (apply Nat.mod_upper_bound; lia).
        destruct (lookup_lt_is_Some_2 (worker_queues_ s) _ Hv) as [qv Hqv]. rewrite Hqv.
        destruct (try_dequeue qv) as [[i q']|] eqn:Hd.
        -- eapply drains_take; try done. lia.
        -- apply (drains_set s s w t); try done. rewrite Hpw. unfold pc_weight. simpl. lia.
      * apply (drains_set s s w t); try done. rewrite Hpw. unfold pc_weight. simpl. lia.
  - unfold backoff_step. rewrite Hf. apply (drains_set s s w t); try done. rewrite Hpw. unfold pc_weight. simpl. lia.
  - unfold execute_step. destruct (work_of i) as [j|].
    + destruct (behave j _) as [ctx' todo]. apply (drains_set s _ w t); try done. rewrite Hpw. unfold pc_weight. simpl. lia.
    + apply (drains_set s _ w t); try done; [rewrite Hpw; unfold pc_weight; destruct drain; simpl; lia|by destruct drain].
  - destruct Hpc as [-> _]. simpl. apply (drains_set s s w t); try done;
      [rewrite Hpw; unfold pc_weight; destruct drain; simpl; lia|by destruct drain].
  - unfold drain_step, queue_pop. rewrite Hq. destruct (try_dequeue q) as [[i q']|] eqn:Hd.
    + eapply drains_take; try done. lia.
    + apply (drains_set s s w t); try done; [rewrite Hpw; unfold pc_weight; simpl; lia|].
      intros _ q0 Hq0. congruence.
Qed.

Lemma drain_run_ok k s s' :
  no_spawn -> drain_run k s s' -> threads_ok s -> shutdown_requested_ s = true -> exited_empty s -> conserved s ->
  k + drain_weight s' <= drain_weight s /\ threads_ok s' /\ exited_empty s' /\ conserved s' /\
  pushed s' = pushed s /\ shutdown_requested_ s' = true.
Proof.
  intros Hns. induction 1 as [s|k s w t s' Ht Hx _ IH]; intros Hs Hf He Hc; [by split_and!|].
  destruct (drain_step_drains s w t Hns Hs Hf He Ht Hx) as (H1 & H2 & H3 & H4).
  destruct IH as (I1 & I2 & I3 & I4 & I5 & I6);
    [by apply threads_step|done|done|by apply conserved_step|].
  split_and!; try done; [lia|congruence].
Qed.

Lemma drain_finishes s :
  no_spawn -> threads_ok s -> shutdown_requested_ s = true -> exited_empty s ->
  exists k s', drain_run k s s' /\ forallb is_exited (workers_ s') = true.
Proof.
  intros Hns. remember (drain_weight s) as wt eqn:Ew. revert s Ew.
  induction wt as [wt IH] using lt_wf_ind; intros s Ew Hs Hf He.
  destruct (forallb is_exited (workers_ s)) eqn:Hall; [exists 0, s; split; [constructor|done]|].
  assert (exists w t, workers_ s !! w = Some t /\ is_exited t = false) as (w & t & Ht & Hx).
  { clear -Hall. induction (workers_ s) as [|t ts IH]; [done|]. simpl in Hall.
    destruct (is_exited t) eqn:E; [|by exists 0, t]. destruct (IH Hall) as (w & u & Hu & ?). by exists (S w), u. }
  destruct (drain_step_drains s w t Hns Hs Hf He Ht Hx) as (H1 & H2 & H3 & H4).
  destruct (IH (drain_weight (worker_step behave w s)) ltac:(lia) _ eq_refl) as (k & s' & Hrun & Hex);
    [by apply threads_step|done|done|].
  exists (S k), s'. split; [by econstructor|done].
Qed.

Lemma exited_all_empty s :
  threads_ok s -> running_ s = true -> exited_empty s -> forallb is_exited (workers_ s) = true ->
  forall w q, worker_queues_ s !! w = Some q -> try_dequeue q = None.
Proof.
  intros Hs Hr He Hall w q Hq. assert (Hw : w < length (workers_ s)).
  { rewrite (th_count s Hs), Hr. by eapply lookup_lt_Some. }
  destruct (lookup_lt_is_Some_2 _ _ Hw) as [t Ht]. apply (He w t q Ht); [|done].
  rewrite forallb_forall in Hall. apply Hall. apply list_elem_of_In. by eapply list_elem_of_lookup_2.
Qed.

Lemma submit_running s ctx i : running_ (submit ctx i s) = running_ s.
Proof. unfold submit, submitTo. simpl. destruct (_ <=? _); [done|]. by destruct (_ !! _). Qed.

Lemma step_running s w : running_ (worker_step behave w s) = running_ s.
Proof.
  unfold worker_step. destruct (workers_ s !! w) as [t|]; [|done].
  destruct (wk_pc t) as [|it p|it|drain i|drain prev todo| |]; try done.
  - unfold probe_step, queue_pop, queue_steal. cbv zeta. destruct (p =? 0); [|destruct (p <? _); [|done]];
      (destruct (worker_queues_ s !! _) as [q|]; [|done]; by destruct (try_dequeue q) as [[]|]).
  - unfold execute_step. destruct (work_of i) as [j|]; [|done]. by destruct (behave j _).
  - destruct todo as [|j todo]; [done|]. apply submit_running.
  - unfold drain_step, queue_pop. destruct (worker_queues_ s !! w) as [q|]; [|done]. by destruct (try_dequeue q) as [[]|].
Qed.

Lemma drain_running k s s' : drain_run k s s' -> running_ s' = running_ s.
Proof. induction 1 as [|k s w t s' _ _ _ IH]; [done|]. by rewrite IH, step_running. Qed.

Lemma drain_weight_bound s :
  threads_ok s -> running_ s = true ->
  drain_weight s <= num_workers_ s * (4 + num_workers_ s) + 5 * length (queued s).
Proof.
  intros Hs Hr. unfold drain_weight. pose proof (th_count s Hs) as Hc. rewrite Hr in Hc.
  assert (Hb : forall l : list (Worker J), sum_list_with (pc_weight (num_workers_ s)) l <= length l * (4 + num_workers_ s)).
  { induction l as [|t l IH]; simpl; [lia|].
    assert (pc_weight (num_workers_ s) t <= 4 + num_workers_ s) by (unfold pc_weight; destruct (wk_pc t); lia). lia. }
  specialize (Hb (workers_ s)). rewrite Hc in Hb. lia.
Qed.

(** ** Claims *)

(** C14: No work is lost, duplicated or invented.  Whatever is submitted, in whatever order threads
    submit, start, shut down and take their steps, and whatever the work itself submits: each item
    ever put in a queue is in exactly one place, run once, held by a worker about to run it, still
    queued, or let go because it holds nothing to run. *)
Theorem work_conserved (n : nat) (s0 : Scheduler J) (es : list (event J)) :
  new_scheduler n = inr s0 ->
  let s := sched_run behave es s0 in
  pushed s ≡ₚ executed_items s ++ held s ++ queued s ++ discarded s /\
  Forall (fun i => valid i = true) (executed_items s) /\ Forall (fun i => valid i = false) (discarded s).
Proof. intros Hn s. by destruct (conserved_run es s0 (conserved_new n s0 Hn)). Qed.

Lemma run_shutdown (n : nat) (s0 : Scheduler J) (es : list (event J)) :
  no_spawn -> new_scheduler n = inr s0 ->
  let s := sched_run behave es s0 in
  running_ s = true -> shutdown_requested_ s = false ->
  (exists k s', drain_run k (shutdown_request s) s' /\ forallb is_exited (workers_ s') = true) /\
  forall k s', drain_run k (shutdown_request s) s' ->
    k <= num_workers_ s * (4 + num_workers_ s) + 5 * length (queued s) /\
    (forallb is_exited (workers_ s') = true ->
     running_ (shutdown_join s') = false /\ workers_ (shutdown_join s') = [] /\
     (forall w q, worker_queues_ s' !! w = Some q -> try_dequeue q = None) /\
     pushed s ≡ₚ executed_items s' ++ queued s' ++ discarded s').
Proof.
  intros Hns Hn s Hr Hfl.
  assert (Hth : threads_ok s) by (by apply threads_run, (threads_new n)).
  assert (Hc : conserved s) by (by apply conserved_run, (conserved_new n)).
  assert (Hth1 : threads_ok (shutdown_request s)) by (by apply (threads_event EvRequest)).
  assert (Hc1 : conserved (shutdown_request s)) by (by apply (conserved_event EvRequest)).
  assert (Hs1 : shutdown_request s = {| worker_queues_ := worker_queues_ s; workers_ := workers_ s;
    shutdown_requested_ := true; running_ := running_ s; next_worker_index_ := next_worker_index_ s;
    pushed := pushed s; executed := executed s; discarded := discarded s |}) by (unfold shutdown_request; by rewrite Hr).
  assert (He : exited_empty (shutdown_request s)).
  { intros w t q Ht Hx _. rewrite Hs1 in Ht. pose proof (th_pcs s Hth w t Ht) as Hpc. rewrite Hfl in Hpc.
    unfold is_exited in Hx. by destruct (wk_pc t). }
  assert (Hf1 : shutdown_requested_ (shutdown_request s) = true) by (by rewrite Hs1).
  assert (Hr1 : running_ (shutdown_request s) = true) by (by rewrite Hs1).
  split; [by apply drain_finishes|]. intros k s' Hrun.
  destruct (drain_run_ok k _ s' Hns Hrun Hth1 Hf1 He Hc1) as (Hk & Hth' & He' & Hc' & Hp & Hf').
  pose proof (drain_weight_bound _ Hth1 Hr1) as Hb. rewrite Hs1 in Hb, Hp. split; [rewrite Hs1 in Hk; simpl in *; unfold num_workers_, queued in *; simpl in *; lia|].
  intros Hall. assert (Hr' : running_ s' = true) by (by rewrite (drain_running _ _ _ Hrun)).
  pose proof (exited_all_empty s' Hth' Hr' He' Hall) as Hq.
  unfold shutdown_join. rewrite Hf', Hall. split_and!; [done|done|done|].
  pose proof (cv_items s' Hc') as Hi. rewrite Hp in Hi. simpl in Hi. unfold held in Hi.
  by rewrite (held_exited _ Hall) in Hi.
Qed.

(** C15: Shutdown ends and loses nothing.  When nothing is submitted from the request on (by
    other threads or by the work itself), the workers' steps come to an end: at most one search of
    all queues per worker and five steps per queued item, however they interleave; then every
    worker has exited, because its last dequeue from its own queue gave nothing, the joins succeed
    and the scheduler has stopped, and every item ever submitted has been run exactly once, was
    let go because it holds nothing to run, or is still in a queue.  Of the queue only that is
    assumed which holds with other operations in flight; a dequeue may fail on a queue that
    is not empty. *)
Theorem shutdown_completes (n : nat) (s0 : Scheduler J) (es : list (event J)) :
  no_spawn -> new_scheduler n = inr s0 ->
  let s := sched_run behave es s0 in
  running_ s = true -> shutdown_requested_ s = false ->
  (exists k s', drain_run k (shutdown_request s) s' /\ forallb is_exited (workers_ s') = true) /\
  forall k s', drain_run k (shutdown_request s) s' ->
    k <= num_workers_ s * (4 + num_workers_ s) + 5 * length (queued s) /\
    (forallb is_exited (workers_ s') = true ->
     running_ (shutdown_join s') = false /\ workers_ (shutdown_join s') = [] /\
     (forall w q, worker_queues_ s' !! w = Some q -> try_dequeue q = None) /\
     pushed s ≡ₚ executed_items s' ++ queued s' ++ discarded s').
Proof. apply run_shutdown. Qed.

Lemma queued_empty s :
  (forall w q, worker_queues_ s !! w = Some q -> contents q = []) -> queued s = [].
Proof.
  unfold queued. intros Hq. induction (worker_queues_ s) as [|q qs IH]; [done|]. simpl.
  rewrite (Hq 0 q eq_refl), IH; [done|]. intros w q' Hw. by apply (Hq (S w)).
Qed.

(** With one worker its queue has no other user after the request, so a dequeue that fails
    means an empty queue: everything submitted that holds something to run has been run. *)
Lemma single_worker_runs_all `{!QuiescentQueueLaws (WorkItem J)} (s0 : Scheduler J) (es : list (event J)) k s' :
  no_spawn -> new_scheduler 1 = inr s0 ->
  let s := sched_run behave es s0 in
  running_ s = true -> shutdown_requested_ s = false ->
  drain_run k (shutdown_request s) s' -> forallb is_exited (workers_ s') = true ->
  pushed s ≡ₚ executed_items s' ++ discarded s'.
Proof.
  intros Hns Hn s Hr Hf Hrun Hall. destruct (run_shutdown 1 s0 es Hns Hn Hr Hf) as [_ H].
  destruct (H k s' Hrun) as [_ Hx]. destruct (Hx Hall) as (_ & _ & Hq & Hp).
  rewrite (queued_empty s') in Hp; [done|]. intros w q E. by eapply contents_dequeue_none, Hq.
Qed.

Lemma lookup_set_worker s w t t' : workers_ s !! w = Some t -> workers_ (set_worker w t' s) !! w = Some t'.
Proof. intros H. simpl. by rewrite list_lookup_insert_eq by (by eapply lookup_lt_Some). Qed.

(** Taking an item, running it and coming back to the loop, from a worker that holds it. *)
Lemma run_found s w t i j :
  workers_ s !! w = Some t -> wk_pc t = Found false i -> work_of i = Some j -> w_correlation_id i <> "" ->
  (forall c, behave j c = (c, [])) ->
  exists t', workers_ (worker_step behave w (worker_step behave w s)) !! w = Some t' /\ wk_pc t' = AtLoop /\
    lc_correlation_id (wk_ctx t') = lc_correlation_id (wk_ctx t).
Proof.
  intros Ht Hpc Hj Hne Hb.
  assert (Hemp : str_empty (w_correlation_id i) = false) by (by destruct (w_correlation_id i)).
  set (t1 := {| wk_pc := Running false (lc_correlation_id (wk_ctx t)) (@nil J);
                wk_ctx := setCorrelationId (w_correlation_id i) (wk_ctx t) |}).
  assert (H1 : workers_ (worker_step behave w s) !! w = Some t1).
  { unfold worker_step. rewrite Ht, Hpc. unfold execute_step. rewrite Hj, Hemp, Hb.
    by apply (lookup_set_worker _ w t). }
  eexists. split; [|split; [|]].
  - unfold worker_step at 1. rewrite H1. simpl wk_pc. cbv iota. unfold running_step.
    apply (lookup_set_worker _ w t1 _ H1).
  - done.
  - simpl. destruct (str_empty (lc_correlation_id (wk_ctx t))) eqn:E; [|done]. simpl.
    symmetry. by apply str_empty_true.
Qed.

(** The correlation id of stolen work stays with the thief.  A worker that takes an item with a
    correlation id, runs it and returns to its loop has its own correlation id back when the item was
    from its own queue; when it was stolen, the worker is left with the item's id, under which the
    work that carries none will run. *)
Lemma stolen_correlation_stays (w it p : nat) (t : Worker J) (q q' : cq (WorkItem J)) (i : WorkItem J) (j : J)
    (s : Scheduler J) :
  workers_ s !! w = Some t -> wk_pc t = Searching it p -> w < num_workers_ s -> p < num_workers_ s ->
  worker_queues_ s !! ((w + p) mod num_workers_ s) = Some q -> try_dequeue q = Some (i, q') ->
  work_of i = Some j -> w_correlation_id i <> "" -> (forall c, behave j c = (c, [])) ->
  let s' := worker_step behave w (worker_step behave w (worker_step behave w s)) in
  exists t', workers_ s' !! w = Some t' /\ wk_pc t' = AtLoop /\
    lc_correlation_id (wk_ctx t') = if p =? 0 then lc_correlation_id (wk_ctx t) else w_correlation_id i.
Proof.
  intros Ht Hpc Hw Hp Hq Hd Hj Hne Hb s'.
  assert (Hemp : str_empty (w_correlation_id i) = false) by (by destruct (w_correlation_id i)).
  assert (exists t1, workers_ (worker_step behave w s) !! w = Some t1 /\ wk_pc t1 = Found false i /\
    lc_correlation_id (wk_ctx t1) = if p =? 0 then lc_correlation_id (wk_ctx t) else w_correlation_id i)
    as (t1 & Ht1 & Hpc1 & Hc1).
  { unfold worker_step. rewrite Ht, Hpc. unfold probe_step, queue_pop, queue_steal. cbv zeta.
    destruct (p =? 0) eqn:E.
    - apply Nat.eqb_eq in E. subst p. rewrite Nat.add_0_r, Nat.mod_small in Hq by done. rewrite Hq, Hd.
      eexists. split; [by apply (lookup_set_worker _ w t)|done].
    - rewrite (proj2 (Nat.ltb_lt _ _) Hp), Hq, Hd, Hemp. eexists. split; [by apply (lookup_set_worker _ w t)|done]. }
  destruct (run_found _ w t1 i j Ht1 Hpc1 Hj Hne Hb) as (t' & H1 & H2 & H3). exists t'. by rewrite H3, Hc1.
Qed.
End theorems.

(** ** Instances *)

#[local] Existing Instance fifo.
Abbreviation laws J := (fifo_laws (WorkItem J)).

(** Work that submits nothing, and work that submits one more piece. *)
Definition plain_work (j : nat) (ctx : LogContext) : LogContext * list nat := (ctx, []).
Definition spawn_once (j : bool) (ctx : LogContext) : LogContext * list bool := (ctx, if j then [false] else []).

Definition two_workers {J} : Scheduler J :=
  {| worker_queues_ := [[]; []]; workers_ := []; shutdown_requested_ := false; running_ := false;
     next_worker_index_ := 0; pushed := []; executed := []; discarded := [] |}.

(** Work submitted by running work can be lost at shutdown.  One of two workers has exited when
    the other, draining its queue, runs work that submits more: it goes round-robin to the queue of
    the exited worker, the joins succeed, the scheduler has stopped, and the work is still queued. *)
Lemma late_work_lost :
  exists (s0 s : Scheduler bool) (es : list (event bool)),
    new_scheduler 2 = inr s0 /\ s = sched_run spawn_once es s0 /\ running_ s = false /\ workers_ s = [] /\
    map work_of (queued (CL := laws bool) s) = [Some false] /\ getApproximateWorkCount s = 1.
Proof.
  exists two_workers. eexists.
  exists ([EvStart; EvSubmit new_context (makeFunction (Some true)); EvRequest; EvWorker 1; EvWorker 1]
          ++ replicate 7 (EvWorker 0) ++ [EvJoin]).
  split; [reflexivity|]. split; [reflexivity|]. vm_compute. split_and!; reflexivity.
Qed.

Lemma work_conserved_witness :
  let s := sched_run plain_work [EvStart; EvSubmit new_context (makeFunction (Some 7)); EvWorker 0; EvWorker 0] two_workers in
  pushed s ≡ₚ executed_items s ++ held s ++ queued (CL := laws nat) s ++ discarded s /\
  Forall (fun i => valid i = true) (executed_items s) /\ Forall (fun i => valid i = false) (discarded s).
Proof. apply (work_conserved (CL := laws nat) plain_work 2). reflexivity. Defined.

Lemma shutdown_completes_witness :
  let s := sched_run plain_work [EvStart; EvSubmit new_context (makeFunction (Some 7))] two_workers in
  exists k s', drain_run plain_work k (shutdown_request s) s' /\ forallb is_exited (workers_ s') = true /\
    running_ (shutdown_join s') = false /\
    pushed s ≡ₚ executed_items s' ++ queued (CL := laws nat) s' ++ discarded s'.
Proof.
  destruct (shutdown_completes (CL := laws nat) plain_work 2 two_workers
           [EvStart; EvSubmit new_context (makeFunction (Some 7))]) as [(k & s' & Hr & Hx) H];
    [intros j ctx; reflexivity|reflexivity..|].
  destruct (proj2 (H k s' Hr) Hx) as (H1 & _ & _ & H2). by exists k, s'.
Defined.

(** Worker 1 steals from worker 0. *)
Lemma stolen_correlation_stays_witness :
  let s := sched_run plain_work
    [EvStart; EvSubmit (setCorrelationId "req-1" new_context) (makeFunction (Some 7)); EvWorker 1; EvWorker 1] two_workers in
  exists t', workers_ (worker_step plain_work 1 (worker_step plain_work 1 (worker_step plain_work 1 s))) !! 1 = Some t' /\
    lc_correlation_id (wk_ctx t') = "req-1".
Proof.
  edestruct (stolen_correlation_stays plain_work 1 0 1) with (j := 7) (s := sched_run plain_work
    [EvStart; EvSubmit (setCorrelationId "req-1" new_context) (makeFunction (Some 7)); EvWorker 1; EvWorker 1] two_workers)
    as (t' & H1 & _ & H3).
  - vm_compute. reflexivity.
  - reflexivity.
  - vm_compute. lia.
  - vm_compute. lia.
  - vm_compute. reflexivity.
  - reflexivity.
  - reflexivity.
  - discriminate.
  - intros c. reflexivity.
  - exists t'. split; [exact H1|exact H3].
Defined.
