(* ===== verification/PullOrSteal.v ===== *)
(** * Pull or steal

    src/concurrency/pull_or_steal.cpp: the awaitables that take work from a worker's own queue
    or steal it from the others.  The queues are shared objects, held in one list; the awaitable
    refers to its own queue and to the vector of pointers, some of which may be null, by
    position. *)

From S2P Require Import Prelude Effects Text AgentMessages AgentCore Logging Scheduler.

Section pull.
Context {J : Type} `{CQ : !ConcurrentQueue (WorkItem J)}.

(** [class PullOrSteal]; the time-out variant adds the two clock values. *)
Record PullOrSteal := {
  own_queue_ : nat;
  all_queues_ : list (option nat);
  worker_index_ : nat;
  result_ : option (WorkItem J);
}.
Definition with_result (r : option (WorkItem J)) (p : PullOrSteal) : PullOrSteal :=
  {| own_queue_ := own_queue_ p; all_queues_ := all_queues_ p; worker_index_ := worker_index_ p; result_ := r |}.

(** The queues and the log context of the calling thread. *)
Record Shared := { sh_queues : list (cq (WorkItem J)); sh_ctx : LogContext }.

Definition pop_at (k : nat) (sh : Shared) : Shared * option (WorkItem J) :=
  match sh_queues sh !! k with
  | None => (sh, None)
  | Some q => match queue_pop q with
              | Some (i, q) => ({| sh_queues := <[k := q]> (sh_queues sh); sh_ctx := sh_ctx sh |}, Some i)
              | None => (sh, None)
              end
  end.
Definition steal_at (k : nat) (sh : Shared) : Shared * option (WorkItem J) :=
  match sh_queues sh !! k with
  | None => (sh, None)
  | Some q => match queue_steal (sh_ctx sh) q with
              | Some (i, ctx, q) => ({| sh_queues := <[k := q]> (sh_queues sh); sh_ctx := ctx |}, Some i)
              | None => (sh, None)
              end
  end.

(** The loop of [trySteal]: [remaining] victims from the [i]-th on. *)
Fixpoint steal_loop (p : PullOrSteal) (remaining i : nat) (sh : Shared) : Shared * option (WorkItem J) :=
  match remaining with
  | 0 => (sh, None)
  | S remaining =>
      match all_queues_ p !! ((worker_index_ p + i) mod length (all_queues_ p)) with
      | Some (Some k) =>
          match steal_at k sh with
          | (sh, Some stolen) => (sh, Some stolen)
          | (sh, None) => steal_loop p remaining (S i) sh
          end
      | Some None | None => steal_loop p remaining (S i) sh
      end
  end.

Definition trySteal (p : PullOrSteal) (sh : Shared) : Shared * option (WorkItem J) :=
  if length (all_queues_ p) =? 0 then (sh, None) else steal_loop p (length (all_queues_ p) - 1) 1 sh.

(** Own queue, then the others. *)
Definition pull_once (p : PullOrSteal) (sh : Shared) : PullOrSteal * Shared :=
  match pop_at (own_queue_ p) sh with
  | (sh, Some i) => (with_result (Some i) p, sh)
  | (sh, None) => let '(sh, r) := trySteal p sh in (with_result r p, sh)
  end.

Definition await_ready (p : PullOrSteal) (sh : Shared) : PullOrSteal * Shared * bool :=
  let '(p, sh) := pull_once p sh in (p, sh, bool_decide (is_Some (result_ p))).

(** The coroutine is resumed at once: one more try. *)
Definition await_suspend (p : PullOrSteal) (sh : Shared) : PullOrSteal * Shared := pull_once p sh.

(** [PullOrStealWithTimeout::await_suspend], in the units of the clock. *)
Definition await_suspend_timeout (elapsed timeout : Z) (p : PullOrSteal) (sh : Shared) : PullOrSteal * Shared :=
  if (timeout <=? elapsed)%Z then (with_result None p, sh) else pull_once p sh.

Definition await_resume (shutdown_flag : bool) (p : PullOrSteal) : option (WorkItem J) :=
  if shutdown_flag then None else result_ p.

(** [co_await PullOrSteal(...)], with the shutdown flag as [await_resume] reads it. *)
Definition co_await (shutdown_flag : bool) (p : PullOrSteal) (sh : Shared) : Shared * option (WorkItem J) :=
  let '(p, sh, ready) := await_ready p sh in
  let '(p, sh) := if ready then (p, sh) else await_suspend p sh in
  (sh, await_resume shutdown_flag p).

(** ** Theorems *)

Context {CL : ConcurrentQueueLaws (WorkItem J)}.
Definition waiting (sh : Shared) : list (WorkItem J) := flat_map contents (sh_queues sh).

(** A try takes one item or finds the queue empty. *)
Definition takes (op : Shared -> Shared * option (WorkItem J)) (sh : Shared) : Prop :=
  match op sh with
  | (sh', Some i) => waiting sh ≡ₚ i :: waiting sh' /\ length (sh_queues sh') = length (sh_queues sh)
  | (sh', None) => sh' = sh
  end.

Lemma waiting_take k q q' i sh ctx :
  sh_queues sh !! k = Some q -> contents q ≡ₚ i :: contents q' ->
  waiting sh ≡ₚ i :: waiting {| sh_queues := <[k := q']> (sh_queues sh); sh_ctx := ctx |}.
Proof. intros Hq Hc. exact (flat_map_loss contents (sh_queues sh) k q q' i Hq Hc). Qed.

Lemma pop_takes k sh : takes (pop_at k) sh.
Proof.
  unfold takes, pop_at, queue_pop. destruct (sh_queues sh !! k) as [q|] eqn:Hq; [|done].
  destruct (try_dequeue q) as [[i q']|] eqn:Hd; [|done].
  split; [by eapply waiting_take, contents_dequeue|simpl; by rewrite length_insert].
Qed.

Lemma steal_takes k sh : takes (steal_at k) sh.
Proof.
  unfold takes, steal_at, queue_steal. destruct (sh_queues sh !! k) as [q|] eqn:Hq; [|done].
  destruct (try_dequeue q) as [[i q']|] eqn:Hd; [|done].
  split; [by eapply waiting_take, contents_dequeue|simpl; by rewrite length_insert].
Qed.

Lemma steal_loop_takes p remaining i sh : takes (steal_loop p remaining i) sh.
Proof.
  revert i; induction remaining as [|remaining IH]; intros i; [done|]. unfold takes in *. cbn [steal_loop].
  destruct (all_queues_ p !! _) as [[k|]|]; [|apply IH..]. pose proof (steal_takes k sh) as H. unfold takes in H.
  destruct (steal_at k sh) as [sh' [x|]]; [exact H|]. subst sh'. apply IH.
Qed.

(** With no other operation in flight: an empty queue gives nothing; a queue with work gives
    some. *)
Context {QL : QuiescentQueueLaws (WorkItem J)}.
Lemma pop_none k q sh : sh_queues sh !! k = Some q -> (pop_at k sh).2 = None -> contents q = [].
Proof.
  unfold pop_at, queue_pop. intros ->. destruct (try_dequeue q) as [[i q']|] eqn:Hd; [done|].
  intros _. by apply contents_dequeue_none.
Qed.
Lemma steal_none k q sh : sh_queues sh !! k = Some q -> (steal_at k sh).2 = None -> contents q = [].
Proof.
  unfold steal_at, queue_steal. intros ->. destruct (try_dequeue q) as [[i q']|] eqn:Hd; [done|].
  intros _. by apply contents_dequeue_none.
Qed.

Lemma steal_loop_none p remaining i sh d k q :
  (steal_loop p remaining i sh).2 = None -> d < remaining ->
  all_queues_ p !! ((worker_index_ p + (i + d)) mod length (all_queues_ p)) = Some (Some k) ->
  sh_queues sh !! k = Some q -> contents q = [].
Proof.
  revert i d; induction remaining as [|remaining IH]; intros i d Hn Hd Hk Hq; [lia|]. cbn [steal_loop] in Hn.
  destruct d as [|d].
  - rewrite Nat.add_0_r in Hk. rewrite Hk in Hn. pose proof (steal_none k q sh Hq) as H.
    destruct (steal_at k sh) as [sh' [x|]]; [done|]. by apply H.
  - assert (Hrest : (steal_loop p remaining (S i) sh).2 = None).
    { destruct (all_queues_ p !! _) as [[k'|]|]; [|done..]. pose proof (steal_takes k' sh) as H. unfold takes in H.
      destruct (steal_at k' sh) as [sh' [x|]]; [done|]. by subst sh'. }
    apply (IH (S i) d Hrest ltac:(lia)); [|done]. by replace (S i + d) with (i + S d) by lia.
Qed.

Lemma victim_offset n w x : w < n -> x < n -> x <> w -> exists d, d < n - 1 /\ (w + (1 + d)) mod n = x.
Proof.
  intros Hw Hx Hne. destruct (decide (w < x)) as [Hlt|Hge].
  - exists (x - w - 1). split; [lia|]. rewrite Nat.mod_small; lia.
  - exists (n + x - w - 1). split; [lia|]. replace (w + (1 + (n + x - w - 1))) with (x + 1 * n) by lia.
    rewrite Nat.Div0.mod_add. by apply Nat.mod_small.
Qed.

(** Pull-or-steal is work-conserving while no other thread works on the queues: [await_ready] says yes exactly when one of the queues it
    knows has work; then it holds one item, taken from a queue and from nowhere else; otherwise
    nothing has changed.  Null pointers among the queues are skipped. *)
Lemma await_ready_takes (p : PullOrSteal) (sh : Shared) :
  all_queues_ p !! worker_index_ p = Some (Some (own_queue_ p)) ->
  match await_ready p sh with
  | (p', sh', true) => exists i, result_ p' = Some i /\ waiting sh ≡ₚ i :: waiting sh'
  | (p', sh', false) => sh' = sh /\ result_ p' = None /\
      forall k q, Some k ∈ all_queues_ p -> sh_queues sh !! k = Some q -> contents q = []
  end.
Proof.
  intros Hown. unfold await_ready, pull_once. pose proof (pop_takes (own_queue_ p) sh) as Hpop. unfold takes in Hpop.
  pose proof (fun q H => pop_none (own_queue_ p) q sh H) as Hnone.
  destruct (pop_at (own_queue_ p) sh) as [sh1 [i|]]; [simpl; exists i; by destruct Hpop|]. subst sh1.
  pose proof (lookup_lt_Some _ _ _ Hown) as Hw.
  unfold trySteal. rewrite (proj2 (Nat.eqb_neq _ _)) by lia.
  pose proof (steal_loop_takes p (length (all_queues_ p) - 1) 1 sh) as Hst. unfold takes in Hst.
  pose proof (fun d k q => steal_loop_none p (length (all_queues_ p) - 1) 1 sh d k q) as Hsn.
  destruct (steal_loop p _ 1 sh) as [sh1 [i|]]; simpl; [exists i; by destruct Hst|].
  subst sh1. split; [done|]. split; [done|]. intros k q Hk Hq.
  apply list_elem_of_lookup in Hk as [x Hx]. destruct (decide (x = worker_index_ p)) as [->|Hne].
  - apply Hnone; [congruence|done].
  - destruct (victim_offset (length (all_queues_ p)) (worker_index_ p) x Hw) as (d & Hd & Hm);
      [by eapply lookup_lt_Some|done|]. apply (Hsn d k q); [done|done|by rewrite Hm|done].
Qed.

(** Work taken by an await is lost when shutdown is requested meanwhile: [await_resume] drops
    what [await_ready] took from the queue. *)
Lemma awaited_work_dropped (p : PullOrSteal) (sh : Shared) (q : cq (WorkItem J)) :
  sh_queues sh !! own_queue_ p = Some q -> contents q <> [] ->
  exists sh' i, co_await true p sh = (sh', None) /\ waiting sh ≡ₚ i :: waiting sh'.
Proof.
  intros Hq Hne. unfold co_await, await_ready, pull_once.
  pose proof (pop_takes (own_queue_ p) sh) as Hpop. unfold takes in Hpop.
  pose proof (pop_none (own_queue_ p) q sh Hq) as Hnone.
  destruct (pop_at (own_queue_ p) sh) as [sh1 [i|]]; [|by destruct Hne; apply Hnone].
  simpl. exists sh1, i. by destruct Hpop.
Qed.
End pull.
Arguments PullOrSteal J : clear implicits.
Arguments Shared J {_}.

(** ** Instances *)

#[local] Existing Instance fifo.

(** Three workers, one of whose queues is gone; work for the third. *)
Definition third : PullOrSteal nat :=
  {| own_queue_ := 0; all_queues_ := [Some 0; None; Some 1]; worker_index_ := 0; result_ := None |}.
Definition shelf : Shared nat :=
  {| sh_queues := [[]; [makeFunction (Some 5)]]; sh_ctx := new_context |}.

Lemma await_ready_takes_witness :
  exists i, result_ (await_ready third shelf).1.1 = Some i /\
    waiting (CL := fifo_laws (WorkItem nat)) shelf ≡ₚ i :: waiting (CL := fifo_laws (WorkItem nat)) (await_ready third shelf).1.2.
Proof. exact (await_ready_takes (CL := fifo_laws (WorkItem nat)) third shelf eq_refl). Defined.

Lemma awaited_work_dropped_witness :
  exists sh' i, co_await true {| own_queue_ := 1; all_queues_ := []; worker_index_ := 0; result_ := None |} shelf = (sh', None) /\
    waiting (CL := fifo_laws (WorkItem nat)) shelf ≡ₚ i :: waiting (CL := fifo_laws (WorkItem nat)) sh'.
Proof.
  apply (awaited_work_dropped (CL := fifo_laws (WorkItem nat)) _ shelf [makeFunction (Some 5)]); [reflexivity|discriminate].
Defined.
