(* ===== verification/Commands.v ===== *)
(** * Commands of the task agents

    The commands a task agent may run: the validation of src/agents/task_agent.cpp
    ([validateCommand]) and of src/agents/task_execution_strategy.cpp ([isCommandAllowed]), the
    execution through the shell ([executeBash], [executeBashCommand]) and
    include/agamemnon_agents/core/error_sanitizer.hpp.  The shell is a parameter: [popen] of a
    command line yields what the process writes to its output and its exit status. *)

From S2P Require Import Prelude Effects Text Regex.

(** ** Helpers of <string> and <sstream> *)

(** [iss >> word] on a fresh stream: white space is skipped, the word ends before the next. *)
Fixpoint take_word (s : string) : string :=
  match s with "" => "" | String c r => if isspace c then "" else String c (take_word r) end.
Definition first_word (s : string) : string := take_word (skip_while isspace s).

(** [s.find_first_of(set) == npos] and [s.find("..") == npos]. *)
Definition has_none_of (set s : string) : bool := str_forall (fun c => negb (str_mem c set)) s.
Definition has_no_dotdot (s : string) : bool := bool_decide (str_find ".." s 0 = None).

(** [std::stod] on digits with an optional fraction, compared with 10.0: the value is rounded to
    the nearest double, so it exceeds 10 when the decimal exceeds 10 + 2^-50 (10 is even, the
    next double is 10 + 2^-49); [out_of_range] when it rounds to infinity, or is subnormal and
    not exact. *)
Definition stod_exceeds_10 (s : string) : result bool :=
  let '(whole, rest) := take_digits s in
  let frac := match rest with String _ r => r | "" => "" end in
  let n := digits_value 0 (whole +:+ frac) in
  let d := (10 ^ Z.of_nat (String.length frac))%Z in
  if ((2 ^ 1024 - 2 ^ 970) * d <=? n)%Z then inl (out_of_range "stod") else
  if ((0 <? n) && (n * 2 ^ 1076 <? (2 ^ 54 - 1) * d) && negb (n * 2 ^ 1074 mod d =? 0))%Z
  then inl (out_of_range "stod") else
  inr ((10 * 2 ^ 50 + 1) * d <? n * 2 ^ 50)%Z.

(** ** The patterns *)

Definition is_arith (c : ascii) : bool := isdigit c || str_mem c "-+*/ ()".
Definition is_simple (c : ascii) : bool :=
  islower c || isupper c || isdigit c || str_mem c (" -.,!?'" +:+ String "034" "").

(** An arithmetic expansion [echo $((e))], [e] of digits, the four operators, blanks and
    parentheses. *)
Definition arithmetic_pattern : re := Seq (Lit "echo $((") (Seq (Plus (Cls is_arith)) (Lit "))")).
(** [^echo ], then one or more letters, digits, blanks, hyphens and characters of [.,!?] or
    quotes. *)
Definition simple_echo_pattern : re := Seq (Lit "echo ") (Plus (Cls is_simple)).
(** ^sleep ([0-9]+(?:\.[0-9]+)?)$ *)
Definition sleep_pattern : re :=
  Seq (Lit "sleep ") (Grp (Seq (Plus (Cls isdigit)) (Opt (Seq (Chr ".") (Plus (Cls isdigit)))))).

Definition ALLOWED_COMMANDS : list string :=
  ["echo"; "cat"; "ls"; "pwd"; "date"; "whoami"; "uname"; "head"; "tail"; "wc"; "grep"; "find"; "bc"].
Definition very_dangerous : string := ";|&`$<>!{}[]".

(** The whitelist test shared by both validators. *)
Definition whitelisted (command : string) : bool :=
  let base_command := first_word command in
  if bool_decide (base_command ∈ ALLOWED_COMMANDS) then
    let args := str_drop command (String.length base_command) in
    has_none_of very_dangerous args && has_no_dotdot args
  else false.

Definition nl1 : string := String "010" "".

Section validate.
Context (command_order : list string).   (* the iteration order of ALLOWED_COMMANDS *)

Definition rejection (command : string) : string :=
  "Command does not match any allowed patterns." +:+ nl1 +:+ "Allowed patterns:" +:+ nl1
  +:+ "  1. Arithmetic: echo $((expression))" +:+ nl1 +:+ "  2. Simple echo: echo <text>" +:+ nl1
  +:+ "  3. sleep <N> where N <= 10" +:+ nl1 +:+ "  4. Whitelisted commands: "
  +:+ join ", " command_order +:+ nl1 +:+ "Your command: " +:+ command.

(** [TaskAgent::validateCommand]. *)
Definition validateCommand (command : string) : result unit :=
  if str_empty command then inl (runtime_error "Command cannot be empty") else
  match regex_match arithmetic_pattern command with
  | Some _ => inr tt
  | None =>
      match regex_match simple_echo_pattern command with
      | Some _ => inr tt
      | None =>
          match regex_match sleep_pattern command with
          | Some caps =>
              too_long ← stod_exceeds_10 (default "" (head caps));
              if (too_long : bool) then inl (runtime_error "sleep duration exceeds maximum allowed (10s)")
              else inr tt
          | None => if whitelisted command then inr tt else inl (runtime_error (rejection command))
          end
      end
  end.

(** [TaskExecutionStrategy::isCommandAllowed]. *)
Definition isCommandAllowed (command : string) : bool :=
  if str_empty command then false else
  match regex_match arithmetic_pattern command with
  | Some _ => true
  | None => match regex_match simple_echo_pattern command with
            | Some _ => true
            | None => whitelisted command
            end
  end.

(** ** Execution *)

(** The replacement of each double quote by a backslash and a quote. *)
Fixpoint escape_quotes (s : string) : string :=
  match s with
  | "" => ""
  | String c r => if bool_decide (c = "034"%char) then String "\" (String "034" (escape_quotes r))
                  else String c (escape_quotes r)
  end.

Definition bash_command (command : string) : string :=
  "/bin/bash -c " +:+ String "034" (escape_quotes command +:+ String "034" "").

(** [while (fgets(buffer, 4096, pipe)) result += buffer]: a chunk ends after a newline or 4095
    bytes, and only its bytes before a null are appended. *)
Fixpoint fgets_loop (room : nat) (cut : bool) (s : string) : string :=
  match s with
  | "" => ""
  | String c r =>
      let cut := cut || bool_decide (c = Ascii.zero) in
      let rest := if bool_decide (c = "010"%char) || bool_decide (room = 1)
                  then fgets_loop (Z.to_nat 4095) false r else fgets_loop (room - 1) cut r in
      if cut then rest else String c rest
  end.

Context {OS : Type} (popen : string -> OS -> OS * option (string * Z)).

(** The pipe is opened, read to its end and closed. *)
Definition run_pipe (line : string) : M OS string := fun os =>
  match popen (c_str line) os with
  | (os, None) => (os, inl (runtime_error "popen() failed"))
  | (os, Some (out, status)) =>
      if (status =? 0)%Z then (os, inr (fgets_loop (Z.to_nat 4095) false out))
      else (os, inl (runtime_error ("Command exited with status " +:+ to_string status)))
  end.

(** [TaskAgent::executeBash]. *)
Definition executeBash (command : string) : M OS string :=
  of_result (validateCommand command) ;;
  out ← run_pipe (bash_command command);
  mret (drop_trailing isspace out).

Definition strategy_rejection (cmd : string) : string :=
  "Command does not match any allowed patterns." +:+ nl1 +:+ "Allowed patterns:" +:+ nl1
  +:+ "  1. Arithmetic: echo $((expression))" +:+ nl1 +:+ "  2. Simple echo: echo <text>" +:+ nl1
  +:+ "  3. Whitelisted commands: " +:+ join ", " command_order +:+ nl1 +:+ "Your command: " +:+ cmd.

(** [if (!s.empty() && s.back() == '\n') s.pop_back()]. *)
Fixpoint pop_newline (s : string) : string :=
  match s with
  | "" => ""
  | String c "" => if bool_decide (c = "010"%char) then "" else s
  | String c r => String c (pop_newline r)
  end.

(** [TaskExecutionStrategy::executeBashCommand]. *)
Definition executeBashCommand (cmd : string) : M OS string :=
  if negb (isCommandAllowed cmd) then throw (runtime_error (strategy_rejection cmd)) else
  out ← run_pipe cmd;
  mret (pop_newline out).
End validate.

(** ** Sanitized error messages *)

(** \/[^\s:]+\.(cpp|hpp|h|cc):?\d* *)
Definition path_regex : re :=
  Seq (Chr "/") (Seq (Plus (Cls (fun c => negb (isspace c) && negb (bool_decide (c = ":"%char)))))
    (Seq (Chr ".") (Seq (Grp (Alt (Lit "cpp") (Alt (Lit "hpp") (Alt (Lit "h") (Lit "cc")))))
      (Seq (Opt (Chr ":")) (Star (Cls isdigit)))))).
(** 0x[0-9a-fA-F]+ *)
Definition addr_regex : re := Seq (Lit "0x") (Plus (Cls isxdigit)).
(** (\w+::)+ *)
Definition namespace_regex : re := Plus (Grp (Seq (Plus (Cls isword)) (Lit "::"))).
(** what\(\):\s* *)
Definition what_prefix_regex : re := Seq (Lit "what():") (Star (Cls isspace)).
(** /home/\w+ and /usr/[^\s]+ *)
Definition home_regex : re := Seq (Lit "/home/") (Plus (Cls isword)).
Definition root_regex : re := Seq (Lit "/usr/") (Plus (Cls (fun c => negb (isspace c)))).

Definition sanitizeErrorMessage (error_message : string) (production_mode : bool) : string :=
  let s := regex_replace path_regex "[internal]" error_message in
  let s := regex_replace addr_regex "[address]" s in
  let s := if production_mode then regex_replace namespace_regex "[class]" s else s in
  let s := regex_replace what_prefix_regex "" s in
  if production_mode then
    regex_replace root_regex "[system]" (regex_replace home_regex "~" s)
  else s.

Definition createSafeErrorResponse (original_error user_facing_context : string)
    (production_mode : bool) : string :=
  let sanitized := sanitizeErrorMessage original_error production_mode in
  if str_empty user_facing_context then sanitized
  else user_facing_context +:+ ": " +:+ sanitized.
