(* ===== verification/CommandTheorems.v ===== *)
(** * Command validation: properties

    What the validators accept, where they differ, and what reaches the shell. *)

From S2P Require Import Prelude Effects Text Regex Commands.

(** ** Lemmas on text *)

Lemma c_str_id s : str_forall (fun c => negb (bool_decide (Ascii.zero = c))) s = true -> c_str s = s.
Proof.
  intros H. unfold c_str. replace (before_char Ascii.zero s) with (@None string); [done|].
  induction s as [|c s IH]; [done|]. simpl in *. apply andb_prop in H as [Hc Hs].
  apply negb_true_iff, bool_decide_eq_false in Hc. rewrite decide_False by done. by rewrite <- IH.
Qed.

Lemma fgets_loop_id room s :
  str_forall (fun c => negb (bool_decide (Ascii.zero = c))) s = true -> fgets_loop room false s = s.
Proof.
  revert room; induction s as [|c s IH]; intros room H; [done|]. simpl in *.
  apply andb_prop in H as [Hc Hs]. apply negb_true_iff, bool_decide_eq_false in Hc.
  rewrite (bool_decide_eq_false_2 (c = Ascii.zero)) by congruence. f_equal.
  destruct (_ || _); by apply IH.
Qed.

Lemma drop_trailing_none p s : str_forall (fun c => negb (p c)) s = true -> drop_trailing p s = s.
Proof.
  induction s as [|c s IH]; simpl; [done|]. intros [Hc%negb_true_iff Hs]%andb_prop.
  by rewrite Hc, IH.
Qed.

Lemma drop_trailing_app p a b : str_forall p b = true -> drop_trailing p (a +:+ b) = drop_trailing p a.
Proof.
  intros Hb. induction a as [|c a IH].
  - rewrite str_app_nil_l. induction b as [|c b IHb]; simpl in *; [done|].
    apply andb_prop in Hb as [-> Hb]. by rewrite IHb.
  - rewrite str_app_cons. simpl. by rewrite IH.
Qed.

Lemma skip_while_split p s : exists w, s = w +:+ skip_while p s /\ str_forall p w = true.
Proof. exists (take_while p s). split; [apply take_skip_while|apply take_while_forall]. Qed.

Lemma take_word_split s : exists r, s = take_word s +:+ r.
Proof.
  induction s as [|c s [r Hr]]; [by exists ""|]. simpl. destruct (isspace c); [by eexists|].
  exists r. by rewrite str_app_cons, <- Hr.
Qed.

Lemma substring_prefix_forall p (a b : string) n :
  n <= String.length a -> str_forall p a = true -> str_forall p (String.substring 0 n (a +:+ b)) = true.
Proof.
  revert n; induction a as [|c a IH]; intros n Hn Ha.
  - simpl in Hn. replace n with 0 by lia. by destruct b.
  - destruct n as [|n]; [done|]. rewrite str_app_cons. simpl in *. apply andb_prop in Ha as [-> Ha].
    apply IH; [lia|done].
Qed.

Lemma substring_drop s n : n <= String.length s -> s = String.substring 0 n s +:+ str_drop s n.
Proof.
  unfold str_drop. revert s; induction n as [|n IH]; intros s Hn.
  - rewrite Nat.sub_0_r, substring_full. by destruct s.
  - destruct s as [|c s]; [simpl in Hn; lia|]. simpl in *. rewrite str_app_cons. f_equal. apply IH. lia.
Qed.

(** A text is free of a set of characters when what is before and after a position is. *)
Lemma forall_split p s n :
  n <= String.length s -> str_forall p (String.substring 0 n s) = true ->
  str_forall p (str_drop s n) = true -> str_forall p s = true.
Proof. intros Hn H1 H2. rewrite (substring_drop s n Hn), str_forall_app. by rewrite H1, H2. Qed.

(** ** What the patterns accept *)

(** The characters no accepted command has: [;], [|], [&], the back quote, [<], [>] and the
    braces and brackets.  Not among them: the dollar sign, treated apart, and a newline and the
    parentheses, which are accepted. *)
Definition shell_meta : string := ";|&`<>{}[]".
Definition not_in (set : string) (c : ascii) : bool := negb (str_mem c set).

Lemma arith_not_meta c : is_arith c = true -> not_in shell_meta c = true.
Proof. destruct c as [[] [] [] [] [] [] [] []]; vm_compute; congruence. Qed.
Lemma simple_not_meta c : is_simple c = true -> not_in shell_meta c && not_in "$" c = true.
Proof. destruct c as [[] [] [] [] [] [] [] []]; vm_compute; congruence. Qed.
Lemma digit_not_meta c : isdigit c = true -> not_in shell_meta c && not_in "$" c = true.
Proof. destruct c as [[] [] [] [] [] [] [] []]; vm_compute; congruence. Qed.
Lemma space_not_meta c : isspace c = true -> not_in shell_meta c && not_in "$" c = true.
Proof. destruct c as [[] [] [] [] [] [] [] []]; vm_compute; congruence. Qed.
Lemma dangerous_not_meta c : not_in very_dangerous c = true -> not_in shell_meta c && not_in "$" c = true.
Proof. destruct c as [[] [] [] [] [] [] [] []]; vm_compute; congruence. Qed.

Lemma forall_and p q s : str_forall (fun c => p c && q c) s = str_forall p s && str_forall q s.
Proof. induction s as [|c s IH]; simpl; [done|]. rewrite IH. destruct (p c), (q c), (str_forall p s); done. Qed.

Definition harmless (c : ascii) : bool := not_in shell_meta c && not_in "$" c.

Lemma lang_arithmetic s : lang arithmetic_pattern s ->
  exists e, s = "echo $((" +:+ e +:+ "))" /\ str_forall is_arith e = true.
Proof.
  intros (s1 & s2 & -> & ->%lang_lit & (e & s3 & -> & [_ He]%lang_plus_cls & ->%lang_lit)%lang_seq_iff)%lang_seq_iff.
  eauto.
Qed.

Lemma lang_simple_echo s : lang simple_echo_pattern s <->
  exists t, s = "echo " +:+ t /\ t <> "" /\ str_forall is_simple t = true.
Proof.
  unfold simple_echo_pattern. rewrite lang_seq_iff. split.
  - intros (s1 & s2 & -> & ->%lang_lit & []%lang_plus_cls). eauto.
  - intros (t & -> & ? & ?). exists "echo ", t. split; [done|]. split; [by apply lang_lit|by apply lang_plus_cls].
Qed.

Lemma lang_sleep s : lang sleep_pattern s ->
  exists t, s = "sleep " +:+ t /\ str_forall (fun c => isdigit c || bool_decide ("."%char = c)) t = true.
Proof.
  intros (s1 & s2 & -> & ->%lang_lit & H)%lang_seq_iff.
  apply (proj1 (lang_grp_iff _ _)) in H. exists s2. split; [done|]. apply lang_seq_iff in H as (d1 & r & -> & [_ H1]%lang_plus_cls & Hr).
  assert (Hd : forall t, str_forall isdigit t = true ->
             str_forall (fun c => isdigit c || bool_decide ("."%char = c)) t = true).
  { intros t. apply str_forall_impl. by intros c ->. }
  rewrite str_forall_app, (Hd _ H1). simpl. apply lang_alt_iff in Hr as [Hr| ->%lang_eps_iff]; [|done].
  apply lang_seq_iff in Hr as (d & f & -> & (c & -> & Hc)%lang_cls_iff & [_ Hf]%lang_plus_cls).
  rewrite str_app_cons, str_app_nil_l. cbn [str_forall]. rewrite Hc, orb_true_r. by apply Hd.
Qed.

Lemma allowed_harmless b : b ∈ ALLOWED_COMMANDS -> str_forall harmless b = true.
Proof. intros H. unfold ALLOWED_COMMANDS in H. set_unfold. naive_solver. Qed.

Lemma whitelisted_harmless s : whitelisted s = true -> str_forall harmless s = true.
Proof.
  unfold whitelisted. case_bool_decide as Hin; [|done]. intros [Hargs _]%andb_prop.
  destruct (skip_while_split isspace s) as (w & Es & Hw).
  destruct (take_word_split (skip_while isspace s)) as [r Er].
  assert (Hpre : s = (w +:+ first_word s) +:+ r).
  { unfold first_word. by rewrite str_app_assoc, <- Er, <- Es. }
  apply (forall_split _ _ (String.length (first_word s))).
  - rewrite Hpre at 2. rewrite !str_app_length. lia.
  - rewrite Hpre at 2. apply substring_prefix_forall; [rewrite str_app_length; lia|].
    rewrite str_forall_app. apply andb_true_intro. split; [|by apply allowed_harmless].
    revert Hw. apply str_forall_impl, space_not_meta.
  - revert Hargs. apply str_forall_impl. apply dangerous_not_meta.
Qed.

Lemma harmless_split s : str_forall harmless s = true -> has_none_of shell_meta s = true /\ has_none_of "$" s = true.
Proof. unfold harmless. rewrite forall_and. by intros [? ?]%andb_prop. Qed.

Lemma validate_cases order s :
  validateCommand order s = inr tt ->
  lang arithmetic_pattern s \/ lang simple_echo_pattern s \/ lang sleep_pattern s \/ whitelisted s = true.
Proof.
  unfold validateCommand. destruct (str_empty s); [done|].
  rewrite <- !regex_match_lang.
  destruct (regex_match arithmetic_pattern s); [left; eauto|].
  destruct (regex_match simple_echo_pattern s); [right; left; eauto|].
  destruct (regex_match sleep_pattern s); [right; right; left; eauto|].
  destruct (whitelisted s); [|done]. auto.
Qed.

(** The sleep pattern and the other ways to be accepted exclude each other. *)
Lemma sleep_excludes s : lang sleep_pattern s ->
  ~ lang arithmetic_pattern s /\ ~ lang simple_echo_pattern s /\ whitelisted s = false.
Proof.
  intros (t & -> & _)%lang_sleep. split; [|split].
  - intros (e & He & _)%lang_arithmetic. done.
  - intros (e & He & _)%lang_simple_echo. done.
  - reflexivity.
Qed.

Lemma no_match r s : ~ lang r s -> regex_match r s = None.
Proof. intros H. destruct (regex_match r s) eqn:E; [|done]. destruct H. apply regex_match_lang. eauto. Qed.

Lemma validate_whitelisted order s : whitelisted s = true -> validateCommand order s = inr tt.
Proof.
  intros Hw. unfold validateCommand. destruct (str_empty s) eqn:He.
  { apply str_empty_true in He as ->. done. }
  destruct (regex_match arithmetic_pattern s); [done|]. destruct (regex_match simple_echo_pattern s); [done|].
  rewrite (no_match sleep_pattern), Hw; [done|]. intros (_ & _ & Hf)%sleep_excludes. congruence.
Qed.

(** ** The properties *)

(** C27: A command that TaskAgent::validateCommand accepts contains none of the ten characters
    semicolon, vertical bar, ampersand, back quote, less-than, greater-than, braces and square
    brackets; and if it contains a dollar sign it is an arithmetic expansion, echo $((e)) with e
    made of digits, operators, blanks and parentheses only.  (Newlines and parentheses are not
    among the ten: "ls (pwd)" is accepted.) *)
Theorem accepted_commands_safe (order : list string) (cmd : string) :
  validateCommand order cmd = inr tt ->
  has_none_of shell_meta cmd = true /\
  (has_none_of "$" cmd = true \/
   exists e, cmd = "echo $((" +:+ e +:+ "))" /\ str_forall is_arith e = true).
Proof.
  intros [H|[H|[H|H]]]%validate_cases.
  - apply lang_arithmetic in H as (e & -> & He). split; [|right; eauto].
    assert (He' : str_forall (not_in shell_meta) e = true) by (revert He; apply str_forall_impl, arith_not_meta).
    unfold has_none_of. fold (not_in shell_meta). rewrite !str_forall_app, He'. done.
  - apply lang_simple_echo in H as (t & -> & _ & Ht).
    destruct (harmless_split ("echo " +:+ t)); [|auto]. rewrite str_forall_app. simpl.
    revert Ht. apply str_forall_impl, simple_not_meta.
  - apply lang_sleep in H as (t & -> & Ht).
    destruct (harmless_split ("sleep " +:+ t)); [|auto]. rewrite str_forall_app. simpl.
    revert Ht. apply str_forall_impl. intros c [Hc|Hc%bool_decide_eq_true]%orb_prop; [|by subst].
    by apply digit_not_meta.
  - apply whitelisted_harmless, harmless_split in H. tauto.
Qed.

(** A newline is not among the rejected characters: after a whitelisted command and a
    newline, any further command line without the listed characters is accepted, and both lines
    are handed to the shell. *)
Lemma newline_injection {OS : Type} (order : list string) (popen : string -> OS -> OS * option (string * Z))
    (base script : string) (os : OS) :
  base ∈ ALLOWED_COMMANDS -> has_none_of very_dangerous script = true ->
  has_no_dotdot (nl1 +:+ script) = true ->
  validateCommand order (base +:+ nl1 +:+ script) = inr tt /\
  executeBash order popen (base +:+ nl1 +:+ script) os
  = (out ← run_pipe popen (bash_command (base +:+ nl1 +:+ script)); mret (drop_trailing isspace out)) os.
Proof.
  intros Hb Hs Hd.
  assert (Hv : validateCommand order (base +:+ nl1 +:+ script) = inr tt).
  { apply validate_whitelisted. unfold whitelisted.
    assert (Hw : first_word (base +:+ nl1 +:+ script) = base).
    { unfold ALLOWED_COMMANDS in Hb. set_unfold. naive_solver. }
    rewrite Hw, bool_decide_eq_true_2 by done.
    rewrite str_drop_app, Hd, andb_true_r. unfold has_none_of. rewrite str_forall_app. exact Hs. }
  split; [done|]. unfold executeBash. rewrite run_bind, Hv. done.
Qed.

(** The two validators agree on every command except sleeps: the strategy allows exactly
    the commands the task agent accepts that are not of the form "sleep N". *)
Lemma validators_agree (order : list string) (cmd : string) :
  isCommandAllowed cmd = true <->
  validateCommand order cmd = inr tt /\ regex_match sleep_pattern cmd = None.
Proof.
  unfold isCommandAllowed, validateCommand. destruct (str_empty cmd) eqn:He; [naive_solver|].
  destruct (regex_match arithmetic_pattern cmd) eqn:Ea.
  { rewrite (no_match sleep_pattern); [naive_solver|]. intros (Hn & _)%sleep_excludes. apply Hn.
    apply regex_match_lang. eauto. }
  destruct (regex_match simple_echo_pattern cmd) eqn:Es.
  { rewrite (no_match sleep_pattern); [naive_solver|]. intros (_ & Hn & _)%sleep_excludes. apply Hn.
    apply regex_match_lang. eauto. }
  destruct (regex_match sleep_pattern cmd) eqn:El.
  - assert (Hw : whitelisted cmd = false) by (apply sleep_excludes, regex_match_lang; eauto).
    rewrite Hw. naive_solver.
  - destruct (whitelisted cmd); naive_solver.
Qed.

(** ** Echoing a number *)

Lemma digits_no_zero ds : str_forall isdigit ds = true ->
  str_forall (fun c => negb (bool_decide (Ascii.zero = c))) ds = true.
Proof. apply str_forall_impl. intros c. destruct c as [[] [] [] [] [] [] [] []]; vm_compute; congruence. Qed.

Lemma validate_echo_digits order ds :
  ds <> "" -> str_forall isdigit ds = true -> validateCommand order ("echo " +:+ ds) = inr tt.
Proof.
  intros Hne Hd. unfold validateCommand. change (str_empty ("echo " +:+ ds)) with false. cbv iota.
  destruct (regex_match arithmetic_pattern _); [done|].
  destruct (regex_match_some simple_echo_pattern ("echo " +:+ ds)) as [g ->]; [|done].
  apply lang_simple_echo. exists ds. split; [done|]. split; [done|]. revert Hd. apply str_forall_impl.
  intros c Hc. unfold is_simple. by rewrite Hc, !orb_true_r.
Qed.

Lemma escape_quotes_digits ds : str_forall isdigit ds = true -> escape_quotes ds = ds.
Proof.
  induction ds as [|c ds IH]; simpl; [done|]. intros [Hc Hd]%andb_prop. rewrite IH by done.
  case_bool_decide; [|done]. subst. done.
Qed.

(** The line handed to the shell for a number. *)
Definition echo_line (ds : string) : string :=
  "/bin/bash -c " +:+ String "034" ("echo " +:+ ds +:+ String "034" "").

Lemma run_echo_digits {OS} order (popen : string -> OS -> OS * option (string * Z)) ds os os' :
  ds <> "" -> str_forall isdigit ds = true ->
  popen (echo_line ds) os = (os', Some (ds +:+ nl1, 0%Z)) ->
  executeBash order popen ("echo " +:+ ds) os = (os', inr ds).
Proof.
  intros Hne Hd Hp. unfold executeBash. rewrite run_bind, run_of_result, validate_echo_digits by done.
  cbv iota beta. rewrite run_bind. unfold run_pipe.
  assert (Hl : c_str (bash_command ("echo " +:+ ds)) = echo_line ds).
  { assert (Hb : bash_command ("echo " +:+ ds) = echo_line ds).
    { unfold bash_command, echo_line. do 2 f_equal. simpl. by rewrite escape_quotes_digits. }
    rewrite Hb. apply c_str_id. unfold echo_line. rewrite str_forall_app.
    apply andb_true_intro. split; [done|]. cbn [str_forall]. apply andb_true_intro. split; [done|].
    rewrite !str_forall_app, (digits_no_zero ds Hd). done. }
  rewrite Hl, Hp. cbn [Z.eqb]. rewrite fgets_loop_id.
  2: { by rewrite str_forall_app, (digits_no_zero ds Hd). }
  rewrite run_ret. do 2 f_equal. rewrite drop_trailing_app by done. apply drop_trailing_none.
  revert Hd. apply str_forall_impl. intros c. destruct c as [[] [] [] [] [] [] [] []]; vm_compute; congruence.
Qed.

(** ** Instances *)

(** Parentheses in the arguments of a whitelisted command are accepted. *)
Lemma parentheses_accepted : validateCommand ALLOWED_COMMANDS "ls (pwd)" = inr tt.
Proof. vm_compute. reflexivity. Qed.

Lemma accepted_commands_safe_witness :
  has_none_of shell_meta "grep -n main notes.txt" = true /\
  (has_none_of "$" "grep -n main notes.txt" = true \/
   exists e, "grep -n main notes.txt" = "echo $((" +:+ e +:+ "))" /\ str_forall is_arith e = true).
Proof. apply (accepted_commands_safe ALLOWED_COMMANDS). vm_compute. reflexivity. Defined.

(** A shell that records the lines it is given. *)
Definition recording (line : string) (os : list string) : list string * option (string * Z) :=
  (os ++ [line], Some ("", 0%Z)).

Lemma newline_injection_witness :
  validateCommand ALLOWED_COMMANDS ("pwd" +:+ nl1 +:+ "rm -rf /srv") = inr tt /\
  executeBash ALLOWED_COMMANDS recording ("pwd" +:+ nl1 +:+ "rm -rf /srv") []
  = (out ← run_pipe recording (bash_command ("pwd" +:+ nl1 +:+ "rm -rf /srv"));
     mret (drop_trailing isspace out)) [].
Proof.
  apply newline_injection; [|vm_compute; reflexivity|vm_compute; reflexivity].
  unfold ALLOWED_COMMANDS. set_solver.
Defined.

(** Removing the "what(): " prefix last can join the pieces of an address. *)
Lemma sanitized_address_survives : sanitizeErrorMessage "0what(): x7f" false = "0x7f".
Proof. vm_compute. reflexivity. Qed.
