(* ===== verification/FailureInjector.v ===== *)
(** * Failure injection

    src/core/failure_injector.cpp, class [FailureInjector]: crashed agents, delayed agents, a
    random failure rate, and counts.  The draws of [std::uniform_real_distribution] are a
    stream of rationals in [0, 1); the iteration order of the sets is a parameter. *)

From S2P Require Import Prelude Effects.
From Stdlib Require Import QArith.
#[local] Close Scope Q_scope.

Record FailureInjector := {
  crashed_agents_ : gset string;
  timeout_agents_ : gmap string Z;       (* delay in milliseconds *)
  failure_rate_ : Q;
  rolls : nat -> Q;                      (* dist_(rng_) *)
  roll_i : nat;
  total_failures_ : Z;                   (* int32_t *)
}.

Definition new_injector (stream : nat -> Q) : FailureInjector :=
  {| crashed_agents_ := ∅; timeout_agents_ := ∅; failure_rate_ := inject_Z 0; rolls := stream;
     roll_i := 0; total_failures_ := 0 |}.

(** The increment of an atomic [int32_t] wraps. *)
Definition incr32 (z : Z) : Z := ((z + 1 + 2 ^ 31) mod 2 ^ 32 - 2 ^ 31)%Z.

Definition injectAgentCrash (agent_id : string) (f : FailureInjector) : FailureInjector :=
  {| crashed_agents_ := {[agent_id]} ∪ crashed_agents_ f; timeout_agents_ := timeout_agents_ f;
     failure_rate_ := failure_rate_ f; rolls := rolls f; roll_i := roll_i f;
     total_failures_ := incr32 (total_failures_ f) |}.
Definition isAgentCrashed (agent_id : string) (f : FailureInjector) : bool :=
  bool_decide (agent_id ∈ crashed_agents_ f).
Definition recoverAgent (agent_id : string) (f : FailureInjector) : FailureInjector :=
  {| crashed_agents_ := crashed_agents_ f ∖ {[agent_id]}; timeout_agents_ := timeout_agents_ f;
     failure_rate_ := failure_rate_ f; rolls := rolls f; roll_i := roll_i f;
     total_failures_ := total_failures_ f |}.

Definition injectAgentTimeout (agent_id : string) (delay : Z) (f : FailureInjector) : FailureInjector :=
  {| crashed_agents_ := crashed_agents_ f; timeout_agents_ := <[agent_id := delay]> (timeout_agents_ f);
     failure_rate_ := failure_rate_ f; rolls := rolls f; roll_i := roll_i f;
     total_failures_ := incr32 (total_failures_ f) |}.
Definition getAgentTimeout (agent_id : string) (f : FailureInjector) : Z :=
  default 0%Z (timeout_agents_ f !! agent_id).
Definition clearAgentTimeout (agent_id : string) (f : FailureInjector) : FailureInjector :=
  {| crashed_agents_ := crashed_agents_ f; timeout_agents_ := delete agent_id (timeout_agents_ f);
     failure_rate_ := failure_rate_ f; rolls := rolls f; roll_i := roll_i f;
     total_failures_ := total_failures_ f |}.

(** [std::clamp(rate, 0.0, 1.0)]. *)
Definition clamp01 (q : Q) : Q :=
  if Qlt_le_dec q (inject_Z 0) then inject_Z 0
  else if Qlt_le_dec (inject_Z 1) q then inject_Z 1 else q.
Definition setFailureRate (rate : Q) (f : FailureInjector) : FailureInjector :=
  {| crashed_agents_ := crashed_agents_ f; timeout_agents_ := timeout_agents_ f;
     failure_rate_ := clamp01 rate; rolls := rolls f; roll_i := roll_i f;
     total_failures_ := total_failures_ f |}.

Definition injector_shouldFail (f : FailureInjector) : FailureInjector * bool :=
  ({| crashed_agents_ := crashed_agents_ f; timeout_agents_ := timeout_agents_ f;
      failure_rate_ := failure_rate_ f; rolls := rolls f; roll_i := S (roll_i f);
      total_failures_ := total_failures_ f |},
   if Qlt_le_dec (rolls f (roll_i f)) (failure_rate_ f) then true else false).

Definition shouldAgentFail (agent_id : string) (f : FailureInjector) : FailureInjector * bool :=
  if isAgentCrashed agent_id f then (f, true) else injector_shouldFail f.

(** [reset] keeps the failure rate. *)
Definition injector_reset (f : FailureInjector) : FailureInjector :=
  {| crashed_agents_ := ∅; timeout_agents_ := ∅; failure_rate_ := failure_rate_ f; rolls := rolls f;
     roll_i := roll_i f; total_failures_ := 0 |}.

(** ** Reports *)

Section reports.
Context `{!HashOrder} (set_order : gset string -> list string)   (* iteration of unordered_set *)
        (show_double : Q -> string).                              (* operator<< on the nearest double *)

Definition getFailedAgents (f : FailureInjector) : list string := set_order (crashed_agents_ f).
Definition getTimeoutAgents (f : FailureInjector) : list string := (hash_order (timeout_agents_ f)).*1.

Definition getStatistics (f : FailureInjector) : string :=
  let nl := String "010" "" in
  "FailureInjector Statistics:" +:+ nl
  +:+ "  Total failures injected: " +:+ to_string (total_failures_ f) +:+ nl
  +:+ "  Crashed agents: " +:+ to_string (Z.of_nat (length (getFailedAgents f))) +:+ nl
  +:+ foldr (fun a s => "    - " +:+ a +:+ nl +:+ s) "" (getFailedAgents f)
  +:+ "  Timeout agents: " +:+ to_string (Z.of_nat (length (getTimeoutAgents f))) +:+ nl
  +:+ foldr (fun a s => "    - " +:+ a +:+ " (" +:+ to_string (getAgentTimeout a f) +:+ "ms delay)" +:+ nl +:+ s)
        "" (getTimeoutAgents f)
  +:+ "  Random failure rate: " +:+ show_double (failure_rate_ f * inject_Z 100)%Q +:+ "%" +:+ nl.
End reports.

(** ** Properties *)

Inductive InjectorOp :=
| OCrash (a : string) | ORecover (a : string) | OTimeout (a : string) (d : Z) | OClear (a : string)
| ORate (q : Q) | ORoll | OAgentRoll (a : string) | OInjectorReset.

Definition injector_step (o : InjectorOp) (f : FailureInjector) : FailureInjector :=
  match o with
  | OCrash a => injectAgentCrash a f
  | ORecover a => recoverAgent a f
  | OTimeout a d => injectAgentTimeout a d f
  | OClear a => clearAgentTimeout a f
  | ORate q => setFailureRate q f
  | ORoll => (injector_shouldFail f).1
  | OAgentRoll a => (shouldAgentFail a f).1
  | OInjectorReset => injector_reset f
  end.

(** The rate stays in [0, 1]. *)
Definition rate_ok (f : FailureInjector) : Prop := (inject_Z 0 <= failure_rate_ f <= inject_Z 1)%Q.

Lemma clamp01_ok q : (inject_Z 0 <= clamp01 q <= inject_Z 1)%Q.
Proof.
  unfold clamp01. destruct (Qlt_le_dec q (inject_Z 0)); [by split|].
  destruct (Qlt_le_dec (inject_Z 1) q); by split.
Qed.

Lemma injector_step_rate o f : rate_ok f -> rate_ok (injector_step o f).
Proof.
  unfold rate_ok. destruct o; simpl; try done; [intros _; apply clamp01_ok|].
  unfold shouldAgentFail. by destruct (isAgentCrashed a f).
Qed.

(** Whether the last crash or recovery of [a] (a reset recovers every agent) was a crash. *)
Definition crashed_by (a : string) (b : bool) (o : InjectorOp) : bool :=
  match o with
  | OCrash a' => if decide (a = a') then true else b
  | ORecover a' => if decide (a = a') then false else b
  | OInjectorReset => false
  | _ => b
  end.

Lemma injector_step_crashed a o f :
  isAgentCrashed a (injector_step o f) = crashed_by a (isAgentCrashed a f) o.
Proof.
  unfold isAgentCrashed. destruct o; simpl; try done.
  - case_decide; [subst; apply bool_decide_eq_true_2; set_solver|].
    apply bool_decide_ext. set_solver.
  - case_decide; [subst; apply bool_decide_eq_false_2; set_solver|].
    apply bool_decide_ext. set_solver.
  - unfold shouldAgentFail. by destruct (isAgentCrashed a0 f).
Qed.

(** An agent is crashed exactly when its last crash was not followed by a recovery or a reset,
    the failure rate is always a probability, and a crashed agent fails every roll. *)
Lemma injector_history (a : string) (ops : list InjectorOp) (stream : nat -> Q) :
  let f := foldl (fun f o => injector_step o f) (new_injector stream) ops in
  isAgentCrashed a f = foldl (crashed_by a) false ops /\ rate_ok f /\
  (isAgentCrashed a f = true -> (shouldAgentFail a f).2 = true).
Proof.
  assert (H : forall f, rate_ok f ->
    isAgentCrashed a (foldl (fun f o => injector_step o f) f ops) = foldl (crashed_by a) (isAgentCrashed a f) ops
    /\ rate_ok (foldl (fun f o => injector_step o f) f ops)).
  { induction ops as [|o ops IH]; intros f Hf; [done|]. simpl.
    destruct (IH (injector_step o f)) as [H1 H2]; [by apply injector_step_rate|].
    by rewrite H1, injector_step_crashed. }
  intros f. destruct (H (new_injector stream)) as [H1 H2]; [by split|].
  split; [done|]. split; [done|]. intros Hc. unfold shouldAgentFail. by rewrite Hc.
Qed.
