(* ===== verification/Runtime.v ===== *)
(** * The agent runtime: coordination, agents, routing

    The hierarchy of agents of src/agents and include/agamemnon_agents/agents: the chief
    architect, component leads, module leads and task agents, with the coordination state of
    the leads (coordination_state.hpp), the template method they share (lead_agent_base.hpp,
    class [LeadAgent] here, with an instance per lead), the cores they extend ([AgentCore]) and
    the in-process router that connects them (core/in_process_router.hpp).

    Agents are objects shared by reference: the state holds them in one map by identity, and a
    message sent by one mutates the inbox of another, or adds a job to the scheduler when the
    receiver has one.  Coroutines are driven to completion where they are awaited, so
    [processMessage] is a direct call.  The parts under ENABLE_GRPC are in [GrpcAgents]. *)

From S2P Require Import Prelude Effects Text Regex AgentMessages CoreMetrics AgentCore Commands.
From S2P Require Import FailureInjector.

(** ** Coordination state *)

Record CoordinationState (St : Type) := {
  current_state_ : St;
  execution_trace_ : list string;
  expected_results_ : nat;
  received_results_ : nat;
  failed_results_ : nat;
  results_ : list string;
  failure_messages_ : list string;
  pending_subordinates_ : gmap string string;     (* message id -> subordinate *)
  current_goal_ : string;
  requester_id_ : string;
}.
Arguments current_state_ {St}.
Arguments execution_trace_ {St}.
Arguments expected_results_ {St}.
Arguments received_results_ {St}.
Arguments failed_results_ {St}.
Arguments results_ {St}.
Arguments failure_messages_ {St}.
Arguments pending_subordinates_ {St}.
Arguments current_goal_ {St}.
Arguments requester_id_ {St}.

Section coordination.
Context {St : Type}.

Definition new_coordination (idle : St) : CoordinationState St :=
  {| current_state_ := idle; execution_trace_ := []; expected_results_ := 0; received_results_ := 0;
     failed_results_ := 0; results_ := []; failure_messages_ := []; pending_subordinates_ := ∅;
     current_goal_ := ""; requester_id_ := "" |}.

Definition coord_transitionTo (new_state : St) (state_name : string) (k : CoordinationState St)
    : CoordinationState St :=
  {| current_state_ := new_state; execution_trace_ := execution_trace_ k ++ [state_name];
     expected_results_ := expected_results_ k; received_results_ := received_results_ k;
     failed_results_ := failed_results_ k; results_ := results_ k;
     failure_messages_ := failure_messages_ k; pending_subordinates_ := pending_subordinates_ k;
     current_goal_ := current_goal_ k; requester_id_ := requester_id_ k |}.

Definition initializeCoordination (expected_count : nat) (k : CoordinationState St)
    : CoordinationState St :=
  {| current_state_ := current_state_ k; execution_trace_ := execution_trace_ k;
     expected_results_ := expected_count; received_results_ := 0; failed_results_ := 0;
     results_ := []; failure_messages_ := []; pending_subordinates_ := ∅;
     current_goal_ := current_goal_ k; requester_id_ := requester_id_ k |}.

Definition isComplete (k : CoordinationState St) : bool :=
  bool_decide (expected_results_ k <= received_results_ k).

(** Both return whether every expected result is in. *)
Definition recordResult (result : string) (k : CoordinationState St) : CoordinationState St * bool :=
  let k := {| current_state_ := current_state_ k; execution_trace_ := execution_trace_ k;
              expected_results_ := expected_results_ k; received_results_ := S (received_results_ k);
              failed_results_ := failed_results_ k; results_ := results_ k ++ [result];
              failure_messages_ := failure_messages_ k;
              pending_subordinates_ := pending_subordinates_ k;
              current_goal_ := current_goal_ k; requester_id_ := requester_id_ k |} in
  (k, isComplete k).
Definition recordFailure (error_msg : string) (k : CoordinationState St) : CoordinationState St * bool :=
  let k := {| current_state_ := current_state_ k; execution_trace_ := execution_trace_ k;
              expected_results_ := expected_results_ k; received_results_ := S (received_results_ k);
              failed_results_ := S (failed_results_ k); results_ := results_ k;
              failure_messages_ := failure_messages_ k ++ [error_msg];
              pending_subordinates_ := pending_subordinates_ k;
              current_goal_ := current_goal_ k; requester_id_ := requester_id_ k |} in
  (k, isComplete k).

Definition hasFailures (k : CoordinationState St) : bool := bool_decide (0 < failed_results_ k).

Definition trackPendingSubordinate (id subordinate : string) (k : CoordinationState St)
    : CoordinationState St :=
  {| current_state_ := current_state_ k; execution_trace_ := execution_trace_ k;
     expected_results_ := expected_results_ k; received_results_ := received_results_ k;
     failed_results_ := failed_results_ k; results_ := results_ k;
     failure_messages_ := failure_messages_ k;
     pending_subordinates_ := <[id := subordinate]> (pending_subordinates_ k);
     current_goal_ := current_goal_ k; requester_id_ := requester_id_ k |}.

(** [setCurrentGoal(goal)] and [setRequesterId(id)]. *)
Definition setGoal (goal requester : string) (k : CoordinationState St) : CoordinationState St :=
  {| current_state_ := current_state_ k; execution_trace_ := execution_trace_ k;
     expected_results_ := expected_results_ k; received_results_ := received_results_ k;
     failed_results_ := failed_results_ k; results_ := results_ k;
     failure_messages_ := failure_messages_ k; pending_subordinates_ := pending_subordinates_ k;
     current_goal_ := goal; requester_id_ := requester |}.
End coordination.

(** ** The agents *)

Inductive ModuleLeadState := M_IDLE | M_PLANNING | M_WAITING_FOR_TASKS | M_SYNTHESIZING | M_ERROR.
Inductive ComponentLeadState :=
  C_IDLE | C_PLANNING | C_WAITING_FOR_MODULES | C_AGGREGATING | C_ERROR.

#[global] Instance ModuleLeadState_eq_dec : EqDecision ModuleLeadState.
Proof. solve_decision. Defined.
#[global] Instance ComponentLeadState_eq_dec : EqDecision ComponentLeadState.
Proof. solve_decision. Defined.

(** Data members of [TaskAgent]. *)
Record TaskState := {
  command_log_ : list (string * string);
  failed_ : bool;
  failure_reason_ : string;
  failure_injector_ : bool;                (* failure_injector_ != nullptr *)
}.

Inductive AgentKind :=
| KChief
| KComponent (coordination : CoordinationState ComponentLeadState) (available_module_leads : list string)
| KModule (coordination : CoordinationState ModuleLeadState) (available_task_agents : list string)
| KTask (t : TaskState).

Section runtime.
Context `{CQ : !ConcurrentQueue KeystoneMessage, HO : !HashOrder}.
Context {OS : Type} (command_order : list string) (popen : string -> OS -> OS * option (string * Z)).

Record Agent := { a_core : AgentCore; a_kind : AgentKind }.

(** [class InProcessRouter]: ids to agents, null pointers included. *)
Record Router := { r_agents : gmap string (option string); r_scheduler : bool }.

Record Runtime := {
  rt_amb : Ambient;
  rt_agents : gmap string Agent;                  (* the objects, by their agent_id_ *)
  rt_router : Router;
  rt_metrics : CoreMetrics;
  rt_jobs : list (string * KeystoneMessage);      (* lambdas submitted to the scheduler, not yet run *)
  rt_os : OS;
  rt_injector : FailureInjector;
}.

Definition set_amb (x : Ambient) (r : Runtime) : Runtime :=
  {| rt_amb := x; rt_agents := rt_agents r; rt_router := rt_router r; rt_metrics := rt_metrics r;
     rt_jobs := rt_jobs r; rt_os := rt_os r; rt_injector := rt_injector r |}.
Definition set_agents (x : gmap string Agent) (r : Runtime) : Runtime :=
  {| rt_amb := rt_amb r; rt_agents := x; rt_router := rt_router r; rt_metrics := rt_metrics r;
     rt_jobs := rt_jobs r; rt_os := rt_os r; rt_injector := rt_injector r |}.
Definition set_router (x : Router) (r : Runtime) : Runtime :=
  {| rt_amb := rt_amb r; rt_agents := rt_agents r; rt_router := x; rt_metrics := rt_metrics r;
     rt_jobs := rt_jobs r; rt_os := rt_os r; rt_injector := rt_injector r |}.
Definition set_rt_metrics (x : CoreMetrics) (r : Runtime) : Runtime :=
  {| rt_amb := rt_amb r; rt_agents := rt_agents r; rt_router := rt_router r; rt_metrics := x;
     rt_jobs := rt_jobs r; rt_os := rt_os r; rt_injector := rt_injector r |}.
Definition set_jobs (x : list (string * KeystoneMessage)) (r : Runtime) : Runtime :=
  {| rt_amb := rt_amb r; rt_agents := rt_agents r; rt_router := rt_router r; rt_metrics := rt_metrics r;
     rt_jobs := x; rt_os := rt_os r; rt_injector := rt_injector r |}.
Definition set_os (x : OS) (r : Runtime) : Runtime :=
  {| rt_amb := rt_amb r; rt_agents := rt_agents r; rt_router := rt_router r; rt_metrics := rt_metrics r;
     rt_jobs := rt_jobs r; rt_os := x; rt_injector := rt_injector r |}.
Definition set_injector (x : FailureInjector) (r : Runtime) : Runtime :=
  {| rt_amb := rt_amb r; rt_agents := rt_agents r; rt_router := rt_router r; rt_metrics := rt_metrics r;
     rt_jobs := rt_jobs r; rt_os := rt_os r; rt_injector := x |}.

#[global] Program Instance runtime_has_env : HasEnv Runtime :=
  {| env_of := fun r => a_env (rt_amb r); with_env := fun e r => set_amb (with_env e (rt_amb r)) r |}.
Next Obligation. done. Qed.
Next Obligation. done. Qed.
Next Obligation. by intros [[] ? ? ? ? ? ?]. Qed.

(** The constructors; a lead's records its first state. *)
Definition new_chief (id : string) : Agent := {| a_core := new_core id; a_kind := KChief |}.
Definition new_component_lead (id : string) : Agent :=
  {| a_core := new_core id;
     a_kind := KComponent (coord_transitionTo C_IDLE "IDLE" (new_coordination C_IDLE)) [] |}.
Definition new_module_lead (id : string) : Agent :=
  {| a_core := new_core id;
     a_kind := KModule (coord_transitionTo M_IDLE "IDLE" (new_coordination M_IDLE)) [] |}.
Definition new_task_agent (id : string) : Agent :=
  {| a_core := new_core id;
     a_kind := KTask {| command_log_ := []; failed_ := false; failure_reason_ := "";
                        failure_injector_ := false |} |}.

Abbreviation RM := (M Runtime).

(** [std::chrono::steady_clock::now()]. *)
Definition steady_now : RM Z := fun r =>
  let a := rt_amb r in
  (set_amb {| a_env := a_env a; a_steady := a_steady a; a_steady_i := S (a_steady_i a) |} r,
   inr (a_steady a (a_steady_i a))).

(** [e.what()] of the exceptions the runtime throws. *)
Definition std_what (e : exn) : string :=
  match e with
  | invalid_argument w | out_of_range w | runtime_error w => w
  | type_error _ | parse_error => ""
  end.

(** The object [self]; a shared pointer keeps it alive while one of its members runs. *)
Definition this (self : string) : RM Agent := fun r =>
  match rt_agents r !! self with
  | Some a => (r, inr a)
  | None => (r, inl (runtime_error "destroyed"))
  end.
Definition upd_agent (self : string) (f : Agent -> Agent) : RM unit :=
  modify (fun r => set_agents (alter f self (rt_agents r)) r).
Definition upd_core (self : string) (f : AgentCore -> AgentCore) : RM unit :=
  upd_agent self (fun a => {| a_core := f (a_core a); a_kind := a_kind a |}).
Definition upd_kind (self : string) (f : AgentKind -> AgentKind) : RM unit :=
  upd_agent self (fun a => {| a_core := a_core a; a_kind := f (a_kind a) |}).
Definition upd_metrics (f : CoreMetrics -> CoreMetrics) : RM unit :=
  modify (fun r => set_rt_metrics (f (rt_metrics r)) r).

(** ** The router *)

(** [registerAgent(agent_id, agent)] with a pointer that may be null. *)
Definition registerAgent (agent_id : string) (agent : option string) : RM unit :=
  r ← get;
  match r_agents (rt_router r) !! agent_id with
  | Some _ => throw (runtime_error ("InProcessRouter::registerAgent: agent already registered: " +:+ agent_id))
  | None =>
      (match agent with
       | Some o => when (r_scheduler (rt_router r)) (upd_core o (setScheduler true))
       | None => mret tt
       end) ;;
      modify (fun r => set_router {| r_agents := <[agent_id := agent]> (r_agents (rt_router r));
                                     r_scheduler := r_scheduler (rt_router r) |} r)
  end.

(** The overload that registers an agent under its own id. *)
Definition registerAgent_self (agent : option string) : RM unit :=
  match agent with
  | None => throw (runtime_error "InProcessRouter::registerAgent: null agent pointer")
  | Some o => a ← this o; registerAgent (agent_id_ (a_core a)) (Some o)
  end.

Definition unregisterAgent (agent_id : string) : RM unit :=
  modify (fun r => set_router {| r_agents := delete agent_id (r_agents (rt_router r));
                                 r_scheduler := r_scheduler (rt_router r) |} r).

(** [setScheduler(scheduler)]: the pointer is passed on to every registered agent. *)
Definition router_setScheduler (b : bool) : RM unit :=
  modify (fun r => set_router {| r_agents := r_agents (rt_router r); r_scheduler := b |} r) ;;
  r ← get;
  for_each (hash_order (r_agents (rt_router r)))
    (fun kv => match kv.2 with Some o => upd_core o (setScheduler b) | None => mret tt end).

Definition hasAgent (agent_id : string) : RM bool :=
  gets (fun r => bool_decide (is_Some (r_agents (rt_router r) !! agent_id))).
Definition listAgents : RM (list string) := gets (fun r => (hash_order (r_agents (rt_router r))).*1).

(** [AsyncAgent::receiveMessage]: the inbox, or a job for the scheduler. *)
Definition receiveMessage (self : string) (msg : KeystoneMessage) : RM unit :=
  a ← this self;
  if scheduler_ (a_core a)
  then modify (fun r => set_jobs (rt_jobs r ++ [(self, msg)]) r)
  else upd_core self (core_receiveMessage msg).

Definition routeMessage (msg : KeystoneMessage) : RM bool :=
  r ← get;
  match r_agents (rt_router r) !! receiver_id msg with
  | None | Some None => mret false
  | Some (Some o) => receiveMessage o msg ;; mret true
  end.

(** ** [AgentCore] and [AsyncAgent] as members of an object *)

Definition sendMessage (self : string) (msg : KeystoneMessage) : RM unit :=
  a ← this self;
  if negb (message_bus_ (a_core a))
  then throw (runtime_error ("Message bus not set for agent: " +:+ agent_id_ (a_core a)))
  else _ ← routeMessage msg; mret tt.

Definition getMessage (self : string) : RM (option KeystoneMessage) :=
  a ← this self;
  now ← steady_now;
  let '(c, m) := core_getMessage now (a_core a) in
  upd_core self (fun _ => c) ;;
  when (bool_decide (is_Some m))
    (upd_metrics (recordQueueDepth (agent_id_ c) (Z.of_nat (total_depth c)))) ;;
  mret m.

Definition setMessageBus (self : string) (null : bool) : RM unit :=
  a ← this self;
  c ← of_result (core_setMessageBus null (a_core a));
  upd_core self (fun _ => c).

Definition handleCancellation (self : string) (msg : KeystoneMessage) : RM AgentResponse :=
  a ← this self;
  match task_id msg with
  | None => createError msg (agent_id_ (a_core a)) "CANCEL_TASK message missing task_id"
  | Some t =>
      upd_core self (requestCancellation t) ;;
      createSuccess msg (agent_id_ (a_core a)) ("Task " +:+ t +:+ " marked for cancellation")
  end.

(** A message back to the sender of [msg], with its id. *)
Definition reply_to (self : string) (msg : KeystoneMessage) (text : string) : RM unit :=
  m ← msg_create self (sender_id msg) "response" (Some text);
  sendMessage self (with_msg_id (msg_id msg) m).

(** ** The lead agents: the template method *)

(** What a lead agent supplies: its states and its hooks. *)
Class LeadAgent (St : Type) := {
  idle_state_ : St;
  planning_state_ : St;
  waiting_state_ : St;
  aggregating_state_ : St;
  error_state_ : St;
  stateToString : St -> string;
  isSubordinateResult : KeystoneMessage -> bool;
  decomposeGoal : string -> list string;
  delegateSubtasks : string -> list string -> RM unit;
  processSubordinateResult : string -> KeystoneMessage -> RM unit;
  upd_coord : (CoordinationState St -> CoordinationState St) -> AgentKind -> AgentKind;
  coord_of : AgentKind -> option (CoordinationState St);
}.

Section lead.
Context {St : Type} `{L : !LeadAgent St}.

(** [coordination_] of [self] and its update. *)
Definition coordination_ (self : string) : RM (CoordinationState St) :=
  a ← this self;
  match coord_of (a_kind a) with
  | Some k => mret k
  | None => throw (runtime_error "destroyed")
  end.
Definition transitionTo (self : string) (s : St) : RM unit :=
  upd_kind self (upd_coord (coord_transitionTo s (stateToString s))).

Definition processSubordinateFailure (self : string) (failure_msg : KeystoneMessage) : RM unit :=
  let error := default "subordinate task failed" (payload failure_msg) in
  k ← coordination_ self;
  let '(k, all_done) := recordFailure error k in
  upd_kind self (upd_coord (fun _ => k)) ;;
  when all_done
    (transitionTo self error_state_ ;;
     k ← coordination_ self;
     when (negb (str_empty (requester_id_ k)))
       (m ← msg_create_action self (requester_id_ k) TASK_FAILED (session_id failure_msg) (Some error) TEXT_PLAIN;
        sendMessage self m)).

(** [std::numeric_limits<int>::max()]. *)
Definition INT_MAX : Z := (2 ^ 31 - 1)%Z.

Definition lead_processMessage (self : string) (msg : KeystoneMessage) : RM AgentResponse :=
  if decide (action_type msg = CANCEL_TASK) then
    response ← handleCancellation self msg;
    reply_to self msg (rs_result response) ;;
    mret response
  else if decide (action_type msg = TASK_FAILED) then
    processSubordinateFailure self msg ;;
    createSuccess msg self "Subordinate failure recorded"
  else if isSubordinateResult msg then
    processSubordinateResult self msg ;;
    createSuccess msg self "Subordinate result processed"
  else
    transitionTo self planning_state_ ;;
    upd_kind self (upd_coord (setGoal (command msg) (sender_id msg))) ;;
    let subtasks := decomposeGoal (command msg) in
    match subtasks with
    | [] =>
        transitionTo self error_state_ ;;
        createError msg self "Failed to decompose goal"
    | _ =>
        if (INT_MAX <? Z.of_nat (length subtasks))%Z then
          transitionTo self error_state_ ;;
          createError msg self ("Subtask count exceeds maximum: " +:+ to_string (Z.of_nat (length subtasks))
                                +:+ " > " +:+ to_string INT_MAX)
        else
          upd_kind self (upd_coord (initializeCoordination (length subtasks))) ;;
          transitionTo self waiting_state_ ;;
          delegateSubtasks self subtasks ;;
          createSuccess msg self ("Goal decomposed into " +:+ to_string (Z.of_nat (length subtasks)) +:+ " subtasks")
    end.
End lead.

(** ** Module leads *)

Definition module_stateToString (s : ModuleLeadState) : string :=
  match s with
  | M_IDLE => "IDLE" | M_PLANNING => "PLANNING" | M_WAITING_FOR_TASKS => "WAITING_FOR_TASKS"
  | M_SYNTHESIZING => "SYNTHESIZING" | M_ERROR => "ERROR"
  end.

Definition module_isSubordinateResult (msg : KeystoneMessage) : bool :=
  str_eqb (command msg) "response" && negb (bool_decide (action_type msg = TASK_FAILED)).

(** \d+ *)
Definition number_regex : re := Plus (Cls isdigit).

Definition module_decomposeGoal (goal : string) : list string :=
  map (fun m => "echo " +:+ consumed m) (sregex_iterator number_regex goal).

Definition module_upd_coord (f : CoordinationState ModuleLeadState -> CoordinationState ModuleLeadState)
    (k : AgentKind) : AgentKind :=
  match k with KModule c l => KModule (f c) l | _ => k end.
Definition module_coord_of (k : AgentKind) : option (CoordinationState ModuleLeadState) :=
  match k with KModule c _ => Some c | _ => None end.

(** [available_task_agents_]. *)
Definition available_task_agents_ (self : string) : RM (list string) :=
  a ← this self;
  mret (match a_kind a with KModule _ l => l | _ => [] end).

(** The loop of [delegateSubtasks], from index [i]. *)
Fixpoint module_delegate_from (self : string) (i : nat) (subtasks : list string) : RM unit :=
  match subtasks with
  | [] => mret tt
  | t :: subtasks =>
      avail ← available_task_agents_ self;
      match avail !! (i mod length avail)%nat with
      | None => throw (runtime_error "No TaskAgents available for delegation")
      | Some task_agent_id =>
          m ← msg_create self task_agent_id t None;
          upd_kind self (module_upd_coord (trackPendingSubordinate (msg_id m) task_agent_id)) ;;
          sendMessage self m ;;
          module_delegate_from self (S i) subtasks
      end
  end.

(** [coordination_.transitionTo(s, stateToString(s))]. *)
Definition module_transitionTo (self : string) (s : ModuleLeadState) : RM unit :=
  upd_kind self (module_upd_coord (coord_transitionTo s (module_stateToString s))).
Definition module_coordination (self : string) : RM (CoordinationState ModuleLeadState) :=
  a ← this self;
  match module_coord_of (a_kind a) with
  | Some k => mret k
  | None => throw (runtime_error "destroyed")
  end.

Definition module_processSubordinateResult (self : string) (msg : KeystoneMessage) : RM unit :=
  match payload msg with
  | None => mret tt
  | Some p =>
      k ← module_coordination self;
      let '(k, all_complete) := recordResult p k in
      upd_kind self (module_upd_coord (fun _ => k)) ;;
      when all_complete
        (if hasFailures k then module_transitionTo self M_ERROR else module_transitionTo self M_SYNTHESIZING)
  end.

#[global] Instance ModuleLeadAgent : LeadAgent ModuleLeadState :=
  {| idle_state_ := M_IDLE; planning_state_ := M_PLANNING; waiting_state_ := M_WAITING_FOR_TASKS;
     aggregating_state_ := M_SYNTHESIZING; error_state_ := M_ERROR;
     stateToString := module_stateToString; isSubordinateResult := module_isSubordinateResult;
     decomposeGoal := module_decomposeGoal;
     delegateSubtasks := fun self => module_delegate_from self 0;
     processSubordinateResult := module_processSubordinateResult;
     upd_coord := module_upd_coord; coord_of := module_coord_of |}.

(** The sum of the results that are numbers, in 32 bits. *)
Definition wrap_int (z : Z) : Z := ((z + 2 ^ 31) mod 2 ^ 32 - 2 ^ 31)%Z.
Definition sum_results (results : list string) : Z :=
  foldl (fun total r => match stoi r with inr v => wrap_int (total + v) | inl _ => total end) 0%Z results.

(** The report of a lead whose state is ERROR. *)
Definition error_report {St} (what : string) (k : CoordinationState St) : string :=
  "ERROR: " +:+ to_string (Z.of_nat (failed_results_ k)) +:+ what
  +:+ match failure_messages_ k with [] => "" | f :: _ => ": " +:+ f end.

Definition synthesizeResults (self : string) : RM string :=
  k ← module_coordination self;
  match current_state_ k with
  | M_ERROR => mret (error_report " subordinate task(s) failed" k)
  | M_SYNTHESIZING | M_WAITING_FOR_TASKS =>
      module_transitionTo self M_IDLE ;;
      mret ("Module result: Sum = " +:+ to_string (sum_results (results_ k)))
  | _ => mret "ERROR: Cannot synthesize in current state"
  end.

Definition setAvailableTaskAgents (self : string) (ids : list string) : RM unit :=
  upd_kind self (fun k => match k with KModule c _ => KModule c ids | _ => k end).

(** ** Component leads *)

Definition component_stateToString (s : ComponentLeadState) : string :=
  match s with
  | C_IDLE => "IDLE" | C_PLANNING => "PLANNING" | C_WAITING_FOR_MODULES => "WAITING_FOR_MODULES"
  | C_AGGREGATING => "AGGREGATING" | C_ERROR => "ERROR"
  end.

Definition component_isSubordinateResult (msg : KeystoneMessage) : bool :=
  str_eqb (command msg) "module_result".

(** A name and, in parentheses, digits and plus signs. *)
Definition is_sum_char (c : ascii) : bool := isdigit c || bool_decide (c = "+"%char).
Definition module_regex : re :=
  Seq (Grp (Plus (Cls isword))) (Seq (Chr "(") (Seq (Grp (Plus (Cls is_sum_char))) (Chr ")"))).

Definition component_decomposeGoal (goal : string) : list string :=
  map (fun m => match captures m with
                | [name; numbers] => "Calculate " +:+ name +:+ ": " +:+ numbers
                | _ => ""
                end) (sregex_iterator module_regex goal).

Definition component_upd_coord (f : CoordinationState ComponentLeadState -> CoordinationState ComponentLeadState)
    (k : AgentKind) : AgentKind :=
  match k with KComponent c l => KComponent (f c) l | _ => k end.
Definition component_coord_of (k : AgentKind) : option (CoordinationState ComponentLeadState) :=
  match k with KComponent c _ => Some c | _ => None end.

Definition available_module_leads_ (self : string) : RM (list string) :=
  a ← this self;
  mret (match a_kind a with KComponent _ l => l | _ => [] end).

Fixpoint component_delegate_from (self : string) (i : nat) (subtasks : list string) : RM unit :=
  match subtasks with
  | [] => mret tt
  | t :: subtasks =>
      avail ← available_module_leads_ self;
      match avail, avail !! i with
      | [], _ => throw (runtime_error "No ModuleLeadAgents available for delegation")
      | _, None => throw (runtime_error "Not enough ModuleLeadAgents for all modules")
      | _, Some module_lead_id =>
          m ← msg_create self module_lead_id t None;
          upd_kind self (component_upd_coord (trackPendingSubordinate (msg_id m) module_lead_id)) ;;
          sendMessage self m ;;
          component_delegate_from self (S i) subtasks
      end
  end.

Definition component_transitionTo (self : string) (s : ComponentLeadState) : RM unit :=
  upd_kind self (component_upd_coord (coord_transitionTo s (component_stateToString s))).
Definition component_coordination (self : string) : RM (CoordinationState ComponentLeadState) :=
  a ← this self;
  match component_coord_of (a_kind a) with
  | Some k => mret k
  | None => throw (runtime_error "destroyed")
  end.

Definition component_processSubordinateResult (self : string) (msg : KeystoneMessage) : RM unit :=
  match payload msg with
  | None => mret tt
  | Some p =>
      k ← component_coordination self;
      let '(k, all_complete) := recordResult p k in
      upd_kind self (component_upd_coord (fun _ => k)) ;;
      when all_complete (component_transitionTo self C_AGGREGATING)
  end.

#[global] Instance ComponentLeadAgent : LeadAgent ComponentLeadState :=
  {| idle_state_ := C_IDLE; planning_state_ := C_PLANNING; waiting_state_ := C_WAITING_FOR_MODULES;
     aggregating_state_ := C_AGGREGATING; error_state_ := C_ERROR;
     stateToString := component_stateToString; isSubordinateResult := component_isSubordinateResult;
     decomposeGoal := component_decomposeGoal;
     delegateSubtasks := fun self => component_delegate_from self 0;
     processSubordinateResult := component_processSubordinateResult;
     upd_coord := component_upd_coord; coord_of := component_coord_of |}.

Definition synthesizeComponentResult (self : string) : RM string :=
  k ← component_coordination self;
  match current_state_ k with
  | C_ERROR => mret (error_report " subordinate module(s) failed" k)
  | C_AGGREGATING | C_WAITING_FOR_MODULES =>
      component_transitionTo self C_IDLE ;;
      mret ("Component result: " +:+ join ", " (results_ k))
  | _ => mret "ERROR: Cannot synthesize in current state"
  end.

Definition setAvailableModuleLeads (self : string) (ids : list string) : RM unit :=
  upd_kind self (fun k => match k with KComponent c _ => KComponent c ids | _ => k end).

(** ** Task agents *)

Definition upd_task (f : TaskState -> TaskState) (k : AgentKind) : AgentKind :=
  match k with KTask t => KTask (f t) | _ => k end.

Definition markAsFailed (self reason : string) : RM unit :=
  upd_kind self (upd_task (fun t =>
    {| command_log_ := command_log_ t; failed_ := true; failure_reason_ := reason;
       failure_injector_ := failure_injector_ t |})).
Definition recover (self : string) : RM unit :=
  upd_kind self (upd_task (fun t =>
    {| command_log_ := command_log_ t; failed_ := false; failure_reason_ := "";
       failure_injector_ := false |})).
Definition setFailureInjector (self : string) (attached : bool) : RM unit :=
  upd_kind self (upd_task (fun t =>
    {| command_log_ := command_log_ t; failed_ := failed_ t; failure_reason_ := failure_reason_ t;
       failure_injector_ := attached |})).
Definition log_command (self cmd result : string) : RM unit :=
  upd_kind self (upd_task (fun t =>
    {| command_log_ := command_log_ t ++ [(cmd, result)]; failed_ := failed_ t;
       failure_reason_ := failure_reason_ t; failure_injector_ := failure_injector_ t |})).

Definition task_of (self : string) : RM TaskState :=
  a ← this self;
  match a_kind a with KTask t => mret t | _ => throw (runtime_error "destroyed") end.

(** [TaskAgent::shouldFail]. *)
Definition task_shouldFail (self : string) : RM bool :=
  t ← task_of self;
  if negb (failure_injector_ t) then mret false else
  fun r => let '(f, b) := shouldAgentFail self (rt_injector r) in (set_injector f r, inr b).

Definition exec (m : M OS string) : RM string := zoom rt_os set_os m.

Definition task_processMessage (self : string) (msg : KeystoneMessage) : RM AgentResponse :=
  now ← steady_now;
  upd_metrics (recordMessageProcessed (msg_id msg) now) ;;
  t ← task_of self;
  if failed_ t then
    response ← createError msg self ("Agent is in failed state: " +:+ failure_reason_ t);
    reply_to self msg (rs_result response) ;;
    mret response
  else if decide (action_type msg = CANCEL_TASK) then
    response ← handleCancellation self msg;
    reply_to self msg (rs_result response) ;;
    mret response
  else
    passed ← hasDeadlinePassed msg;
    when passed (_ ← getTimeUntilDeadline msg; upd_metrics (recordDeadlineMiss 0)) ;;
    try_catch
      (result ← exec (executeBash command_order popen (command msg));
       log_command self (command msg) result ;;
       response ← createSuccess msg self result;
       reply_to self msg result ;;
       mret response)
      (fun e =>
         let sanitized_error := sanitizeErrorMessage (std_what e) false in
         response ← createError msg self sanitized_error;
         m ← msg_create self (sender_id msg) "response" (Some ("ERROR: " +:+ sanitized_error));
         sendMessage self (with_msg_id (msg_id msg) (with_action TASK_FAILED m)) ;;
         mret response).

(** [TaskExecutionStrategy::process]. *)
Definition strategy_process (msg : KeystoneMessage) : RM AgentResponse :=
  try_catch
    (result ← exec (executeBashCommand command_order popen (command msg));
     createSuccess msg "strategy" result)
    (fun e => createError msg "strategy" (sanitizeErrorMessage (std_what e) false)).

(** ** The chief architect *)

Definition chief_processMessage (self : string) (msg : KeystoneMessage) : RM AgentResponse :=
  if decide (action_type msg = CANCEL_TASK) then
    response ← handleCancellation self msg;
    reply_to self msg (rs_result response) ;;
    mret response
  else
    match payload msg with
    | None => createError msg self "Missing payload in message"
    | Some p => createSuccess msg self p
    end.

Definition sendCommand (self cmd task_agent_id : string) : RM AgentResponse :=
  msg ← msg_create self task_agent_id cmd None;
  sendMessage self msg ;;
  response ← getMessage self;
  match response with
  | Some m => chief_processMessage self m
  | None => createError msg self "No response received"
  end.

(** ** Dispatch and steps *)

(** The virtual [processMessage]. *)
Definition processMessage (self : string) (msg : KeystoneMessage) : RM AgentResponse :=
  a ← this self;
  match a_kind a with
  | KChief => chief_processMessage self msg
  | KComponent _ _ => lead_processMessage (St := ComponentLeadState) self msg
  | KModule _ _ => lead_processMessage (St := ModuleLeadState) self msg
  | KTask _ => task_processMessage self msg
  end.

(** An agent fetches a message and processes it. *)
Definition pull (self : string) : RM (option AgentResponse) :=
  m ← getMessage self;
  match m with
  | None => mret None
  | Some msg => r ← processMessage self msg; mret (Some r)
  end.

(** A worker of the scheduler runs the [i]-th pending job: the lambda of [receiveMessage].
    Nothing between the lambda and the thread catches an exception: when [run_job] throws,
    the process terminates. *)
Definition run_job (i : nat) : RM unit :=
  r ← get;
  match rt_jobs r !! i with
  | None => mret tt
  | Some (self, msg) =>
      modify (set_jobs (delete i (rt_jobs r))) ;;
      match rt_agents r !! self with
      | None => mret tt
      | Some _ => _ ← processMessage self msg; mret tt
      end
  end.

(** One step of the system: some agent pulls (its caller handles exceptions), or some job runs
    to its end. *)
Inductive rt_step : Runtime -> Runtime -> Prop :=
| step_pull r self : rt_step r (fst (pull self r))
| step_job r r' i : run_job i r = (r', inr tt) -> rt_step r r'.
End runtime.
