(* ===== verification/RuntimeFacts.v ===== *)
(** * The agent runtime: lemmas

    A small program logic for the runtime: [does op r m x] says that [op] returns [x] from [r]
    and leaves the agents [m], with the router and the scheduler's jobs unchanged; clocks,
    random draws, metrics and the shell's state may move.  Then what the operations of the
    agents do, in these terms. *)

From S2P Require Import Prelude Effects Text Regex AgentMessages CoreMetrics AgentCore Commands.
From S2P Require Import CommandTheorems FailureInjector Runtime.

Section facts.
Context `{CQ : !ConcurrentQueue KeystoneMessage, HO : !HashOrder}.
Context {OS : Type}.
Abbreviation Rt := (@Runtime CQ OS).
Implicit Types r : Rt.
Implicit Types g : gmap string Agent.

Definition leaves r g r' : Prop :=
  rt_agents r' = g /\ rt_router r' = rt_router r /\ rt_jobs r' = rt_jobs r.
Definition does {A} (op : M Rt A) r g (x : A) : Prop := exists r', op r = (r', inr x) /\ leaves r g r'.

Lemma leaves_trans r1 r2 r3 g1 g2 : leaves r1 g1 r2 -> leaves r2 g2 r3 -> leaves r1 g2 r3.
Proof. unfold leaves. intros (_ & H1 & H2) (H3 & H4 & H5). by rewrite H4, H5, H1, H2. Qed.

Lemma leaves_quiet r r1 r2 :
  leaves r (rt_agents r) r1 -> leaves r1 (rt_agents r1) r2 -> leaves r (rt_agents r) r2.
Proof. intros (E1 & E2 & E3) (F1 & F2 & F3). unfold leaves. rewrite F1, F2, F3, E1, E2, E3. split_and!; reflexivity. Qed.

Lemma does_bind {A B} (m : M Rt A) (f : A -> M Rt B) r g x g' y :
  does m r g x -> (forall r', leaves r g r' -> does (f x) r' g' y) -> does (m ≫= f) r g' y.
Proof.
  intros (r1 & Hm & Hl) Hf. destruct (Hf r1 Hl) as (r2 & H2 & Hl2). exists r2.
  rewrite run_bind, Hm. split; [done|]. by eapply leaves_trans.
Qed.

(** A first step that leaves the agents alone. *)
Lemma does_step {A B} (m : M Rt A) (f : A -> M Rt B) r g' y :
  (exists x, does m r (rt_agents r) x /\ forall r', leaves r (rt_agents r) r' -> does (f x) r' g' y) ->
  does (m ≫= f) r g' y.
Proof. intros (x & Hm & Hf). by eapply does_bind. Qed.

Lemma does_ret {A} (x : A) r : does (mret x) r (rt_agents r) x.
Proof. by exists r. Qed.

Lemma does_env {A} (m : M Rt A) r x e : m r = (with_env e r, inr x) -> does m r (rt_agents r) x.
Proof. intros H. exists (with_env e r). by rewrite H. Qed.

Lemma does_steady r : exists t, does steady_now r (rt_agents r) t.
Proof. do 2 eexists. by split. Qed.

Lemma does_system r : exists t, does system_now r (rt_agents r) t.
Proof. do 2 eexists. by split. Qed.

Lemma does_metrics f r : does (upd_metrics f) r (rt_agents r) tt.
Proof. eexists. by split. Qed.

Lemma does_this self a r : rt_agents r !! self = Some a -> does (this self) r (rt_agents r) a.
Proof. intros H. exists r. unfold this. by rewrite H. Qed.

Lemma does_upd self f r a :
  rt_agents r !! self = Some a -> does (upd_agent self f) r (<[self := f a]> (rt_agents r)) tt.
Proof.
  intros H. eexists. split; [done|]. split; [|done]. simpl. apply map_eq. intros i.
  destruct (decide (i = self)) as [->|Hne].
  - by rewrite lookup_alter_eq, H, lookup_insert_eq.
  - by rewrite lookup_alter_ne, lookup_insert_ne by done.
Qed.

(** ** Messages and responses *)

Lemma msg_uuid_run n i (r : Rt) : exists s, does (msg_uuid_loop n i) r (rt_agents r) s.
Proof.
  revert i r; induction n as [|n IH]; intros i r; [eexists; apply does_ret|].
  cbn [msg_uuid_loop].
  assert (Hu : exists v, does (uniform 0 15) r (rt_agents r) v) by (do 2 eexists; by split).
  destruct Hu as (v & r1 & Hu & Hl1). destruct (IH (i + 1)%Z r1) as (s & r2 & Hs & Hl2).
  eexists. eexists. split.
  { rewrite run_bind, Hu, run_bind, Hs, run_ret. reflexivity. }
  by eapply leaves_quiet.
Qed.

Lemma does_msg_create sender receiver cmd data r :
  exists id t, does (msg_create sender receiver cmd data) r (rt_agents r)
    {| msg_id := id; sender_id := sender; receiver_id := receiver; action_type := EXECUTE;
       content_type := TEXT_PLAIN; session_id := "default"; metadata := ∅; priority := NORMAL;
       deadline := None; task_id := None; correlation_id := None; command := cmd;
       payload := data; timestamp := t |}.
Proof.
  destruct (msg_uuid_run 32 0 r) as (id & r1 & H1 & Hl1).
  destruct (does_system r1) as (t & r2 & H2 & Hl2). exists id, t, r2. split.
  { unfold msg_create, msg_generate_uuid. rewrite run_bind, H1, run_bind, H2. reflexivity. }
  by eapply leaves_quiet.
Qed.

Lemma does_response st original sender data r :
  exists x, does (response_of st original sender data) r (rt_agents r) x /\
       rs_result x = data /\ rs_status x = st.
Proof. eexists. split; [eexists; split; [reflexivity|by split_and!]|done]. Qed.

(** ** Sending *)

Definition with_core (f : AgentCore -> AgentCore) (a : Agent) : Agent :=
  {| a_core := f (a_core a); a_kind := a_kind a |}.
Definition with_kind (f : AgentKind -> AgentKind) (a : Agent) : Agent :=
  {| a_core := a_core a; a_kind := f (a_kind a) |}.

(** An agent on the bus, reached by its own id, that pulls its messages. *)
Definition on_bus (router : Router) (id : string) (a : Agent) : Prop :=
  message_bus_ (a_core a) = true /\ scheduler_ (a_core a) = false /\
  r_agents router !! id = Some (Some id).

Lemma does_send self msg r a b :
  rt_agents r !! self = Some a -> on_bus (rt_router r) self a ->
  rt_agents r !! receiver_id msg = Some b -> on_bus (rt_router r) (receiver_id msg) b ->
  does (sendMessage self msg) r
    (<[receiver_id msg := with_core (core_receiveMessage msg) b]> (rt_agents r)) tt.
Proof.
  intros Ha (Hbus & _ & _) Hb (_ & Hs & Hr).
  set (g := <[receiver_id msg := _]> (rt_agents r)).
  assert (Hrecv : does (receiveMessage (receiver_id msg) msg) r g tt).
  { unfold receiveMessage. eapply does_bind; [by apply does_this|]. intros r1 (E1 & _ & _). rewrite Hs.
    unfold g. rewrite <- E1. apply (does_upd (receiver_id msg) (with_core (core_receiveMessage msg))).
    by rewrite E1. }
  assert (Hroute : does (routeMessage msg) r g true).
  { unfold routeMessage. destruct Hrecv as (r1 & Hr1 & Hl1). exists r1. split; [|done].
    rewrite run_bind. unfold get. cbv beta iota. rewrite Hr, run_bind, Hr1. done. }
  destruct Hroute as (r1 & Hr1 & Hl1). exists r1. split; [|done].
  unfold sendMessage. rewrite run_bind. unfold this. rewrite Ha, Hbus. cbn [negb].
  rewrite run_bind, Hr1. done.
Qed.

(** An answer to the message [id], and the one [reply_to] sends. *)
Definition answer (act : ActionType) (id sender receiver text : string) (t : Z) : KeystoneMessage :=
  {| msg_id := id; sender_id := sender; receiver_id := receiver; action_type := act;
     content_type := TEXT_PLAIN; session_id := "default"; metadata := ∅; priority := NORMAL;
     deadline := None; task_id := None; correlation_id := None; command := "response";
     payload := Some text; timestamp := t |}.
Definition reply_message := answer EXECUTE.

Lemma does_answer act self msg text r a b :
  rt_agents r !! self = Some a -> on_bus (rt_router r) self a ->
  rt_agents r !! sender_id msg = Some b -> on_bus (rt_router r) (sender_id msg) b ->
  exists t, does (m ← msg_create self (sender_id msg) "response" (Some text);
             sendMessage self (with_msg_id (msg_id msg) (with_action act m))) r
    (<[sender_id msg := with_core (core_receiveMessage (answer act (msg_id msg) self (sender_id msg) text t)) b]>
       (rt_agents r)) tt.
Proof.
  intros Ha Hba Hb Hbb.
  destruct (does_msg_create self (sender_id msg) "response" (Some text) r) as (id & t & Hc). exists t.
  eapply does_bind; [exact Hc|]. intros r1 (E1 & E2 & E3).
  rewrite <- E1. apply (does_send self (answer act (msg_id msg) self (sender_id msg) text t) r1 a b);
    rewrite ?E1, ?E2; done.
Qed.

Lemma does_reply self msg text r a b :
  rt_agents r !! self = Some a -> on_bus (rt_router r) self a ->
  rt_agents r !! sender_id msg = Some b -> on_bus (rt_router r) (sender_id msg) b ->
  exists t, does (reply_to self msg text) r
    (<[sender_id msg := with_core (core_receiveMessage (reply_message (msg_id msg) self (sender_id msg) text t)) b]>
       (rt_agents r)) tt.
Proof.
  intros Ha Hba Hb Hbb. unfold reply_to.
  destruct (does_msg_create self (sender_id msg) "response" (Some text) r) as (id & t & Hc). exists t.
  eapply does_bind; [exact Hc|]. intros r1 (E1 & E2 & E3).
  rewrite <- E1. apply (does_send self (reply_message (msg_id msg) self (sender_id msg) text t) r1 a b);
    rewrite ?E1, ?E2; done.
Qed.

(** ** Fetching *)

Lemma core_get_keeps now c :
  message_bus_ (core_getMessage now c).1 = message_bus_ c /\
  scheduler_ (core_getMessage now c).1 = scheduler_ c /\
  agent_id_ (core_getMessage now c).1 = agent_id_ c /\
  cancelled_tasks_ (core_getMessage now c).1 = cancelled_tasks_ c.
Proof.
  unfold core_getMessage.
  destruct (try_dequeue (high_priority_inbox_ c)) as [[]|];
    [destruct (_ && _)|]; destruct (try_dequeue (normal_priority_inbox_ c)) as [[]|];
    destruct (try_dequeue (low_priority_inbox_ c)) as [[]|]; done.
Qed.

Lemma core_receive_keeps m c :
  message_bus_ (core_receiveMessage m c) = message_bus_ c /\
  scheduler_ (core_receiveMessage m c) = scheduler_ c /\
  agent_id_ (core_receiveMessage m c) = agent_id_ c /\
  cancelled_tasks_ (core_receiveMessage m c) = cancelled_tasks_ c.
Proof.
  unfold core_receiveMessage, enqueue_by_priority.
  case_bool_decide; [by destruct (backpressure_applied_ c)|]. cbv zeta.
  destruct (_ && _), (priority m); done.
Qed.

Lemma on_bus_core router id a f :
  (forall c, message_bus_ (f c) = message_bus_ c) -> (forall c, scheduler_ (f c) = scheduler_ c) ->
  on_bus router id a -> on_bus router id (with_core f a).
Proof. intros H1 H2 (? & ? & ?). unfold on_bus, with_core; simpl. by rewrite H1, H2. Qed.

Lemma on_bus_receive router id a m : on_bus router id a -> on_bus router id (with_core (core_receiveMessage m) a).
Proof. apply on_bus_core; intros c; apply core_receive_keeps. Qed.

Context {CL : ConcurrentQueueLaws KeystoneMessage} {QL : QuiescentQueueLaws KeystoneMessage}.

Lemma does_get self a r :
  rt_agents r !! self = Some a -> pending (a_core a) <> [] ->
  exists c m, does (getMessage self) r (<[self := with_core (fun _ => c) a]> (rt_agents r)) (Some m) /\
    pending (a_core a) ≡ₚ m :: pending c /\
    message_bus_ c = message_bus_ (a_core a) /\ scheduler_ c = scheduler_ (a_core a).
Proof.
  intros Ha Hne. set (t := a_steady (rt_amb r) (a_steady_i (rt_amb r))).
  pose proof (pending_get t (a_core a)) as Hp. pose proof (core_get_keeps t (a_core a)) as (Hb & Hs & _).
  destruct (core_getMessage t (a_core a)) as [c [m|]] eqn:Eg; [|by destruct Hp].
  exists c, m. split; [|done]. unfold getMessage.
  destruct (does_upd self (with_core (fun _ => c)) r a Ha) as (r1 & Hr1 & E1 & E2 & E3).
  eexists. split.
  { rewrite run_bind. unfold this. rewrite Ha, run_bind. unfold steady_now. cbv beta iota zeta. fold t.
    rewrite Eg, run_bind. unfold upd_core, upd_agent. rewrite run_modify. cbv beta iota.
    rewrite run_bind, bool_decide_eq_true_2, run_when_true by eauto. unfold upd_metrics.
    rewrite run_modify. cbv beta iota. rewrite run_ret. reflexivity. }
  split; [|done]. simpl. injection Hr1 as <-. exact E1.
Qed.

(** An agent with nothing pending does nothing. *)
Lemma pull_idle command_order popen self a r :
  rt_agents r !! self = Some a -> pending (a_core a) = [] ->
  does (pull command_order popen self) r (rt_agents r) None.
Proof.
  intros Ha Hne. set (t := a_steady (rt_amb r) (a_steady_i (rt_amb r))).
  pose proof (pending_get t (a_core a)) as Hp.
  destruct (core_getMessage t (a_core a)) as [c [m|]] eqn:Eg.
  { rewrite Hne in Hp. by apply Permutation_nil_cons in Hp. }
  destruct Hp as [-> _]. unfold pull, getMessage. eexists. split.
  { rewrite !run_bind. unfold this. rewrite Ha, run_bind. unfold steady_now. cbv beta iota zeta. fold t.
    rewrite Eg, run_bind. unfold upd_core, upd_agent. rewrite run_modify. cbv beta iota.
    rewrite run_bind, bool_decide_eq_false_2, run_when_false by (by intros []).
    rewrite run_ret. cbv beta iota. rewrite run_ret. reflexivity. }
  split; [|done]. simpl. apply map_eq. intros i. destruct (decide (i = self)) as [->|Hne2].
  - rewrite lookup_alter_eq, Ha. by destruct a.
  - by rewrite lookup_alter_ne.
Qed.

(** ** Task agents *)

Context (command_order : list string) (popen : string -> OS -> OS * option (string * Z)).

(** The shell prints a number it is asked to echo, and a newline. *)
Definition echoes : Prop := forall ds os, ds <> "" -> str_forall isdigit ds = true ->
  exists os', popen (echo_line ds) os = (os', Some (ds +:+ nl1, 0%Z)).

Definition log_of (cmd out : string) (t : TaskState) : TaskState :=
  {| command_log_ := command_log_ t ++ [(cmd, out)]; failed_ := failed_ t;
     failure_reason_ := failure_reason_ t; failure_injector_ := failure_injector_ t |}.

(** The two parts of [task_processMessage] after its guards. *)
Definition task_body (w : string) (msg : KeystoneMessage) : M Rt AgentResponse :=
  result ← exec (executeBash command_order popen (command msg));
  log_command w (command msg) result ;;
  response ← createSuccess msg w result;
  reply_to w msg result ;;
  mret response.
Definition task_handler (w : string) (msg : KeystoneMessage) (e : exn) : M Rt AgentResponse :=
  let sanitized_error := sanitizeErrorMessage (std_what e) false in
  response ← createError msg w sanitized_error;
  m ← msg_create w (sender_id msg) "response" (Some ("ERROR: " +:+ sanitized_error));
  sendMessage w (with_msg_id (msg_id msg) (with_action TASK_FAILED m)) ;;
  mret response.

(** What a task agent answers, given the outcome of its command, and what becomes of it. *)
Definition task_answer (t : TaskState) (msg : KeystoneMessage) (res : result string) : ActionType * string :=
  if failed_ t then (EXECUTE, "Agent is in failed state: " +:+ failure_reason_ t)
  else if decide (action_type msg = CANCEL_TASK) then
    (EXECUTE, match task_id msg with
              | None => "CANCEL_TASK message missing task_id"
              | Some i => "Task " +:+ i +:+ " marked for cancellation"
              end)
  else match res with
       | inr out => (EXECUTE, out)
       | inl e => (TASK_FAILED, "ERROR: " +:+ sanitizeErrorMessage (std_what e) false)
       end.
Definition task_after (t : TaskState) (msg : KeystoneMessage) (res : result string) (a : Agent) : Agent :=
  if failed_ t then a
  else if decide (action_type msg = CANCEL_TASK) then
    match task_id msg with Some i => with_core (requestCancellation i) a | None => a end
  else match res with
       | inr out => with_kind (fun _ => KTask (log_of (command msg) out t)) a
       | inl _ => a
       end.

Lemma deadline_run msg r :
  exists r1, leaves r (rt_agents r) r1 /\ rt_os r1 = rt_os r /\ forall A (k : M Rt A),
    (passed ← hasDeadlinePassed msg;
     when passed (_ ← getTimeUntilDeadline msg; upd_metrics (recordDeadlineMiss 0)) ;; k) r = k r1.
Proof.
  unfold hasDeadlinePassed, getTimeUntilDeadline. destruct (deadline msg) as [d|].
  - destruct (d <? clock (env_of r) (clock_i (env_of r)))%Z eqn:Hlt.
    + eexists. split; [|split; [|intros A k; rewrite run_bind, run_bind; unfold system_now; cbv beta iota;
        rewrite run_ret; cbv beta iota; rewrite Hlt, run_bind, run_when_true, run_bind, run_bind; cbv beta iota;
        rewrite run_ret; unfold upd_metrics; cbv beta iota; rewrite run_modify; reflexivity]]; done.
    + eexists. split; [|split; [|intros A k; rewrite run_bind, run_bind; unfold system_now; cbv beta iota;
        rewrite run_ret; cbv beta iota; rewrite Hlt, run_bind, run_when_false; reflexivity]]; done.
  - exists r. split; [done|]. split; [done|]. intros A k.
    by rewrite run_bind, run_ret, run_bind, run_when_false.
Qed.

Lemma task_run w msg r a t :
  rt_agents r !! w = Some a -> a_kind a = KTask t ->
  exists r1, leaves r (rt_agents r) r1 /\ rt_os r1 = rt_os r /\ forall A (f : TaskState -> M Rt A),
    (now ← steady_now; upd_metrics (recordMessageProcessed (msg_id msg) now) ;; t ← task_of w; f t) r = f t r1.
Proof.
  intros Ha Hk. eexists. split; [|split; [|intros A f]].
  3: { rewrite run_bind. unfold steady_now. cbv beta iota. rewrite run_bind. unfold upd_metrics.
       rewrite run_modify. cbv beta iota. rewrite run_bind. unfold task_of. rewrite run_bind. unfold this.
       simpl. rewrite Ha, Hk, run_ret. reflexivity. }
  all: done.
Qed.

Lemma task_start w msg r a t :
  rt_agents r !! w = Some a -> a_kind a = KTask t ->
  exists r1, leaves r (rt_agents r) r1 /\ rt_os r1 = rt_os r /\
    task_processMessage command_order popen w msg r =
    (if failed_ t then
       response ← createError msg w ("Agent is in failed state: " +:+ failure_reason_ t);
       reply_to w msg (rs_result response) ;;
       mret response
     else if decide (action_type msg = CANCEL_TASK) then
       response ← handleCancellation w msg;
       reply_to w msg (rs_result response) ;;
       mret response
     else try_catch (task_body w msg) (task_handler w msg)) r1.
Proof.
  intros Ha Hk. destruct (task_run w msg r a t Ha Hk) as (r1 & L1 & E1 & Hrun).
  unfold task_processMessage. rewrite Hrun. clear Hrun.
  destruct (failed_ t); [exists r1; split_and!; (exact L1 || exact E1 || reflexivity)|].
  destruct (decide _); [exists r1; split_and!; (exact L1 || exact E1 || reflexivity)|].
  destruct (deadline_run msg r1) as (r2 & L2 & E2 & Hrun). exists r2.
  split; [by eapply leaves_quiet|]. split; [congruence|]. rewrite Hrun. unfold task_body, task_handler. reflexivity.
Qed.
(** A response, then its text to the sender. *)
Lemma does_respond st who w msg text r a b :
  rt_agents r !! w = Some a -> on_bus (rt_router r) w a ->
  rt_agents r !! sender_id msg = Some b -> on_bus (rt_router r) (sender_id msg) b ->
  exists tm resp, does (response ← response_of st msg who text; reply_to w msg (rs_result response) ;; mret response) r
    (<[sender_id msg := with_core (core_receiveMessage (reply_message (msg_id msg) w (sender_id msg) text tm)) b]>
       (rt_agents r)) resp.
Proof.
  intros Ha Hba Hb Hbb. destruct (does_response st msg who text r) as (resp & (r1 & Hr1 & L1) & Hres & _).
  pose proof L1 as (E1 & E2 & _).
  destruct (does_reply w msg text r1 a b) as (tm & r2 & Hr2 & L2);
    [rewrite E1; exact Ha|rewrite E2; exact Hba|rewrite E1; exact Hb|rewrite E2; exact Hbb|].
  rewrite E1 in L2. exists tm, resp, r2. split; [|by eapply leaves_trans].
  rewrite run_bind, Hr1, Hres, run_bind, Hr2. reflexivity.
Qed.

Lemma does_cancel w msg r a b :
  w <> sender_id msg ->
  rt_agents r !! w = Some a -> on_bus (rt_router r) w a ->
  rt_agents r !! sender_id msg = Some b -> on_bus (rt_router r) (sender_id msg) b ->
  let a' := match task_id msg with Some i => with_core (requestCancellation i) a | None => a end in
  let text := match task_id msg with
              | None => "CANCEL_TASK message missing task_id"
              | Some i => "Task " +:+ i +:+ " marked for cancellation"
              end in
  exists tm resp, does (response ← handleCancellation w msg; reply_to w msg (rs_result response) ;; mret response) r
    (<[sender_id msg := with_core (core_receiveMessage (reply_message (msg_id msg) w (sender_id msg) text tm)) b]>
       (<[w := a']> (rt_agents r))) resp.
Proof.
  intros Hne Ha Hba Hb Hbb a' text.
  assert (exists r1, leaves r (<[w := a']> (rt_agents r)) r1 /\ forall A (f : AgentResponse -> M Rt A),
    (handleCancellation w msg ≫= f) r
    = (response_of (if task_id msg is Some _ then Success else Error) msg (agent_id_ (a_core a)) text ≫= f) r1) as (r1 & L1 & Hrun).
  { unfold a', text, handleCancellation. destruct (task_id msg) as [i|].
    - destruct (does_upd w (with_core (requestCancellation i)) r a Ha) as (r1 & Hr1 & L1).
      exists r1. split; [exact L1|]. intros A f. rewrite run_bind, run_bind. unfold this. rewrite Ha, run_bind.
      unfold upd_core, with_core in *. rewrite Hr1, run_bind. reflexivity.
    - exists r. split; [split; [by rewrite insert_id|done]|]. intros A f. rewrite run_bind, run_bind.
      unfold this. rewrite Ha, run_bind. reflexivity. }
  pose proof L1 as (E1 & E2 & _).
  destruct (does_respond (if task_id msg is Some _ then Success else Error) (agent_id_ (a_core a)) w msg text r1 a' b) as (tm & resp & r2 & Hr2 & L2).
  - by rewrite E1, lookup_insert_eq.
  - rewrite E2. destruct Hba as (? & ? & ?). unfold a'. by destruct (task_id msg).
  - by rewrite E1, lookup_insert_ne.
  - by rewrite E2.
  - rewrite E1 in L2. exists tm, resp, r2. split; [|by eapply leaves_trans]. rewrite Hrun. exact Hr2.
Qed.

Lemma does_body w msg r a t b os' out :
  executeBash command_order popen (command msg) (rt_os r) = (os', inr out) -> w <> sender_id msg ->
  rt_agents r !! w = Some a -> a_kind a = KTask t -> on_bus (rt_router r) w a ->
  rt_agents r !! sender_id msg = Some b -> on_bus (rt_router r) (sender_id msg) b ->
  exists tm resp, does (task_body w msg) r
    (<[sender_id msg := with_core (core_receiveMessage (reply_message (msg_id msg) w (sender_id msg) out tm)) b]>
       (<[w := with_kind (fun _ => KTask (log_of (command msg) out t)) a]> (rt_agents r))) resp.
Proof.
  intros Hex Hne Ha Hk Hba Hb Hbb. set (a' := with_kind (fun _ => KTask (log_of (command msg) out t)) a).
  assert (Hr1 : exec (executeBash command_order popen (command msg)) r = (set_os os' r, inr out))
    by (unfold exec, zoom; by rewrite Hex).
  assert (Hlog : does (log_command w (command msg) out) (set_os os' r) (<[w := a']> (rt_agents r)) tt).
  { replace a' with (with_kind (upd_task (log_of (command msg) out)) a)
      by (unfold a', with_kind; by rewrite Hk).
    by apply (does_upd w (with_kind (upd_task (log_of (command msg) out))) (set_os os' r)). }
  destruct Hlog as (r2 & Hr2 & L2). pose proof L2 as (E1 & E2 & _).
  destruct (does_response Success msg w out r2) as (resp & (r3 & Hr3 & L3) & _). pose proof L3 as (F1 & F2 & _).
  destruct (does_reply w msg out r3 a' b) as (tm & r4 & Hr4 & L4).
  - by rewrite F1, E1, lookup_insert_eq.
  - rewrite F2, E2. destruct Hba as (? & ? & ?). done.
  - by rewrite F1, E1, lookup_insert_ne.
  - by rewrite F2, E2.
  - exists tm, resp, r4. split.
    + unfold task_body. rewrite run_bind, Hr1, run_bind, Hr2, run_bind. unfold createSuccess.
      rewrite Hr3, run_bind, Hr4. reflexivity.
    + rewrite F1, E1 in L4. rewrite E1 in L3.
      apply (leaves_trans _ _ _ (<[w := a']> (rt_agents r)) _ L2). by eapply leaves_trans.
Qed.

Lemma does_handler w msg e r a b :
  rt_agents r !! w = Some a -> on_bus (rt_router r) w a ->
  rt_agents r !! sender_id msg = Some b -> on_bus (rt_router r) (sender_id msg) b ->
  exists tm resp, does (task_handler w msg e) r
    (<[sender_id msg := with_core (core_receiveMessage (answer TASK_FAILED (msg_id msg) w (sender_id msg)
         ("ERROR: " +:+ sanitizeErrorMessage (std_what e) false) tm)) b]> (rt_agents r)) resp.
Proof.
  intros Ha Hba Hb Hbb. set (text := sanitizeErrorMessage (std_what e) false).
  destruct (does_response Error msg w text r) as (resp & (r1 & Hr1 & L1) & _). pose proof L1 as (E1 & E2 & _).
  destruct (does_answer TASK_FAILED w msg ("ERROR: " +:+ text) r1 a b) as (tm & r2 & Hr2 & L2);
    [rewrite E1; exact Ha|rewrite E2; exact Hba|rewrite E1; exact Hb|rewrite E2; exact Hbb|].
  rewrite E1 in L2. exists tm, resp, r2. split; [|by eapply leaves_trans].
  unfold task_handler. fold text. cbv zeta. unfold createError. rewrite run_bind, Hr1.
  rewrite run_bind in Hr2. rewrite run_bind. destruct (msg_create w (sender_id msg) "response" _ r1) as [r3 [x|m]];
    [discriminate|]. rewrite run_bind, Hr2. reflexivity.
Qed.

(** A task agent answers every message of a sender on the bus, once. *)
Lemma does_task w msg r a t b :
  w <> sender_id msg ->
  rt_agents r !! w = Some a -> a_kind a = KTask t -> on_bus (rt_router r) w a ->
  rt_agents r !! sender_id msg = Some b -> on_bus (rt_router r) (sender_id msg) b ->
  let res := (executeBash command_order popen (command msg) (rt_os r)).2 in
  exists tm resp, does (task_processMessage command_order popen w msg) r
    (<[sender_id msg := with_core (core_receiveMessage (answer (task_answer t msg res).1 (msg_id msg) w
         (sender_id msg) (task_answer t msg res).2 tm)) b]>
       (<[w := task_after t msg res a]> (rt_agents r))) resp.
Proof.
  intros Hne Ha Hk Hba Hb Hbb res. destruct (task_start w msg r a t Ha Hk) as (r1 & L1 & Eos & Hrun).
  pose proof L1 as (E1 & E2 & _). rewrite <- E1 in Ha, Hb. rewrite <- E2 in Hba, Hbb.
  assert (Hsame : <[w := a]> (rt_agents r1) = rt_agents r1) by (by rewrite insert_id).
  unfold does. setoid_rewrite Hrun. clear Hrun. unfold task_answer, task_after.
  assert (Hfin : forall (g : Z -> gmap string Agent) (op : M Rt AgentResponse),
    (exists tm resp, does op r1 (g tm) resp) -> exists tm resp r', op r1 = (r', inr resp) /\ leaves r (g tm) r').
  { intros g op (tm & resp & r' & Ho & Hl). exists tm, resp, r'. split; [exact Ho|by eapply leaves_trans]. }
  destruct (failed_ t).
  { apply Hfin. rewrite <- E1, Hsame. by apply (does_respond Error w w msg _ r1 a b). }
  destruct (decide (action_type msg = CANCEL_TASK)).
  { apply Hfin. rewrite <- E1. by apply (does_cancel w msg r1 a b). }
  unfold res. rewrite <- Eos. destruct (executeBash command_order popen (command msg) (rt_os r1)) as [os' [e|out]] eqn:Hex;
    cbn [fst snd].
  - apply Hfin. rewrite <- E1, Hsame. unfold does, try_catch.
    assert (Hb1 : task_body w msg r1 = (set_os os' r1, inl e))
      by (unfold task_body; rewrite run_bind; unfold exec, zoom; by rewrite Hex).
    rewrite Hb1. destruct (does_handler w msg e (set_os os' r1) a b) as (tm & resp & r2 & Hr2 & L2); [done..|].
    exists tm, resp, r2. split; [exact Hr2|]. exact L2.
  - apply Hfin. rewrite <- E1. destruct (does_body w msg r1 a t b os' out) as (tm & resp & r2 & Hr2 & L2); [done..|].
    exists tm, resp, r2. unfold try_catch. rewrite Hr2. split; [reflexivity|exact L2].
Qed.

(** A healthy task agent asked to echo a number answers its sender with it. *)
Lemma does_task_echo w msg ds r a t b :
  echoes -> ds <> "" -> str_forall isdigit ds = true ->
  command msg = "echo " +:+ ds -> action_type msg = EXECUTE ->
  w <> sender_id msg ->
  rt_agents r !! w = Some a -> a_kind a = KTask t -> failed_ t = false -> on_bus (rt_router r) w a ->
  rt_agents r !! sender_id msg = Some b -> on_bus (rt_router r) (sender_id msg) b ->
  exists tm resp, does (task_processMessage command_order popen w msg) r
    (<[sender_id msg := with_core (core_receiveMessage (reply_message (msg_id msg) w (sender_id msg) ds tm)) b]>
       (<[w := with_kind (fun _ => KTask (log_of (command msg) ds t)) a]> (rt_agents r))) resp.
Proof.
  intros He Hne Hd Hc Hact Hws Ha Hk Hf Hba Hb Hbb.
  destruct (He ds (rt_os r) Hne Hd) as (os' & Hp).
  pose proof (run_echo_digits command_order popen ds _ _ Hne Hd Hp) as Hrun. rewrite <- Hc in Hrun.
  destruct (does_task w msg r a t b Hws Ha Hk Hba Hb Hbb) as (tm & resp & H). exists tm, resp.
  unfold task_answer, task_after in H. rewrite Hrun, Hf, !decide_False in H by (by rewrite Hact). exact H.
Qed.
End facts.
