(* ===== verification/TeamFacts.v ===== *)
(** * A module lead and its task agents

    The invariant of a team at work on a goal: every number of the goal is in exactly one
    place, a task waiting in a worker's inbox, a result waiting in the lead's inbox, or a
    recorded result.  Delegation establishes it, every step of a team member keeps it and
    brings one number one place further. *)

From S2P Require Import Prelude Effects Text Regex AgentMessages CoreMetrics AgentCore Commands.
From S2P Require Import CommandTheorems FailureInjector Runtime RuntimeFacts.

(** ** Lists *)

Lemma flat_map_update {A B} `{!EqDecision A} (f f' : A -> list B) (l : list A) w x :
  NoDup l -> w ∈ l -> (forall v, v ∈ l -> v <> w -> f' v = f v) -> f' w ≡ₚ x ++ f w ->
  flat_map f' l ≡ₚ x ++ flat_map f l.
Proof.
  intros Hnd Hin Hne Hw. apply list_elem_of_split in Hin as (l1 & l2 & ->).
  apply NoDup_app in Hnd as (_ & H1 & [H2 _]%NoDup_cons).
  assert (Hsame : forall k, w ∉ k -> (forall v, v ∈ k -> v ∈ l1 ++ w :: l2) -> flat_map f' k = flat_map f k).
  { intros k Hk Hsub. induction k as [|v k IH]; [done|]. simpl.
    rewrite IH by set_solver. by rewrite Hne by set_solver. }
  rewrite !flat_map_app. simpl. rewrite !Hsame, Hw by set_solver. solve_Permutation.
Qed.

(** ** Sums of digit strings *)

Definition total_of (l : list string) : Z := foldr (fun ds z => (digits_value 0 ds + z)%Z) 0%Z l.

Definition digits (ds : string) : Prop := ds <> "" /\ str_forall isdigit ds = true.

Lemma total_of_nonneg l : Forall digits l -> (0 <= total_of l)%Z.
Proof.
  induction 1 as [|ds l [_ Hd] _ IH]; simpl; [done|].
  pose proof (digits_value_nonneg 0 ds Hd ltac:(lia)). lia.
Qed.

Lemma total_of_perm l k : l ≡ₚ k -> total_of l = total_of k.
Proof. induction 1; simpl; lia. Qed.

Lemma sum_results_total l : Forall digits l -> (total_of l <= 2 ^ 31 - 1)%Z -> sum_results l = total_of l.
Proof.
  intros Hl. unfold sum_results.
  assert (H : forall t, (0 <= t)%Z -> (t + total_of l <= 2 ^ 31 - 1)%Z ->
    foldl (fun total r => match stoi r with inr v => wrap_int (total + v) | inl _ => total end) t l
    = (t + total_of l)%Z); [|by intros; rewrite H by lia].
  induction Hl as [|ds l [Hne Hd] Hl IH]; intros t Ht Hle; simpl in *; [lia|].
  pose proof (digits_value_nonneg 0 ds Hd ltac:(lia)) as Hv. pose proof (total_of_nonneg l Hl) as Hr.
  rewrite stoi_digits, (proj2 (Z.ltb_ge _ _)) by (done || lia).
  assert (Hw : wrap_int (t + digits_value 0 ds) = (t + digits_value 0 ds)%Z).
  { unfold wrap_int. rewrite Z.mod_small; lia. }
  rewrite Hw, IH by lia. lia.
Qed.

(** ** The invariant *)

Section team.
Context `{CQ : !ConcurrentQueue KeystoneMessage, HO : !HashOrder}.
Context {CL : ConcurrentQueueLaws KeystoneMessage} {QL : QuiescentQueueLaws KeystoneMessage} {OS : Type}.
Context (command_order : list string) (popen : string -> OS -> OS * option (string * Z)).
Context (lead : string) (ws : list string).
Abbreviation Rt := (@Runtime CQ OS).
Implicit Types r : Rt.
Implicit Types g : gmap string Agent.

(** A task for a worker and a result for the lead, with the number they carry. *)
Definition is_task (m : KeystoneMessage) : Prop := exists ds, digits ds /\
  command m = "echo " +:+ ds /\ action_type m = EXECUTE /\ deadline m = None /\ sender_id m = lead.
Definition is_result (m : KeystoneMessage) : Prop := exists ds, digits ds /\
  command m = "response" /\ action_type m = EXECUTE /\ payload m = Some ds.
Definition task_value (m : KeystoneMessage) : string := str_drop (command m) 5.
Definition result_value (m : KeystoneMessage) : string := default "" (payload m).

Definition pending_at g (id : string) : list KeystoneMessage :=
  match g !! id with Some a => pending (a_core a) | None => [] end.
Definition tasks_out g : list string := flat_map (fun w => map task_value (pending_at g w)) ws.
Definition results_out g : list string := map result_value (pending_at g lead).

(** The lead's bookkeeping when [total] results are expected. *)
Definition counts_ok (total : nat) (k : CoordinationState ModuleLeadState) : Prop :=
  expected_results_ k = total /\ received_results_ k = length (results_ k) /\ failed_results_ k = 0 /\
  current_state_ k = if bool_decide (total <= length (results_ k)) then M_SYNTHESIZING else M_WAITING_FOR_TASKS.

Definition lead_ok (router : Router) g (k : CoordinationState ModuleLeadState) : Prop :=
  exists a, g !! lead = Some a /\ a_kind a = KModule k ws /\ on_bus router lead a.
Definition worker_ok (router : Router) g (w : string) : Prop :=
  exists a t, g !! w = Some a /\ a_kind a = KTask t /\ failed_ t = false /\ on_bus router w a.

Record team (router : Router) (total : nat) (nums : list string) g : Prop := {
  tm_lead : exists k, lead_ok router g k /\ counts_ok total k /\
                 nums ≡ₚ results_ k ++ results_out g ++ tasks_out g;
  tm_workers : forall w, w ∈ ws -> worker_ok router g w;
  tm_tasks : forall w, w ∈ ws -> Forall is_task (pending_at g w);
  tm_results : Forall is_result (pending_at g lead);
}.

Hypothesis Hnd : NoDup ws.
Hypothesis Hlead : lead ∉ ws.

Lemma task_value_echo m ds : command m = "echo " +:+ ds -> task_value m = ds.
Proof. intros H. unfold task_value. rewrite H. apply (str_drop_app "echo "). Qed.

Lemma pending_at_insert g id a : pending_at (<[id := a]> g) id = pending (a_core a).
Proof. unfold pending_at. by rewrite lookup_insert_eq. Qed.
Lemma pending_at_insert_ne g id id' a : id <> id' -> pending_at (<[id := a]> g) id' = pending_at g id'.
Proof. intros H. unfold pending_at. by rewrite lookup_insert_ne. Qed.
Lemma pending_at_lookup g id a : g !! id = Some a -> pending_at g id = pending (a_core a).
Proof. intros H. unfold pending_at. by rewrite H. Qed.

(** An update of one worker's inbox, seen in the tasks of the team. *)
Lemma tasks_out_update g g' w x :
  w ∈ ws -> (forall v, v ∈ ws -> v <> w -> pending_at g' v = pending_at g v) ->
  map task_value (pending_at g' w) ≡ₚ x ++ map task_value (pending_at g w) ->
  tasks_out g' ≡ₚ x ++ tasks_out g.
Proof.
  intros Hw Hv Hx. unfold tasks_out. apply (flat_map_update _ _ _ w); [done|done| |done].
  intros v Hvin Hne. by rewrite Hv.
Qed.

Lemma tasks_out_same g g' : (forall w, w ∈ ws -> pending_at g' w = pending_at g w) -> tasks_out g' = tasks_out g.
Proof.
  intros H. unfold tasks_out. induction ws as [|w l IH]; [done|]. simpl.
  rewrite H by set_solver. f_equal. apply IH; [by apply NoDup_cons in Hnd as [_ ?]|set_solver|set_solver].
Qed.

(** ** Delegation *)

Lemma does_upd_module r g a k f :
  rt_agents r = <[lead := with_kind (fun _ => KModule k ws) a]> g ->
  does (upd_kind lead (module_upd_coord f)) r (<[lead := with_kind (fun _ => KModule (f k) ws) a]> g) tt.
Proof.
  intros Hg. pose proof (does_upd lead (with_kind (module_upd_coord f)) r (with_kind (fun _ => KModule k ws) a)) as H.
  rewrite Hg, lookup_insert_eq, insert_insert_eq in H. by apply H.
Qed.

(** The lead records a message it is about to send. *)
Lemma does_track r a k id w :
  rt_agents r !! lead = Some a -> a_kind a = KModule k ws ->
  does (upd_kind lead (module_upd_coord (trackPendingSubordinate id w))) r
    (<[lead := with_kind (fun _ => KModule (trackPendingSubordinate id w k) ws) a]> (rt_agents r)) tt.
Proof.
  intros Ha Hk. apply does_upd_module. rewrite insert_id; [done|]. rewrite Ha. f_equal. unfold with_kind.
  rewrite <- Hk. by destruct a.
Qed.

Lemma module_avail r k : lead_ok (rt_router r) (rt_agents r) k ->
  does (available_task_agents_ lead) r (rt_agents r) ws.
Proof.
  intros (a & Ha & Hk & _). exists r. unfold available_task_agents_. rewrite run_bind.
  unfold this. rewrite Ha, Hk. done.
Qed.

(** A change of the lead that keeps its results and counts. *)
Lemma team_lead_change router total nums g a k k' :
  team router total nums g -> g !! lead = Some a -> a_kind a = KModule k ws ->
  results_ k' = results_ k -> counts_ok total k' ->
  team router total nums (<[lead := with_kind (fun _ => KModule k' ws) a]> g).
Proof.
  intros [(k0 & (a0 & Ha0 & Hk0 & Hb0) & Hc & Hp) Hw Ht Hr] Ha Hk Hres Hc'.
  assert (a0 = a) as -> by congruence. assert (k0 = k) as -> by congruence.
  assert (Hpend : forall id, pending_at (<[lead := with_kind (fun _ => KModule k' ws) a]> g) id = pending_at g id).
  { intros id. destruct (decide (id = lead)) as [->|Hne].
    - rewrite pending_at_insert. by rewrite (pending_at_lookup _ _ _ Ha).
    - by rewrite pending_at_insert_ne. }
  split.
  - exists k'. split; [eexists; by rewrite lookup_insert_eq|]. split; [done|].
    unfold results_out. rewrite Hpend, Hres. rewrite (tasks_out_same g) by by intros. done.
  - intros w Hin. destruct (Hw w Hin) as (b & t & Hb & ?). exists b, t.
    rewrite lookup_insert_ne by (intros <-; done). done.
  - intros w Hin. rewrite Hpend. by apply Ht.
  - by rewrite Hpend.
Qed.

Lemma length_out router total nums g k :
  team router total nums g -> lead_ok router g k ->
  length nums = length (results_ k) + length (pending_at g lead) + length (tasks_out g).
Proof.
  intros [(k0 & (a0 & Ha0 & Hk0 & _) & _ & Hp) _ _ _] (a & Ha & Hk & _).
  assert (k0 = k) as -> by congruence. rewrite Hp, !length_app. unfold results_out. rewrite length_map. lia.
Qed.

Lemma length_pending_tasks g w : w ∈ ws -> length (pending_at g w) <= length (tasks_out g).
Proof.
  intros Hin. unfold tasks_out. apply list_elem_of_split in Hin as (l1 & l2 & ->).
  rewrite flat_map_app. simpl. rewrite !length_app, length_map. lia.
Qed.

(** A worker receives a task. *)
Lemma team_receive_task router total nums g w b m :
  team router total nums g -> w ∈ ws -> g !! w = Some b -> is_task m ->
  length nums < AGENT_MAX_QUEUE_SIZE ->
  team router total (task_value m :: nums) (<[w := with_core (core_receiveMessage m) b]> g).
Proof.
  intros HT Hin Hb Hm Hlen.
  pose proof HT as [(k & Hl & Hc & Hp) Hw Ht Hr].
  pose proof (length_out _ _ _ _ _ HT Hl) as Hlo. pose proof (length_pending_tasks g w Hin) as Hlt.
  assert (Hne : lead <> w) by (intros ->; done).
  assert (Hpw : pending_at (<[w := with_core (core_receiveMessage m) b]> g) w ≡ₚ m :: pending_at g w).
  { rewrite pending_at_insert. simpl. rewrite pending_receive, (pending_at_lookup _ _ _ Hb) in *.
    rewrite bool_decide_eq_false_2; [done|]. lia. }
  assert (Hpo : forall v, v <> w -> pending_at (<[w := with_core (core_receiveMessage m) b]> g) v = pending_at g v)
    by (intros v Hv; by rewrite pending_at_insert_ne).
  split.
  - exists k. destruct Hl as (a & Ha & Hk & Hbus). split; [exists a; by rewrite lookup_insert_ne|]. split; [done|].
    unfold results_out. rewrite Hpo by done. fold (results_out g).
    rewrite (tasks_out_update g _ w [task_value m]); [|done|by intros; apply Hpo|by rewrite Hpw].
    rewrite Hp. solve_Permutation.
  - intros v Hv. destruct (decide (v = w)) as [->|Hvw].
    + destruct (Hw w Hin) as (b' & t & Hb' & Hk & Hf & Hbus). simplify_eq. exists (with_core (core_receiveMessage m) b), t.
      rewrite lookup_insert_eq. split_and!; try done. by apply on_bus_receive.
    + destruct (Hw v Hv) as (b' & t & Hb' & ?). exists b', t. by rewrite lookup_insert_ne.
  - intros v Hv. destruct (decide (v = w)) as [->|Hvw]; [|rewrite Hpo by done; by apply Ht].
    rewrite Hpw. constructor; [done|by apply Ht].
  - by rewrite Hpo.
Qed.

Lemma team_delegate subtasks i r total nums :
  team (rt_router r) total nums (rt_agents r) -> ws <> [] -> Forall digits subtasks ->
  length nums + length subtasks <= AGENT_MAX_QUEUE_SIZE ->
  exists g, does (module_delegate_from lead i (map (fun ds => "echo " +:+ ds) subtasks)) r g tt /\
       team (rt_router r) total (reverse subtasks ++ nums) g.
Proof.
  intros HT Hws Hd. revert i r nums HT. induction Hd as [|ds l Hds Hl IH]; intros i r nums HT Hlen.
  { exists (rt_agents r). split; [apply does_ret|done]. }
  destruct (tm_lead _ _ _ _ HT) as (k & Hlk & Hc & _). pose proof Hlk as (a & Ha & Hk & Hbus).
  destruct (lookup_lt_is_Some_2 ws (i mod length ws)) as [w Hw].
  { apply Nat.mod_upper_bound. by destruct ws. }
  assert (Hin : w ∈ ws) by by eapply list_elem_of_lookup_2.
  destruct (module_avail r k Hlk) as (r1 & Hr1 & L1). pose proof L1 as (E1 & E2 & _).
  destruct (does_msg_create lead w ("echo " +:+ ds) None r1) as (id & t & Hm).
  set (m := {| msg_id := id |}) in Hm. destruct Hm as (r2 & Hr2 & L2). pose proof L2 as (F1 & F2 & _).
  set (k1 := trackPendingSubordinate id w k).
  destruct (does_track r2 a k (msg_id m) w) as (r3 & Hr3 & L3); [by rewrite F1, E1|done|].
  pose proof L3 as (G1 & G2 & _).
  assert (HT3 : team (rt_router r) total nums (rt_agents r3)).
  { rewrite G1, F1, E1. eapply team_lead_change; [exact HT|exact Ha|exact Hk|reflexivity|exact Hc]. }
  destruct (tm_workers _ _ _ _ HT3 w Hin) as (b & tb & Hb & _ & _ & Hbb).
  destruct (does_send lead m r3 (with_kind (fun _ => KModule k1 ws) a) b) as (r4 & Hr4 & L4).
  { rewrite G1. apply lookup_insert_eq. }
  { rewrite G2, F2, E2. destruct Hbus as (? & ? & ?). split_and!; assumption. }
  { exact Hb. }
  { rewrite G2, F2, E2. exact Hbb. }
  pose proof L4 as (I1 & I2 & _).
  assert (Hval : task_value m = ds) by (apply task_value_echo; reflexivity).
  assert (HT4 : team (rt_router r4) total (ds :: nums) (rt_agents r4)).
  { rewrite I1, I2, G2, F2, E2. rewrite <- Hval at 1.
    eapply team_receive_task; [exact HT3|exact Hin|exact Hb| |simpl in Hlen; lia].
    exists ds. split_and!; [exact Hds|reflexivity..]. }
  destruct (IH (S i) r4 (ds :: nums) HT4) as (g & (r5 & Hr5 & J) & HT5); [simpl in *; lia|].
  exists g. split.
  - exists r5. split.
    + cbn [map module_delegate_from]. rewrite run_bind, Hr1. cbv beta iota. rewrite Hw.
      rewrite run_bind, Hr2. cbv beta iota. rewrite run_bind, Hr3. cbv beta iota.
      rewrite run_bind, Hr4. exact Hr5.
    + eapply leaves_trans; [exact L1|]. eapply leaves_trans; [exact L2|].
      eapply leaves_trans; [exact L3|]. eapply leaves_trans; [exact L4|exact J].
  - rewrite reverse_cons, <- app_assoc. simpl. rewrite <- E2, <- F2, <- G2, <- I2. exact HT5.
Qed.

(** ** Steps *)

(** Two for each task that waits, one for each result that waits. *)
Definition weight g : nat := 2 * length (tasks_out g) + length (pending_at g lead).

Lemma pending_nonempty g id : pending_at g id <> [] ->
  exists a, g !! id = Some a /\ pending (a_core a) <> [].
Proof. unfold pending_at. destruct (g !! id) as [a|]; [eauto|done]. Qed.

Lemma is_result_reply id w ds t :
  digits ds -> is_result (reply_message id w lead ds t) /\ result_value (reply_message id w lead ds t) = ds.
Proof. intros H. split; [|done]. exists ds. by split_and!. Qed.

(** The team after a worker answered the task [m] with the message [rep]. *)
Lemma team_answer router total nums g w a c b kind' m rep ds t :
  team router total nums g -> length nums <= AGENT_MAX_QUEUE_SIZE -> w ∈ ws ->
  g !! w = Some a -> pending (a_core a) ≡ₚ m :: pending c ->
  on_bus router w {| a_core := c; a_kind := kind' |} -> kind' = KTask t -> failed_ t = false ->
  task_value m = ds -> is_result rep -> result_value rep = ds ->
  g !! lead = Some b ->
  let g' := <[lead := with_core (core_receiveMessage rep) b]> (<[w := {| a_core := c; a_kind := kind' |}]> g) in
  team router total nums g' /\ weight g' + 1 = weight g.
Proof.
  intros HT Hlen Hin Ha Hperm Hbus Hkind Hf Hval Hres Hrv Hb g'.
  pose proof HT as [(k & Hlk & Hc & Hp) Hw Ht Hr].
  assert (Hne : lead <> w) by (intros ->; done).
  assert (Hpw : pending_at g w ≡ₚ m :: pending c) by by rewrite (pending_at_lookup _ _ _ Ha).
  assert (Hpw' : pending_at g' w = pending c).
  { unfold g'. by rewrite pending_at_insert_ne, pending_at_insert. }
  assert (Hpo : forall v, v <> w -> v <> lead -> pending_at g' v = pending_at g v).
  { intros v H1 H2. unfold g'. by rewrite !pending_at_insert_ne. }
  assert (Htasks : tasks_out g ≡ₚ ds :: tasks_out g').
  { apply (tasks_out_update g' g w [ds] Hin).
    - intros v Hv Hvw. rewrite Hpo; [done|done|]. by intros ->.
    - rewrite Hpw', Hpw. simpl. by rewrite Hval. }
  assert (Hpl : pending_at g' lead ≡ₚ rep :: pending_at g lead).
  { unfold g'. rewrite pending_at_insert. simpl. rewrite pending_receive, (pending_at_lookup _ _ _ Hb).
    rewrite bool_decide_eq_false_2; [done|].
    pose proof (length_out _ _ _ _ _ HT Hlk) as Hlo. rewrite (pending_at_lookup _ _ _ Hb), Htasks in Hlo.
    simpl in Hlo. lia. }
  split; [split|].
  - exists k. destruct Hlk as (b0 & Hb0 & Hk & Hbl). assert (b0 = b) as -> by congruence. split.
    + exists (with_core (core_receiveMessage rep) b). unfold g'. rewrite lookup_insert_eq.
      split_and!; [done|done|by apply on_bus_receive].
    + split; [done|]. rewrite Hp, Htasks. unfold results_out. rewrite Hpl. simpl. rewrite Hrv. solve_Permutation.
  - intros v Hv. destruct (decide (v = w)) as [->|Hvw].
    + eexists _, t. unfold g'. rewrite lookup_insert_ne, lookup_insert_eq by done. done.
    + destruct (Hw v Hv) as (b' & t' & Hb' & ?). exists b', t'. unfold g'.
      rewrite !lookup_insert_ne; [done|done|]. by intros ->.
  - intros v Hv. destruct (decide (v = w)) as [->|Hvw].
    + rewrite Hpw'. specialize (Ht w Hin). rewrite Hpw in Ht. by apply Forall_cons in Ht as [_ ?].
    + rewrite Hpo; [by apply Ht|done|]. by intros ->.
  - rewrite Hpl. by constructor.
  - unfold weight. rewrite Hpl, Htasks. simpl. lia.
Qed.

Lemma team_worker_step r total nums w :
  echoes popen -> team (rt_router r) total nums (rt_agents r) -> length nums <= AGENT_MAX_QUEUE_SIZE ->
  w ∈ ws -> pending_at (rt_agents r) w <> [] ->
  exists g' x, does (pull command_order popen w) r g' x /\ team (rt_router r) total nums g' /\
    weight g' + 1 = weight (rt_agents r).
Proof.
  intros He HT Hlen Hin Hne. pose proof HT as [(k & (b & Hb & Hkb & Hbb) & _) Hw Ht _].
  destruct (Hw w Hin) as (a & t & Ha & Hka & Hf & Hba).
  rewrite (pending_at_lookup _ _ _ Ha) in Hne.
  destruct (does_get w a r Ha Hne) as (c & m & (r1 & Hr1 & L1) & Hperm & Hmb & Hms).
  pose proof L1 as (E1 & E2 & _).
  assert (Hlw : w <> lead) by (intros ->; done).
  assert (is_task m) as (ds & [Hd1 Hd2] & Hc & Hact & Hdl & Hsnd).
  { specialize (Ht w Hin). rewrite (pending_at_lookup _ _ _ Ha), Hperm in Ht. by apply Forall_cons in Ht as [? _]. }
  assert (Hba1 : on_bus (rt_router r) w (with_core (fun _ => c) a)).
  { destruct Hba as (? & ? & ?). unfold on_bus; simpl. by rewrite Hmb, Hms. }
  destruct (does_task_echo command_order popen w m ds r1 (with_core (fun _ => c) a) t b)
    as (tm & resp & (r2 & Hr2 & L2)); try done.
  { by rewrite Hsnd. }
  { by rewrite E1, lookup_insert_eq. }
  { by rewrite E2. }
  { rewrite E1, Hsnd, lookup_insert_ne by done. exact Hb. }
  { by rewrite E2, Hsnd. }
  rewrite Hsnd, E1, insert_insert_eq in L2. set (rep := reply_message (msg_id m) w lead ds tm) in L2.
  destruct (is_result_reply (msg_id m) w ds tm) as [Hrep Hrv]; [done|].
  destruct (team_answer (rt_router r) total nums (rt_agents r) w a c b (KTask (log_of (command m) ds t)) m rep ds
              (log_of (command m) ds t)) as [HT' Hwt]; try done; [by apply task_value_echo|].
  eexists _, (Some resp). split; [|split; [exact HT'|exact Hwt]].
  exists r2. split; [|by eapply leaves_trans].
  unfold pull, processMessage. rewrite run_bind, Hr1, run_bind, run_bind. unfold this.
  rewrite E1, lookup_insert_eq. cbv beta iota. cbn [with_core a_kind]. rewrite Hka, Hr2. reflexivity.
Qed.

(** What recording a result makes of the lead's bookkeeping. *)
Definition after_result (ds : string) (k : CoordinationState ModuleLeadState) : CoordinationState ModuleLeadState :=
  let k := (recordResult ds k).1 in
  if isComplete k then
    if hasFailures k then coord_transitionTo M_ERROR "ERROR" k
    else coord_transitionTo M_SYNTHESIZING "SYNTHESIZING" k
  else k.

Lemma after_result_ok total ds k :
  counts_ok total k -> counts_ok total (after_result ds k) /\ results_ (after_result ds k) = results_ k ++ [ds].
Proof.
  intros (H1 & H2 & H3 & H4). unfold after_result.
  set (k1 := (recordResult ds k).1).
  assert (Hex : expected_results_ k1 = total) by done.
  assert (Hrc : received_results_ k1 = S (length (results_ k))) by (simpl; congruence).
  assert (Hrs : results_ k1 = results_ k ++ [ds]) by done.
  assert (Hfl : failed_results_ k1 = 0) by done.
  assert (Hst : current_state_ k1 = current_state_ k) by done. clearbody k1.
  assert (Hl : length (results_ k ++ [ds]) = S (length (results_ k))) by (rewrite length_app; simpl; lia).
  cbv zeta. unfold isComplete, hasFailures. rewrite Hex, Hrc, Hfl. rewrite (bool_decide_eq_false_2 (0 < 0)) by lia.
  unfold counts_ok. destruct (bool_decide (total <= S (length (results_ k)))) eqn:Hc;
    [apply bool_decide_eq_true in Hc|apply bool_decide_eq_false in Hc];
    cbn [coord_transitionTo expected_results_ received_results_ failed_results_ results_ current_state_];
    rewrite Hrs, Hl.
  - split; [|done]. rewrite bool_decide_eq_true_2 by lia. by split_and!.
  - split; [|done]. rewrite Hst, H4, !bool_decide_eq_false_2 by lia. by split_and!.
Qed.

(** The last result, with no failure before it. *)
Lemma after_result_last p k :
  hasFailures k = false -> expected_results_ k <= S (received_results_ k) ->
  after_result p k = coord_transitionTo M_SYNTHESIZING "SYNTHESIZING" (recordResult p k).1.
Proof.
  intros Hnf Hlast. unfold after_result. cbv zeta. replace (isComplete _) with true.
  2: { symmetry. apply bool_decide_eq_true_2. exact Hlast. }
  replace (hasFailures _) with false by exact (eq_sym Hnf). reflexivity.
Qed.

(** The last result, after a failure. *)
Lemma after_result_failed p k :
  hasFailures k = true -> expected_results_ k <= S (received_results_ k) ->
  after_result p k = coord_transitionTo M_ERROR "ERROR" (recordResult p k).1.
Proof.
  intros Hnf Hlast. unfold after_result. cbv zeta. replace (isComplete _) with true.
  2: { symmetry. apply bool_decide_eq_true_2. exact Hlast. }
  replace (hasFailures _) with true by exact (eq_sym Hnf). reflexivity.
Qed.

(** The module lead records a result that comes back to it. *)
Lemma does_lead_result r a k m p :
  rt_agents r !! lead = Some a -> a_kind a = KModule k ws ->
  command m = "response" -> action_type m = EXECUTE -> payload m = Some p ->
  exists resp, does (processMessage command_order popen lead m) r
    (<[lead := with_kind (fun _ => KModule (after_result p k) ws) a]> (rt_agents r)) resp.
Proof.
  intros Ha Hk Hc Hact Hp.
  assert (Hrec : does (module_processSubordinateResult lead m) r
    (<[lead := with_kind (fun _ => KModule (after_result p k) ws) a]> (rt_agents r)) tt).
  { unfold module_processSubordinateResult. rewrite Hp.
    set (k1 := (recordResult p k).1).
    assert (Hu : does (upd_kind lead (module_upd_coord (fun _ => k1))) r
                   (<[lead := with_kind (fun _ => KModule k1 ws) a]> (rt_agents r)) tt).
    { replace (with_kind (fun _ => KModule k1 ws) a) with (with_kind (module_upd_coord (fun _ => k1)) a)
        by (unfold with_kind; by rewrite Hk).
      by apply (does_upd lead (with_kind (module_upd_coord (fun _ => k1)))). }
    destruct Hu as (r1 & Hr1 & L1). pose proof L1 as (E1 & _).
    assert (Ht : forall s, does (module_transitionTo lead s) r1
      (<[lead := with_kind (fun _ => KModule (coord_transitionTo s (module_stateToString s) k1) ws) a]> (rt_agents r)) tt).
    { intros s. unfold module_transitionTo, upd_kind.
      pose proof (does_upd lead (with_kind (module_upd_coord (coord_transitionTo s (module_stateToString s)))) r1
                    (with_kind (fun _ => KModule k1 ws) a)) as Hd.
      rewrite E1, lookup_insert_eq in Hd. rewrite insert_insert_eq in Hd. by apply Hd. }
    assert (Hrest : exists r2, when (isComplete k1) (if hasFailures k1 then module_transitionTo lead M_ERROR
                            else module_transitionTo lead M_SYNTHESIZING) r1 = (r2, inr tt) /\
              leaves r1 (<[lead := with_kind (fun _ => KModule (after_result p k) ws) a]> (rt_agents r)) r2).
    { unfold after_result. fold k1. destruct (isComplete k1); [|by exists r1].
      destruct (hasFailures k1); apply Ht. }
    destruct Hrest as (r2 & Hr2 & L2). exists r2. split; [|by eapply leaves_trans].
    rewrite run_bind. unfold module_coordination. rewrite run_bind. unfold this. rewrite Ha, Hk.
    cbn [module_coord_of]. rewrite run_ret. replace (recordResult p k) with (k1, isComplete k1) by reflexivity.
    cbv beta iota. rewrite run_bind, Hr1. exact Hr2. }
  destruct Hrec as (r1 & Hr1 & L1).
  destruct (does_response Success m lead "Subordinate result processed" r1) as (resp & (r2 & Hr2 & L2) & _).
  exists resp, r2. split.
  - unfold processMessage. rewrite run_bind. unfold this. rewrite Ha, Hk.
    unfold lead_processMessage. rewrite !decide_False by (by rewrite Hact).
    cbn [isSubordinateResult ModuleLeadAgent]. unfold module_isSubordinateResult.
    rewrite Hc, Hact, str_eqb_refl. cbn [andb negb].
    rewrite bool_decide_eq_false_2 by done. cbn [negb].
    cbn [processSubordinateResult ModuleLeadAgent]. rewrite run_bind, Hr1. exact Hr2.
  - eapply leaves_trans; [exact L1|]. destruct L1 as (E1 & _). by rewrite <- E1.
Qed.

Lemma team_lead_step r total nums :
  team (rt_router r) total nums (rt_agents r) -> pending_at (rt_agents r) lead <> [] ->
  exists g' x, does (pull command_order popen lead) r g' x /\ team (rt_router r) total nums g' /\
    weight g' + 1 = weight (rt_agents r).
Proof.
  intros HT Hne. pose proof HT as [(k & (a & Ha & Hk & Hba) & Hc & Hp) Hw Ht Hr].
  rewrite (pending_at_lookup _ _ _ Ha) in Hne, Hr.
  destruct (does_get lead a r Ha Hne) as (c & m & (r1 & Hr1 & L1) & Hperm & Hmb & Hms).
  pose proof L1 as (E1 & E2 & _).
  rewrite Hperm in Hr. apply Forall_cons in Hr as [(ds & Hds & Hcmd & Hact & Hpay) Hrest].
  destruct (does_lead_result r1 (with_core (fun _ => c) a) k m ds) as (resp & r2 & Hr2 & L2); try done.
  { by rewrite E1, lookup_insert_eq. }
  rewrite E1, insert_insert_eq in L2. set (g' := <[lead := _]> (rt_agents r)) in L2.
  destruct (after_result_ok total ds k Hc) as [Hc' Hres'].
  assert (Hpl : pending_at g' lead = pending c) by (unfold g'; by rewrite pending_at_insert).
  assert (Hpw : forall w, w ∈ ws -> pending_at g' w = pending_at (rt_agents r) w).
  { intros w Hin. unfold g'. rewrite pending_at_insert_ne; [done|]. by intros ->. }
  exists g', (Some resp). split; [|split; [split|]].
  - exists r2. split; [|by eapply leaves_trans]. unfold pull. rewrite run_bind, Hr1, run_bind, Hr2. reflexivity.
  - exists (after_result ds k). split; [|split; [done|]].
    + eexists. unfold g'. rewrite lookup_insert_eq. split_and!; [done|done|].
      destruct Hba as (? & ? & ?). unfold on_bus; simpl. by rewrite Hmb, Hms.
    + rewrite Hres'. rewrite (tasks_out_same _ g' Hpw). unfold results_out. rewrite Hpl, Hp.
      unfold results_out. rewrite (pending_at_lookup _ _ _ Ha), Hperm. simpl.
      unfold result_value at 1. rewrite Hpay. simpl. solve_Permutation.
  - intros w Hin. destruct (Hw w Hin) as (b & t & Hb & ?). exists b, t. unfold g'.
    rewrite lookup_insert_ne; [done|]. by intros ->.
  - intros w Hin. rewrite Hpw by done. by apply Ht.
  - by rewrite Hpl.
  - unfold weight. rewrite (tasks_out_same _ g' Hpw), Hpl, (pending_at_lookup _ _ _ Ha), Hperm. simpl. lia.
Qed.

(** ** From a goal to its sum *)

(** A team with nothing to do: the lead in any state, healthy workers, empty inboxes. *)
Definition ready r : Prop :=
  (exists k, lead_ok (rt_router r) (rt_agents r) k) /\
  (forall w, w ∈ ws -> worker_ok (rt_router r) (rt_agents r) w) /\
  (forall id, id ∈ lead :: ws -> pending_at (rt_agents r) id = []).

(** The lead's bookkeeping when a goal with [n] subtasks has been accepted. *)
Definition accepted (goal requester : string) (n : nat) (k : CoordinationState ModuleLeadState)
    : CoordinationState ModuleLeadState :=
  coord_transitionTo M_WAITING_FOR_TASKS "WAITING_FOR_TASKS"
    (initializeCoordination n (setGoal goal requester (coord_transitionTo M_PLANNING "PLANNING" k))).

Lemma team_start router g a n k :
  0 < n -> on_bus router lead a -> counts_ok n k -> results_ k = [] ->
  (forall w, w ∈ ws -> worker_ok router g w) ->
  (forall id, id ∈ lead :: ws -> pending_at g id = []) -> g !! lead = Some a ->
  team router n [] (<[lead := with_kind (fun _ => KModule k ws) a]> g).
Proof.
  intros Hn Hbus Hc Hres Hw Hp Ha.
  assert (Hpend : forall id, id ∈ lead :: ws ->
            pending_at (<[lead := with_kind (fun _ => KModule k ws) a]> g) id = []).
  { intros id Hin. destruct (decide (id = lead)) as [->|Hne].
    - rewrite pending_at_insert. simpl. rewrite <- (pending_at_lookup _ _ _ Ha). by apply Hp.
    - rewrite pending_at_insert_ne by done. by apply Hp. }
  split.
  - exists k. split; [eexists; by rewrite lookup_insert_eq|]. split; [done|].
    unfold results_out. rewrite Hpend, Hres by set_solver. simpl.
    unfold tasks_out. replace (flat_map _ ws) with (@nil string); [done|]. symmetry.
    assert (Hall : forall l, (forall w, w ∈ l -> w ∈ ws) ->
      flat_map (fun w => map task_value (pending_at (<[lead := with_kind (fun _ => KModule k ws) a]> g) w)) l = []).
    { induction l as [|w l IH]; intros Hl; [done|]. simpl. rewrite Hpend, IH by set_solver. done. }
    by apply Hall.
  - intros w Hin. destruct (Hw w Hin) as (b & t & Hb & ?). exists b, t.
    rewrite lookup_insert_ne; [done|]. by intros ->.
  - intros w Hin. rewrite Hpend by set_solver. constructor.
  - rewrite Hpend by set_solver. constructor.
Qed.

(** The lead takes a goal on: four updates of its coordination state. *)
Lemma accept_goal r a k goal requester n :
  rt_agents r !! lead = Some a -> a_kind a = KModule k ws ->
  exists r1 r2 r3 r4,
    upd_kind lead (module_upd_coord (coord_transitionTo M_PLANNING "PLANNING")) r = (r1, inr tt) /\
    upd_kind lead (module_upd_coord (setGoal goal requester)) r1 = (r2, inr tt) /\
    upd_kind lead (module_upd_coord (initializeCoordination n)) r2 = (r3, inr tt) /\
    upd_kind lead (module_upd_coord (coord_transitionTo M_WAITING_FOR_TASKS "WAITING_FOR_TASKS")) r3 = (r4, inr tt) /\
    leaves r (<[lead := with_kind (fun _ => KModule (accepted goal requester n k) ws) a]> (rt_agents r)) r4.
Proof.
  intros Ha Hk.
  assert (Hself : rt_agents r = <[lead := with_kind (fun _ => KModule k ws) a]> (rt_agents r)).
  { rewrite insert_id; [done|]. rewrite Ha. f_equal. unfold with_kind. rewrite <- Hk. by destruct a. }
  destruct (does_upd_module r (rt_agents r) a k (coord_transitionTo M_PLANNING "PLANNING") Hself)
    as (r1 & Hr1 & L1).
  destruct (does_upd_module r1 (rt_agents r) a _ (setGoal goal requester) (proj1 L1)) as (r2 & Hr2 & L2).
  destruct (does_upd_module r2 (rt_agents r) a _ (initializeCoordination n) (proj1 L2)) as (r3 & Hr3 & L3).
  destruct (does_upd_module r3 (rt_agents r) a _ (coord_transitionTo M_WAITING_FOR_TASKS "WAITING_FOR_TASKS") (proj1 L3))
    as (r4 & Hr4 & L4).
  exists r1, r2, r3, r4. split_and!; [done..|].
  eapply leaves_trans; [exact L1|]. eapply leaves_trans; [exact L2|]. eapply leaves_trans; [exact L3|exact L4].
Qed.

Lemma team_goal r msg nums :
  ready r -> ws <> [] ->
  action_type msg <> CANCEL_TASK -> action_type msg <> TASK_FAILED -> command msg <> "response" ->
  nums = runs isdigit (command msg) -> nums <> [] -> length nums <= AGENT_MAX_QUEUE_SIZE ->
  exists g resp, does (processMessage command_order popen lead msg) r g resp /\
       team (rt_router r) (length nums) (reverse nums) g.
Proof.
  intros ((k & a & Ha & Hk & Hbus) & Hw & Hp) Hws Hnc Hnf Hnr Hnums Hne Hlen.
  destruct (accept_goal r a k (command msg) (sender_id msg) (length nums) Ha Hk)
    as (r1 & r2 & r3 & r4 & Hr1 & Hr2 & Hr3 & Hr4 & L).
  destruct L as (E1 & E2 & E3).
  assert (HT : team (rt_router r4) (length nums) [] (rt_agents r4)).
  { rewrite E1, E2. apply team_start; try done; [by destruct nums; [|simpl; lia]|].
    unfold counts_ok. simpl. rewrite bool_decide_eq_false_2; [done|]. destruct nums; [done|simpl; lia]. }
  destruct (team_delegate nums 0 r4 (length nums) [] HT Hws) as (g & (r5 & Hr5 & L5) & HT5).
  { apply List.Forall_forall. intros ds Hin. subst nums. by apply runs_forall in Hin. }
  { simpl. lia. }
  destruct (does_response Success msg lead
    ("Goal decomposed into " +:+ to_string (Z.of_nat (length nums)) +:+ " subtasks") r5) as (resp & (r6 & Hr6 & L6) & _).
  exists g, resp. rewrite app_nil_r, E2 in HT5. split; [|exact HT5].
  assert (Hdec : module_decomposeGoal (command msg) = map (fun ds => "echo " +:+ ds) nums).
  { unfold module_decomposeGoal, number_regex. rewrite Hnums, <- sregex_iterator_runs, map_map. done. }
  exists r6. split.
  - unfold processMessage. rewrite run_bind. unfold this. rewrite Ha, Hk. unfold lead_processMessage.
    rewrite !decide_False by done. cbn [isSubordinateResult ModuleLeadAgent]. unfold module_isSubordinateResult.
    rewrite (proj2 (str_eqb_false _ _) Hnr). cbn [andb].
    unfold transitionTo. cbn [planning_state_ waiting_state_ error_state_ stateToString upd_coord decomposeGoal
      delegateSubtasks ModuleLeadAgent module_stateToString].
    rewrite run_bind, Hr1, run_bind, Hr2. cbv beta iota zeta. rewrite Hdec.
    destruct (map _ nums) as [|t ts] eqn:Em; [by destruct nums|]. rewrite <- Em in Hr5 |- *. rewrite length_map.
    rewrite (proj2 (Z.ltb_ge _ _)).
    2: { unfold INT_MAX. unfold AGENT_MAX_QUEUE_SIZE in Hlen. lia. }
    rewrite run_bind, Hr3, run_bind, Hr4, run_bind, Hr5. exact Hr6.
  - eapply leaves_trans; [split; [exact E1|split; [exact E2|exact E3]]|].
    eapply leaves_trans; [exact L5|]. destruct L5 as (F1 & _). by rewrite <- F1.
Qed.

(** Steps of team members that have a message waiting. *)
Inductive busy_run : nat -> Rt -> Rt -> Prop :=
| busy_nil r : busy_run 0 r r
| busy_cons n r id r' :
    id ∈ lead :: ws -> pending_at (rt_agents r) id <> [] ->
    busy_run n (pull command_order popen id r).1 r' -> busy_run (S n) r r'.

(** No team member has a message waiting. *)
Definition quiet r : Prop := forall id, id ∈ lead :: ws -> pending_at (rt_agents r) id = [].

Lemma team_busy_run n r r' total nums :
  echoes popen -> length nums <= AGENT_MAX_QUEUE_SIZE ->
  busy_run n r r' -> team (rt_router r) total nums (rt_agents r) ->
  team (rt_router r') total nums (rt_agents r') /\ n + weight (rt_agents r') = weight (rt_agents r).
Proof.
  intros He Hlen. induction 1 as [r|n r id r' Hin Hne _ IH]; intros HT; [done|].
  assert (exists g' x, does (pull command_order popen id) r g' x /\ team (rt_router r) total nums g' /\
            weight g' + 1 = weight (rt_agents r)) as (g' & x & (r1 & Hr1 & E1 & E2 & _) & HT1 & Hwt).
  { apply elem_of_cons in Hin as [->|Hin]; [by apply team_lead_step|by apply team_worker_step]. }
  rewrite Hr1 in IH. cbn [fst] in IH. rewrite E1, E2 in IH. destruct (IH HT1) as [HT2 Hn]. split; [done|]. lia.
Qed.

Lemma quiet_or_busy r : quiet r \/ exists id, id ∈ lead :: ws /\ pending_at (rt_agents r) id <> [].
Proof.
  unfold quiet. induction (lead :: ws) as [|id l IH]; [left; set_solver|].
  destruct (pending_at (rt_agents r) id) as [|m ms] eqn:E; [|right; exists id; rewrite E; set_solver].
  destruct IH as [IH|(id' & H1 & H2)]; [left|right; exists id'; set_solver].
  intros id' [->|Hin]%elem_of_cons; [done|by apply IH].
Qed.

Lemma team_finishes r total nums :
  echoes popen -> length nums <= AGENT_MAX_QUEUE_SIZE ->
  team (rt_router r) total nums (rt_agents r) -> exists n r', busy_run n r r' /\ quiet r'.
Proof.
  intros He Hlen. remember (weight (rt_agents r)) as wt eqn:Ew. revert r Ew.
  induction wt as [wt IH] using lt_wf_ind; intros r Ew HT.
  destruct (quiet_or_busy r) as [Hq|(id & Hin & Hne)]; [exists 0, r; split; [constructor|done]|].
  assert (Hstep : busy_run 1 r (pull command_order popen id r).1) by (econstructor; [done|done|constructor]).
  destruct (team_busy_run 1 r _ total nums He Hlen Hstep HT) as [HT1 Hw].
  destruct (IH (weight (rt_agents (pull command_order popen id r).1)) ltac:(lia) _ eq_refl HT1) as (n & r' & Hrun & Hq).
  exists (S n), r'. split; [by econstructor|done].
Qed.

Lemma team_weight_bound router total nums g : team router total nums g -> weight g <= 2 * length nums.
Proof.
  intros HT. destruct (tm_lead _ _ _ _ HT) as (k & Hl & _). pose proof (length_out _ _ _ _ _ HT Hl).
  unfold weight. lia.
Qed.

(** The report of a lead that has everything. *)
Lemma synthesize_sum r k :
  lead_ok (rt_router r) (rt_agents r) k -> current_state_ k = M_SYNTHESIZING ->
  (synthesizeResults lead r).2 = inr ("Module result: Sum = " +:+ to_string (sum_results (results_ k))).
Proof.
  intros (a & Ha & Hk & _) Hst. unfold synthesizeResults, module_coordination.
  rewrite !run_bind. unfold this. rewrite Ha, Hk. cbn [module_coord_of]. rewrite run_ret, Hst.
  rewrite run_bind. unfold module_transitionTo, upd_kind, upd_agent. rewrite run_modify. cbv beta iota.
  rewrite run_ret. reflexivity.
Qed.

Lemma team_quiet_done r nums :
  team (rt_router r) (length nums) nums (rt_agents r) -> quiet r ->
  Forall digits nums -> (total_of nums <= 2 ^ 31 - 1)%Z ->
  exists k, lead_ok (rt_router r) (rt_agents r) k /\ current_state_ k = M_SYNTHESIZING /\
    (synthesizeResults lead r).2 = inr ("Module result: Sum = " +:+ to_string (total_of nums)).
Proof.
  intros HT Hq Hd Htot. destruct (tm_lead _ _ _ _ HT) as (k & Hl & (H1 & H2 & H3 & H4) & Hp).
  assert (Hro : results_out (rt_agents r) = []) by (unfold results_out; by rewrite Hq by set_solver).
  assert (Hto : tasks_out (rt_agents r) = []).
  { rewrite <- (tasks_out_same (rt_agents r) ∅).
    - unfold tasks_out, pending_at. clear. induction ws as [|w l IH]; [done|]. simpl. by rewrite lookup_empty.
    - intros w Hin. rewrite Hq by set_solver. unfold pending_at. by rewrite lookup_empty. }
  rewrite Hro, Hto, !app_nil_r in Hp. exists k. split; [done|].
  assert (Hst : current_state_ k = M_SYNTHESIZING).
  { rewrite H4, bool_decide_eq_true_2; [done|]. by rewrite <- Hp. }
  split; [done|]. rewrite (synthesize_sum r k Hl Hst). do 3 f_equal. rewrite sum_results_total.
  - symmetry. by apply total_of_perm.
  - by rewrite <- Hp.
  - by rewrite <- (total_of_perm _ _ Hp).
Qed.
End team.
