(* ===== verification/LeadFacts.v ===== *)
(** * Lead agents: failures and results

    What a lead does with the outcome of a subordinate, against the interface [LeadAgent]: the
    laws [LeadLaws] say that a lead's hooks reach its own coordination state. *)

From S2P Require Import Prelude Effects Text Regex AgentMessages CoreMetrics AgentCore Commands.
From S2P Require Import FailureInjector Runtime RuntimeFacts.

Section lead.
Context `{CQ : !ConcurrentQueue KeystoneMessage, HO : !HashOrder}.
Context {OS : Type}.
Abbreviation Rt := (@Runtime CQ OS).
Implicit Types r : Rt.

Class LeadLaws (St : Type) `{L : !@LeadAgent CQ OS St} : Prop := {
  ll_upd f k c : coord_of k = Some c -> coord_of (upd_coord f k) = Some (f c);
}.

#[global] Instance module_laws : LeadLaws ModuleLeadState.
Proof. split. intros f k c. destruct k; simpl; try done. by intros [= ->]. Qed.
#[global] Instance component_laws : LeadLaws ComponentLeadState.
Proof. split. intros f k c. destruct k; simpl; try done. by intros [= ->]. Qed.

Lemma does_create_action sender receiver act session data ct r :
  exists id t, does (msg_create_action sender receiver act session data ct) r (rt_agents r)
    {| msg_id := id; sender_id := sender; receiver_id := receiver; action_type := act;
       content_type := ct; session_id := session; metadata := ∅; priority := NORMAL;
       deadline := None; task_id := None; correlation_id := None; command := actionTypeToString act;
       payload := data; timestamp := t |}.
Proof.
  destruct (msg_uuid_run 32 0 r) as (id & r1 & H1 & L1). destruct (does_system r1) as (t & r2 & H2 & L2).
  exists id, t, r2. split; [|by eapply leaves_quiet].
  unfold msg_create_action, msg_generate_uuid. rewrite run_bind, H1, run_bind, H2. reflexivity.
Qed.

Context {St : Type} `{L : !@LeadAgent CQ OS St, LL : !LeadLaws St}.

Lemma does_coordination self r a k :
  rt_agents r !! self = Some a -> coord_of (a_kind a) = Some k ->
  coordination_ self r = (r, inr k).
Proof. intros Ha Hk. unfold coordination_. rewrite run_bind. unfold this. by rewrite Ha, Hk. Qed.

(** The report of a failure that a lead sends to whoever gave it the goal. *)
Definition is_failure_report (self q session error : string) (m : KeystoneMessage) : Prop :=
  sender_id m = self /\ receiver_id m = q /\ action_type m = TASK_FAILED /\ session_id m = session /\
  payload m = Some error.

(** The report: the lead turns to its error state and tells the requester. *)
Lemma does_report self session error r a k b :
  rt_agents r !! self = Some a -> coord_of (a_kind a) = Some k -> on_bus (rt_router r) self a ->
  requester_id_ k <> "" -> requester_id_ k <> self ->
  rt_agents r !! requester_id_ k = Some b -> on_bus (rt_router r) (requester_id_ k) b ->
  exists a' m, a_core a' = a_core a /\ is_failure_report self (requester_id_ k) session error m /\
    coord_of (a_kind a') = Some (coord_transitionTo error_state_ (stateToString error_state_) k) /\
    does (transitionTo self error_state_ ;; k ← coordination_ self;
          when (negb (str_empty (requester_id_ k)))
            (m ← msg_create_action self (requester_id_ k) TASK_FAILED session (Some error) TEXT_PLAIN;
             sendMessage self m)) r
      (<[requester_id_ k := with_core (core_receiveMessage m) b]> (<[self := a']> (rt_agents r))) tt.
Proof.
  intros Ha Hk Hba Hq Hne Hb Hbb.
  set (to := coord_transitionTo (St := St) error_state_ (stateToString error_state_)).
  set (a' := with_kind (upd_coord to) a).
  assert (Hk' : coord_of (a_kind a') = Some (to k)) by (by apply ll_upd).
  assert (Hes : str_empty (requester_id_ k) = false) by (destruct (requester_id_ k); [congruence|reflexivity]).
  destruct (does_upd self (with_kind (upd_coord to)) r a Ha) as (r1 & Hr1 & L1).
  fold a' in L1. pose proof L1 as (E1 & E2 & _).
  destruct (does_create_action self (requester_id_ k) TASK_FAILED session (Some error) TEXT_PLAIN r1)
    as (id & t & r2 & Hr2 & L2).
  pose proof L2 as (F1 & F2 & _). match type of Hr2 with _ = (_, inr ?x) => set (m := x) in Hr2 end.
  destruct (does_send self m r2 a' b) as (r3 & Hr3 & L3).
  - rewrite F1, E1. apply lookup_insert_eq.
  - rewrite F2, E2. exact Hba.
  - change (receiver_id m) with (requester_id_ k). rewrite F1, E1, lookup_insert_ne by congruence. exact Hb.
  - rewrite F2, E2. exact Hbb.
  - exists a', m. split; [reflexivity|]. split; [split_and!; reflexivity|]. split; [exact Hk'|]. exists r3. split.
    + rewrite run_bind. unfold transitionTo, upd_kind. fold to. unfold with_kind in Hr1. rewrite Hr1, run_bind.
      rewrite (does_coordination self r1 a' (to k)); [|rewrite E1; apply lookup_insert_eq|exact Hk'].
      change (requester_id_ (to k)) with (requester_id_ k).
      rewrite Hes. cbn [negb]. rewrite run_when_true, run_bind, Hr2. exact Hr3.
    + rewrite F1, E1 in L3. change (receiver_id m) with (requester_id_ k) in L3. rewrite E1 in L2.
      eapply leaves_trans; [exact L1|]. eapply leaves_trans; [exact L2|exact L3].
Qed.

(** A subordinate's failure: counted; the last outcome turns the lead to its error state and is
    reported to the requester. *)
Lemma does_lead_failure self msg r a k b :
  rt_agents r !! self = Some a -> coord_of (a_kind a) = Some k -> action_type msg = TASK_FAILED ->
  on_bus (rt_router r) self a -> requester_id_ k <> "" -> requester_id_ k <> self ->
  rt_agents r !! requester_id_ k = Some b -> on_bus (rt_router r) (requester_id_ k) b ->
  let error := default "subordinate task failed" (payload msg) in
  let k1 := (recordFailure error k).1 in
  exists a' resp, a_core a' = a_core a /\
    if isComplete k1 then
      coord_of (a_kind a') = Some (coord_transitionTo error_state_ (stateToString error_state_) k1) /\
      exists m, is_failure_report self (requester_id_ k) (session_id msg) error m /\
        does (lead_processMessage (St := St) self msg) r
          (<[requester_id_ k := with_core (core_receiveMessage m) b]> (<[self := a']> (rt_agents r))) resp
    else
      coord_of (a_kind a') = Some k1 /\
      does (lead_processMessage (St := St) self msg) r (<[self := a']> (rt_agents r)) resp.
Proof.
  intros Ha Hk Hact Hba Hq Hne Hb Hbb error k1. set (a1 := with_kind (upd_coord (fun _ => k1)) a).
  assert (Hk1 : coord_of (a_kind a1) = Some k1) by (exact (ll_upd (fun _ => k1) _ k Hk)).
  destruct (does_upd self (with_kind (upd_coord (fun _ => k1))) r a Ha) as (r1 & Hr1 & L1).
  fold a1 in L1. pose proof L1 as (E1 & E2 & _).
  assert (Hrest : forall g, does (when (isComplete k1) (transitionTo self error_state_ ;; k ← coordination_ self;
       when (negb (str_empty (requester_id_ k)))
         (m ← msg_create_action self (requester_id_ k) TASK_FAILED (session_id msg) (Some error) TEXT_PLAIN;
          sendMessage self m))) r1 g tt -> exists resp, does (lead_processMessage (St := St) self msg) r g resp).
  { intros g (r2 & Hr2 & L2).
    destruct (does_response Success msg self "Subordinate failure recorded" r2) as (resp & (r3 & Hr3 & L3) & _).
    exists resp, r3. split.
    - unfold lead_processMessage. rewrite decide_False by (rewrite Hact; discriminate). rewrite decide_True by exact Hact.
      rewrite run_bind. unfold processSubordinateFailure. cbv zeta. fold error.
      rewrite run_bind, (does_coordination self r a k Ha Hk).
      replace (recordFailure error k) with (k1, isComplete k1) by reflexivity. cbv beta iota.
      rewrite run_bind. unfold upd_kind. unfold with_kind in Hr1. rewrite Hr1, Hr2. exact Hr3.
    - eapply leaves_trans; [exact L1|]. eapply leaves_trans; [exact L2|].
      destruct L2 as (E & _). rewrite <- E. exact L3. }
  destruct (isComplete k1).
  - destruct (does_report self (session_id msg) error r1 a1 k1 b) as (a' & m & H1 & H2 & H3 & H4).
    + rewrite E1. apply lookup_insert_eq.
    + exact Hk1.
    + rewrite E2. exact Hba.
    + exact Hq.
    + exact Hne.
    + rewrite E1, lookup_insert_ne by (intros Heq; exact (Hne (eq_sym Heq))). exact Hb.
    + rewrite E2. exact Hbb.
    + rewrite E1, insert_insert_eq in H4. destruct (Hrest _ H4) as (resp & Hd).
      exists a', resp. split; [exact H1|]. split; [exact H3|]. exists m. split; [exact H2|exact Hd].
  - destruct (Hrest (<[self := a1]> (rt_agents r))) as (resp & Hd).
    { exists r1. split; [reflexivity|]. split; [exact E1|split; reflexivity]. }
    exists a1, resp. split; [reflexivity|]. split; [exact Hk1|exact Hd].
Qed.
End lead.
