(* ===== verification/RuntimeInvariant.v ===== *)
(** * The agent runtime: its invariant

    What holds of every agent whatever messages are exchanged, in whatever order agents pull and
    workers run jobs, and whichever operations throw: objects keep their identity, inboxes stay
    within their limit, and a lead's counters, results and execution trace agree. *)

From S2P Require Import Prelude Effects Text Regex AgentMessages CoreMetrics AgentCore Commands.
From S2P Require Import FailureInjector Runtime RuntimeFacts.

(** A lead's bookkeeping: a result or a failure message for every event received, and a trace
    that ends with the current state. *)
Record coord_ok {St} (name : St -> string) (k : CoordinationState St) : Prop := {
  co_received : received_results_ k = length (results_ k) + length (failure_messages_ k);
  co_failed : failed_results_ k = length (failure_messages_ k);
  co_trace : last (execution_trace_ k) = Some (name (current_state_ k));
}.

Lemma coord_ok_new {St} (name : St -> string) s n :
  n = name s -> coord_ok name (coord_transitionTo s n (new_coordination s)).
Proof. by intros ->. Qed.

Lemma coord_ok_transition {St} (name : St -> string) s k :
  coord_ok name k -> coord_ok name (coord_transitionTo s (name s) k).
Proof. intros [H1 H2 H3]. split; simpl; [done|done|]. by rewrite last_snoc. Qed.

Lemma coord_ok_result {St} (name : St -> string) p k : coord_ok name k -> coord_ok name (recordResult p k).1.
Proof. intros [H1 H2 H3]. split; simpl; [rewrite H1, length_app; simpl; lia|done|done]. Qed.

Lemma coord_ok_failure {St} (name : St -> string) e k : coord_ok name k -> coord_ok name (recordFailure e k).1.
Proof. intros [H1 H2 H3]. split; simpl; rewrite ?length_app; simpl; [lia|lia|done]. Qed.

Lemma coord_ok_init {St} (name : St -> string) n k : coord_ok name k -> coord_ok name (initializeCoordination n k).
Proof. intros [H1 H2 H3]. by split. Qed.
Lemma coord_ok_goal {St} (name : St -> string) g q k : coord_ok name k -> coord_ok name (setGoal g q k).
Proof. intros [H1 H2 H3]. by split. Qed.
Lemma coord_ok_track {St} (name : St -> string) i s k :
  coord_ok name k -> coord_ok name (trackPendingSubordinate i s k).
Proof. intros [H1 H2 H3]. by split. Qed.

#[export] Hint Resolve coord_ok_transition coord_ok_result coord_ok_failure coord_ok_init coord_ok_goal
  coord_ok_track : agamemnon.

Definition kind_ok (k : AgentKind) : Prop :=
  match k with
  | KModule c _ => coord_ok module_stateToString c
  | KComponent c _ => coord_ok component_stateToString c
  | KChief | KTask _ => True
  end.

Section invariant.
Context `{CQ : !ConcurrentQueue KeystoneMessage, HO : !HashOrder}.
Context {CL : ConcurrentQueueLaws KeystoneMessage} {QL : QuiescentQueueLaws KeystoneMessage} {OS : Type}.
Context (command_order : list string) (popen : string -> OS -> OS * option (string * Z)).
Abbreviation Rt := (@Runtime CQ OS).

Record agent_ok (id : string) (a : Agent) : Prop := {
  ao_id : agent_id_ (a_core a) = id;
  ao_pending : length (pending (a_core a)) <= AGENT_MAX_QUEUE_SIZE;
  ao_kind : kind_ok (a_kind a);
}.

Definition runtime_ok (r : Rt) : Prop := forall id a, rt_agents r !! id = Some a -> agent_ok id a.
Abbreviation Ok := (keeping runtime_ok).

(** Operations that leave the agents alone. *)
Lemma ok_rt_same {A} (m : M Rt A) : (forall r, rt_agents (m r).1 = rt_agents r) -> moves Ok m.
Proof. intros H r Hr id a. rewrite H. apply Hr. Qed.

Lemma ok_upd self f : (forall a, agent_ok self a -> agent_ok self (f a)) -> moves Ok (upd_agent self f).
Proof.
  intros Hf r Hr id a. simpl. destruct (decide (id = self)) as [->|Hne].
  - rewrite lookup_alter_eq. destruct (rt_agents r !! self) as [a0|] eqn:E; intros [= <-].
    apply Hf. by apply Hr.
  - rewrite lookup_alter_ne by done. apply Hr.
Qed.

(** What [this] returns is one of the agents. *)
Lemma ok_this {A} self (f : Agent -> M Rt A) :
  (forall a, agent_ok self a -> moves Ok (f a)) -> moves Ok (this self ≫= f).
Proof.
  intros Hf r Hr. rewrite run_bind. unfold this. destruct (rt_agents r !! self) as [a|] eqn:E; [|done].
  apply Hf; [by apply Hr|done].
Qed.

Lemma ok_core self f : (forall c, agent_id_ (f c) = agent_id_ c) ->
  (forall c, length (pending c) <= AGENT_MAX_QUEUE_SIZE -> length (pending (f c)) <= AGENT_MAX_QUEUE_SIZE) ->
  moves Ok (upd_core self f).
Proof. intros H1 H2. apply ok_upd. intros a [Hi Hp Hk]. split; simpl; [by rewrite H1|by apply H2|done]. Qed.

Lemma ok_set_core self c : agent_id_ c = self -> length (pending c) <= AGENT_MAX_QUEUE_SIZE ->
  moves Ok (upd_core self (fun _ => c)).
Proof. intros H1 H2. apply ok_upd. by intros a [_ _ Hk]. Qed.

Lemma ok_kind self f : (forall k, kind_ok k -> kind_ok (f k)) -> moves Ok (upd_kind self f).
Proof. intros Hf. apply ok_upd. intros a [Hi Hp Hk]. split; simpl; [done|done|by apply Hf]. Qed.

Lemma ok_steady : moves Ok steady_now.
Proof. by apply ok_rt_same. Qed.
Lemma ok_system : moves Ok (system_now : M Rt Z).
Proof. by apply ok_rt_same. Qed.
Lemma ok_uniform lo hi : moves Ok (uniform lo hi : M Rt Z).
Proof. by apply ok_rt_same. Qed.
Lemma ok_metrics f : moves Ok (upd_metrics f).
Proof. by apply ok_rt_same. Qed.
Lemma ok_jobs f : moves Ok (modify (fun r : Rt => set_jobs (f r) r)).
Proof. by apply ok_rt_same. Qed.
Lemma ok_router f : moves Ok (modify (fun r : Rt => set_router (f r) r)).
Proof. by apply ok_rt_same. Qed.
Lemma ok_rt_exec m : moves Ok (exec m : M Rt string).
Proof. apply ok_rt_same. intros r. unfold exec, zoom. by destruct (m (rt_os r)). Qed.
#[local] Hint Resolve ok_steady ok_system ok_uniform ok_metrics ok_jobs ok_router ok_rt_exec : agamemnon.

Lemma ok_uuid n i : moves Ok (msg_uuid_loop n i : M Rt string).
Proof. revert i; induction n as [|n IH]; intros i; cbn [msg_uuid_loop]; moves. Qed.
Lemma ok_msg_uuid : moves Ok (msg_generate_uuid : M Rt string).
Proof. apply ok_uuid. Qed.
#[local] Hint Resolve ok_uuid ok_msg_uuid : agamemnon.
Lemma ok_msg_create s q c d : moves Ok (msg_create s q c d : M Rt _).
Proof. unfold msg_create. moves. Qed.
Lemma ok_create_action s q a ss d c : moves Ok (msg_create_action s q a ss d c : M Rt _).
Proof. unfold msg_create_action. moves. Qed.
Lemma ok_success m s d : moves Ok (createSuccess m s d : M Rt _).
Proof. unfold createSuccess, response_of. moves. Qed.
Lemma ok_error m s d : moves Ok (createError m s d : M Rt _).
Proof. unfold createError, response_of. moves. Qed.
Lemma ok_deadline m : moves Ok (hasDeadlinePassed m : M Rt _).
Proof. unfold hasDeadlinePassed. moves. Qed.
Lemma ok_until m : moves Ok (getTimeUntilDeadline m : M Rt _).
Proof. unfold getTimeUntilDeadline. moves. Qed.
#[local] Hint Resolve ok_msg_create ok_create_action ok_success ok_error ok_deadline ok_until : agamemnon.

Lemma ok_receive self m : moves Ok (receiveMessage self m).
Proof.
  unfold receiveMessage. apply ok_this. intros a _. destruct (scheduler_ (a_core a)); [by apply ok_rt_same|].
  apply ok_core; [intros c; apply core_receive_keeps|].
  intros c Hc. rewrite pending_receive. case_bool_decide; simpl; lia.
Qed.
#[local] Hint Resolve ok_receive : agamemnon.

Lemma ok_route m : moves Ok (routeMessage m : M Rt bool).
Proof. unfold routeMessage. moves. Qed.
#[local] Hint Resolve ok_route : agamemnon.

Lemma ok_send self m : moves Ok (sendMessage self m).
Proof. unfold sendMessage. apply ok_this. intros a _. moves. Qed.
#[local] Hint Resolve ok_send : agamemnon.

Lemma ok_get self : moves Ok (getMessage self).
Proof.
  unfold getMessage. apply ok_this. intros a [Hi Hp Hk]. apply moves_bind; [typeclasses eauto|moves|].
  intros t. pose proof (pending_get t (a_core a)) as Hg. pose proof (core_get_keeps t (a_core a)) as (_ & _ & Hid & _).
  destruct (core_getMessage t (a_core a)) as [c m]. cbn [fst] in Hid.
  assert (length (pending c) <= AGENT_MAX_QUEUE_SIZE).
  { destruct m; [apply Permutation_length in Hg; simpl in Hg; lia|by destruct Hg as [-> _]]. }
  apply moves_bind; [typeclasses eauto|apply ok_set_core; [congruence|done]|]. moves.
Qed.
#[local] Hint Resolve ok_get : agamemnon.

Lemma ok_cancel self m : moves Ok (handleCancellation self m).
Proof.
  unfold handleCancellation. apply ok_this. intros a _. destruct (task_id m); [|moves].
  apply moves_bind; [typeclasses eauto| |moves]. by apply ok_core.
Qed.
Lemma ok_reply self m t : moves Ok (reply_to self m t).
Proof. unfold reply_to. moves. Qed.
#[local] Hint Resolve ok_cancel ok_reply : agamemnon.

(** ** Leads *)

(** What the invariant needs of a lead's hooks. *)
Class LeadOk (St : Type) `{L : !LeadAgent St} := {
  lo_upd f k : (forall c, coord_ok stateToString c -> coord_ok stateToString (f c)) ->
               kind_ok k -> kind_ok (upd_coord f k);
  lo_get k c : coord_of k = Some c -> kind_ok k -> coord_ok stateToString c;
  lo_delegate self l : moves Ok (delegateSubtasks self l);
  lo_result self m : moves Ok (processSubordinateResult self m);
}.

Section lead.
Context {St : Type} `{L : !LeadAgent St, LO : !LeadOk St}.

Lemma ok_coordination {A} self (f : CoordinationState St -> M Rt A) :
  (forall k, coord_ok stateToString k -> moves Ok (f k)) -> moves Ok (coordination_ self ≫= f).
Proof.
  intros Hf r Hr. rewrite run_bind. unfold coordination_. rewrite run_bind. unfold this.
  destruct (rt_agents r !! self) as [a|] eqn:E; [|done].
  destruct (coord_of (a_kind a)) as [k|] eqn:Ek; [|done]. rewrite run_ret.
  apply Hf; [|done]. eapply lo_get; [done|]. apply (Hr _ _ E).
Qed.

Lemma ok_transition self s : moves Ok (transitionTo (St := St) self s).
Proof. apply ok_kind. intros k. apply lo_upd. eauto with agamemnon. Qed.

Lemma ok_upd_coord self f : (forall c, coord_ok stateToString c -> coord_ok stateToString (f c)) ->
  moves Ok (upd_kind self (upd_coord (St := St) f)).
Proof. intros Hf. apply ok_kind. intros k. by apply lo_upd. Qed.

Lemma ok_lead_failure self m : moves Ok (processSubordinateFailure (St := St) self m).
Proof.
  unfold processSubordinateFailure. cbv zeta. apply ok_coordination. intros k Hk.
  pose proof (coord_ok_failure stateToString (default "subordinate task failed" (payload m)) k Hk) as Hk'.
  destruct (recordFailure _ k) as [k1 done]. cbn [fst] in Hk'.
  apply moves_bind; [typeclasses eauto|by apply ok_upd_coord|]. intros _.
  apply moves_when; [typeclasses eauto|]. apply moves_bind; [typeclasses eauto|apply ok_transition|]. intros _.
  apply ok_coordination. intros k2 _. moves.
Qed.

Lemma ok_lead self m : moves Ok (lead_processMessage (St := St) self m).
Proof.
  assert (Ht : forall s, moves Ok (transitionTo (St := St) self s)) by apply ok_transition.
  assert (Hf := ok_lead_failure self m). assert (Hd := lo_delegate (St := St) self).
  assert (Hr := lo_result (St := St) self m).
  assert (Hg : forall g q, moves Ok (upd_kind self (upd_coord (St := St) (setGoal g q))))
    by (intros; apply ok_upd_coord; eauto with agamemnon).
  assert (Hi : forall n, moves Ok (upd_kind self (upd_coord (St := St) (initializeCoordination n))))
    by (intros; apply ok_upd_coord; eauto with agamemnon).
  unfold lead_processMessage. repeat (moves_step || apply Ht || exact Hf || apply Hd || exact Hr || apply Hg || apply Hi).
Qed.
End lead.

(** What the two leads' loops and result hooks share: sending a subtask, and recording a result. *)
Lemma ok_track self (f : string -> AgentKind -> AgentKind) w t (k : M Rt unit) :
  (forall i x, kind_ok x -> kind_ok (f i x)) -> moves Ok k ->
  moves Ok (m ← msg_create self w t None; upd_kind self (f (msg_id m)) ;; sendMessage self m ;; k).
Proof.
  intros Hf Hk. apply moves_bind; [typeclasses eauto|moves|]. intros m.
  apply moves_bind; [typeclasses eauto|by apply ok_kind, Hf|]. moves.
Qed.

Lemma ok_module_delegate self i l : moves Ok (module_delegate_from self i l).
Proof.
  revert i; induction l as [|t l IH]; intros i; cbn [module_delegate_from]; [moves|].
  unfold available_task_agents_. apply moves_bind; [typeclasses eauto|apply ok_this; intros; moves|].
  intros avail. destruct (avail !! _) as [w|]; [|moves].
  apply (ok_track self (fun i => module_upd_coord (trackPendingSubordinate i w))); [|apply IH].
  intros ? k. destruct k; simpl; eauto with agamemnon.
Qed.

Lemma ok_component_delegate self i l : moves Ok (component_delegate_from self i l).
Proof.
  revert i; induction l as [|t l IH]; intros i; cbn [component_delegate_from]; [moves|].
  unfold available_module_leads_. apply moves_bind; [typeclasses eauto|apply ok_this; intros; moves|].
  intros avail. destruct avail as [|w0 avail]; [moves|]. destruct ((w0 :: avail) !! i) as [w|]; [|moves].
  apply (ok_track self (fun i => component_upd_coord (trackPendingSubordinate i w))); [|apply IH].
  intros ? k. destruct k; simpl; eauto with agamemnon.
Qed.

Lemma ok_module_coordination {A} self (f : CoordinationState ModuleLeadState -> M Rt A) :
  (forall k, coord_ok module_stateToString k -> moves Ok (f k)) -> moves Ok (module_coordination self ≫= f).
Proof.
  intros Hf r Hr. rewrite run_bind. unfold module_coordination. rewrite run_bind. unfold this.
  destruct (rt_agents r !! self) as [a|] eqn:E; [|done]. pose proof (ao_kind _ _ (Hr _ _ E)) as Hk.
  destruct (a_kind a); try done. by apply Hf.
Qed.

Lemma ok_component_coordination {A} self (f : CoordinationState ComponentLeadState -> M Rt A) :
  (forall k, coord_ok component_stateToString k -> moves Ok (f k)) -> moves Ok (component_coordination self ≫= f).
Proof.
  intros Hf r Hr. rewrite run_bind. unfold component_coordination. rewrite run_bind. unfold this.
  destruct (rt_agents r !! self) as [a|] eqn:E; [|done]. pose proof (ao_kind _ _ (Hr _ _ E)) as Hk.
  destruct (a_kind a); try done. by apply Hf.
Qed.

Lemma ok_module_transition self s : moves Ok (module_transitionTo self s).
Proof. apply ok_kind. intros k. destruct k; simpl; eauto with agamemnon. Qed.
Lemma ok_component_transition self s : moves Ok (component_transitionTo self s).
Proof. apply ok_kind. intros k. destruct k; simpl; eauto with agamemnon. Qed.
#[local] Hint Resolve ok_module_transition ok_component_transition : agamemnon.

Lemma ok_module_result self m : moves Ok (module_processSubordinateResult self m).
Proof.
  unfold module_processSubordinateResult. destruct (payload m) as [p|]; [|moves].
  apply ok_module_coordination. intros k Hk. pose proof (coord_ok_result module_stateToString p k Hk) as Hk'.
  destruct (recordResult p k) as [k1 b]. cbn [fst] in Hk'.
  apply moves_bind; [typeclasses eauto| |moves]. apply ok_kind. intros k0. by destruct k0.
Qed.

Lemma ok_component_result self m : moves Ok (component_processSubordinateResult self m).
Proof.
  unfold component_processSubordinateResult. destruct (payload m) as [p|]; [|moves].
  apply ok_component_coordination. intros k Hk. pose proof (coord_ok_result component_stateToString p k Hk) as Hk'.
  destruct (recordResult p k) as [k1 b]. cbn [fst] in Hk'.
  apply moves_bind; [typeclasses eauto| |moves]. apply ok_kind. intros k0. by destruct k0.
Qed.

#[local] Instance module_lead_ok : LeadOk ModuleLeadState.
Proof.
  split.
  - intros f k Hf. destruct k; simpl; auto.
  - intros k c. destruct k; simpl; try done. by intros [= ->].
  - intros self l. apply ok_module_delegate.
  - intros self m. apply ok_module_result.
Qed.

#[local] Instance component_lead_ok : LeadOk ComponentLeadState.
Proof.
  split.
  - intros f k Hf. destruct k; simpl; auto.
  - intros k c. destruct k; simpl; try done. by intros [= ->].
  - intros self l. apply ok_component_delegate.
  - intros self m. apply ok_component_result.
Qed.

(** ** Task agents and the chief *)

Lemma ok_task_of {A} self (f : TaskState -> M Rt A) :
  (forall t, moves Ok (f t)) -> moves Ok (task_of self ≫= f).
Proof.
  intros Hf. apply moves_bind; [typeclasses eauto| |done].
  unfold task_of. apply ok_this. intros a _. destruct (a_kind a); moves.
Qed.

Lemma ok_log self c o : moves Ok (log_command self c o).
Proof. apply ok_kind. intros k. by destruct k. Qed.
#[local] Hint Resolve ok_log : agamemnon.

Lemma ok_task self m : moves Ok (task_processMessage command_order popen self m).
Proof.
  unfold task_processMessage. do 2 (apply moves_bind; [typeclasses eauto|moves|intros ?]).
  apply ok_task_of. intros t. moves.
Qed.

Lemma ok_chief self m : moves Ok (chief_processMessage self m : M Rt _).
Proof. unfold chief_processMessage. moves. Qed.
#[local] Hint Resolve ok_task ok_chief : agamemnon.

Lemma ok_process self m : moves Ok (processMessage command_order popen self m).
Proof.
  unfold processMessage. apply ok_this. intros a _. destruct (a_kind a); [moves| | |moves]; apply ok_lead.
Qed.
#[local] Hint Resolve ok_process : agamemnon.

Lemma ok_pull self : moves Ok (pull command_order popen self).
Proof. unfold pull. moves. Qed.

Lemma ok_run_job i : moves Ok (run_job command_order popen i).
Proof. unfold run_job. moves. Qed.

Lemma ok_step r r' : rt_step command_order popen r r' -> runtime_ok r -> runtime_ok r'.
Proof.
  intros [r0 self|r0 r1 i H] Hr; [by apply ok_pull|].
  pose proof (ok_run_job i r0 Hr) as H1. by rewrite H in H1.
Qed.

(** ** Calls from outside the agents *)

Lemma ok_setBus self null : moves Ok (setMessageBus self null).
Proof.
  unfold setMessageBus. apply ok_this. intros a [Hi Hp _]. destruct null; simpl; [by apply ok_rt_same|].
  apply (moves_bind_result _). intros c [= <-]. by apply ok_set_core.
Qed.
Lemma ok_setScheduler self b : moves Ok (upd_core self (setScheduler b)).
Proof. by apply ok_core. Qed.
#[local] Hint Resolve ok_setScheduler : agamemnon.
Lemma ok_register id o : moves Ok (registerAgent id o : M Rt unit).
Proof. unfold registerAgent. moves. Qed.
Lemma ok_unregister id : moves Ok (unregisterAgent id : M Rt unit).
Proof. unfold unregisterAgent. moves. Qed.
Lemma ok_routerScheduler b : moves Ok (router_setScheduler b : M Rt unit).
Proof. unfold router_setScheduler. moves. Qed.
Lemma ok_setTaskAgents self l : moves Ok (setAvailableTaskAgents self l).
Proof. apply ok_kind. intros k. by destruct k. Qed.
Lemma ok_setModuleLeads self l : moves Ok (setAvailableModuleLeads self l).
Proof. apply ok_kind. intros k. by destruct k. Qed.
Lemma ok_upd_task self f : moves Ok (upd_kind self (upd_task f)).
Proof. apply ok_kind. intros k. by destruct k. Qed.
Lemma ok_synthesize self : moves Ok (synthesizeResults self : M Rt string).
Proof. unfold synthesizeResults. apply ok_module_coordination. intros k _. moves. Qed.
Lemma ok_synthesizeComponent self : moves Ok (synthesizeComponentResult self : M Rt string).
Proof. unfold synthesizeComponentResult. apply ok_component_coordination. intros k _. moves. Qed.
Lemma ok_sendCommand self c t : moves Ok (sendCommand self c t : M Rt _).
Proof. unfold sendCommand. moves. Qed.
#[local] Hint Resolve ok_setBus ok_register ok_unregister ok_routerScheduler ok_setTaskAgents
  ok_setModuleLeads ok_upd_task ok_synthesize ok_synthesizeComponent ok_sendCommand : agamemnon.

(** Everything a program can ask of the runtime. *)
Inductive rt_call :=
| CallPull (self : string) | CallJob (i : nat)
| CallProcess (self : string) (msg : KeystoneMessage) | CallSend (self : string) (msg : KeystoneMessage)
| CallRoute (msg : KeystoneMessage) | CallCommand (self cmd task_agent : string)
| CallRegister (id : string) (agent : option string) | CallUnregister (id : string)
| CallRouterScheduler (b : bool) | CallMessageBus (self : string) (null : bool)
| CallTaskAgents (self : string) (ids : list string) | CallModuleLeads (self : string) (ids : list string)
| CallMarkFailed (self reason : string) | CallRecover (self : string)
| CallInjector (self : string) (attached : bool)
| CallSynthesize (self : string) | CallSynthesizeComponent (self : string).

Definition rt_run (c : rt_call) : M Rt unit :=
  match c with
  | CallPull self => _ ← pull command_order popen self; mret tt
  | CallJob i => run_job command_order popen i
  | CallProcess self msg => _ ← processMessage command_order popen self msg; mret tt
  | CallSend self msg => sendMessage self msg
  | CallRoute msg => _ ← routeMessage msg; mret tt
  | CallCommand self cmd t => _ ← sendCommand self cmd t; mret tt
  | CallRegister id agent => registerAgent id agent
  | CallUnregister id => unregisterAgent id
  | CallRouterScheduler b => router_setScheduler b
  | CallMessageBus self null => setMessageBus self null
  | CallTaskAgents self ids => setAvailableTaskAgents self ids
  | CallModuleLeads self ids => setAvailableModuleLeads self ids
  | CallMarkFailed self reason => markAsFailed self reason
  | CallRecover self => recover self
  | CallInjector self attached => setFailureInjector self attached
  | CallSynthesize self => _ ← synthesizeResults self; mret tt
  | CallSynthesizeComponent self => _ ← synthesizeComponentResult self; mret tt
  end.

Lemma ok_call c : moves Ok (rt_run c).
Proof.
  pose proof ok_pull. pose proof ok_run_job.
  destruct c; cbn [rt_run]; unfold markAsFailed, recover, setFailureInjector; moves; auto with agamemnon.
Qed.

(** The state after a sequence of calls, each of which may throw. *)
Definition rt_calls (cs : list rt_call) (r : Rt) : Rt := foldl (fun r c => (rt_run c r).1) r cs.

Lemma ok_calls cs r : runtime_ok r -> runtime_ok (rt_calls cs r).
Proof. revert r; induction cs as [|c cs IH]; intros r Hr; [done|]. apply IH. by apply ok_call. Qed.

(** The agents as their constructors make them. *)
Definition constructed (r : Rt) : Prop := forall id a, rt_agents r !! id = Some a ->
  a = new_chief id \/ a = new_component_lead id \/ a = new_module_lead id \/ a = new_task_agent id.

Lemma pending_new id : pending (new_core id) = [].
Proof. unfold pending. simpl. by rewrite !contents_new. Qed.

Lemma constructed_ok r : constructed r -> runtime_ok r.
Proof.
  intros Hc id a Ha. destruct (Hc _ _ Ha) as [->|[->|[->| ->]]];
    (split; [done|simpl; rewrite pending_new; simpl; lia|]); try done; by split.
Qed.
End invariant.
