(* ===== verification/RuntimeTheorems.v ===== *)
(** * The agent runtime: theorems *)

From S2P Require Import Prelude Effects Text Regex AgentMessages CoreMetrics AgentCore Commands.
From S2P Require Import CommandTheorems FailureInjector Runtime RuntimeFacts TeamFacts LeadFacts RuntimeInvariant.

Section theorems.
Context `{CQ : !ConcurrentQueue KeystoneMessage, HO : !HashOrder}.
Context {CL : ConcurrentQueueLaws KeystoneMessage} {QL : QuiescentQueueLaws KeystoneMessage} {OS : Type}.
Context (command_order : list string) (popen : string -> OS -> OS * option (string * Z)).
Abbreviation Rt := (@Runtime CQ OS).

(** C13: The runtime's agents stay well-formed: from freshly constructed agents, whatever sequence
    of calls is made on them (pulls, scheduler jobs, direct processing, sends, registrations,
    scheduler and bus changes, failures and recoveries, syntheses), whichever of them throw and
    whatever the shell does, every agent keeps its identity, its three inboxes together hold at most
    10,000 messages, and every lead's counters agree with what it recorded: one result or one failure
    message for each event received, and an execution trace that ends in its current state. *)
Theorem runtime_wf (cs : list rt_call) (r : Rt) :
  constructed r -> runtime_ok (rt_calls command_order popen cs r).
Proof. intros Hc. by apply ok_calls, constructed_ok. Qed.

(** C12: A module lead's goal always finishes, with the sum of its numbers.  A team that is idle and
    healthy (on the bus, pulling, no failed worker) and a shell that echoes numbers: the goal message
    is accepted; after it some order of the members that have messages leaves none, and in whatever
    order they process them the team makes at most two steps per number of the goal; once no message
    is left, the lead is SYNTHESIZING and reports the sum of the numbers of the
    goal's text, when they are at most 10,000 and their sum fits an int. *)
Theorem module_goal_sum (lead : string) (ws : list string) (msg : KeystoneMessage) (r : Rt) :
  NoDup ws -> lead ∉ ws -> ws <> [] -> ready lead ws r -> echoes popen ->
  action_type msg <> CANCEL_TASK -> action_type msg <> TASK_FAILED -> command msg <> "response" ->
  let nums := runs isdigit (command msg) in
  nums <> [] -> length nums <= AGENT_MAX_QUEUE_SIZE -> (total_of nums <= 2 ^ 31 - 1)%Z ->
  exists r1 resp, processMessage command_order popen lead msg r = (r1, inr resp) /\
    (exists n r2, busy_run command_order popen lead ws n r1 r2 /\ quiet lead ws r2) /\
    forall n r2, busy_run command_order popen lead ws n r1 r2 ->
      n <= 2 * length nums /\
      (quiet lead ws r2 ->
       (exists k, lead_ok lead ws (rt_router r2) (rt_agents r2) k /\ current_state_ k = M_SYNTHESIZING) /\
       (synthesizeResults lead r2).2 = inr ("Module result: Sum = " +:+ to_string (total_of nums))).
Proof.
  intros Hnd Hlead Hws Hready He Hnc Hnf Hnr nums Hne Hlen Htot.
  destruct (team_goal command_order popen lead ws Hnd Hlead r msg nums) as (g & resp & (r1 & Hr1 & E1 & E2 & _) & HT);
    try done.
  exists r1, resp. split; [exact Hr1|]. rewrite <- E1, <- E2 in HT.
  assert (Hlr : length (reverse nums) = length nums) by apply length_reverse.
  split; [eapply (team_finishes command_order popen lead ws Hnd Hlead _ _ (reverse nums)); rewrite ?Hlr; eauto|].
  intros n r2 Hrun.
  destruct (team_busy_run command_order popen lead ws Hnd Hlead n r1 r2 (length nums) (reverse nums)) as [HT2 Hn];
    try done; [by rewrite Hlr|].
  pose proof (team_weight_bound _ _ _ _ _ _ HT) as Hb. rewrite Hlr in Hb. split; [lia|]. intros Hq.
  rewrite <- Hlr in HT2. pose proof (total_of_perm _ _ (reverse_Permutation nums)) as Hperm.
  destruct (team_quiet_done popen lead ws Hnd Hlead r2 (reverse nums) HT2 Hq) as (k & Hl & Hs & Hsum).
  - rewrite reverse_Permutation. apply List.Forall_forall. intros ds Hin. by apply runs_forall in Hin.
  - by rewrite Hperm.
  - rewrite Hperm in Hsum. eauto.
Qed.

(** A task agent answers every message exactly once.  Whatever the message, the agent's state
    and the shell, processing a message from a sender on the bus returns, and puts one message in
    the sender's inbox: a "response" with the id of the message answered.  It carries the reason when
    the agent is failed, the acknowledgement of a cancellation, the output of the command (recorded
    in the command log), or, when the command was refused or failed, the sanitized error, and only
    then as TASK_FAILED.  No other agent, queue or job changes. *)
Lemma task_agent_answers (w : string) (msg : KeystoneMessage) (r : Rt) (a b : Agent) (t : TaskState) :
  w <> sender_id msg ->
  rt_agents r !! w = Some a -> a_kind a = KTask t -> on_bus (rt_router r) w a ->
  rt_agents r !! sender_id msg = Some b -> on_bus (rt_router r) (sender_id msg) b ->
  let res := (executeBash command_order popen (command msg) (rt_os r)).2 in
  exists tm resp, does (processMessage command_order popen w msg) r
    (<[sender_id msg := with_core (core_receiveMessage (answer (task_answer t msg res).1 (msg_id msg) w
         (sender_id msg) (task_answer t msg res).2 tm)) b]>
       (<[w := task_after t msg res a]> (rt_agents r))) resp.
Proof.
  intros Hne Ha Hk Hba Hb Hbb res.
  destruct (does_task command_order popen w msg r a t b Hne Ha Hk Hba Hb Hbb) as (tm & resp & r1 & Hr1 & L1).
  exists tm, resp, r1. split; [|exact L1].
  unfold processMessage. rewrite run_bind. unfold this. rewrite Ha, Hk. exact Hr1.
Qed.

(** What a failed worker sends. *)
Lemma does_failed_worker (lead w : string) (msg : KeystoneMessage) (t : TaskState) (r : Rt) (a b : Agent) :
  sender_id msg = lead -> w <> lead ->
  rt_agents r !! w = Some a -> a_kind a = KTask t -> failed_ t = true -> on_bus (rt_router r) w a ->
  rt_agents r !! lead = Some b -> on_bus (rt_router r) lead b ->
  exists tm x, does (processMessage command_order popen w msg) r
    (<[lead := with_core (core_receiveMessage (reply_message (msg_id msg) w lead
         ("Agent is in failed state: " +:+ failure_reason_ t) tm)) b]> (rt_agents r)) x.
Proof.
  intros Hs Hne Ha Hka Hf Hba Hb Hbb.
  destruct (does_task command_order popen w msg r a t b) as (tm & x & r1 & Hr1 & L1); rewrite ?Hs; try done.
  rewrite Hs in L1. unfold task_answer, task_after in L1. rewrite Hf, (insert_id (rt_agents r)) in L1 by done.
  exists tm, x, r1. split; [|exact L1]. unfold processMessage. rewrite run_bind. unfold this.
  rewrite Ha, Hka. exact Hr1.
Qed.

(** A failed worker's refusal passes for a result.  A task agent marked as failed, given the
    last outstanding task of its module lead, answers with a message that the lead, fetching it,
    takes for a subordinate's result: the lead ends SYNTHESIZING with no failure counted and
    reports the sum of the other results as the sum of the goal. *)
Lemma failed_worker_counted (lead w : string) (ws : list string) (msg : KeystoneMessage)
    (k : CoordinationState ModuleLeadState) (t : TaskState) (r : Rt) (a b : Agent) :
  sender_id msg = lead -> w <> lead ->
  rt_agents r !! w = Some a -> a_kind a = KTask t -> failed_ t = true -> on_bus (rt_router r) w a ->
  rt_agents r !! lead = Some b -> a_kind b = KModule k ws -> on_bus (rt_router r) lead b ->
  pending (a_core b) = [] ->
  hasFailures k = false -> expected_results_ k <= S (received_results_ k) ->
  exists r1 x1 r2 x2 k', processMessage command_order popen w msg r = (r1, inr x1) /\
    pull command_order popen lead r1 = (r2, inr x2) /\
    lead_ok lead ws (rt_router r2) (rt_agents r2) k' /\
    current_state_ k' = M_SYNTHESIZING /\ hasFailures k' = false /\
    (synthesizeResults lead r2).2 = inr ("Module result: Sum = " +:+ to_string (sum_results (results_ k))).
Proof.
  intros Hs Hne Ha Hka Hf Hba Hb Hkb Hbb Hpend Hnf Hlast.
  set (text := "Agent is in failed state: " +:+ failure_reason_ t).
  destruct (does_failed_worker lead w msg t r a b) as (tm & x1 & r1 & Hr1 & L1); [done..|]. fold text in L1.
  pose proof L1 as (E1 & E2 & _). set (b1 := with_core _ b) in E1, L1.
  assert (Hb1 : rt_agents r1 !! lead = Some b1) by (rewrite E1; apply lookup_insert_eq).
  assert (Hp1 : pending (a_core b1) ≡ₚ [reply_message (msg_id msg) w lead text tm]).
  { simpl. rewrite pending_receive, Hpend, bool_decide_eq_false_2; [reflexivity|]. apply Nat.lt_nge. vm_compute. lia. }
  (* the lead fetches it *)
  destruct (does_get lead b1 r1 Hb1) as (c & m & (r2 & Hr2 & L2) & Hperm & Hmb & Hms).
  { intros E. rewrite E in Hp1. by apply Permutation_nil_cons in Hp1. }
  rewrite Hp1 in Hperm. apply Permutation_singleton_l in Hperm as Hm. injection Hm as Hm _. symmetry in Hm.
  pose proof L2 as (F1 & F2 & _). set (b2 := with_core (fun _ => c) b1) in F1, L2.
  assert (Hb2 : rt_agents r2 !! lead = Some b2) by (rewrite F1; apply lookup_insert_eq).
  destruct (does_lead_result command_order popen lead ws r2 b2 k m text) as (x2 & r3 & Hr3 & L3);
    [exact Hb2|exact Hkb|rewrite Hm; reflexivity..|].
  pose proof L3 as (G1 & G2 & _).
  exists r1, x1, r3, (Some x2), (after_result text k).
  assert (Hok : lead_ok lead ws (rt_router r3) (rt_agents r3) (after_result text k)).
  { eexists. rewrite G1, lookup_insert_eq. split; [reflexivity|]. split; [reflexivity|].
    rewrite G2, F2, E2. destruct Hbb as (? & ? & ?). split_and!; [|simpl|done]; simpl.
    - rewrite Hmb. simpl. by rewrite (proj1 (core_receive_keeps _ _)).
    - rewrite Hms. simpl. by rewrite (proj1 (proj2 (core_receive_keeps _ _))). }
  pose proof (after_result_last text k Hnf Hlast) as Hst.
  split; [exact Hr1|]. split; [unfold pull; rewrite run_bind, Hr2, run_bind, Hr3; reflexivity|].
  split; [exact Hok|]. split; [by rewrite Hst|]. split; [rewrite Hst; exact Hnf|].
  rewrite (synthesize_sum lead ws r3 _ Hok) by (by rewrite Hst). do 3 f_equal. rewrite Hst.
  unfold sum_results. cbn [results_ coord_transitionTo recordResult fst]. rewrite foldl_app. reflexivity.
Qed.

(** C35: A subordinate's failure is counted, and the last outcome, when it is a failure, is reported
    upward: for every kind of lead on the bus, a TASK_FAILED message adds one to the outcomes
    received and to the failures, appends its text to the failure messages and leaves the results,
    the number expected, the goal and the requester as they were; as long as outcomes are
    outstanding the state stays and nothing else happens; when it is the last one expected the lead
    turns to its error state, with a trace entry, and puts a TASK_FAILED message with the same text
    and session in the inbox of the agent that gave it the goal (another agent, on the bus). *)
Theorem last_failure_reported {St : Type} `{L : !@LeadAgent CQ OS St, LL : !LeadLaws St} (self : string)
    (msg : KeystoneMessage) (r : Rt) (a b : Agent) (k : CoordinationState St) :
  rt_agents r !! self = Some a -> coord_of (a_kind a) = Some k -> action_type msg = TASK_FAILED ->
  on_bus (rt_router r) self a -> requester_id_ k <> "" -> requester_id_ k <> self ->
  rt_agents r !! requester_id_ k = Some b -> on_bus (rt_router r) (requester_id_ k) b ->
  let error := default "subordinate task failed" (payload msg) in
  exists a' k' resp, a_core a' = a_core a /\ coord_of (a_kind a') = Some k' /\
    (received_results_ k' = S (received_results_ k) /\ failed_results_ k' = S (failed_results_ k) /\
     failure_messages_ k' = failure_messages_ k ++ [error] /\ results_ k' = results_ k /\
     expected_results_ k' = expected_results_ k /\ pending_subordinates_ k' = pending_subordinates_ k /\
     current_goal_ k' = current_goal_ k /\ requester_id_ k' = requester_id_ k) /\
    if bool_decide (expected_results_ k <= S (received_results_ k)) then
      current_state_ k' = error_state_ /\
      execution_trace_ k' = execution_trace_ k ++ [stateToString (error_state_ (St := St))] /\
      exists m, is_failure_report self (requester_id_ k) (session_id msg) error m /\
        does (lead_processMessage (St := St) self msg) r
          (<[requester_id_ k := with_core (core_receiveMessage m) b]> (<[self := a']> (rt_agents r))) resp
    else
      current_state_ k' = current_state_ k /\ execution_trace_ k' = execution_trace_ k /\
      does (lead_processMessage (St := St) self msg) r (<[self := a']> (rt_agents r)) resp.
Proof.
  intros H1 H2 H3 H4 H5 H6 H7 H8 error.
  destruct (does_lead_failure self msg r a k b H1 H2 H3 H4 H5 H6 H7 H8) as (a' & resp & Hc & Hd).
  unfold isComplete in Hd. cbn [recordFailure fst expected_results_ received_results_] in Hd.
  case_bool_decide; destruct Hd as [Hk Hd]; eexists a', _, resp; split_and!; try done.
Qed.

(** A failure followed by a success is not reported.  When the last outcome a module lead waits
    for is a result and an earlier one was a failure, the lead turns to its error state and no other
    agent changes: no message reaches the agent that gave it the goal. *)
Lemma earlier_failure_unreported (lead : string) (ws : list string) (m : KeystoneMessage) (p : string)
    (k : CoordinationState ModuleLeadState) (r : Rt) (a : Agent) :
  rt_agents r !! lead = Some a -> a_kind a = KModule k ws ->
  command m = "response" -> action_type m = EXECUTE -> payload m = Some p ->
  hasFailures k = true -> expected_results_ k <= S (received_results_ k) ->
  exists a' resp, does (processMessage command_order popen lead m) r (<[lead := a']> (rt_agents r)) resp /\
    a_core a' = a_core a /\
    a_kind a' = KModule (coord_transitionTo M_ERROR "ERROR" (recordResult p k).1) ws.
Proof.
  intros Ha Hk Hc Hact Hp Hf Hlast.
  destruct (does_lead_result command_order popen lead ws r a k m p Ha Hk Hc Hact Hp) as (resp & H).
  exists (with_kind (fun _ => KModule (after_result p k) ws) a), resp. split; [exact H|]. split; [reflexivity|].
  simpl. by rewrite after_result_failed.
Qed.

(** An exception of a scheduled message leaves the worker.  A component lead that runs on the
    scheduler, has no module leads and is given a goal it can decompose: the job throws, and since
    neither the job nor the worker's loop catches, the process ends. *)
Lemma scheduled_exception_escapes (self : string) (i : nat) (msg : KeystoneMessage) (r : Rt) (a : Agent)
    (k : CoordinationState ComponentLeadState) :
  rt_jobs r !! i = Some (self, msg) -> rt_agents r !! self = Some a -> a_kind a = KComponent k [] ->
  action_type msg <> CANCEL_TASK -> action_type msg <> TASK_FAILED -> command msg <> "module_result" ->
  component_decomposeGoal (command msg) <> [] ->
  (Z.of_nat (length (component_decomposeGoal (command msg))) <= INT_MAX)%Z ->
  (run_job command_order popen i r).2 = inl (runtime_error "No ModuleLeadAgents available for delegation").
Proof.
  intros Hj Ha Hk Hc Hf Hr Hd Hlen. unfold run_job. rewrite run_bind. unfold get. cbv beta iota.
  rewrite Hj, run_bind, run_modify. cbv beta iota. rewrite Ha, run_bind.
  unfold processMessage. rewrite run_bind. unfold this. simpl rt_agents. rewrite Ha, Hk.
  unfold lead_processMessage. rewrite !decide_False by done.
  cbn [isSubordinateResult ComponentLeadAgent]. unfold component_isSubordinateResult.
  rewrite (proj2 (str_eqb_false _ _) Hr). cbn [decomposeGoal delegateSubtasks ComponentLeadAgent].
  destruct (component_decomposeGoal (command msg)) as [|t ts]; [done|].
  unfold transitionTo, upd_kind, upd_agent.
  do 2 (rewrite run_bind, run_modify; cbv beta iota zeta). rewrite (proj2 (Z.ltb_ge _ _) Hlen).
  do 2 (rewrite run_bind, run_modify; cbv beta iota). rewrite run_bind. cbn [component_delegate_from].
  rewrite run_bind. unfold available_module_leads_. rewrite run_bind. unfold this. simpl rt_agents.
  rewrite !lookup_alter_eq, Ha. cbn [fmap option_fmap option_map a_kind upd_coord ComponentLeadAgent].
  rewrite Hk. reflexivity.
Qed.
End theorems.

(** ** Instances *)

#[local] Existing Instance fifo.
#[local] Existing Instance list_order.
Abbreviation laws := (fifo_laws KeystoneMessage).

(** A shell that echoes the number of an echo line. *)
Definition echo_shell (line : string) (os : unit) : unit * option (string * Z) :=
  (os, Some ((take_digits (str_drop line 19)).1 +:+ nl1, 0%Z)).

Lemma echo_shell_echoes : echoes echo_shell.
Proof.
  intros ds os _ Hd. exists os. unfold echo_shell, echo_line. do 4 f_equal.
  change 19 with (String.length ("/bin/bash -c " +:+ String "034" "echo ")).
  change ("/bin/bash -c " +:+ String "034" ("echo " +:+ ds +:+ String "034" ""))
    with (("/bin/bash -c " +:+ String "034" "echo ") +:+ ds +:+ String "034" "").
  rewrite str_drop_app, take_digits_app by done. reflexivity.
Qed.

Definition still : Ambient :=
  {| a_env := {| draws := fun _ => 7%Z; draw_i := 0; clock := fun _ => 1000%Z; clock_i := 0 |};
     a_steady := fun _ => 5%Z; a_steady_i := 0 |}.

(** A chief, a component lead, a module lead and two task agents, as constructed. *)
Definition fresh : Runtime :=
  {| rt_amb := still;
     rt_agents := list_to_map [("chief", new_chief "chief"); ("comp", new_component_lead "comp");
                               ("lead", new_module_lead "lead"); ("w1", new_task_agent "w1");
                               ("w2", new_task_agent "w2")];
     rt_router := {| r_agents := ∅; r_scheduler := false |};
     rt_metrics := metrics_at 0; rt_jobs := []; rt_os := tt;
     rt_injector := new_injector (fun _ => QArith_base.inject_Z 0) |}.

Definition wiring : list rt_call :=
  flat_map (fun id => [CallMessageBus id false; CallRegister id (Some id)]) ["chief"; "comp"; "lead"; "w1"; "w2"]
  ++ [CallTaskAgents "lead" ["w1"; "w2"]].

Definition wired : Runtime := rt_calls ALLOWED_COMMANDS echo_shell wiring fresh.

Definition note (sender receiver : string) (act : ActionType) (cmd : string) (data : option string) : KeystoneMessage :=
  {| msg_id := "m"; sender_id := sender; receiver_id := receiver; action_type := act;
     content_type := TEXT_PLAIN; session_id := "default"; metadata := ∅; priority := NORMAL;
     deadline := None; task_id := None; correlation_id := None; command := cmd;
     payload := data; timestamp := 0 |}.

Lemma fresh_constructed : constructed fresh.
Proof.
  intros id a Ha. apply elem_of_list_to_map_2 in Ha.
  repeat (apply elem_of_cons in Ha as [[= -> ->]|Ha]; [by eauto 6|]). by apply not_elem_of_nil in Ha.
Qed.

Lemma runtime_wf_witness :
  runtime_ok (CL := laws) (rt_calls ALLOWED_COMMANDS echo_shell
    (wiring ++ [CallProcess "lead" (note "chief" "lead" EXECUTE "add 10 and 20" None); CallPull "w1"; CallSynthesize "w2"])
    fresh).
Proof. apply runtime_wf. exact fresh_constructed. Defined.

(** What the wiring made of an agent. *)
Ltac wired_bus := split; [|split]; vm_compute; reflexivity.

Lemma wired_ready : ready (CL := laws) "lead" ["w1"; "w2"] wired.
Proof.
  split; [|split].
  - do 2 eexists. split; [vm_compute; reflexivity|]. split; [reflexivity|wired_bus].
  - intros w Hw. repeat (apply elem_of_cons in Hw as [->|Hw];
      [do 2 eexists; split; [vm_compute; reflexivity|]; split; [reflexivity|]; split; [reflexivity|wired_bus]|]).
    by apply not_elem_of_nil in Hw.
  - intros w Hw. repeat (apply elem_of_cons in Hw as [->|Hw]; [vm_compute; reflexivity|]).
    by apply not_elem_of_nil in Hw.
Qed.

Definition goal_note : KeystoneMessage := note "chief" "lead" EXECUTE "add 10 and 20, then 5" None.

Lemma module_goal_sum_witness :
  exists r1 resp, processMessage ALLOWED_COMMANDS echo_shell "lead" goal_note wired = (r1, inr resp) /\
    exists n r2, busy_run (CL := laws) ALLOWED_COMMANDS echo_shell "lead" ["w1"; "w2"] n r1 r2 /\ n <= 6 /\
      quiet (CL := laws) "lead" ["w1"; "w2"] r2 /\
      (synthesizeResults "lead" r2).2 = inr "Module result: Sum = 35".
Proof.
  destruct (module_goal_sum (CL := laws) ALLOWED_COMMANDS echo_shell "lead" ["w1"; "w2"] goal_note wired)
    as (r1 & resp & Hr1 & (n & r2 & Hrun & Hq) & Hall).
  - apply (bool_decide_unpack _). vm_compute. exact I.
  - apply (bool_decide_unpack _). vm_compute. exact I.
  - discriminate.
  - exact wired_ready.
  - exact echo_shell_echoes.
  - discriminate.
  - discriminate.
  - discriminate.
  - vm_compute. discriminate.
  - apply Nat.leb_le. vm_compute. reflexivity.
  - apply Z.leb_le. vm_compute. reflexivity.
  - exists r1, resp. split; [exact Hr1|]. exists n, r2. destruct (Hall n r2 Hrun) as [Hn Hsum].
    split; [exact Hrun|]. split; [exact Hn|]. split; [exact Hq|]. exact (proj2 (Hsum Hq)).
Defined.

Lemma task_agent_answers_witness :
  exists g tm resp, does (processMessage ALLOWED_COMMANDS echo_shell "w1" (note "lead" "w1" EXECUTE "echo 41" None)) wired g resp /\
    pending_at (CL := laws) g "lead" = [reply_message "m" "w1" "lead" "41" tm].
Proof.
  edestruct (task_agent_answers ALLOWED_COMMANDS echo_shell "w1" (note "lead" "w1" EXECUTE "echo 41" None) wired)
    as (tm & resp & H).
  - discriminate.
  - vm_compute. reflexivity.
  - reflexivity.
  - wired_bus.
  - vm_compute. reflexivity.
  - wired_bus.
  - eexists _, tm, resp. split; [exact H|]. rewrite pending_at_insert. vm_compute. reflexivity.
Defined.

(** The team with its only task at a failed worker. *)
Definition limping : Runtime :=
  rt_calls ALLOWED_COMMANDS echo_shell
    [CallTaskAgents "lead" ["w1"]; CallProcess "lead" (note "chief" "lead" EXECUTE "add 9" None);
     CallMarkFailed "w1" "disk"] wired.

Lemma failed_worker_counted_witness :
  exists r1 x1 r2 x2, processMessage ALLOWED_COMMANDS echo_shell "w1" (note "lead" "w1" EXECUTE "echo 9" None) limping
      = (r1, inr x1) /\
    pull ALLOWED_COMMANDS echo_shell "lead" r1 = (r2, inr x2) /\
    (synthesizeResults "lead" r2).2 = inr "Module result: Sum = 0".
Proof.
  edestruct (failed_worker_counted (CL := laws) ALLOWED_COMMANDS echo_shell "lead" "w1" ["w1"]
    (note "lead" "w1" EXECUTE "echo 9" None)) with (r := limping)
    as (r1 & x1 & r2 & x2 & k' & H1 & H2 & _ & _ & _ & H3).
  - reflexivity.
  - discriminate.
  - vm_compute. reflexivity.
  - reflexivity.
  - reflexivity.
  - wired_bus.
  - vm_compute. reflexivity.
  - reflexivity.
  - wired_bus.
  - reflexivity.
  - reflexivity.
  - simpl. lia.
  - exists r1, x1, r2, x2. split; [exact H1|]. split; [exact H2|]. rewrite H3. reflexivity.
Defined.

Lemma last_failure_reported_witness :
  exists a' resp m, is_failure_report "lead" "chief" "default" "boom" m /\
    does (lead_processMessage (St := ModuleLeadState) "lead" (note "w1" "lead" TASK_FAILED "response" (Some "boom"))) limping
      (<["chief" := with_core (core_receiveMessage m) {| a_core := set_bus true (new_core "chief"); a_kind := KChief |}]>
         (<["lead" := a']> (rt_agents limping))) resp.
Proof.
  edestruct (last_failure_reported (St := ModuleLeadState) "lead"
    (note "w1" "lead" TASK_FAILED "response" (Some "boom")) limping) as (a' & k' & resp & _ & _ & _ & Hif).
  - vm_compute. reflexivity.
  - reflexivity.
  - reflexivity.
  - wired_bus.
  - discriminate.
  - discriminate.
  - vm_compute. reflexivity.
  - wired_bus.
  - destruct Hif as (_ & _ & m & Hm & Hd). exists a', resp, m. split; [exact Hm|exact Hd].
Defined.

(** A lead with one failure behind it and one outcome to come. *)
Definition wounded : Runtime :=
  rt_calls ALLOWED_COMMANDS echo_shell
    [CallProcess "lead" (note "chief" "lead" EXECUTE "add 1 and 2" None);
     CallProcess "lead" (note "w1" "lead" TASK_FAILED "response" (Some "boom"))] wired.

Lemma earlier_failure_unreported_witness :
  exists a' resp, does (processMessage ALLOWED_COMMANDS echo_shell "lead" (note "w2" "lead" EXECUTE "response" (Some "2")))
      wounded (<["lead" := a']> (rt_agents wounded)) resp /\
    pending_at (CL := laws) (<["lead" := a']> (rt_agents wounded)) "chief" = [].
Proof.
  edestruct (earlier_failure_unreported ALLOWED_COMMANDS echo_shell "lead" ["w1"; "w2"]
    (note "w2" "lead" EXECUTE "response" (Some "2")) "2") with (r := wounded) as (a' & resp & Hd & _).
  - vm_compute. reflexivity.
  - reflexivity.
  - reflexivity.
  - reflexivity.
  - reflexivity.
  - reflexivity.
  - simpl. lia.
  - exists a', resp. split; [exact Hd|]. rewrite pending_at_insert_ne by discriminate. vm_compute. reflexivity.
Defined.

(** The component lead on the scheduler, with a goal queued for it. *)
Definition scheduled : Runtime :=
  rt_calls ALLOWED_COMMANDS echo_shell
    [CallRouterScheduler true; CallRoute (note "chief" "comp" EXECUTE "Build: Messaging(10+20+30)" None)] wired.

Lemma scheduled_exception_escapes_witness :
  (run_job ALLOWED_COMMANDS echo_shell 0 scheduled).2
  = inl (runtime_error "No ModuleLeadAgents available for delegation").
Proof.
  eapply (scheduled_exception_escapes ALLOWED_COMMANDS echo_shell "comp" 0
    (note "chief" "comp" EXECUTE "Build: Messaging(10+20+30)" None) scheduled).
  - vm_compute. reflexivity.
  - vm_compute. reflexivity.
  - reflexivity.
  - discriminate.
  - discriminate.
  - discriminate.
  - vm_compute. discriminate.
  - apply Z.leb_le. vm_compute. reflexivity.
Defined.
