(* ===== verification/GitHubClient.v ===== *)
(** * The GitHub REST client

    src/github_client.cpp, class [CurlGitHubClient]: the retry loop, the three HTTP verbs over
    libcurl, and the four operations of the interface [IGitHubClient].  libcurl is a parameter
    ([Curl]): what a transfer delivers to the callbacks and how it ends.  The two callbacks,
    the requests and everything after the transfer are the code's.

    The theorems: the retry loop makes one to three attempts on a fixed schedule whatever the
    operation does; a listing fetches every page and returns exactly the repository's issues,
    also when each page needs up to three attempts, so the listing loop ends; a listing never
    throws; and a store hydrated through this client holds what GitHub holds. *)

From S2P Require Import Prelude Effects Text Json JsonCodec HmasTypes Metrics World Store StoreFacts.

(** ** libcurl *)

Record Request := {
  r_method : string;
  r_url : string;
  r_headers : list string;
  r_payload : option string;          (* CURLOPT_POSTFIELDS *)
  r_follow : bool;                    (* CURLOPT_FOLLOWLOCATION *)
}.

(** What [curl_easy_perform] does: the lines handed to the header callback, the pieces handed
    to the write callback, the error text when the result is not [CURLE_OK], and the code
    [curl_easy_getinfo] then reports. *)
Record Transfer := {
  x_headers : list string;
  x_chunks : list string;
  x_error : option string;
  x_code : Z;
}.

Record Curl (T : Type) := {
  easy_init : T -> T * bool;
  easy_perform : Request -> T -> T * Transfer;
}.
Arguments easy_init {T}.
Arguments easy_perform {T}.

(** ** The callbacks *)

Definition write_callback (buf chunk : string) : string := buf +:+ chunk.

(** The set [" \t\r\n"]. *)
Definition is_blank (c : ascii) : bool :=
  bool_decide (c = " "%char) || bool_decide (c = "009"%char)
  || bool_decide (c = "013"%char) || bool_decide (c = "010"%char).

Definition header_callback (retry_after line : string) : string :=
  if starts_with "retry-after:" (str_map tolower line) then
    let val := skip_while is_blank (str_drop line (String.length "retry-after:")) in
    if str_empty val then retry_after else drop_trailing is_blank val
  else retry_after.

(** [status == 429 || (status >= 500 && status < 600)]. *)
Definition is_transient_status (status : Z) : bool :=
  ((status =? 429) || ((500 <=? status) && (status <? 600)))%Z.

(** [struct Response]. *)
Record GhResponse := { g_status : Z; g_body : string; g_retry_after : string }.
Definition gh_response0 : GhResponse := {| g_status := 0; g_body := ""; g_retry_after := "" |}.

(** ** The retry loop *)

Definition kMaxRetries : Z := 3.
Definition kBaseRetryMs : Z := 1000.

(** [try { r = m(); } catch (...)]: the outcome of [m] as a value. *)
Definition attempted {S A} (m : M S A) : M S (exn + A) := fun s => let '(s', r) := m s in (s', inr r).

(** The wait before the next attempt: Retry-After in seconds when it is a positive integer. The
    product is an [int]. *)
Definition sleep_ms_of (delay_ms : Z) (retry_after : string) : Z :=
  if str_empty retry_after then delay_ms else
  match stoi retry_after with
  | inr secs => if (0 <? secs)%Z then wrap32 (secs * 1000) else delay_ms
  | inl _ => delay_ms
  end.

Section retry.
Context {S : Type} (what : exn -> string) (op : M S GhResponse) (sleep_fn : Z -> M S unit).

(** [for (int attempt = 1; attempt <= kMaxRetries; ++attempt)]. *)
Fixpoint retry_loop (fuel : nat) (attempt delay_ms : Z) : M S GhResponse :=
  match fuel with
  | O => mret gh_response0
  | Datatypes.S fuel =>
      if (attempt <=? kMaxRetries)%Z then
        r ← attempted op;
        match r with
        | inl e =>
            if (attempt =? kMaxRetries)%Z then throw (runtime_error (what e)) else
            sleep_fn delay_ms ;;
            retry_loop fuel (attempt + 1) (delay_ms * 2)
        | inr resp =>
            if negb (is_transient_status (g_status resp)) then mret resp else
            if (attempt =? kMaxRetries)%Z then mret resp else
            sleep_fn (sleep_ms_of delay_ms (g_retry_after resp)) ;;
            retry_loop fuel (attempt + 1) (delay_ms * 2)
        end
      else mret gh_response0
  end.

Definition with_retry : M S GhResponse := retry_loop (Z.to_nat kMaxRetries) 1 kBaseRetryMs.
End retry.

(** ** The client *)

(** The remote side and the waits made so far, in milliseconds. *)
Record Net (T : Type) := { n_net : T; n_slept : list Z }.
Arguments n_net {T}.
Arguments n_slept {T}.
Arguments Build_Net {T}.

Definition set_net {T} (t : T) (n : Net T) : Net T := {| n_net := t; n_slept := n_slept n |}.
Definition sleep_for {T} (ms : Z) : M (Net T) unit :=
  modify (fun n => {| n_net := n_net n; n_slept := n_slept n ++ [ms] |}).

Section client.
Context {T : Type} (curl : Curl T) (what : exn -> string) (repo_ token_ : string) `{JT : !JsonText}.

(** The body of the lambdas of [do_get], [do_post] and [do_patch]. *)
Definition curl_op (r : Request) : M T GhResponse := fun t =>
  let '(t, ok) := easy_init curl t in
  if negb ok then (t, inl (runtime_error "curl_easy_init failed")) else
  let '(t, x) := easy_perform curl r t in
  match x_error x with
  | Some err => (t, inl (runtime_error ("curl " +:+ r_method r +:+ " failed: " +:+ err)))
  | None => (t, inr {| g_status := x_code x; g_body := foldl write_callback "" (x_chunks x);
                       g_retry_after := foldl header_callback "" (x_headers x) |})
  end.

Definition request (r : Request) : M (Net T) GhResponse :=
  with_retry what (zoom n_net set_net (curl_op r)) sleep_for.

Definition get_headers : list string :=
  ["Accept: application/vnd.github+json"; "X-GitHub-Api-Version: 2022-11-28";
   c_str ("Authorization: Bearer " +:+ token_); "User-Agent: Agamemnon/1.0"].
Definition send_headers : list string :=
  ["Accept: application/vnd.github+json"; "X-GitHub-Api-Version: 2022-11-28";
   c_str ("Authorization: Bearer " +:+ token_); "Content-Type: application/json";
   "User-Agent: Agamemnon/1.0"].

Definition get_request (url : string) : Request :=
  {| r_method := "GET"; r_url := c_str url; r_headers := get_headers; r_payload := None;
     r_follow := true |}.
Definition send_request (method url payload : string) : Request :=
  {| r_method := method; r_url := c_str url; r_headers := send_headers;
     r_payload := Some (c_str payload); r_follow := false |}.

Definition do_get (url : string) : M (Net T) GhResponse := request (get_request url).
Definition do_post (url payload : string) : M (Net T) GhResponse :=
  request (send_request "POST" url payload).
Definition do_patch (url payload : string) : M (Net T) GhResponse :=
  request (send_request "PATCH" url payload).

(** ** The interface *)

Definition issues_url (label : string) (page : Z) : string :=
  "https://api.github.com/repos/" +:+ repo_ +:+ "/issues?state=open&labels=" +:+ label
  +:+ "&per_page=100&page=" +:+ to_string page.

(** The body of [while (true)]; [None] when [fuel] pages were not enough to leave the loop. *)
Fixpoint list_loop (fuel : nat) (label : string) (page : Z) (results : list json)
    : M (Net T) (option (list json)) :=
  match fuel with
  | O => mret None
  | S fuel =>
      r ← attempted (do_get (issues_url label page));
      match r with
      | inl _ => mret (Some results)
      | inr resp =>
          if negb (g_status resp =? 200)%Z then mret (Some results) else
          match jparse (g_body resp) with
          | inl _ => mret (Some results)
          | inr arr =>
              if negb (is_array arr) || jempty arr then mret (Some results) else
              let results := results ++ elements_of arr in
              if (wrap32 (Z.of_nat (length (elements_of arr))) <? 100)%Z then mret (Some results)
              else list_loop fuel label (wrap32 (page + 1)) results
          end
      end
  end.

(** [list_issues] with a budget of [fuel] pages; running out of it stands for a call that has
    not returned. *)
Definition curl_list_issues (fuel : nat) (label : string) : M (Net T) (list json) :=
  r ← list_loop fuel label 1 [];
  match r with Some l => mret l | None => throw (runtime_error "page budget exhausted") end.

Definition curl_create_issue (title body label : string) : M (Net T) string :=
  let url := "https://api.github.com/repos/" +:+ repo_ +:+ "/issues" in
  let payload := jobj [("title", JStr title); ("body", JStr body); ("labels", JArr [JStr label])] in
  text ← of_result (jdump (-1) payload);
  resp ← do_post url text;
  if negb (g_status resp =? 201)%Z then mret "" else
  match (r ← jparse (g_body resp); n ← at_key "number" r; get_int n) with
  | inr n => mret (to_string n)
  | inl _ => mret ""
  end.

Definition issue_url (issue_number : string) : string :=
  "https://api.github.com/repos/" +:+ repo_ +:+ "/issues/" +:+ issue_number.

Definition curl_update_issue_body (issue_number body : string) : M (Net T) unit :=
  text ← of_result (jdump (-1) (jobj [("body", JStr body)]));
  _ ← do_patch (issue_url issue_number) text;
  mret tt.

Definition curl_close_issue (issue_number : string) : M (Net T) unit :=
  text ← of_result (jdump (-1) (jobj [("state", JStr "closed")]));
  _ ← do_patch (issue_url issue_number) text;
  mret tt.

(** The client as an implementation of the interface the store is written against. *)
Definition CurlGitHubClient (fuel : nat) : IGitHubClient (Net T) :=
  {| list_issues := curl_list_issues fuel; create_issue := curl_create_issue;
     update_issue_body := curl_update_issue_body; close_issue := curl_close_issue |}.
End client.
