(* ===== verification/GitHubTheorems.v ===== *)
(** * The GitHub client: properties

    The retry schedule, the completeness of listings over an unreliable network, and the
    recovery of a store through the real client. *)

From S2P Require Import Prelude Effects Text Json Utf8 JsonCodec HmasTypes Metrics World Store StoreFacts.
From S2P Require Import StoreSync StoreTheorems GitHubClient.

(** ** The retry loop *)

(** [op] run once for each outcome of the list, in order. *)
Inductive tries {T} (op : M T GhResponse) : T -> list (exn + GhResponse) -> T -> Prop :=
| tries_nil t : tries op t [] t
| tries_cons t o t1 os t2 : op t = (t1, o) -> tries op t1 os t2 -> tries op t (o :: os) t2.

(** A transport error or a transient status. *)
Definition retryable (o : exn + GhResponse) : bool :=
  match o with inl _ => true | inr r => is_transient_status (g_status r) end.

(** The wait that follows an outcome that is retried. *)
Definition wait_of (delay : Z) (o : exn + GhResponse) : Z :=
  match o with inl _ => delay | inr r => sleep_ms_of delay (g_retry_after r) end.

(** The outcome of the call when [o] is the outcome of the last attempt. *)
Definition conclude (what : exn -> string) (o : exn + GhResponse) : exn + GhResponse :=
  match o with inl e => inl (runtime_error (what e)) | inr r => inr r end.

Section retry_lemmas.
Context {T : Type} (what : exn -> string) (op : M T GhResponse).
Abbreviation zop := (zoom n_net set_net op).

(** One iteration of the loop. *)
Lemma run_retry_step fuel attempt delay t sl t1 o :
  (attempt <= kMaxRetries)%Z -> op t = (t1, o) ->
  retry_loop what zop sleep_for (S fuel) attempt delay (Build_Net t sl)
  = if (negb (retryable o) || (attempt =? kMaxRetries)%Z)
    then (Build_Net t1 sl, conclude what o)
    else retry_loop what zop sleep_for fuel (attempt + 1) (delay * 2) (Build_Net t1 (sl ++ [wait_of delay o])).
Proof.
  intros Ha Ho. cbn [retry_loop]. rewrite (proj2 (Z.leb_le _ _) Ha).
  rewrite run_bind. unfold attempted, zoom. cbn [n_net]. rewrite Ho. cbv beta iota.
  destruct o as [e|r]; cbn [retryable conclude wait_of negb orb].
  - destruct (attempt =? kMaxRetries)%Z; [done|]. by rewrite run_bind.
  - destruct (is_transient_status (g_status r)); cbn [negb orb]; [|done].
    destruct (attempt =? kMaxRetries)%Z; [done|]. by rewrite run_bind.
Qed.

Lemma retry_run t sl :
  exists outs last t',
    tries op t (outs ++ [last]) t' /\ length outs <= 2 /\ Forall (fun o => retryable o = true) outs /\
    (length outs < 2 -> retryable last = false) /\
    with_retry what zop sleep_for (Build_Net t sl)
    = (Build_Net t' (sl ++ zip_with wait_of [1000; 2000]%Z outs), conclude what last).
Proof.
  destruct (op t) as [t1 o1] eqn:E1. destruct (op t1) as [t2 o2] eqn:E2.
  destruct (op t2) as [t3 o3] eqn:E3. unfold with_retry.
  change (Z.to_nat kMaxRetries) with 3.
  rewrite (run_retry_step 2 1 kBaseRetryMs t sl t1 o1 ltac:(done) E1). change (1 =? kMaxRetries)%Z with false.
  rewrite orb_false_r. destruct (retryable o1) eqn:R1; cbn [negb].
  2: { exists [], o1, t1. rewrite app_nil_r. split_and!; [repeat econstructor; eauto|simpl; lia|repeat constructor; done|done|done]. }
  erewrite (run_retry_step 1 (1 + 1)); [|done|exact E2]. change (1 + 1 =? kMaxRetries)%Z with false.
  rewrite orb_false_r. destruct (retryable o2) eqn:R2; cbn [negb].
  2: { exists [o1], o2, t2. split_and!; [repeat econstructor; eauto|simpl; lia|repeat constructor; done|done|done]. }
  erewrite (run_retry_step 0 (1 + 1 + 1)); [|done|exact E3]. rewrite orb_true_r.
  exists [o1; o2], o3, t3. rewrite <- app_assoc.
  split_and!; [repeat econstructor; eauto|simpl; lia|repeat constructor; done|simpl; lia|done].
Qed.

(** The operation answers, with a status that is not transient, after at most [n] failures. *)
Inductive answers_within : nat -> T -> T -> GhResponse -> Prop :=
| answers_now n t t' r : op t = (t', inr r) -> is_transient_status (g_status r) = false ->
    answers_within n t t' r
| answers_later n t t1 o t' r : op t = (t1, o) -> retryable o = true ->
    answers_within n t1 t' r -> answers_within (S n) t t' r.

Lemma retry_answers n fuel attempt delay t t' r sl :
  answers_within n t t' r -> (attempt + Z.of_nat n <= kMaxRetries)%Z -> n < fuel ->
  exists sl', retry_loop what zop sleep_for fuel attempt delay (Build_Net t sl) = (Build_Net t' sl', inr r).
Proof.
  intros Ha. revert fuel attempt delay sl.
  induction Ha as [n t t' r Ho Hs|n t t1 o t' r Ho Hr Ha IH]; intros fuel attempt delay sl Hat Hf;
    (destruct fuel as [|fuel]; [lia|]); (erewrite run_retry_step; [|lia|exact Ho]).
  - cbn [retryable]. rewrite Hs. cbn. eauto.
  - rewrite Hr, (proj2 (Z.eqb_neq _ _)) by lia. cbn [negb orb]. apply IH; lia.
Qed.
End retry_lemmas.

(** ** Listings *)

(** The [p]-th page of the listing, pages counted from one. *)
Definition page_at {A} (p : nat) (l : list A) : list A := take 100 (drop (100 * (p - 1)) l).

Section listing.
Context {T : Type} (curl : Curl T) (what : exn -> string) (repo_ token_ : string) `{JT : !JsonText}.

(** GitHub's paging of the open issues with a label, over a network that may fail twice in a
    row but no more: at any time, a request for a page up to the first incomplete one is
    answered within three attempts by status 200 and the JSON text of the page. *)
Definition serves (label : string) (issues : list json) : Prop :=
  forall (p : nat) (t : T), 1 <= p -> p <= length issues / 100 + 1 -> exists t' r,
    answers_within (curl_op curl (get_request token_ (issues_url repo_ label (Z.of_nat p)))) 2 t t' r /\
    g_status r = 200%Z /\ parse (g_body r) = Some (JArr (page_at p issues)).

Abbreviation loop := (list_loop curl what repo_ token_).

Lemma run_list_page fuel label issues p results t sl :
  serves label issues -> 1 <= p -> p <= length issues / 100 + 1 ->
  exists n', loop (S fuel) label (Z.of_nat p) results (Build_Net t sl)
  = if bool_decide (length (page_at p issues) < 100) then (n', inr (Some (results ++ page_at p issues)))
    else loop fuel label (wrap32 (Z.of_nat p + 1)) (results ++ page_at p issues) n'.
Proof.
  intros Hs Hp Hp'. destruct (Hs p t Hp Hp') as (t' & r & Ha & H200 & Hbody).
  destruct (retry_answers what _ 2 3 1 1000 t t' r sl Ha) as (sl' & Hr); [done|lia|].
  exists (Build_Net t' sl'). cbn [list_loop]. rewrite run_bind. unfold attempted, do_get, request, with_retry.
  change (Z.to_nat kMaxRetries) with 3. change kBaseRetryMs with 1000%Z. rewrite Hr. cbv beta iota.
  rewrite H200. cbn [Z.eqb Pos.eqb negb]. unfold jparse. rewrite Hbody. cbn [is_array negb orb elements_of].
  destruct (page_at p issues) as [|x l] eqn:Epage.
  { cbn [jempty]. rewrite bool_decide_eq_true_2 by (simpl; lia). by rewrite app_nil_r. }
  cbn [jempty]. cbv zeta.
  assert (Hlen : length (x :: l) <= 100) by (rewrite <- Epage; unfold page_at; rewrite length_take; lia).
  assert (Hw : wrap32 (Z.of_nat (length (x :: l))) = Z.of_nat (length (x :: l))).
  { unfold wrap32. rewrite Z.mod_small; lia. }
  rewrite Hw. case_bool_decide; [rewrite (proj2 (Z.ltb_lt _ _)) by lia|rewrite (proj2 (Z.ltb_ge _ _)) by lia]; done.
Qed.

Lemma run_list_loop label issues fuel p t sl :
  serves label issues -> 1 <= p -> 100 * (p - 1) <= length issues ->
  length issues < 100 * (p - 1 + fuel) -> (Z.of_nat (p + fuel) < 2 ^ 31)%Z ->
  exists n', loop fuel label (Z.of_nat p) (take (100 * (p - 1)) issues) (Build_Net t sl)
             = (n', inr (Some issues)).
Proof.
  intros Hs. revert p t sl. induction fuel as [|fuel IH]; intros p t sl Hp Hlo Hhi Hint; [lia|].
  destruct (run_list_page fuel label issues p (take (100 * (p - 1)) issues) t sl Hs Hp) as (n' & ->).
  { pose proof (Nat.div_le_lower_bound (length issues) 100 (p - 1)). lia. }
  assert (Happ : take (100 * (p - 1)) issues ++ page_at p issues = take (100 * (S p - 1)) issues).
  { unfold page_at. rewrite take_take_drop. f_equal. lia. }
  rewrite Happ. unfold page_at. rewrite length_take, length_drop.
  case_bool_decide as Hlt.
  - exists n'. rewrite take_ge by lia. done.
  - replace (wrap32 (Z.of_nat p + 1)) with (Z.of_nat (S p)).
    2: { unfold wrap32. rewrite Z.mod_small; lia. }
    destruct n' as [t' sl']. apply IH; lia.
Qed.

(** A listing never throws: whatever the network does, the loop returns or goes on. *)
Lemma list_loop_no_throw fuel label p results n :
  exists n' r, loop fuel label p results n = (n', inr r).
Proof.
  revert p results n. induction fuel as [|fuel IH]; intros p results n; [by do 2 eexists|].
  cbn [list_loop]. rewrite run_bind. unfold attempted.
  destruct (do_get _ _ _ _ _) as [n1 [e|resp]]; [by do 2 eexists|].
  destruct (negb _); [by do 2 eexists|]. destruct (jparse _) as [|arr]; [by do 2 eexists|].
  destruct (_ || _); [by do 2 eexists|]. cbv zeta. destruct (_ <? _)%Z; [by do 2 eexists|]. apply IH.
Qed.
End listing.

(** ** The properties *)

(** The retry loop of the GitHub client ends after one to three attempts whatever the
    operation does, and the loop's state is that of those attempts: every attempt but the last
    failed with an exception or a transient status, a call that stopped before the third
    attempt has an outcome that is not transient, the waits between attempts are 1 s and 2 s
    (or what Retry-After asked for), and the outcome of the last attempt is the outcome of the
    call. *)
Lemma retry_schedule {T : Type} (what : exn -> string) (op : M T GhResponse) (t : T) (sl : list Z) :
  exists outs last t',
    tries op t (outs ++ [last]) t' /\ length outs <= 2 /\ Forall (fun o => retryable o = true) outs /\
    (length outs < 2 -> retryable last = false) /\
    with_retry what (zoom n_net set_net op) sleep_for (Build_Net t sl)
    = (Build_Net t' (sl ++ zip_with wait_of [1000; 2000]%Z outs), conclude what last).
Proof. apply retry_run. Qed.

(** Over a network on which each page needs at most three attempts, [list_issues] ends and
    returns exactly the open issues with the label, in order, for a repository with fewer than
    100 times [fuel] of them; one page per 100 issues, and one more, are fetched. *)
Lemma list_issues_complete {T : Type} `{!JsonText} (curl : Curl T) (what : exn -> string)
    (repo token label : string) (issues : list json) (fuel : nat) (n : Net T) :
  serves curl repo token label issues ->
  length issues < 100 * fuel -> (Z.of_nat fuel < 2 ^ 31 - 1)%Z ->
  exists n', list_issues (CurlGitHubClient curl what repo token fuel) label n = (n', inr issues).
Proof.
  intros Hs Hf Hint. destruct n as [t sl].
  destruct (run_list_loop curl what repo token label issues fuel 1 t sl Hs) as (n' & Hr); [lia..|].
  exists n'. simpl. unfold curl_list_issues. rewrite run_bind.
  change (Z.of_nat 1) with 1%Z in Hr. change (take (100 * (1 - 1)) issues) with (@nil json) in Hr.
  by rewrite Hr.
Qed.

(** C29: A server restarted over a network that loses requests recovers a collection through the
    HTTP client.  The conditions: the collection is empty and was not hydrated; the open issues
    with the collection's label are those whose bodies the store wrote, with distinct entity ids;
    every page of the listing is answered 200 with its issues within three attempts, the earlier
    ones failing with a transport error or a transient status; and the issues are fewer than 100
    times the page budget, which is below the largest int.  Then hydration returns, the
    collection is marked loaded, and it holds exactly the persisted entities with their issue
    numbers. *)
Theorem restart_over_http {T N : Type} `{!JsonText, !HashOrder} (curl : Curl T) (what : exn -> string)
    (repo token : string) (c : Collection) (issues : list json) (ps : list Persisted) (fuel : nat)
    (w : World (Net T) N) :
  JsonTextLaws ->
  loaded c w = false -> c_once (coll_of c (w_store w)) = false -> map_of c w = ∅ ->
  serves curl repo token (label_of c) issues ->
  length issues < 100 * fuel -> (Z.of_nat fuel < 2 ^ 31 - 1)%Z ->
  Forall2 (holds_entity c) issues ps -> NoDup (map p_id ps) ->
  exists w', ensure_loaded_ (Some (CurlGitHubClient curl what repo token fuel)) c w = (w', inr tt) /\
    loaded c w' = true /\
    forall id j, (map_of c w' !! id = Some j) <-> exists p, p ∈ ps /\ id = p_id p /\ j = recovered p.
Proof.
  intros JL Hl Ho Hm Hs Hf Hint Hh Hnd.
  destruct (run_list_loop curl what repo token (label_of c) issues fuel 1 (n_net (w_gh w))
              (n_slept (w_gh w)) Hs) as (n' & Hr); [lia..|].
  eapply (run_restart (CurlGitHubClient curl what repo token fuel) c issues ps w n'); [done..| |done|done].
  simpl. unfold curl_list_issues. rewrite run_bind. destruct (w_gh w) as [t sl].
  change (Z.of_nat 1) with 1%Z in Hr. change (take (100 * (1 - 1)) issues) with (@nil json) in Hr.
  cbn [n_net n_slept] in Hr. by rewrite Hr.
Qed.

(** A Retry-After of 4294968 seconds waits 704 milliseconds: the product overflows [int]. *)
Lemma retry_after_overflow : sleep_ms_of 1000 "4294968" = 704%Z.
Proof. reflexivity. Qed.

(** ** Instances *)

#[local] Existing Instances codec list_order.

(** Exception texts play no part in the instances. *)
Definition no_text (_ : exn) : string := "".

Definition text_of (l : list json) : string := default "" (dump (-1) (JArr l)).

(** A network that answers 503 twice, asking to retry after a second, before each answer, and
    a repository of at most 200 issues behind it; the state counts the attempts. *)
Definition flaky_curl (repo label : string) (issues : list json) : Curl nat :=
  {| easy_init := fun t => (t, true);
     easy_perform := fun r t => (S t,
       if decide (t mod 3 = 2) then
         {| x_headers := ["HTTP/2 200"]; x_error := None; x_code := 200;
            x_chunks := [text_of (page_at (if str_eqb (r_url r) (c_str (issues_url repo label 1)) then 1 else 2)
                                    issues)] |}
       else {| x_headers := ["HTTP/2 503"; "Retry-After: 1"]; x_error := None; x_code := 503;
               x_chunks := ["busy"] |}) |}.

Lemma flaky_answers repo token label issues p t :
  exists t', answers_within (curl_op (flaky_curl repo label issues) (get_request token (issues_url repo label p)))
    2 t t' {| g_status := 200; g_retry_after := "";
              g_body := text_of (page_at (if str_eqb (c_str (issues_url repo label p))
                                                     (c_str (issues_url repo label 1)) then 1 else 2) issues) |}.
Proof.
  assert (Hok : forall t, t mod 3 = 2 -> curl_op (flaky_curl repo label issues)
      (get_request token (issues_url repo label p)) t
      = (S t, inr {| g_status := 200; g_retry_after := "";
           g_body := text_of (page_at (if str_eqb (c_str (issues_url repo label p))
                                (c_str (issues_url repo label 1)) then 1 else 2) issues) |})).
  { intros t0 Ht. unfold curl_op. cbn [easy_init easy_perform flaky_curl negb]. by rewrite decide_True. }
  assert (Hno : forall t, t mod 3 <> 2 -> curl_op (flaky_curl repo label issues)
      (get_request token (issues_url repo label p)) t
      = (S t, inr {| g_status := 503; g_retry_after := "1"; g_body := "busy" |})).
  { intros t0 Ht. unfold curl_op. cbn [easy_init easy_perform flaky_curl negb]. by rewrite decide_False. }
  pose proof (Nat.div_mod_eq t 3). pose proof (Nat.mod_upper_bound t 3 ltac:(lia)).
  assert (Hmod : forall k, (k + t) mod 3 = (k + t mod 3) mod 3)
    by (intros; rewrite <- Nat.Div0.add_mod_idemp_r; done).
  destruct (t mod 3) as [|[|[|m]]] eqn:E; [| | |lia].
  - exists (3 + t). eapply answers_later; [apply Hno; lia|done|].
    eapply answers_later; [apply Hno; change (S t) with (1 + t); by rewrite (Hmod 1)|done|].
    eapply answers_now; [apply Hok, (Hmod 2)|done].
  - exists (2 + t). eapply answers_later; [apply Hno; lia|done|].
    eapply answers_now; [apply Hok, (Hmod 1)|done].
  - exists (1 + t). eapply answers_now; [by apply Hok|done].
Qed.

Lemma flaky_serves repo token label issues :
  forallb wf_json issues = true -> forallb utf8_json issues = true -> length issues < 200 ->
  str_eqb (c_str (issues_url repo label 2)) (c_str (issues_url repo label 1)) = false ->
  serves (flaky_curl repo label issues) repo token label issues.
Proof.
  intros Hwf Hu Hlen Hne p t H1 Hp. destruct (flaky_answers repo token label issues (Z.of_nat p) t) as (t' & Ha).
  do 2 eexists. split; [exact Ha|]. split; [done|]. cbn [g_body].
  assert (length issues / 100 < 2) by (apply Nat.Div0.div_lt_upper_bound; lia).
  assert (Hpg : (if str_eqb (c_str (issues_url repo label (Z.of_nat p)))
                            (c_str (issues_url repo label 1)) then 1 else 2) = p).
  { assert (p = 1 \/ p = 2) as [-> | ->] by lia; [by rewrite str_eqb_refl|].
    change (Z.of_nat 2) with 2%Z. by rewrite Hne. }
  rewrite Hpg. unfold text_of. 
  assert (Hin : incl (page_at p issues) issues).
  { intros x Hx. rewrite <- (firstn_skipn (100 * (p - 1)) issues), <- (firstn_skipn 100 (skipn _ issues)).
    apply in_or_app. right. apply in_or_app. by left. }
  destruct (dump (-1) (JArr (page_at p issues))) as [s|] eqn:Es.
  2:{ enough (is_Some (dump (-1) (JArr (page_at p issues)))) as [? ?] by congruence. apply (proj2 (@dump_iff _ codec_dump_law (-1) (JArr (page_at p issues)))). simpl.
      apply forallb_forall. rewrite forallb_forall in Hu. auto. }
  simpl. eapply (@parse_dump _ codec_laws (-1)); [|exact Es]. simpl.
  apply forallb_forall. rewrite forallb_forall in Hwf. auto.
Qed.

(** Flaw: a page that fails three times ends the listing without an error.  With GitHub out of
    reach hydration still returns and the collection counts as loaded, empty. *)
Definition dead_curl : Curl nat :=
  {| easy_init := fun t => (t, true);
     easy_perform := fun r t => (S t, {| x_headers := ["HTTP/2 503"]; x_error := None; x_code := 503;
                                         x_chunks := ["busy"] |}) |}.
Lemma unreachable_counts_as_loaded :
  let run := ensure_loaded_ (Some (CurlGitHubClient dead_curl no_text "acme/mesh" "t0ken" 1)) kTasks
               (boot env0 (Build_Net 0 []) true nats0) in
  snd run = inr tt /\ loaded kTasks (fst run) = true /\ map_of kTasks (fst run) = ∅.
Proof. split_and!; vm_compute; reflexivity. Qed.

Lemma list_issues_complete_witness :
  exists n', list_issues (CurlGitHubClient (flaky_curl "acme/mesh" "agamemnon-task" (JInt <$> seqZ 0 150))
                       no_text "acme/mesh" "t0ken" 2) "agamemnon-task" (Build_Net 0 [])
  = (n', inr (JInt <$> seqZ 0 150)).
Proof.
  apply list_issues_complete.
  - apply flaky_serves; vm_compute; [reflexivity|reflexivity|lia|reflexivity].
  - vm_compute. lia.
  - lia.
Defined.

Lemma restart_over_http_witness :
  exists w', ensure_loaded_ (Some (CurlGitHubClient (flaky_curl "acme/mesh" "agamemnon-task" [demo_issue "first"])
                                no_text "acme/mesh" "t0ken" 1)) kTasks
      (boot env0 (Build_Net 0 []) true nats0) = (w', inr tt) /\
    loaded kTasks w' = true /\
    forall id j, (map_of kTasks w' !! id = Some j) <->
      exists p, p ∈ [{| p_id := demo_task; p_fields := demo_fields "first"; p_number := 7 |}] /\
           id = p_id p /\ j = recovered p.
Proof.
  eapply (restart_over_http (flaky_curl "acme/mesh" "agamemnon-task" [demo_issue "first"]) no_text
            "acme/mesh" "t0ken" kTasks [demo_issue "first"]).
  - apply codec_laws.
  - reflexivity.
  - reflexivity.
  - reflexivity.
  - apply flaky_serves; vm_compute; [reflexivity|reflexivity|lia|reflexivity].
  - simpl. lia.
  - lia.
  - repeat constructor; try (vm_compute; (reflexivity || discriminate)).
    eexists. split; vm_compute; reflexivity.
  - repeat constructor. set_solver.
Defined.
