(* ===== verification/PeerDiscovery.v ===== *)
(** * Peer discovery

    src/peer_discovery.cpp: the candidates among Tailscale's peers, the probes of a candidate
    and the concurrent search for a NATS server.  Sockets, the shell and the environment
    variables are parameters, as is the compilation of a user-supplied [std::regex].  The search
    is a transition system: a step is one operation of one thread on the shared variables, a
    probe, or a reading of the clock. *)

From S2P Require Import Prelude Effects Text Json Commands.

Record PeerCandidate := { tailscale_ip : string; pc_hostname : string }.

(** The text before the first dot. *)
Fixpoint before_dot (s : string) : option string :=
  match s with
  | "" => None
  | String c r => if bool_decide (c = "."%char) then Some ""
                  else match before_dot r with Some p => Some (String c p) | None => None end
  end.

Definition is_tailscale_ip (ip : string) : bool :=
  if str_eqb ip "127.0.0.1" then true
  else if negb (starts_with "100." ip) then false
  else match before_dot (str_drop ip 4) with
       | None => false
       | Some d => match stoi d with
                   | inl _ => false
                   | inr second => (64 <=? second)%Z && (second <=? 127)%Z
                   end
       end.

(** [popen] runs a command: its output and the status [pclose] returns, or no pipe. *)
Definition run_tailscale_status (popen : string -> option (string * Z)) : string :=
  match popen "tailscale status --json 2>/dev/null" with
  | None => ""
  | Some (out, exit_code) => if (exit_code =? 0)%Z then fgets_loop (Z.to_nat 4095) false out else ""
  end.

(** ** Candidates *)

Section enumerate.
Context `{JT : !JsonText}.

(** A loop over an array of strings that stops at the first one accepted. *)
Fixpoint first_ip (ok : string -> bool) (l : list json) : result (option string) :=
  match l with
  | [] => inr None
  | v :: l => match get_string v with
              | inl e => inl e
              | inr ip => if ok ip then inr (Some ip) else first_ip ok l
              end
  end.

(** [j.contains(k) && j[k].is_object()], and the same for arrays. *)
Definition member (test : json -> bool) (k : string) (j : json) : option json :=
  match at_key k j with
  | inr v => if contains k j && test v then Some v else None
  | inl _ => None
  end.

Definition self_ip_of (root : json) : result string :=
  match member is_object "Self" root with
  | None => inr ""
  | Some self =>
      match member is_array "TailscaleIPs" self with
      | None => inr ""
      | Some ips => match first_ip is_tailscale_ip (elements_of ips) with
                    | inl e => inl e
                    | inr ip => inr (default "" ip)
                    end
      end
  end.

(** The body of the loop over the peers. *)
Definition add_peer (self_ip : string) (peer : json) : M (list PeerCandidate) unit :=
  if negb (is_object peer) then mret tt else
  match member is_array "TailscaleIPs" peer with
  | None => mret tt
  | Some ips =>
      hostname ← (match at_key "HostName" peer with
                  | inr h => if contains "HostName" peer then of_result (get_string h) else mret ""
                  | inl _ => mret ""
                  end);
      ip ← of_result (first_ip (fun ip => is_tailscale_ip ip && (str_empty self_ip || negb (str_eqb ip self_ip)))
                        (elements_of ips));
      match ip with
      | Some ip => modify (fun l => l ++ [{| tailscale_ip := ip; pc_hostname := hostname |}])
      | None => mret tt
      end
  end.

(** An exception ends the enumeration; what was found so far is returned. *)
Definition enumerate_tailscale_peers (popen : string -> option (string * Z)) (status_json : string)
    : list PeerCandidate :=
  let json_str := if str_empty status_json then run_tailscale_status popen else status_json in
  if str_empty json_str then [] else
  (try_catch
     (root ← of_result (jparse json_str);
      self_ip ← of_result (self_ip_of root);
      match member is_object "Peer" root with
      | None => mret tt
      | Some peers => for_each (items peers) (fun kv => add_peer self_ip kv.2)
      end)
     (fun _ => mret tt) []).1.
End enumerate.

(** ** Probes *)

(** The system calls of a probe. *)
Record Sockets := {
  sk_socket : bool;                             (* socket() >= 0 *)
  sk_inet_pton : string -> bool;
  sk_connect : string -> Z -> Z -> bool;        (* address, port, time-out in ms *)
  sk_send : string -> Z -> string -> bool;
  sk_recv : string -> Z -> string;              (* what arrives first; empty on error or end *)
}.

(** [htons(static_cast<uint16_t>(port))]. *)
Definition to_port (port : Z) : Z := (port mod 2 ^ 16)%Z.

Definition tcp_connect_with_timeout (sk : Sockets) (ip : string) (port timeout_ms : Z) : bool :=
  sk_socket sk && sk_inet_pton sk ip && sk_connect sk ip (to_port port) timeout_ms.

Definition crlf : string := String "013" (String "010" "").

(** At most 255 bytes are read, and compared as a C string. *)
Definition check_nats_monitoring (sk : Sockets) (ip : string) (monitor_port timeout_ms : Z) : bool :=
  sk_socket sk && sk_inet_pton sk ip && sk_connect sk ip (to_port monitor_port) timeout_ms
  && sk_send sk ip (to_port monitor_port) ("GET /varz HTTP/1.0" +:+ crlf +:+ "Host: " +:+ ip +:+ crlf +:+ crlf)
  && starts_with "HTTP/1" (String.substring 0 255 (sk_recv sk ip (to_port monitor_port))).

Definition probe_nats_peer (sk : Sockets) (ip : string) (nats_port monitor_port timeout_ms : Z) : bool :=
  check_nats_monitoring sk ip monitor_port timeout_ms && tcp_connect_with_timeout sk ip nats_port timeout_ms.

(** ** Selection *)

Fixpoint find_sub (pat s : string) : bool :=
  starts_with pat s || match s with "" => false | String _ r => find_sub pat r end.

(** [compile] is [std::regex(pattern)] with [std::regex_match]; [None] is a [regex_error]. *)
Definition matches_hostname_pattern (compile : string -> option (string -> bool)) (hostname pattern : string) : bool :=
  if str_empty pattern then true
  else if str_empty hostname then false
  else if find_sub "^" pattern || find_sub ".*" pattern then
    match compile pattern with
    | Some matches => matches hostname
    | None => find_sub pattern hostname
    end
  else find_sub pattern hostname.

Record DiscoveryOptions := {
  total_budget : Z;                             (* milliseconds *)
  per_probe_timeout_ms : Z;
  max_workers : nat;
}.
Definition default_options : DiscoveryOptions :=
  {| total_budget := 2000; per_probe_timeout_ms := 500; max_workers := 8 |}.

Definition worker_count (matched : nat) (opts : DiscoveryOptions) : nat :=
  Nat.min matched (Nat.min 32 (Nat.max 1 (max_workers opts))).

(** ** The search *)

(** Where a thread is in the lambda [worker]. *)
Inductive tpc :=
| LoopTop                                       (* while (!found) *)
| Fetching                                      (* next_idx.fetch_add(1) *)
| Budgeting (i : nat)                           (* remaining_ms() *)
| Probing (i : nat) (timeout_ms : Z)
| Claiming (i : nat)                            (* found.compare_exchange_strong *)
| Publishing (i : nat)                          (* winning_url, under the mutex *)
| Returned.

Record Search := {
  found : bool;
  winning_url : string;
  next_idx : nat;
  threads : list tpc;
}.

Definition set_thread (w : nat) (pc : tpc) (s : Search) : Search :=
  {| found := found s; winning_url := winning_url s; next_idx := next_idx s; threads := <[w := pc]> (threads s) |}.

Section search.
Context (probe : PeerCandidate -> Z -> bool) (nats_port : Z) (opts : DiscoveryOptions).
Context (matched : list PeerCandidate).

Definition url_of (p : PeerCandidate) : string := "nats://" +:+ tailscale_ip p +:+ ":" +:+ to_string nats_port.

Definition search_start : Search :=
  {| found := false; winning_url := ""; next_idx := 0;
     threads := replicate (worker_count (length matched) opts) LoopTop |}.

(** One step of thread [w]; [left] is what [remaining_ms] returns if it is called. *)
Definition search_step (w : nat) (left : Z) (s : Search) : Search :=
  match threads s !! w with
  | None => s
  | Some pc =>
      match pc with
      | LoopTop => set_thread w (if found s then Returned else Fetching) s
      | Fetching =>
          let i := next_idx s in
          {| found := found s; winning_url := winning_url s; next_idx := S i;
             threads := <[w := if length matched <=? i then Returned else Budgeting i]> (threads s) |}
      | Budgeting i =>
          set_thread w (if (left =? 0)%Z then Returned
                        else Probing i (Z.min (per_probe_timeout_ms opts) left)) s
      | Probing i timeout_ms =>
          match matched !! i with
          | None => set_thread w Returned s
          | Some p => set_thread w (if probe p timeout_ms then Claiming i else LoopTop) s
          end
      | Claiming i =>
          if found s then set_thread w Returned s
          else {| found := true; winning_url := winning_url s; next_idx := next_idx s;
                  threads := <[w := Publishing i]> (threads s) |}
      | Publishing i =>
          {| found := found s;
             winning_url := match matched !! i with Some p => url_of p | None => winning_url s end;
             next_idx := next_idx s; threads := <[w := Returned]> (threads s) |}
      | Returned => s
      end
  end.

(** The steps of a run: which thread, and what the clock leaves it. *)
Definition search_run (steps : list (nat * Z)) : Search :=
  foldl (fun s e => search_step e.1 e.2 s) search_start steps.

(** The joins are passed when every thread has returned. *)
Definition all_returned (s : Search) : bool :=
  forallb (fun pc => match pc with Returned => true | _ => false end) (threads s).
End search.

(** [discover_nats_url(peers, ...)], given the interleaving of its threads: the result, when
    the joins are passed. *)
Definition discover_nats_url (compile : string -> option (string -> bool)) (sk : Sockets)
    (peers : list PeerCandidate) (hostname_pattern : string) (nats_port monitor_port : Z)
    (opts : DiscoveryOptions) (steps : list (nat * Z)) : option string :=
  if bool_decide (peers = []) then Some "" else
  let matched := List.filter (fun p => matches_hostname_pattern compile (pc_hostname p) hostname_pattern) peers in
  if bool_decide (matched = []) then Some "" else
  let s := search_run (fun p t => probe_nats_peer sk (tailscale_ip p) nats_port monitor_port t) nats_port opts matched steps in
  if all_returned s then Some (winning_url s) else None.

(** ** Configuration *)

(** [atoi]: the C library's [strtol], narrowed to an int. *)
Definition atoi (s : string) : Z :=
  let s := skip_while isspace s in
  let '(neg, s) := match s with
                   | String "-" r => (true, r)
                   | String "+" r => (false, r)
                   | _ => (false, s)
                   end in
  let v := digits_value 0 (take_digits s).1 in
  let v := Z.max (- 2 ^ 63) (Z.min (2 ^ 63 - 1) (if neg then - v else v))%Z in
  wrap32 v.

(** An integer setting: the environment's value when it is acceptable. *)
Definition env_int (getenv : string -> option string) (name : string) (ok : Z -> bool) (d : Z) : Z :=
  match getenv name with
  | Some e => if ok (atoi e) then atoi e else d
  | None => d
  end.

Definition discovery_settings (getenv : string -> option string) (hostname_pattern : string)
    : string * Z * Z * DiscoveryOptions :=
  let port v := (0 <? v)%Z && (v <=? 65535)%Z in
  let positive v := (0 <? v)%Z in
  (if str_empty hostname_pattern then default hostname_pattern (getenv "NATS_PEER_HOSTNAME_PATTERN") else hostname_pattern,
   env_int getenv "NATS_PORT" port 4222, env_int getenv "NATS_MONITOR_PORT" port 8222,
   {| total_budget := env_int getenv "NATS_DISCOVERY_BUDGET_MS" positive (total_budget default_options);
      per_probe_timeout_ms := env_int getenv "NATS_DISCOVERY_TIMEOUT_MS" positive (per_probe_timeout_ms default_options);
      max_workers := Z.to_nat (env_int getenv "NATS_DISCOVERY_MAX_WORKERS" positive (Z.of_nat (max_workers default_options))) |}).

Definition discover_nats_url_impl (compile : string -> option (string -> bool)) (sk : Sockets)
    (getenv : string -> option string) (hostname_pattern : string) (peers : list PeerCandidate)
    (steps : list (nat * Z)) : option string :=
  let '(pattern, nats_port, monitor_port, opts) := discovery_settings getenv hostname_pattern in
  discover_nats_url compile sk peers pattern nats_port monitor_port opts steps.

(** The overloads that enumerate the peers themselves. *)
Definition discover_nats_url_status `{!JsonText} (compile : string -> option (string -> bool)) (sk : Sockets)
    (getenv : string -> option string) (popen : string -> option (string * Z))
    (hostname_pattern status_json : string) (steps : list (nat * Z)) : option string :=
  discover_nats_url_impl compile sk getenv hostname_pattern (enumerate_tailscale_peers popen status_json) steps.
