(* ===== verification/PeerTheorems.v ===== *)
(** * Peer discovery: theorems *)

From S2P Require Import Prelude Effects Text Json JsonCodec Commands PeerDiscovery.

(** ** Candidates *)

Section candidates.
Context `{JT : !JsonText}.

Lemma first_ip_ok ok l ip : first_ip ok l = inr (Some ip) -> ok ip = true.
Proof.
  induction l as [|v l IH]; [done|]. simpl. destruct (get_string v) as [|x]; [done|].
  destruct (ok x) eqn:E; [|done]. by intros [= ->].
Qed.

(** A candidate that is not this machine. *)
Definition good_candidate (self_ip : string) (c : PeerCandidate) : Prop :=
  is_tailscale_ip (tailscale_ip c) = true /\ (self_ip <> "" -> tailscale_ip c <> self_ip).

Lemma add_peer_moves self_ip peer :
  moves (fun l l' => (forall c, c ∈ l -> good_candidate self_ip c) -> forall c, c ∈ l' -> good_candidate self_ip c)
    (add_peer self_ip peer).
Proof.
  set (R := fun l l' : list PeerCandidate => _).
  assert (PreOrder R) by (split; [by intros l H|intros l1 l2 l3 H1 H2 H; by apply H2, H1]).
  unfold add_peer. destruct (negb _); [by apply moves_ret|]. destruct (member _ _ _) as [ips|]; [|by apply moves_ret].
  apply moves_bind; [done| |].
  { destruct (at_key "HostName" peer) as [e|h]; [by apply moves_ret|].
    destruct (contains _ _); [by apply moves_of_result|by apply moves_ret]. }
  intros h. apply moves_bind_result; [done|]. intros [ip|] Hip; [|by apply moves_ret].
  apply first_ip_ok in Hip. apply andb_prop in Hip as [H1 H2]. intros l Hl c Hc. simpl in Hc.
  apply elem_of_app in Hc as [Hc|Hc]; [by apply Hl|]. apply list_elem_of_singleton in Hc as ->.
  split; [done|]. simpl. intros Hne ->. destruct self_ip; [done|]. simpl in H2. by rewrite str_eqb_refl in H2.
Qed.

Lemma candidates_good self_ip (l : list (string * json)) (acc : list PeerCandidate) :
  (forall c, c ∈ acc -> good_candidate self_ip c) ->
  forall c, c ∈ (for_each l (fun kv => add_peer self_ip kv.2) acc).1 -> good_candidate self_ip c.
Proof.
  revert acc; induction l as [|kv l IH]; intros acc Hacc; [done|]. cbn [for_each]. rewrite run_bind.
  pose proof (add_peer_moves self_ip kv.2 acc Hacc) as H.
  destruct (add_peer self_ip kv.2 acc) as [acc' [e|[]]]; [done|]. by apply IH.
Qed.

(** Every candidate is a Tailscale address of another machine: whatever the status text, or
    whatever part of it was read before an exception, each candidate's address is loopback or in
    100.64.0.0/10, and is not this machine's own. *)
Lemma candidates_are_peers (popen : string -> option (string * Z)) (status : string) (root : json) (self_ip : string)
    (c : PeerCandidate) :
  status <> "" -> jparse status = inr root -> self_ip_of root = inr self_ip ->
  c ∈ enumerate_tailscale_peers popen status ->
  is_tailscale_ip (tailscale_ip c) = true /\ (self_ip <> "" -> tailscale_ip c <> self_ip).
Proof.
  intros Hne Hp Hs. unfold enumerate_tailscale_peers.
  assert (Hemp : str_empty status = false) by (by destruct status). rewrite Hemp, Hemp.
  unfold try_catch. rewrite run_bind, run_of_result, Hp, run_bind, run_of_result, Hs.
  destruct (member is_object "Peer" root) as [peers|]; [|by intros ?%not_elem_of_nil].
  pose proof (candidates_good self_ip (items peers) [] (fun c H => False_rect _ (not_elem_of_nil _ H))) as H.
  destruct (for_each _ _ []) as [acc [e|[]]]; apply H.
Qed.
End candidates.

(** ** The search *)

Section search.
Context (probe : PeerCandidate -> Z -> bool) (nats_port : Z) (opts : DiscoveryOptions).
Context (matched : list PeerCandidate).
Abbreviation step := (search_step probe nats_port opts matched).
Implicit Types s : Search.

(** The [i]-th candidate answered a probe, or failed one. *)
Definition answered (i : nat) : Prop := exists p t, matched !! i = Some p /\ probe p t = true.
Definition failed_at (i : nat) : Prop := exists p t, matched !! i = Some p /\ probe p t = false.

Record search_ok s : Prop := {
  so_claiming : forall w i, threads s !! w = Some (Claiming i) -> answered i;
  so_open : found s = false -> winning_url s = "" /\ forall w i, threads s !! w <> Some (Publishing i);
  so_won : found s = true ->
    (exists w i, answered i /\ threads s !! w = Some (Publishing i) /\
        forall v j, threads s !! v = Some (Publishing j) -> v = w) \/
    (exists i p, answered i /\ matched !! i = Some p /\ winning_url s = url_of nats_port p /\
        forall v j, threads s !! v <> Some (Publishing j));
}.

(** A thread's move that neither claims nor publishes. *)
Lemma search_ok_move s w pc pc' n :
  threads s !! w = Some pc -> (forall i, pc <> Publishing i) -> (forall i, pc' <> Publishing i) ->
  (forall i, pc' = Claiming i -> answered i) -> search_ok s ->
  search_ok {| found := found s; winning_url := winning_url s; next_idx := n; threads := <[w := pc']> (threads s) |}.
Proof.
  intros Hw Hpc Hpc' Hcl [H1 H2 H3]. pose proof (lookup_lt_Some _ _ _ Hw) as Hlt.
  assert (Hp : forall v j, <[w := pc']> (threads s) !! v = Some (Publishing j) -> threads s !! v = Some (Publishing j)).
  { intros v j. destruct (decide (v = w)) as [->|Hne].
    - rewrite list_lookup_insert_eq by done. intros [= ->]. by destruct (Hpc' j).
    - by rewrite list_lookup_insert_ne. }
  split; simpl.
  - intros v i. destruct (decide (v = w)) as [->|Hne].
    + rewrite list_lookup_insert_eq by done. intros [= ->]. by apply Hcl.
    + rewrite list_lookup_insert_ne by done. apply H1.
  - intros Hf. destruct (H2 Hf) as [Hu Hn]. split; [done|]. intros v i Hv. by apply (Hn v i), Hp.
  - intros Hf. destruct (H3 Hf) as [(v & i & Ha & Hv & Hu)|(i & p & Ha & Hm & Hu & Hn)].
    + left. exists v, i. split; [done|]. split.
      * destruct (decide (v = w)) as [->|Hne]; [|by rewrite list_lookup_insert_ne].
        exfalso. apply (Hpc i). congruence.
      * intros x j Hx. by apply (Hu x j), Hp.
    + right. exists i, p. split_and!; [done..|]. intros v j Hv. by apply (Hn v j), Hp.
Qed.

Lemma search_ok_step w left s : search_ok s -> search_ok (step w left s).
Proof.
  intros Hs. unfold search_step. destruct (threads s !! w) as [pc|] eqn:Hw; [|done].
  pose proof (lookup_lt_Some _ _ _ Hw) as Hlt.
  destruct pc as [| |i|i t|i|i|]; try done.
  - apply (search_ok_move s w LoopTop); try done; by destruct (found s).
  - apply (search_ok_move s w Fetching); try done; by destruct (_ <=? _).
  - apply (search_ok_move s w (Budgeting i)); try done; by destruct (_ =? _)%Z.
  - destruct (matched !! i) as [p|] eqn:Hm; [|by apply (search_ok_move s w (Probing i t))].
    apply (search_ok_move s w (Probing i t)); try done; destruct (probe p t) eqn:Hp; try done.
    intros j [= <-]. by exists p, t.
  - destruct (found s) eqn:Hf; [by apply (search_ok_move s w (Claiming i) Returned (next_idx s))|].
    destruct Hs as [H1 H2 H3]. destruct (H2 Hf) as [Hu Hn]. split; simpl; [|done|].
    + intros v j. destruct (decide (v = w)) as [->|Hne].
      * by rewrite list_lookup_insert_eq.
      * rewrite list_lookup_insert_ne by done. apply H1.
    + intros _. left. exists w, i. split; [by apply (H1 w)|]. rewrite list_lookup_insert_eq by done. split; [done|].
      intros v j. destruct (decide (v = w)) as [->|Hne]; [done|]. rewrite list_lookup_insert_ne by done.
      intros Hv. by destruct (Hn v j).
  - destruct Hs as [H1 H2 H3]. destruct (found s) eqn:Hf.
    2: { destruct (H2 eq_refl) as [_ Hn]. by destruct (Hn w i). }
    destruct (H3 eq_refl) as [(v & j & Ha & Hv & Hu)|(j & p & _ & _ & _ & Hn)]; [|by destruct (Hn w i)].
    assert (v = w) as -> by (symmetry; by apply (Hu w i)). assert (j = i) as -> by congruence.
    destruct Ha as (p & t & Hm & Hp). rewrite Hm. split; simpl; [|done|].
    + intros x j. destruct (decide (x = w)) as [->|Hne].
      * by rewrite list_lookup_insert_eq.
      * rewrite list_lookup_insert_ne by done. apply H1.
    + intros _. right. exists i, p. split; [by exists p, t|]. split; [done|]. split; [done|].
      intros x j. destruct (decide (x = w)) as [->|Hne].
      * by rewrite list_lookup_insert_eq.
      * rewrite list_lookup_insert_ne by done. intros Hx. by apply Hne, (Hu x j).
Qed.

Lemma search_ok_start : search_ok (search_start opts matched).
Proof.
  split; simpl; [|intros _; split; [done|]|done].
  - intros w i H. apply lookup_replicate in H as [? _]. done.
  - intros w i H. apply lookup_replicate in H as [? _]. done.
Qed.

(** Every index handed out is being dealt with or has failed, unless somebody won. *)
Definition dealing (i : nat) (pc : tpc) : bool :=
  match pc with Budgeting j | Probing j _ | Claiming j => i =? j | _ => false end.

Record search_done s : Prop := {
  sd_range : forall w pc i, threads s !! w = Some pc -> dealing i pc = true -> i < length matched;
  sd_index : found s = false -> forall i, i < next_idx s -> i < length matched ->
    (exists w pc, threads s !! w = Some pc /\ dealing i pc = true) \/ failed_at i;
  sd_returned : found s = false -> forall w, threads s !! w = Some Returned -> length matched <= next_idx s;
}.

(** A move that keeps or fails the index a thread deals with. *)
Lemma search_done_move s w pc pc' n :
  threads s !! w = Some pc -> next_idx s <= n ->
  (forall i, dealing i pc' = true -> i < length matched) ->
  (forall i, i < n -> i < length matched -> dealing i pc = true \/ next_idx s <= i -> dealing i pc' = true \/ failed_at i) ->
  (pc' = Returned -> found s = false -> length matched <= n) ->
  search_done s ->
  search_done {| found := found s; winning_url := winning_url s; next_idx := n; threads := <[w := pc']> (threads s) |}.
Proof.
  intros Hw Hn Hrg Hd Hr [H0 H1 H2]. pose proof (lookup_lt_Some _ _ _ Hw) as Hlt. split; simpl.
  - intros v qc i. destruct (decide (v = w)) as [->|Hne].
    + rewrite list_lookup_insert_eq by done. intros [= <-]. apply Hrg.
    + rewrite list_lookup_insert_ne by done. apply H0.
  - intros Hf i Hi Hl.
    assert (Hnew : dealing i pc' = true -> exists v qc, <[w := pc']> (threads s) !! v = Some qc /\ dealing i qc = true)
      by (intros E; exists w, pc'; by rewrite list_lookup_insert_eq).
    destruct (decide (next_idx s <= i)) as [Hge|Hlo].
    { destruct (Hd i Hi Hl (or_intror Hge)); [left; by apply Hnew|by right]. }
    destruct (H1 Hf i ltac:(lia) Hl) as [(v & qc & Hv & Hq)|Hfail]; [|by right].
    destruct (decide (v = w)) as [->|Hne].
    + assert (qc = pc) as -> by congruence. destruct (Hd i Hi Hl (or_introl Hq)); [left; by apply Hnew|by right].
    + left. exists v, qc. by rewrite list_lookup_insert_ne.
  - intros Hf v Hv. destruct (decide (v = w)) as [->|Hne].
    + rewrite list_lookup_insert_eq in Hv by done. injection Hv as ->. by apply Hr.
    + rewrite list_lookup_insert_ne in Hv by done. pose proof (H2 Hf v Hv). lia.
Qed.

(** Once somebody has won only the indices in hand matter. *)
Lemma search_done_won s w pc' u :
  (forall i, dealing i pc' = false) -> search_done s ->
  search_done {| found := true; winning_url := u; next_idx := next_idx s; threads := <[w := pc']> (threads s) |}.
Proof.
  intros Hd [H0 _ _]. split; simpl; [|done|done]. intros v qc i Hv Hq.
  apply list_lookup_insert_Some in Hv as [(-> & <- & _)|[_ Hv]]; [by rewrite Hd in Hq|by apply (H0 v qc)].
Qed.

Lemma search_done_step w left s : left <> 0%Z -> search_ok s -> search_done s -> search_done (step w left s).
Proof.
  intros Hleft Hok Hs. unfold search_step. destruct (threads s !! w) as [pc|] eqn:Hw; [|done].
  pose proof (fun i => sd_range s Hs w pc i Hw) as Hrg.
  destruct pc as [| |i|i t|i|i|]; try done.
  - apply (search_done_move s w LoopTop); try done; [by destruct (found s)| |by destruct (found s)].
    intros i Hi Hl [?|?]; [done|lia].
  - apply (search_done_move s w Fetching); try done; [lia| | |].
    + intros i. destruct (length matched <=? next_idx s) eqn:E; [done|]. apply Nat.leb_gt in E. simpl.
      intros ->%Nat.eqb_eq. done.
    + intros i Hi Hl [?|?]; [done|]. assert (i = next_idx s) as -> by lia. left.
      rewrite (proj2 (Nat.leb_gt _ _)) by done. simpl. apply Nat.eqb_refl.
    + destruct (length matched <=? next_idx s) eqn:E; [|done]. apply Nat.leb_le in E. intros. lia.
  - rewrite (proj2 (Z.eqb_neq _ _) Hleft). apply (search_done_move s w (Budgeting i)); try done.
    intros k Hk Hl [?|?]; [by left|lia].
  - assert (Hi : i < length matched) by (apply Hrg; simpl; apply Nat.eqb_refl).
    destruct (lookup_lt_is_Some_2 _ _ Hi) as [p Hm]. rewrite Hm.
    apply (search_done_move s w (Probing i t)); try done; [intros k; destruct (probe p t); [apply Hrg|done]| |by destruct (probe p t)].
    intros k Hk Hl [Hd|?]; [|lia]. simpl in Hd. apply Nat.eqb_eq in Hd. subst k.
    destruct (probe p t) eqn:Hp; [left; simpl; apply Nat.eqb_refl|right; by exists p, t].
  - destruct (found s) eqn:Hf; [|by apply search_done_won].
    unfold set_thread. rewrite Hf. by apply search_done_won.
  - destruct (found s) eqn:Hf; [by apply search_done_won|]. by destruct (proj2 (so_open s Hok Hf) w i).
Qed.

Lemma search_done_start : search_done (search_start opts matched).
Proof.
  split; simpl.
  - intros w pc i H. apply lookup_replicate in H as [-> _]. done.
  - lia.
  - intros _ w H. by apply lookup_replicate in H as [? _].
Qed.

Lemma search_run_snoc steps e :
  search_run probe nats_port opts matched (steps ++ [e]) = step e.1 e.2 (search_run probe nats_port opts matched steps).
Proof. unfold search_run. by rewrite foldl_app. Qed.

Lemma search_run_ok steps : search_ok (search_run probe nats_port opts matched steps).
Proof.
  induction steps as [|e steps IH] using rev_ind; [apply search_ok_start|].
  rewrite search_run_snoc. by apply search_ok_step.
Qed.

Lemma search_run_done steps :
  Forall (fun e : nat * Z => e.2 <> 0%Z) steps -> search_done (search_run probe nats_port opts matched steps).
Proof.
  induction steps as [|e steps IH] using rev_ind; intros Hs; [apply search_done_start|].
  apply Forall_app in Hs as [Hs He]. apply Forall_cons in He as [He _].
  rewrite search_run_snoc. apply search_done_step; [exact He|apply search_run_ok|by apply IH].
Qed.

Lemma step_threads w left s : length (threads (step w left s)) = length (threads s).
Proof.
  unfold search_step, set_thread. destruct (threads s !! w) as [[]|]; try done; simpl; try by rewrite length_insert.
  - destruct (matched !! i); simpl; by rewrite length_insert.
  - destruct (found s); simpl; by rewrite length_insert.
Qed.

Lemma run_threads steps :
  length (threads (search_run probe nats_port opts matched steps)) = worker_count (length matched) opts.
Proof.
  induction steps as [|e steps IH] using rev_ind; [apply length_replicate|]. by rewrite search_run_snoc, step_threads.
Qed.

Lemma returned_lookup s w pc : all_returned s = true -> threads s !! w = Some pc -> pc = Returned.
Proof.
  unfold all_returned. rewrite forallb_forall. intros H Hw. apply list_elem_of_lookup_2, list_elem_of_In, H in Hw.
  by destruct pc.
Qed.

(** ** Publication *)

Definition publishing (pc : tpc) : nat := match pc with Publishing _ => 1 | _ => 0 end.

(** How often a run from [s] writes [winning_url]. *)
Fixpoint publications s (steps : list (nat * Z)) : nat :=
  match steps with
  | [] => 0
  | e :: steps =>
      match threads s !! e.1 with Some pc => publishing pc | None => 0 end + publications (step e.1 e.2 s) steps
  end.

(** How many threads are about to write it. *)
Definition claims s : nat := sum_list_with publishing (threads s).

Lemma claims_step w left s :
  match threads s !! w with Some pc => publishing pc | None => 0 end + claims (step w left s)
    + (if found s then 1 else 0) = claims s + (if found (step w left s) then 1 else 0).
Proof.
  unfold search_step, set_thread, claims. destruct (threads s !! w) as [pc|] eqn:Hw; [|lia].
  pose proof (fun pc' => sum_insert publishing (threads s) w pc pc' Hw) as Hs.
  destruct pc as [| |i|i t|i|i|]; simpl; try lia.
  - specialize (Hs (if found s then Returned else Fetching)). destruct (found s); simpl in *; lia.
  - specialize (Hs (if length matched <=? next_idx s then Returned else Budgeting (next_idx s))).
    destruct (_ <=? _); simpl in *; lia.
  - specialize (Hs (if (left =? 0)%Z then Returned else Probing i (Z.min (per_probe_timeout_ms opts) left))).
    destruct (left =? 0)%Z; simpl in *; lia.
  - destruct (matched !! i) as [p|]; simpl; [|specialize (Hs Returned); simpl in *; lia].
    specialize (Hs (if probe p t then Claiming i else LoopTop)). destruct (probe p t); simpl in *; lia.
  - destruct (found s) eqn:Hf; simpl; rewrite ?Hf.
    + specialize (Hs Returned). simpl in *. lia.
    + specialize (Hs (Publishing i)). simpl in *. lia.
  - specialize (Hs Returned). simpl in *. lia.
Qed.

Lemma publications_run s steps :
  let s' := foldl (fun s e => step e.1 e.2 s) s steps in
  publications s steps + claims s' + (if found s then 1 else 0) = claims s + (if found s' then 1 else 0).
Proof.
  revert s; induction steps as [|e steps IH]; intros s; [done|]. simpl.
  specialize (IH (step e.1 e.2 s)). simpl in IH. pose proof (claims_step e.1 e.2 s) as H. lia.
Qed.

Lemma claims_start : claims (search_start opts matched) = 0.
Proof. unfold claims. simpl. generalize (worker_count (length matched) opts). intros n. by induction n. Qed.

Lemma claims_returned s : all_returned s = true -> claims s = 0.
Proof.
  unfold all_returned, claims. induction (threads s) as [|pc ts IH]; [done|]. simpl.
  intros [Hp H]%andb_prop. rewrite IH by done. by destruct pc.
Qed.

(** C16: The search returns the address of a server that answered, and finds one when there is one.
    However the threads interleave, the result is written at most once; once all have returned it
    was written exactly once if somebody won, and it is empty when nobody won, and otherwise the
    URL of a matched candidate whose probe succeeded.  When the clock left every probe some time
    and a matched candidate answers probes of any length, somebody won. *)
Theorem discovery_correct (steps : list (nat * Z)) :
  let s := search_run probe nats_port opts matched steps in
  let writes := publications (search_start opts matched) steps in
  writes <= 1 /\
  (all_returned s = true ->
   (found s = false /\ winning_url s = "" /\ writes = 0 \/
    exists p t, p ∈ matched /\ probe p t = true /\ found s = true /\ winning_url s = url_of nats_port p /\ writes = 1) /\
   (Forall (fun e : nat * Z => e.2 <> 0%Z) steps ->
    (exists p, p ∈ matched /\ forall t, probe p t = true) -> found s = true)).
Proof.
  intros s writes. pose proof (publications_run (search_start opts matched) steps) as Hpub. cbv zeta in Hpub.
  change (foldl _ _ steps) with s in Hpub. fold writes in Hpub.
  assert (claims (search_start opts matched) = 0) as H0 by apply claims_start.
  change (found (search_start opts matched)) with false in Hpub. rewrite H0 in Hpub.
  split; [destruct (found s); lia|]. intros Hret. rewrite (claims_returned s Hret) in Hpub.
  pose proof (search_run_ok steps) as Hok. fold s in Hok. split.
  - destruct (found s) eqn:Hf; [right|left; split; [done|split; [apply (so_open s Hok Hf)|lia] ] ].
    destruct (so_won s Hok Hf) as [(w & i & _ & Hw & _)|(i & p & (p' & t & Hm & Hp) & Hm' & Hu & _)].
    + by pose proof (returned_lookup s w _ Hret Hw).
    + assert (p' = p) as -> by congruence. exists p, t. split_and!; [by eapply list_elem_of_lookup_2|done..|lia].
  - intros Hs (p & Hin & Hp). destruct (found s) eqn:Hf; [done|exfalso].
    pose proof (search_run_done steps Hs) as Hd. fold s in Hd.
    apply list_elem_of_lookup in Hin as [i Hi]. pose proof (lookup_lt_Some _ _ _ Hi) as Hl.
    assert (Hw : 0 < length (threads s)).
    { unfold s. rewrite run_threads. unfold worker_count. lia. }
    destruct (lookup_lt_is_Some_2 _ _ Hw) as [pc Hpc]. pose proof (returned_lookup s 0 pc Hret Hpc) as ->.
    pose proof (sd_returned s Hd Hf 0 Hpc) as Hn.
    destruct (sd_index s Hd Hf i ltac:(lia) Hl) as [(w & qc & Hq & Hdeal)|(p' & t & Hm & Hfail)].
    + by rewrite (returned_lookup s w qc Hret Hq) in Hdeal.
    + assert (p' = p) as -> by congruence. by rewrite Hp in Hfail.
Qed.

(** ** Termination *)

Definition tpc_weight (pc : tpc) : nat :=
  match pc with
  | Returned => 0 | Fetching | Publishing _ => 1 | LoopTop | Claiming _ => 2 | Probing _ _ => 3 | Budgeting _ => 4
  end.
Definition search_weight s : nat :=
  sum_list_with tpc_weight (threads s) + 4 * (length matched - next_idx s).

(** Steps of threads that have not returned. *)
Inductive search_busy : nat -> Search -> Search -> Prop :=
| search_nil s : search_busy 0 s s
| search_cons k s w left pc s' :
    threads s !! w = Some pc -> pc <> Returned -> search_busy k (step w left s) s' -> search_busy (S k) s s'.

Lemma search_step_weight w left s pc :
  threads s !! w = Some pc -> pc <> Returned -> search_weight (step w left s) < search_weight s.
Proof.
  intros Hw Hpc. pose proof (fun pc' => sum_insert tpc_weight (threads s) w pc pc' Hw) as Hs.
  unfold search_step, search_weight, set_thread. rewrite Hw. destruct pc as [| |i|i t|i|i|]; try done.
  - simpl. specialize (Hs (if found s then Returned else Fetching)). destruct (found s); simpl in *; lia.
  - cbn [threads next_idx]. destruct (length matched <=? next_idx s) eqn:E.
    + specialize (Hs Returned). apply Nat.leb_le in E. simpl in *. lia.
    + specialize (Hs (Budgeting (next_idx s))). apply Nat.leb_gt in E. simpl in *. lia.
  - simpl. destruct (left =? 0)%Z; [specialize (Hs Returned)|specialize (Hs (Probing i (Z.min (per_probe_timeout_ms opts) left)))];
      simpl in *; lia.
  - destruct (matched !! i) as [p|]; [destruct (probe p t)|]; simpl;
      [specialize (Hs (Claiming i))|specialize (Hs LoopTop)|specialize (Hs Returned)]; simpl in *; lia.
  - destruct (found s); simpl; [specialize (Hs Returned)|specialize (Hs (Publishing i))]; simpl in *; lia.
  - simpl. specialize (Hs Returned). simpl in *. lia.
Qed.

Lemma search_busy_weight k s s' : search_busy k s s' -> k + search_weight s' <= search_weight s.
Proof.
  induction 1 as [|k s w left pc s' Hw Hpc _ IH]; [lia|]. pose proof (search_step_weight w left s pc Hw Hpc). lia.
Qed.

Lemma search_weight_start :
  search_weight (search_start opts matched) <= 2 * worker_count (length matched) opts + 4 * length matched.
Proof.
  unfold search_weight, search_start. simpl.
  assert (forall n, sum_list_with tpc_weight (replicate n LoopTop) = 2 * n) as -> by (induction n; simpl; lia). lia.
Qed.

Lemma search_finishes s : exists k s', search_busy k s s' /\ all_returned s' = true.
Proof.
  remember (search_weight s) as wt eqn:Ew. revert s Ew. induction wt as [wt IH] using lt_wf_ind; intros s Ew.
  destruct (all_returned s) eqn:Hall; [exists 0, s; split; [constructor|done]|].
  assert (exists w pc, threads s !! w = Some pc /\ pc <> Returned) as (w & pc & Hw & Hpc).
  { unfold all_returned in Hall. clear -Hall. induction (threads s) as [|pc l IH]; [done|]. simpl in Hall.
    destruct pc; try (by eexists 0, _). destruct (IH Hall) as (w & pc & ? & ?). by exists (S w), pc. }
  destruct (IH (search_weight (step w 1%Z s))) with (s := step w 1%Z s) as (k & s' & Hr & Ha);
    [rewrite Ew; by eapply search_step_weight|done|]. exists (S k), s'. split; [by econstructor|done].
Qed.

(** The search always ends: from its start the threads can come to their ends, and however they
    interleave and whatever the clock and the probes say they make together at most two steps per
    thread, of at most 32 threads, and four per matched candidate. *)
Lemma discovery_terminates :
  (exists k s, search_busy k (search_start opts matched) s /\ all_returned s = true) /\
  worker_count (length matched) opts <= 32 /\
  forall k s, search_busy k (search_start opts matched) s ->
    k <= 2 * worker_count (length matched) opts + 4 * length matched.
Proof.
  split; [apply search_finishes|]. split; [unfold worker_count; lia|].
  intros k s Hr. pose proof (search_busy_weight _ _ _ Hr). pose proof search_weight_start. lia.
Qed.
End search.

(** ** Instances *)

#[local] Existing Instance codec.

Definition two_peers : json :=
  jobj [("Self", jobj [("TailscaleIPs", JArr [JStr "100.64.0.1"])]);
        ("Peer", jobj [("a", jobj [("TailscaleIPs", JArr [JStr "fd7a::1"; JStr "100.70.1.2"]); ("HostName", JStr "atlas")]);
                       ("b", jobj [("TailscaleIPs", JArr [JStr "100.64.0.1"])])])].
Definition two_peers_text : string := match jdump (-1) two_peers with inr t => t | inl _ => "" end.

Lemma candidates_are_peers_witness :
  enumerate_tailscale_peers (fun _ => None) two_peers_text = [{| tailscale_ip := "100.70.1.2"; pc_hostname := "atlas" |}] /\
  "100.70.1.2" <> "100.64.0.1".
Proof.
  assert (H : enumerate_tailscale_peers (fun _ => None) two_peers_text
              = [{| tailscale_ip := "100.70.1.2"; pc_hostname := "atlas" |}]) by (vm_compute; reflexivity).
  split; [exact H|].
  apply (candidates_are_peers (fun _ => None) two_peers_text two_peers "100.64.0.1"
           {| tailscale_ip := "100.70.1.2"; pc_hostname := "atlas" |}).
  - vm_compute. discriminate.
  - vm_compute. reflexivity.
  - vm_compute. reflexivity.
  - rewrite H. left.
  - discriminate.
Defined.

(** Two candidates, of which the second answers; one thread does the work. *)
Definition pair : list PeerCandidate :=
  [{| tailscale_ip := "100.70.1.2"; pc_hostname := "a" |}; {| tailscale_ip := "100.70.1.3"; pc_hostname := "b" |}].
Definition second_answers (p : PeerCandidate) (t : Z) : bool := str_eqb (tailscale_ip p) "100.70.1.3".
Definition some_steps : list (nat * Z) :=
  replicate 10 (0, 900%Z) ++ [(1, 900%Z)].

Lemma discovery_correct_witness :
  let s := search_run second_answers 4222 default_options pair some_steps in
  all_returned s = true /\ found s = true /\ winning_url s = "nats://100.70.1.3:4222".
Proof.
  assert (Hr : all_returned (search_run second_answers 4222 default_options pair some_steps) = true)
    by (vm_compute; reflexivity).
  destruct (proj2 (discovery_correct second_answers 4222 default_options pair some_steps) Hr) as [_ H].
  split; [exact Hr|]. split; [|vm_compute; reflexivity]. apply H.
  - repeat (apply Forall_cons_2; [discriminate|]). apply Forall_nil_2.
  - exists {| tailscale_ip := "100.70.1.3"; pc_hostname := "b" |}. split; [right; left|]. intros t. reflexivity.
Defined.
