(* ===== verification/NatsConnection.v ===== *)
(** * NatsConnection: the connection of the NATS client

    The other half of src/nats_client.cpp: [connect], [close], [ensure_streams], [subscribe] and
    the two C callbacks.  The library nats.c is a parameter ([NatsLib]); the client's state is
    that of [Messaging] with the address, the metrics pointer, and the callback contexts it
    allocates.  Operations run over the whole process, because the metrics registry they update
    is the server's. *)

From S2P Require Import Prelude Effects Text Json Metrics World Messaging.

(** ** nats.c *)

(** [jsStreamConfig] as far as the client sets it (file storage and limits retention are fixed). *)
Record StreamConfig := {
  sc_name : string;
  sc_subject : string;
  sc_max_bytes : Z;       (* int64_t *)
  sc_max_age : Z;         (* uint64_t, ns *)
  sc_max_msgs : Z;
}.

(** The calls of the library, over the state [B] of its side. *)
Record NatsLib (B : Type) := {
  lib_connect : B -> B * natsStatus;                        (* natsConnection_Connect, options without a server *)
  lib_connect_to : string -> B -> B * natsStatus;           (* natsConnection_ConnectTo *)
  lib_jetstream : B -> B * natsStatus;                      (* natsConnection_JetStream *)
  lib_add_stream : StreamConfig -> B -> B * natsStatus * Z; (* js_AddStream, with its jsErrCode *)
  lib_publish : bool -> string -> string -> B -> B * natsStatus;
  lib_subscribe : string -> B -> B * natsStatus;            (* natsConnection_Subscribe *)
  lib_close : B -> B;                                       (* natsConnection_Close, _Destroy *)
  lib_matches : string -> string -> bool;                   (* does a subscription take a subject *)
}.
Arguments lib_connect {B}.
Arguments lib_connect_to {B}.
Arguments lib_jetstream {B}.
Arguments lib_add_stream {B}.
Arguments lib_publish {B}.
Arguments lib_subscribe {B}.
Arguments lib_close {B}.
Arguments lib_matches {B}.

(** [JSStreamNameExistErr] of nats.h. *)
Definition JSStreamNameExistErr : Z := 10058.

(** ** The client *)

(** [CallbackContext]; [C] names the callback. *)
Record CallbackContext (C : Type) := { cc_cb : C; cc_metrics : bool }.
Arguments cc_cb {C}.
Arguments cc_metrics {C}.

Record Conn (B C : Type) := {
  client : NatsClient (B := B);
  url_ : string;
  nats_metrics_ : bool;                              (* metrics_ != nullptr *)
  contexts : gmap nat (CallbackContext C);           (* the contexts allocated and not deleted *)
  next_context : nat;
  subscriptions : list (string * nat);               (* those of [conn_] in the library, with their closures *)
  orphaned : list (string * nat);                    (* those of connections no pointer leads to any more *)
  lost_connections : nat;                            (* how many such connections there are *)
  stream_warnings : list string;                     (* "could not create stream" *)
}.
Arguments client {B C}.
Arguments url_ {B C}.
Arguments nats_metrics_ {B C}.
Arguments contexts {B C}.
Arguments next_context {B C}.
Arguments subscriptions {B C}.
Arguments orphaned {B C}.
Arguments lost_connections {B C}.
Arguments stream_warnings {B C}.

Section connection.
Context {G B C : Type} (lib : NatsLib B) (getenv : string -> option string).
Abbreviation W := (World G (Conn B C)).
Abbreviation M := (M W).

Definition with_client (c : NatsClient) (n : Conn B C) : Conn B C :=
  {| client := c; url_ := url_ n; nats_metrics_ := nats_metrics_ n; contexts := contexts n;
     next_context := next_context n; subscriptions := subscriptions n; orphaned := orphaned n;
     lost_connections := lost_connections n; stream_warnings := stream_warnings n |}.

(** The pointers [conn_] and [js_] (set or not) and [connected_]. *)
Definition set_link (conn js connected : bool) (n : Conn B C) : Conn B C :=
  let c := client n in
  with_client {| conn_ := conn; js_ := js; connected_ := connected; breaker_ := breaker_ c; dlq_ := dlq_ c;
                 broker := broker c; steady := steady c; steady_i := steady_i c; wall := wall c;
                 wall_i := wall_i c; slept := slept c |} n.

Definition set_subscriptions (ctx : gmap nat (CallbackContext C)) (next : nat) (subs : list (string * nat))
    (n : Conn B C) : Conn B C :=
  {| client := client n; url_ := url_ n; nats_metrics_ := nats_metrics_ n; contexts := ctx;
     next_context := next; subscriptions := subs; orphaned := orphaned n;
     lost_connections := lost_connections n; stream_warnings := stream_warnings n |}.

Definition warn_stream (name : string) (n : Conn B C) : Conn B C :=
  {| client := client n; url_ := url_ n; nats_metrics_ := nats_metrics_ n; contexts := contexts n;
     next_context := next_context n; subscriptions := subscriptions n; orphaned := orphaned n;
     lost_connections := lost_connections n; stream_warnings := stream_warnings n ++ [name] |}.

(** [conn_ = c]: a connection that [conn_] pointed to is not closed; it stays open in the library
    with its subscriptions, and nothing refers to it any more. *)
Definition abandon (n : Conn B C) : Conn B C :=
  {| client := client n; url_ := url_ n; nats_metrics_ := nats_metrics_ n; contexts := contexts n;
     next_context := next_context n; subscriptions := []; orphaned := orphaned n ++ subscriptions n;
     lost_connections := if conn_ (client n) then S (lost_connections n) else lost_connections n;
     stream_warnings := stream_warnings n |}.

Definition upd_nats (f : Conn B C -> Conn B C) : M unit := modify (fun w => set_nats (f (w_nats w)) w).

(** A call of the library. *)
Definition call_lib {A} (f : B -> B * A) : M A := fun w =>
  let n := w_nats w in
  let '(b, r) := f (broker (client n)) in (set_nats (with_client (with_broker b (client n)) n) w, inr r).

(** [if (metrics_) metrics_->set_nats_connected(b)]. *)
Definition metric_connected (b : bool) : M unit :=
  modify (fun w => if nats_metrics_ (w_nats w) then set_metrics (set_nats_connected b (w_metrics w)) w else w).

Definition connect : M bool :=
  s ← call_lib (lib_connect lib);
  url ← gets (fun w => url_ (w_nats w));
  s ← (if is_ok s then mret s else call_lib (lib_connect_to lib url));
  if negb (is_ok s) then
    upd_nats (fun n => set_link (conn_ (client n)) (js_ (client n)) false n) ;;
    metric_connected false ;;
    mret false
  else
    upd_nats (fun n => set_link true (js_ (client n)) true (abandon n)) ;;
    metric_connected true ;;
    s ← call_lib (lib_jetstream lib);
    when (is_ok s) (upd_nats (fun n => set_link (conn_ (client n)) true (connected_ (client n)) n)) ;;
    mret true.

(** Destroying the connection [conn_] points to destroys its subscriptions; [nats_sub_complete]
    deletes the context of each. *)
Definition nats_sub_complete (n : Conn B C) : Conn B C :=
  set_subscriptions (foldr (fun s m => delete s.2 m) (contexts n) (subscriptions n)) (next_context n) [] n.

Definition close : M unit :=
  upd_nats (fun n => set_link (conn_ (client n)) false (connected_ (client n)) n) ;;
  conn ← gets (fun w => conn_ (client (w_nats w)));
  when conn (call_lib (fun b => (lib_close lib b, tt)) ;;
             upd_nats (fun n => nats_sub_complete (set_link false (js_ (client n)) (connected_ (client n)) n))) ;;
  upd_nats (fun n => set_link (conn_ (client n)) (js_ (client n)) false n) ;;
  metric_connected false.

(** ** Streams *)

(** [std::stoll]; the limits are products of [int64_t], whose overflow, undefined in C++, is
    written as wrap-around, and [MaxAge] is cast to [uint64_t]. *)
Definition wrap64 (z : Z) : Z := ((z + 2 ^ 63) mod 2 ^ 64 - 2 ^ 63)%Z.

Definition stoll (s : string) : result Z :=
  let s := skip_while isspace s in
  let '(neg, r) := match s with
                   | String "-" r => (true, r) | String "+" r => (false, r) | _ => (false, s)
                   end in
  let ds := (take_digits r).1 in
  if str_empty ds then inl (invalid_argument "stoll") else
  let v := (if neg then - digits_value 0 ds else digits_value 0 ds)%Z in
  if (v <? - 2 ^ 63)%Z || (2 ^ 63 - 1 <? v)%Z then inl (out_of_range "stoll") else inr v.

Definition env_int64 (name : string) (d : Z) : result Z :=
  match getenv name with Some v => stoll v | None => inr d end.

Definition kStreams : list (string * string) :=
  [("homeric-agents", "hi.agents.>"); ("homeric-tasks", "hi.tasks.>");
   ("homeric-myrmidon", "hi.myrmidon.>"); ("homeric-research", "hi.research.>");
   ("homeric-pipeline", "hi.pipeline.>"); ("homeric-logs", "hi.logs.>")].

Definition stream_config (max_bytes max_age : Z) (sd : string * string) : StreamConfig :=
  {| sc_name := sd.1; sc_subject := sd.2; sc_max_bytes := max_bytes;
     sc_max_age := max_age mod 2 ^ 64; sc_max_msgs := -1 |}%Z.

Definition ensure_streams : M unit :=
  n ← gets w_nats;
  if negb (connected_ (client n)) || negb (js_ (client n)) then mret tt else
  mb ← of_result (env_int64 "NATS_STREAM_MAX_BYTES_MB" 50);
  let max_bytes := wrap64 (wrap64 (mb * 1024) * 1024) in
  age ← of_result (env_int64 "NATS_STREAM_MAX_AGE_SEC" 3600);
  let max_age := wrap64 (age * 1000000000) in
  for_each kStreams (fun sd =>
    r ← call_lib (fun b => let '(b, s, e) := lib_add_stream lib (stream_config max_bytes max_age sd) b in (b, (s, e)));
    when (negb (is_ok r.1) && negb (r.2 =? JSStreamNameExistErr)%Z) (upd_nats (warn_stream sd.1))).

(** ** Subscriptions *)

Definition subscribe (subject : string) (cb : C) : M bool :=
  n ← gets w_nats;
  if negb (connected_ (client n)) || negb (conn_ (client n)) then mret false else
  let ctx := next_context n in
  upd_nats (fun n => set_subscriptions
    (<[ctx := {| cc_cb := cb; cc_metrics := nats_metrics_ n |}]> (contexts n)) (S ctx) (subscriptions n) n) ;;
  s ← call_lib (lib_subscribe lib subject);
  if negb (is_ok s) then
    upd_nats (fun n => set_subscriptions (delete ctx (contexts n)) (next_context n) (subscriptions n) n) ;;
    mret false
  else
    upd_nats (fun n => set_subscriptions (contexts n) (next_context n) (subscriptions n ++ [(subject, ctx)]) n) ;;
    mret true.

(** [nats_msg_handler]: what the library calls for each message of a subscription, with its
    closure; [run] is the callback's body.  A message without data has an empty payload. *)
Definition nats_msg_handler (run : C -> string -> string -> M unit) (closure : nat) (subject : string)
    (data : option string) : M unit :=
  n ← gets w_nats;
  match contexts n !! closure with
  | None => mret tt
  | Some ctx =>
      when (cc_metrics ctx) (modify (fun w => set_metrics (record_nats_receive subject (w_metrics w)) w)) ;;
      run (cc_cb ctx) subject (default "" data)
  end.

(** The library delivers a message to every live subscription that takes its subject, those of
    abandoned connections included. *)
Definition deliver (run : C -> string -> string -> M unit) (subject : string) (data : option string) : M unit :=
  n ← gets w_nats;
  for_each (List.filter (fun s => lib_matches lib s.1 subject) (orphaned n ++ subscriptions n))
    (fun s => nats_msg_handler run s.2 subject data).

(** The client as the publisher of the server. *)
Definition ConnPublisher `{!JsonText} : NatsPublisher (Conn B C) :=
  let p := NatsClientPublisher (lib_publish lib) (getenv "AGAMEMNON_NATS_RETRY_BASE_MS") in
  {| publish := fun subject payload => zoom client with_client (publish p subject payload);
     publish_log := fun subject level message metadata =>
       zoom client with_client (publish_log p subject level message metadata) |}.
End connection.

(** [NatsClient(url)] with the default breaker and a dead-letter queue of 256, the metrics
    attached; [steady] and [wall] are its clocks. *)
Definition new_conn {B C} (url : string) (b : B) (steady : nat -> Z) (wall : nat -> Z * Z) : Conn B C :=
  {| client := {| conn_ := false; js_ := false; connected_ := false;
                  breaker_ := Breaker.new_breaker Breaker.default_config; dlq_ := Dlq.new_queue (Z.to_nat 256);
                  broker := b; steady := steady; steady_i := 0; wall := wall; wall_i := 0; slept := [] |};
     url_ := url; nats_metrics_ := true; contexts := ∅; next_context := 0; subscriptions := [];
     orphaned := []; lost_connections := 0; stream_warnings := [] |}.

(** ** Subjects as NATS documents them *)

(** Tokens are separated by dots. *)
Fixpoint tokens (s : string) : list string :=
  match s with
  | "" => [""]
  | String c r =>
      if decide (c = "."%char) then "" :: tokens r
      else match tokens r with x :: ts => String c x :: ts | [] => [String c ""] end
  end.

(** [*] takes one token, [>] the rest, which is not empty. *)
Fixpoint tokens_match (p s : list string) : bool :=
  match p, s with
  | [], [] => true
  | x :: p, y :: s =>
      (str_eqb x ">" && bool_decide (p = [])) || ((str_eqb x "*" || str_eqb x y) && tokens_match p s)
  | _, _ => false
  end.
Definition subject_matches (pattern subject : string) : bool := tokens_match (tokens pattern) (tokens subject).

(** A library that routes as documented. *)
Class NatsLibLaws {B} (lib : NatsLib B) : Prop := {
  lib_matches_subject p s : lib_matches lib p s = subject_matches p s;
}.
