(* ===== verification/NatsTheorems.v ===== *)
(** * NatsTheorems: the connection keeps its books

    Lemmas about [NatsConnection]: callback contexts live exactly as long as their subscriptions,
    the connectivity gauge tells the truth, which connections are lost, and how subjects split
    into tokens. *)

From S2P Require Import Prelude Effects Text Json Metrics World Messaging NatsConnection.

Section conn.
Context {G B C : Type} (lib : NatsLib B) (getenv : string -> option string).
Abbreviation W := (World G (Conn B C)).
Implicit Types (w : W) (n : Conn B C).

(** ** Callback contexts *)

(** The subscriptions the library serves. *)
Definition live n : list (string * nat) := orphaned n ++ subscriptions n.

Record conn_ok n : Prop := {
  ctx_once : NoDup (live n).*2;
  ctx_live k : is_Some (contexts n !! k) <-> k ∈ (live n).*2;
  ctx_fresh k : next_context n <= k -> contexts n !! k = None;
  ctx_closed : conn_ (client n) = false -> subscriptions n = [];
}.

(** The invariant of the process: contexts are those of the subscriptions, and with metrics
    attached the gauge is [connected_]. *)
Definition gauge_ok w : Prop :=
  nats_metrics_ (w_nats w) = true ->
  nats_connected_ (w_metrics w) = if connected_ (client (w_nats w)) then 1%Z else 0%Z.

(** The parts of the connection the two facts are about. *)
Definition same_books n n' : Prop :=
  contexts n' = contexts n /\ next_context n' = next_context n /\ subscriptions n' = subscriptions n /\
  orphaned n' = orphaned n.

Lemma conn_ok_same n n' :
  same_books n n' -> conn_ (client n') = conn_ (client n) -> conn_ok n -> conn_ok n'.
Proof.
  intros (H1 & H2 & H3 & H4) Hc [Ho Hl Hf Hd]. unfold live in *. split; unfold live.
  - by rewrite H3, H4.
  - intros k. rewrite H1, H3, H4. apply Hl.
  - intros k. rewrite H1, H2. apply Hf.
  - by rewrite Hc, H3.
Qed.

Lemma conn_ok_abandon n js : conn_ok n -> conn_ok (set_link true js true (abandon n)).
Proof.
  intros [Ho Hl Hf Hd]. split; unfold live in *; simpl; rewrite ?app_nil_r; done.
Qed.

Lemma conn_ok_added n subject cb : conn_ok n -> conn_ (client n) = true ->
  conn_ok (set_subscriptions (<[next_context n := cb]> (contexts n)) (S (next_context n))
             (subscriptions n ++ [(subject, next_context n)]) n).
Proof.
  intros [Ho Hl Hf Hd] Hc. assert (Hnew : next_context n ∉ (live n).*2).
  { intros Hin. apply Hl in Hin as [x Hx]. by rewrite Hf in Hx. }
  unfold live in *. split; unfold live; simpl; rewrite ?app_assoc, ?fmap_app; simpl.
  - rewrite <- fmap_app. apply NoDup_app. split; [done|]. split; [set_solver|apply NoDup_singleton].
  - intros k. rewrite lookup_insert_is_Some, Hl, fmap_app, !elem_of_app, list_elem_of_singleton.
    destruct (decide (next_context n = k)); naive_solver.
  - intros k Hk. rewrite lookup_insert_ne by lia. apply Hf. lia.
  - by rewrite Hc.
Qed.

(** A failed subscription leaves a gap in the numbers and nothing else. *)
Lemma conn_ok_refused n k : conn_ok n -> next_context n <= k ->
  conn_ok (set_subscriptions (contexts n) (S k) (subscriptions n) n).
Proof. intros [Ho Hl Hf Hd] Hk. split; [done|done| |done]. simpl. intros j Hj. apply Hf. lia. Qed.

Lemma lookup_completed (subs : list (string * nat)) (m : gmap nat (CallbackContext C)) k :
  foldr (fun s m => delete s.2 m) m subs !! k = if decide (k ∈ subs.*2) then None else m !! k.
Proof.
  induction subs as [|s subs IH]; simpl; [done|]. destruct (decide (s.2 = k)) as [->|Hne].
  - rewrite lookup_delete_eq, decide_True; [done|by left].
  - rewrite lookup_delete_ne, IH by done. repeat case_decide; set_solver.
Qed.

Lemma conn_ok_completed n js con :
  conn_ok n ->
  conn_ok (nats_sub_complete (set_link false js con n)) /\
  forall k, is_Some (contexts (nats_sub_complete (set_link false js con n)) !! k) <-> k ∈ (orphaned n).*2.
Proof.
  intros [Ho Hl Hf Hd].
  assert (Hk : forall k, is_Some (contexts (nats_sub_complete (set_link false js con n)) !! k) <-> k ∈ (orphaned n).*2).
  { intros k. simpl. rewrite lookup_completed. specialize (Hl k). unfold live in *. rewrite fmap_app, elem_of_app in Hl.
    rewrite fmap_app in Ho. apply NoDup_app in Ho as (_ & Hdis & _). specialize (Hdis k).
    case_decide; rewrite ?is_Some_alt in *; naive_solver. }
  split; [|done]. split; unfold live; simpl; rewrite ?app_nil_r.
  - unfold live in Ho. rewrite fmap_app in Ho. by apply NoDup_app in Ho as (? & _).
  - done.
  - intros k Hn. rewrite lookup_completed. case_decide; [done|by apply Hf].
  - done.
Qed.

(** ** Invariants of the operations *)

Abbreviation Books := (keeping (fun w => conn_ok (w_nats w))).
Abbreviation Gauge := (keeping gauge_ok).

Lemma books_same (f : Conn B C -> Conn B C) :
  (forall n, same_books n (f n) /\ conn_ (client (f n)) = conn_ (client n)) -> moves Books (upd_nats f : M W unit).
Proof.
  intros Hf. apply moves_modify. intros w. unfold keeping; simpl. destruct (Hf (w_nats w)). by apply conn_ok_same.
Qed.
Lemma books_lib {A} (f : B -> B * A) : moves Books (call_lib f : M W A).
Proof.
  intros w. unfold keeping, call_lib. destruct (f _) as [b r]. simpl. by apply conn_ok_same.
Qed.
Lemma books_metric b : moves Books (metric_connected b : M W unit).
Proof. apply moves_modify. intros w. unfold keeping. by destruct (nats_metrics_ (w_nats w)). Qed.

Lemma gauge_lib {A} (f : B -> B * A) : moves Gauge (call_lib f : M W A).
Proof. intros w. unfold keeping, call_lib, gauge_ok. destruct (f _) as [b r]. done. Qed.
Lemma gauge_same (f : Conn B C -> Conn B C) :
  (forall n, nats_metrics_ (f n) = nats_metrics_ n /\ connected_ (client (f n)) = connected_ (client n)) ->
  moves Gauge (upd_nats f : M W unit).
Proof.
  intros Hf. apply moves_modify. intros w. unfold keeping, gauge_ok; simpl.
  destruct (Hf (w_nats w)) as [-> ->]. done.
Qed.
(** The two statements that change [connected_] and then the gauge. *)
Lemma gauge_set conn js b f {A} (k : M W A) :
  (forall n, nats_metrics_ (f n) = nats_metrics_ n) -> moves Gauge k ->
  moves Gauge (upd_nats (fun n => set_link (conn n) (js n) b (f n)) ;; metric_connected b ;; k).
Proof.
  intros Hf Hk w Hw. unfold upd_nats, metric_connected. rewrite run_bind, run_modify. cbv beta iota.
  rewrite run_bind, run_modify. cbv beta iota. simpl. apply Hk. unfold gauge_ok.
  rewrite Hf. destruct (nats_metrics_ (w_nats w)) eqn:E; simpl; rewrite ?Hf, ?E; done.
Qed.

#[local] Hint Resolve books_lib books_metric gauge_lib : agamemnon.

Lemma books_connect : moves Books (connect lib : M W bool).
Proof.
  unfold connect. moves; try by apply books_same. apply moves_modify. intros w Hw. simpl. by apply conn_ok_abandon.
Qed.

Lemma gauge_connect : moves Gauge (connect lib : M W bool).
Proof.
  unfold connect. moves_step; [by apply gauge_lib|]. intros s. moves_step; [moves|]. intros u.
  moves_step; [moves|]. intros s'. destruct (negb (is_ok s')).
  - by apply (gauge_set _ _ false id); [|moves].
  - apply (gauge_set (fun _ => true) (fun n => js_ (client (abandon n))) true abandon); [done|]. moves. by apply gauge_same.
Qed.

Lemma books_close : moves Books (close lib : M W unit).
Proof.
  unfold close. moves; try by apply books_same.
  apply moves_modify. intros w Hw. simpl. by apply conn_ok_completed.
Qed.

Lemma gauge_close : moves Gauge (close lib : M W unit).
Proof.
  unfold close. moves_step; [by apply gauge_same|]. intros _. moves_step; [moves|]. intros c.
  moves_step; [moves; by apply gauge_same|]. intros _.
  intros w Hw. assert (H := gauge_set (fun n => conn_ (client n)) (fun n => js_ (client n)) false id (mret tt)).
  specialize (H (fun _ => eq_refl) (moves_ret _ _) w Hw). revert H. unfold upd_nats, metric_connected.
  rewrite !run_bind, !run_modify. cbv beta iota. rewrite !run_bind, !run_modify. done.
Qed.

Lemma books_streams : moves Books (ensure_streams lib getenv : M W unit).
Proof. unfold ensure_streams. moves; by apply books_same. Qed.
Lemma gauge_streams : moves Gauge (ensure_streams lib getenv : M W unit).
Proof. unfold ensure_streams. moves; by apply gauge_same. Qed.

(** [subscribe] on a connected client, given what the library answers. *)
Lemma run_subscribe subject cb w b s :
  connected_ (client (w_nats w)) = true -> conn_ (client (w_nats w)) = true ->
  lib_subscribe lib subject (broker (client (w_nats w))) = (b, s) ->
  let n := w_nats w in
  let ctx := {| cc_cb := cb; cc_metrics := nats_metrics_ n |} in
  subscribe lib subject cb w =
    (set_nats (with_client (with_broker b (client n))
       (if is_ok s
        then set_subscriptions (<[next_context n := ctx]> (contexts n)) (S (next_context n))
               (subscriptions n ++ [(subject, next_context n)]) n
        else set_subscriptions (delete (next_context n) (<[next_context n := ctx]> (contexts n)))
               (S (next_context n)) (subscriptions n) n)) w, inr (is_ok s)).
Proof.
  intros H1 H2 Hs n ctx. unfold subscribe, upd_nats, call_lib. rewrite run_bind, run_gets. cbv beta iota.
  rewrite H1, H2. simpl. rewrite run_bind, run_modify. cbv beta iota. rewrite run_bind. simpl.
  rewrite Hs. simpl. by destruct (is_ok s).
Qed.

Lemma subscribe_refused subject cb w :
  connected_ (client (w_nats w)) && conn_ (client (w_nats w)) = false ->
  subscribe lib subject cb w = (w, inr false).
Proof.
  intros H. unfold subscribe. rewrite run_bind, run_gets. cbv beta iota.
  by destruct (connected_ (client (w_nats w))), (conn_ (client (w_nats w))).
Qed.

Lemma books_subscribe subject cb : moves Books (subscribe lib subject cb : M W bool).
Proof.
  intros w Hw. destruct (connected_ (client (w_nats w)) && conn_ (client (w_nats w))) eqn:E.
  2:{ by rewrite subscribe_refused. }
  apply andb_true_iff in E as [H1 H2].
  destruct (lib_subscribe lib subject (broker (client (w_nats w)))) as [b s] eqn:Es.
  rewrite (run_subscribe _ _ _ _ _ H1 H2 Es). simpl. destruct (is_ok s).
  - by eapply conn_ok_same; [| |by apply conn_ok_added].
  - rewrite delete_insert_id by (by apply Hw).
    apply (conn_ok_same (set_subscriptions (contexts (w_nats w)) (S (next_context (w_nats w)))
      (subscriptions (w_nats w)) (w_nats w))); [done|done|]. by apply conn_ok_refused.
Qed.

Lemma gauge_subscribe subject cb : moves Gauge (subscribe lib subject cb : M W bool).
Proof. unfold subscribe. moves; by apply gauge_same. Qed.

Lemma books_handler run k subject data : (forall cb s d, moves Books (run cb s d)) ->
  moves Books (nats_msg_handler run k subject data : M W unit).
Proof. intros Hr. unfold nats_msg_handler. moves; apply moves_modify; intros w Hw; exact Hw. Qed.
Lemma gauge_handler run k subject data : (forall cb s d, moves Gauge (run cb s d)) ->
  moves Gauge (nats_msg_handler run k subject data : M W unit).
Proof. intros Hr. unfold nats_msg_handler. moves; apply moves_modify; intros w Hw; exact Hw. Qed.
Lemma books_deliver run subject data : (forall cb s d, moves Books (run cb s d)) ->
  moves Books (deliver lib run subject data : M W unit).
Proof. intros Hr. unfold deliver. moves. by apply books_handler. Qed.
Lemma gauge_deliver run subject data : (forall cb s d, moves Gauge (run cb s d)) ->
  moves Gauge (deliver lib run subject data : M W unit).
Proof. intros Hr. unfold deliver. moves. by apply gauge_handler. Qed.

(** What the owner of a client does with it; [run] is the body of its callbacks. *)
Inductive ConnOp :=
| op_connect | op_close | op_ensure_streams
| op_subscribe (subject : string) (cb : C)
| op_message (subject : string) (data : option string).

Definition conn_op (run : C -> string -> string -> M W unit) (o : ConnOp) : M W unit :=
  match o with
  | op_connect => connect lib ;; mret tt
  | op_close => close lib
  | op_ensure_streams => ensure_streams lib getenv
  | op_subscribe s cb => subscribe lib s cb ;; mret tt
  | op_message s d => deliver lib run s d
  end.

Lemma books_op run o : (forall cb s d, moves Books (run cb s d)) -> moves Books (conn_op run o).
Proof.
  intros Hr. destruct o; simpl; moves;
    [apply books_connect|apply books_close|apply books_streams|apply books_subscribe|by apply books_deliver].
Qed.
Lemma gauge_op run o : (forall cb s d, moves Gauge (run cb s d)) -> moves Gauge (conn_op run o).
Proof.
  intros Hr. destruct o; simpl; moves;
    [apply gauge_connect|apply gauge_close|apply gauge_streams|apply gauge_subscribe|by apply gauge_deliver].
Qed.
End conn.

(** ** Subjects *)

Lemma tokens_nonempty s : tokens s <> [].
Proof. destruct s as [|c s]; simpl; [discriminate|]. destruct (decide _); [discriminate|]. by destruct (tokens s). Qed.

Lemma tokens_app x y : tokens (x +:+ String "." y) = tokens x ++ tokens y.
Proof.
  induction x as [|c x IH]; [done|].
  change (tokens (String c (x +:+ String "." y)) = tokens (String c x) ++ tokens y).
  cbn [tokens]. rewrite IH. destruct (decide (c = "."%char)); [done|].
  destruct (tokens x) as [|t ts] eqn:E; [|reflexivity]. by apply tokens_nonempty in E.
Qed.

Lemma tokens_match_length p s : tokens_match p s = true -> ">" ∉ p -> length p = length s.
Proof.
  revert s. induction p as [|x p IH]; intros [|y s] H Hn; simpl in *; try done. f_equal.
  apply IH; [|set_solver]. apply orb_true_iff in H as [[Hx _]%andb_true_iff|[_ H]%andb_true_iff]; [|done].
  apply str_eqb_true in Hx. set_solver.
Qed.

(** ** The books of a client *)

Lemma conn_ops_keep {G B C} (lib : NatsLib B) (getenv : string -> option string)
    (I : World G (Conn B C) -> Prop) run ops :
  (forall o, moves (keeping I) (conn_op lib getenv run o)) ->
  forall w, I w -> I (foldl (fun w o => (conn_op lib getenv run o w).1) w ops).
Proof.
  intros Hk. induction ops as [|o ops IH]; intros w Hw; [done|]. simpl. apply IH. by apply (Hk o w).
Qed.

Definition conn_start {G B C} (e : Env) (g : G) (n : Conn B C) : World G (Conn B C) := boot e g true n.

(** What a callback that leaves the client's connection alone may do (it may publish). *)
Definition untouched {G B C} (w w' : World G (Conn B C)) : Prop :=
  same_books (w_nats w) (w_nats w') /\ lost_connections (w_nats w') = lost_connections (w_nats w) /\
  conn_ (client (w_nats w')) = conn_ (client (w_nats w)) /\
  connected_ (client (w_nats w')) = connected_ (client (w_nats w)) /\
  nats_metrics_ (w_nats w') = nats_metrics_ (w_nats w) /\
  nats_connected_ (w_metrics w') = nats_connected_ (w_metrics w).

(** Every [connect] after the first follows a [close]. *)
Fixpoint one_at_a_time {C} (open : bool) (ops : list (ConnOp (C := C))) : bool :=
  match ops with
  | [] => true
  | op_connect :: ops => negb open && one_at_a_time true ops
  | op_close :: ops => one_at_a_time false ops
  | _ :: ops => one_at_a_time open ops
  end.

Section lost.
Context {G B C : Type} (lib : NatsLib B) (getenv : string -> option string).
Abbreviation W := (World G (Conn B C)).
Implicit Types w : W.

(** The connections that are lost, and whether there is one. *)
Definition same_lost w w' : Prop :=
  orphaned (w_nats w') = orphaned (w_nats w) /\
  lost_connections (w_nats w') = lost_connections (w_nats w) /\
  conn_ (client (w_nats w')) = conn_ (client (w_nats w)).
#[local] Instance same_lost_preorder : PreOrder same_lost.
Proof. split; unfold same_lost; [done|]. intros w1 w2 w3 (?&?&?) (?&?&?). split_and!; congruence. Qed.

Lemma lost_upd (f : Conn B C -> Conn B C) :
  (forall n, orphaned (f n) = orphaned n /\ lost_connections (f n) = lost_connections n /\
        conn_ (client (f n)) = conn_ (client n)) -> moves same_lost (upd_nats f : M W unit).
Proof. intros Hf. apply moves_modify. intros w. apply Hf. Qed.
Lemma lost_lib {A} (f : B -> B * A) : moves same_lost (call_lib f : M W A).
Proof. intros w. unfold call_lib. by destruct (f _). Qed.
Lemma lost_metric b : moves same_lost (metric_connected b : M W unit).
Proof. apply moves_modify. intros w. by destruct (nats_metrics_ (w_nats w)). Qed.
#[local] Hint Resolve lost_lib lost_metric : agamemnon.

Lemma lost_streams : moves same_lost (ensure_streams lib getenv : M W unit).
Proof. unfold ensure_streams. moves. by apply lost_upd. Qed.
Lemma lost_subscribe subject cb : moves same_lost (subscribe lib subject cb : M W bool).
Proof. unfold subscribe. moves; by apply lost_upd. Qed.
Lemma lost_deliver run subject data :
  (forall cb s d, moves untouched (run cb s d)) -> moves same_lost (deliver lib run subject data : M W unit).
Proof.
  intros Hr. unfold deliver, nats_msg_handler. moves; [by apply moves_modify|].
  intros w. destruct (Hr (cc_cb c) subject (default "" data) w) as ((_ & _ & _ & ?) & ? & ? & _). done.
Qed.

Lemma run_close w :
  conn_ok (w_nats w) ->
  let n' := w_nats (close lib w).1 in
  conn_ (client n') = false /\ js_ (client n') = false /\ connected_ (client n') = false /\
  orphaned n' = orphaned (w_nats w) /\ lost_connections n' = lost_connections (w_nats w) /\
  forall k, is_Some (contexts n' !! k) <-> k ∈ (orphaned (w_nats w)).*2.
Proof.
  intros Hok. pose proof (conn_ok_completed (w_nats w) false (connected_ (client (w_nats w))) Hok) as [_ Hk].
  unfold close, upd_nats, metric_connected, call_lib, when, mbind, M_bind, modify, gets. simpl in *.
  destruct (conn_ (client (w_nats w))) eqn:Ec; simpl; destruct (nats_metrics_ (w_nats w)); simpl;
    rewrite ?Ec; split_and!; try done; intros k; rewrite (ctx_live _ Hok); unfold live;
    by rewrite (ctx_closed _ Hok Ec), app_nil_r.
Qed.

(** [connect] with no connection open loses none. *)
Lemma run_connect w :
  conn_ (client (w_nats w)) = false -> subscriptions (w_nats w) = [] ->
  orphaned (w_nats (connect lib w).1) = orphaned (w_nats w) /\
  lost_connections (w_nats (connect lib w).1) = lost_connections (w_nats w).
Proof.
  intros Hc Hs. unfold connect, call_lib, upd_nats, metric_connected, when, mbind, M_bind, modify, gets, mret, M_ret.
  simpl. destruct (lib_connect lib _) as [b1 s1]. simpl.
  destruct (is_ok s1) eqn:E1; simpl; rewrite ?E1; simpl.
  2: destruct (lib_connect_to lib _ _) as [b2 s2]; simpl; destruct (is_ok s2); simpl.
  all: destruct (nats_metrics_ (w_nats w)); simpl; try destruct (lib_jetstream lib _) as [b3 s3]; simpl;
    try destruct (is_ok s3); simpl; rewrite ?Hc, ?Hs, ?app_nil_r; done.
Qed.

Lemma none_lost run (ops : list ConnOp) open w :
  (forall cb s d, moves untouched (run cb s d)) -> (forall o, moves (keeping (fun w => conn_ok (w_nats w))) (conn_op lib getenv run o)) ->
  one_at_a_time open ops = true -> conn_ok (w_nats w) -> (open = false -> conn_ (client (w_nats w)) = false) ->
  orphaned (w_nats w) = [] -> lost_connections (w_nats w) = 0 ->
  let n := w_nats (foldl (fun w o => (conn_op lib getenv run o w).1) w ops) in
  orphaned n = [] /\ lost_connections n = 0.
Proof.
  intros Hr Hb. revert open w. induction ops as [|o ops IH]; intros open w Hone Hok Ho H1 H2; [done|].
  cbn [foldl]. pose proof (Hb o w Hok) as Hok'.
  assert (Hsame : forall m : M W unit, m = conn_op lib getenv run o -> moves same_lost m ->
    one_at_a_time open ops = true ->
    let n := w_nats (foldl (fun w o => (conn_op lib getenv run o w).1) (conn_op lib getenv run o w).1 ops) in
    orphaned n = [] /\ lost_connections n = 0).
  { intros m -> Hm Hone'. destruct (Hm w) as (E1 & E2 & E3). apply (IH open); [done|done| | |]; rewrite ?E1, ?E2, ?E3; done. }
  destruct o; cbn [one_at_a_time] in Hone.
  - apply andb_prop in Hone as [Hop%negb_true_iff Hone]. specialize (Ho Hop).
    destruct (run_connect w Ho (ctx_closed _ Hok Ho)) as [E1 E2].
    apply (IH true); [done|done|done| |]; simpl; rewrite run_bind; destruct (connect lib w) as [w1 [e|b]];
      simpl in *; congruence.
  - destruct (run_close w Hok) as (E1 & _ & _ & E2 & E3 & _).
    apply (IH false); [done|done|done| |]; simpl; congruence.
  - eapply Hsame; [reflexivity| |done]. apply lost_streams.
  - eapply Hsame; [reflexivity| |done]. simpl. moves. apply lost_subscribe.
  - eapply Hsame; [reflexivity| |done]. by apply lost_deliver.
Qed.
End lost.

(** C23: Whatever the owner of a NATS client does (connecting, closing, creating streams,
    subscribing, receiving messages) and whatever the library answers, given callbacks that leave
    the connection itself alone: every callback context alive belongs to exactly one subscription
    the library serves and every such subscription has its context alive, so no callback runs on
    a deleted context; the connectivity gauge shows whether the client is connected; close()
    disconnects, clears both pointers and deletes the context of every subscription of the
    connection it closes, so that those left are the contexts of connections that an earlier
    connect() overwrote; and there is no such connection, so that close() leaves no context,
    if every connect() after the first follows a close(). *)
Theorem connection_books {G B C} (lib : NatsLib B) (getenv : string -> option string)
    (run : C -> string -> string -> M (World G (Conn B C)) unit) (e : Env) (g : G) (url : string) (b : B)
    (st : nat -> Z) (wl : nat -> Z * Z) (ops : list (ConnOp (C := C))) :
  (forall cb s d, moves untouched (run cb s d)) ->
  let w := foldl (fun w o => (conn_op lib getenv run o w).1) (conn_start e g (new_conn url b st wl)) ops in
  let n := w_nats w in
  NoDup (orphaned n ++ subscriptions n).*2 /\
  (forall k, is_Some (contexts n !! k) <-> k ∈ (orphaned n ++ subscriptions n).*2) /\
  (nats_metrics_ n = true -> nats_connected_ (w_metrics w) = if connected_ (client n) then 1%Z else 0%Z) /\
  (let n' := w_nats (close lib w).1 in
   conn_ (client n') = false /\ js_ (client n') = false /\ connected_ (client n') = false /\
   (forall k, is_Some (contexts n' !! k) <-> k ∈ (orphaned n).*2) /\
   (one_at_a_time false ops = true -> lost_connections n = 0 /\ contexts n' = ∅)).
Proof.
  intros Hr w n.
  assert (Hrb : forall cb s d, moves (keeping (fun w => conn_ok (w_nats w))) (run cb s d)).
  { intros cb s d w1 Hw1. destruct (Hr cb s d w1) as (Hs & _ & Hc & _). by eapply conn_ok_same. }
  assert (Hrg : forall cb s d, moves (keeping gauge_ok) (run cb s d)).
  { intros cb s d w1 Hw1. destruct (Hr cb s d w1) as (_ & _ & _ & Hc & Hm & Hn). unfold gauge_ok. rewrite Hc, Hm, Hn. exact Hw1. }
  assert (Hbo : forall o, moves (keeping (fun w => conn_ok (w_nats w))) (conn_op lib getenv run o))
    by (intros o; by apply books_op).
  assert (Hok0 : conn_ok (w_nats (conn_start e g (new_conn (C := C) url b st wl)))).
  { split; [constructor| |done|done]. intros k. simpl. rewrite lookup_empty, is_Some_alt. set_solver. }
  assert (Hbooks : conn_ok n) by by apply (conn_ops_keep lib getenv (fun w => conn_ok (w_nats w))).
  assert (Hgauge : gauge_ok w) by (apply (conn_ops_keep lib getenv gauge_ok); [intros o; by apply gauge_op|done]).
  destruct (run_close lib w Hbooks) as (H1 & H2 & H3 & _ & _ & Hk).
  split_and!; [apply Hbooks..|done|]. intros n'. split_and!; [done..|]. intros Hone.
  destruct (none_lost lib getenv run ops false _ Hr Hbo Hone Hok0) as [E1 E2]; [done..|].
  split; [done|]. apply map_eq. intros k. rewrite lookup_empty. specialize (Hk k).
  assert (Hn0 : orphaned (w_nats w) = []) by exact E1. rewrite Hn0 in Hk. destruct (contexts n' !! k) eqn:E; [|done].
  exfalso. apply (not_elem_of_nil k), Hk. eauto.
Qed.

(** A library that accepts everything and keeps the names of the streams. *)
Definition easy_lib : NatsLib (list string) :=
  {| lib_connect := fun b => (b, NATS_NO_SERVER); lib_connect_to := fun _ b => (b, NATS_OK);
     lib_jetstream := fun b => (b, NATS_OK); lib_add_stream := fun c b => (b ++ [sc_name c], NATS_OK, 0%Z);
     lib_publish := fun _ _ _ b => (b, NATS_OK); lib_subscribe := fun _ b => (b, NATS_OK);
     lib_close := id; lib_matches := subject_matches |}.

#[global] Instance easy_lib_laws : NatsLibLaws easy_lib.
Proof. by split. Qed.

(** The case the condition excludes: a second connect() abandons the first connection, whose
    subscription stays alive, is served, and survives close(). *)
Definition reconnected : World unit (Conn (list string) nat) :=
  foldl (fun w o => (conn_op easy_lib (fun _ => None) (fun _ _ _ => mret tt) o w).1)
    (conn_start env0 tt (new_conn "nats://n1:4222" [] Z.of_nat (fun _ => (0, 0)%Z)))
    [op_connect; op_subscribe "hi.tasks.*.*.completed" 0; op_connect; op_close].

Lemma reconnect_leaks :
  lost_connections (w_nats reconnected) = 1 /\ orphaned (w_nats reconnected) = [("hi.tasks.*.*.completed", 0)] /\
  contexts (w_nats reconnected) !! 0 = Some {| cc_cb := 0; cc_metrics := true |}.
Proof. vm_compute. done. Qed.

Lemma connection_books_witness :
  let ops := [op_connect; op_subscribe "hi.tasks.*.*.completed" 0; op_message "hi.tasks.a.b.completed" None] in
  let w := foldl (fun w o => (conn_op easy_lib (fun _ => None) (fun _ _ _ => mret tt) o w).1)
             (conn_start env0 tt (new_conn "nats://n1:4222" [] Z.of_nat (fun _ => (0, 0)%Z))) ops in
  NoDup (orphaned (w_nats w) ++ subscriptions (w_nats w)).*2 /\
  contexts (w_nats (close easy_lib w).1) = ∅.
Proof.
  destruct (connection_books easy_lib (fun _ => None) (fun _ _ _ => mret tt) env0 tt "nats://n1:4222" []
    Z.of_nat (fun _ => (0, 0)%Z)
    [op_connect; op_subscribe "hi.tasks.*.*.completed" 0; op_message "hi.tasks.a.b.completed" None])
    as (H1 & _ & _ & _ & _ & _ & _ & H2).
  - intros cb s d w. by repeat split.
  - split; [exact H1|]. by apply H2.
Defined.
