(* ===== verification/ServerMain.v ===== *)
(** * ServerMain: the server process

    src/server_main.cpp: reading the environment, wiring the components, subscribing to worker
    events, the reconciliation thread, the signal handler and the way out; and
    src/healthcheck_main.cpp.  The environment, nats.c, what peer discovery found and
    [std::stod] are parameters; [listen] is the serving of requests modelled by [Routes.serve],
    and here a phase of the process. *)

From S2P Require Import Prelude Effects Text Json HmasTypes Metrics World Store Orchestrator Messaging.
From S2P Require Import Guards PeerDiscovery NatsConnection.
From Stdlib Require Import QArith.
Close Scope Q_scope.

(** ** Worker events *)

(** The four callbacks [main] subscribes. *)
Inductive Callback := on_completed | on_started | on_failed | on_epic.

Definition kSubscriptions : list (string * Callback) :=
  [("hi.tasks.*.*.completed", on_completed); ("hi.tasks.*.*.started", on_started);
   ("hi.tasks.*.*.failed", on_failed); ("hi.pipeline.epic.*.registered", on_epic)].

Section server.
Context {G B : Type} (lib : NatsLib B) (getenv : string -> option string).
Context (gh_of : string -> string -> IGitHubClient G).   (* CurlGitHubClient(repo, token) *)
Context (discovered : string).                           (* discover_nats_url() *)
Context (stod : string -> result Q).                     (* std::stod *)
Context `{JT : !JsonText, HO : !HashOrder}.
Abbreviation W := (World G (Conn B Callback)).
Abbreviation M := (M W).

(** The bodies of the lambdas. *)
Definition run_callback (gh : option (IGitHubClient G)) (cb : Callback) (subject data : string) : M unit :=
  let nats := ConnPublisher lib getenv in
  match cb with
  | on_completed => on_myrmidon_completion gh nats data
  | on_started => on_myrmidon_started gh nats data
  | on_failed => on_myrmidon_failed gh nats data
  | on_epic => on_epic_registered gh nats data ;; mret tt
  end.

(** A message from the broker. *)
Definition on_message (gh : option (IGitHubClient G)) (subject : string) (data : option string) : M unit :=
  deliver lib (run_callback gh) subject data.

(** ** Settings *)

Definition gh_client : option (IGitHubClient G) :=
  let repo := default "HomericIntelligence/Agamemnon" (getenv "GITHUB_REPO") in
  match getenv "GITHUB_TOKEN" with
  | Some token => if str_empty token then None else Some (gh_of repo token)
  | None => None
  end.

(** [env ? std::stoi(env) : def]. *)
Definition stoi_env (name : string) (d : Z) : result Z :=
  match getenv name with Some v => stoi v | None => inr d end.
Definition stod_env (name : string) (d : Q) : result Q :=
  match getenv name with Some v => stod v | None => inr d end.

Definition server_nats_url : string :=
  match getenv "NATS_URL" with
  | Some url => url
  | None => if str_empty discovered then "nats://localhost:4222" else discovered
  end.

Definition server_port : Z :=
  match getenv "PORT" with
  | None => 8080
  | Some p => match Port.parse_port (Some p) with inl port => port | inr _ => 8080 end
  end.

(** What [main] has set up when it calls [listen]. *)
Record Running := {
  rn_gh : option (IGitHubClient G);
  rn_reconcile : option Z;       (* the interval, when the reconciliation thread was started *)
  rn_limiter : RateLimit.RateLimiter;
  rn_api_key : string;
  rn_read_timeout : Z;
  rn_write_timeout : Z;
  rn_payload_max : Z;            (* size_t *)
  rn_port : Z;
}.

(** [register_routes] sets the payload limit of the server. *)
Definition kMaxBodyBytes : Z := 1048576.
Definition register_payload_max (configured : Z) : Z := kMaxBodyBytes.

Definition set_url (url : string) (n : Conn B Callback) : Conn B Callback :=
  {| client := client n; url_ := url; nats_metrics_ := nats_metrics_ n; contexts := contexts n;
     next_context := next_context n; subscriptions := subscriptions n; orphaned := orphaned n;
     lost_connections := lost_connections n; stream_warnings := stream_warnings n |}.

Definition go_online : M unit :=
  ok ← connect lib;
  when ok
    (ensure_streams lib getenv ;;
     for_each kSubscriptions (fun s => subscribe lib s.1 s.2 ;; mret tt)).

(** [main] up to [listen]: the exit code when it gives up, or the running server.  An exception
    out of it is uncaught and ends the process. *)
Definition start_up : M (Z + Running) :=
  reconcile_sec ← of_result (stoi_env "GITHUB_RECONCILE_INTERVAL_SEC" 300);
  let reconcile := match gh_client with
                   | Some _ => if (0 <? reconcile_sec)%Z then Some reconcile_sec else None
                   | None => None
                   end in
  upd_nats (set_url server_nats_url) ;;
  go_online ;;
  rps ← of_result (stod_env "RATE_LIMIT_RPS" 60);
  burst ← of_result (stod_env "RATE_LIMIT_BURST" 120);
  match getenv "AGAMEMNON_API_KEY" with
  | None | Some "" => close lib ;; mret (inl 1%Z)          (* ~NatsClient *)
  | Some key =>
      read ← of_result (stoi_env "SERVER_READ_TIMEOUT_SEC" 10);
      write ← of_result (stoi_env "SERVER_WRITE_TIMEOUT_SEC" 10);
      mb ← of_result (stoi_env "SERVER_REQUEST_SIZE_LIMIT_MB" 4);
      mret (inr {| rn_gh := gh_client; rn_reconcile := reconcile;
                   rn_limiter := RateLimit.new_limiter rps burst; rn_api_key := key;
                   rn_read_timeout := read; rn_write_timeout := write;
                   rn_payload_max := register_payload_max ((mb mod 2 ^ 64) * 1024 * 1024 mod 2 ^ 64)%Z;
                   rn_port := server_port |})
  end.

(** The thread pool, made by the server inside [listen]. *)
Definition thread_count : result Z := stoi_env "SERVER_THREAD_COUNT" 8.

(** The end of [main]. *)
Definition shut_down : M Z := close lib ;; mret 0%Z.
End server.

(** One round of the reconciliation thread; what it throws is logged. *)
Definition reconcile_round {G N} `{!JsonText} (gh : option (IGitHubClient G)) : M (World G N) unit :=
  try_catch (reconcile_from_github gh ;; mret tt) (fun _ => mret tt).

Arguments Running : clear implicits.

(** ** The process while it serves *)

(** The reconciliation thread: at the top of its loop, reconciling, or in the [i]-th second of
    its sleep. *)
Inductive ReconcilerPc := no_thread | loop_top | reconciling | sleeping (i : Z) | thread_done.

(** [main]: before the pointers are set, with the handler installed but not in [listen] yet, in
    [listen], after it, in [nats.close()], in the destructors, and returned. *)
Inductive MainPc := wiring | armed | listening | leaving | closing | joining | exited (code : Z).

Record Process := {
  main_pc : MainPc;
  pointers : bool;               (* g_shutdown_flag, g_server and g_reconciler are set *)
  shutdown_requested : bool;
  server_stopped : bool;         (* listen() is to return *)
  stop_requested : bool;         (* the stop token of the thread *)
  reconciler : ReconcilerPc;
  rounds : nat;                  (* calls of reconcile_from_github so far *)
  nats_closed : bool;
}.

Definition set_main (pc : MainPc) (p : Process) : Process :=
  {| main_pc := pc; pointers := pointers p; shutdown_requested := shutdown_requested p;
     server_stopped := server_stopped p; stop_requested := stop_requested p; reconciler := reconciler p;
     rounds := rounds p; nats_closed := nats_closed p |}.
Definition set_reconciler (pc : ReconcilerPc) (k : nat) (p : Process) : Process :=
  {| main_pc := main_pc p; pointers := pointers p; shutdown_requested := shutdown_requested p;
     server_stopped := server_stopped p; stop_requested := stop_requested p; reconciler := pc;
     rounds := k + rounds p; nats_closed := nats_closed p |}.
Definition set_pointers (b : bool) (p : Process) : Process :=
  {| main_pc := main_pc p; pointers := b; shutdown_requested := shutdown_requested p;
     server_stopped := server_stopped p; stop_requested := stop_requested p; reconciler := reconciler p;
     rounds := rounds p; nats_closed := nats_closed p |}.

Section process.
(** The interval of the thread, and whether httplib remembers a [stop()] that comes before
    [listen()]. *)
Context (reconcile_sec : Z) (early_stop : bool).

(** [g_server->stop()]. *)
Definition stops (p : Process) : bool :=
  match main_pc p with listening => true | _ => early_stop end.

Definition shutdown_handler (p : Process) : Process :=
  if pointers p then
    {| main_pc := main_pc p; pointers := true; shutdown_requested := true;
       server_stopped := server_stopped p || stops p; stop_requested := true;
       reconciler := reconciler p; rounds := rounds p; nats_closed := nats_closed p |}
  else p.

(** The thread: [while (!st.stop_requested()) { reconcile; for (i < reconcile_sec && !stop) sleep; }]. *)
Definition reconciler_step (p : Process) : option Process :=
  match reconciler p with
  | no_thread | thread_done => None
  | loop_top =>
      Some (if stop_requested p then set_reconciler thread_done 0 p else set_reconciler reconciling 1 p)
  | reconciling => Some (set_reconciler (sleeping 0) 0 p)
  | sleeping i =>
      Some (if (i <? reconcile_sec)%Z && negb (stop_requested p)
            then set_reconciler (sleeping (i + 1)) 0 p else set_reconciler loop_top 0 p)
  end.

Definition stop_server (p : Process) : Process :=
  {| main_pc := main_pc p; pointers := pointers p; shutdown_requested := shutdown_requested p;
     server_stopped := true; stop_requested := stop_requested p; reconciler := reconciler p;
     rounds := rounds p; nats_closed := nats_closed p |}.
Definition request_stop (p : Process) : Process :=
  {| main_pc := joining; pointers := pointers p; shutdown_requested := shutdown_requested p;
     server_stopped := server_stopped p; stop_requested := true; reconciler := reconciler p;
     rounds := rounds p; nats_closed := true |}.

Definition joined (p : Process) : bool :=
  match reconciler p with no_thread | thread_done => true | _ => false end.

(** [main] from the wiring of the signals on; [~jthread] requests the stop and joins. *)
Definition main_step (p : Process) : option Process :=
  match main_pc p with
  | wiring => Some (set_main armed (set_pointers true p))
  | armed => Some (set_main listening p)
  | listening => if server_stopped p then Some (set_main leaving p) else None
  | leaving => Some (set_main closing (set_pointers false p))
  | closing => Some (request_stop p)
  | joining => if joined p then Some (set_main (exited 0) p) else None
  | exited _ => None
  end.

(** What can happen next: a signal, a failure of [listen] to bind, a step of a thread. *)
Inductive process_step : Process -> Process -> Prop :=
| signal_arrives p : process_step p (shutdown_handler p)
| listen_fails p : main_pc p = listening -> process_step p (stop_server p)
| main_moves p p' : main_step p = Some p' -> process_step p p'
| reconciler_moves p p' : reconciler_step p = Some p' -> process_step p p'.

(** Steps of the program itself. *)
Inductive program_step : Process -> Process -> Prop :=
| program_main p p' : main_step p = Some p' -> program_step p p'
| program_reconciler p p' : reconciler_step p = Some p' -> program_step p p'.
End process.

(** The process when [start_up] has returned a running server. *)
Definition process_start (reconcile : option Z) : Process :=
  {| main_pc := wiring; pointers := false; shutdown_requested := false; server_stopped := false;
     stop_requested := false; reconciler := match reconcile with Some _ => loop_top | None => no_thread end;
     rounds := 0; nats_closed := false |}.

(** ** The health check *)

(** src/healthcheck_main.cpp: [answer] is what [GET /v1/health] on localhost gives for a port,
    nothing when the connection fails. *)
Definition healthcheck (getenv : string -> option string) (answer : Z -> option Z) : Z :=
  let port := match getenv "PORT" with Some p => atoi p | None => 8080%Z end in
  match answer port with
  | Some status => if (status =? 200)%Z then 0%Z else 1%Z
  | None => 1%Z
  end.
