(* ===== verification/ServerTheorems.v ===== *)
(** * ServerTheorems: the server process

    Theorems about [ServerMain]: what start-up sets up and when it refuses, which events reach
    which handler of the orchestrator, which subjects the server publishes on, and how the
    process ends. *)

From S2P Require Import Prelude Effects Text Json JsonCodec HmasTypes Metrics World Store Orchestrator Messaging.
From S2P Require Import StateMachine HmasFacts OrchestratorFacts Guards PeerDiscovery NatsConnection NatsTheorems ServerMain.
From Stdlib Require Import QArith.
Close Scope Q_scope.

(** ** Events *)

(** The handler of a subject: [hi.tasks.<team>.<task>.<event>] and
    [hi.pipeline.epic.<key>.registered]. *)
Definition event_of (subject : string) : option Callback :=
  match tokens subject with
  | [a; b; c; _; e] =>
      if str_eqb "hi" a && str_eqb "tasks" b then
        if str_eqb "completed" e then Some on_completed
        else if str_eqb "started" e then Some on_started
        else if str_eqb "failed" e then Some on_failed else None
      else if str_eqb "hi" a && str_eqb "pipeline" b && str_eqb "epic" c && str_eqb "registered" e
      then Some on_epic else None
  | _ => None
  end.

(** Evaluate comparisons of literals. *)
Ltac literal_tests :=
  repeat match goal with
    | |- context [str_eqb ?x ?y] =>
        let r := eval vm_compute in (str_eqb x y) in
        match r with true => idtac | false => idtac end; change (str_eqb x y) with r
    end; cbn [orb andb negb].

(** A five-token pattern takes five tokens that agree with it outside the stars. *)
Lemma match_events t :
  tokens_match ["hi"; "tasks"; "*"; "*"; "completed"] t
  = match t with [a; b; _; _; e] => str_eqb "hi" a && (str_eqb "tasks" b && str_eqb "completed" e) | _ => false end
  /\ tokens_match ["hi"; "tasks"; "*"; "*"; "started"] t
  = match t with [a; b; _; _; e] => str_eqb "hi" a && (str_eqb "tasks" b && str_eqb "started" e) | _ => false end
  /\ tokens_match ["hi"; "tasks"; "*"; "*"; "failed"] t
  = match t with [a; b; _; _; e] => str_eqb "hi" a && (str_eqb "tasks" b && str_eqb "failed" e) | _ => false end
  /\ tokens_match ["hi"; "pipeline"; "epic"; "*"; "registered"] t
  = match t with [a; b; c; _; e] =>
      str_eqb "hi" a && (str_eqb "pipeline" b && (str_eqb "epic" c && str_eqb "registered" e)) | _ => false end.
Proof.
  destruct t as [|a [|b [|c [|d [|e [|f r]]]]]]; cbn [tokens_match]; literal_tests;
    rewrite ?andb_false_r, ?andb_true_r; done.
Qed.

Section server.
Context {G B : Type} (lib : NatsLib B) (getenv : string -> option string).
Context `{JT : !JsonText, HO : !HashOrder}.
Abbreviation W := (World G (Conn B Callback)).
Implicit Types w : W.

(** The subscriptions of [main], with their contexts. *)
Definition subscribed (n : Conn B Callback) : Prop :=
  orphaned n ++ subscriptions n = imap (fun i s => (s.1, i)) kSubscriptions /\
  (forall i s, kSubscriptions !! i = Some s ->
     contexts n !! i = Some {| cc_cb := s.2; cc_metrics := true |}).

Definition received (subject : string) w : W := set_metrics (record_nats_receive subject (w_metrics w)) w.

(** The subscription of [main] that takes a subject. *)
Lemma taken_by subject :
  List.filter (fun s => subject_matches s.1 subject) (imap (fun i s => (s.1, i)) kSubscriptions)
  = match event_of subject with
    | Some on_completed => [("hi.tasks.*.*.completed", 0)]
    | Some on_started => [("hi.tasks.*.*.started", 1)]
    | Some on_failed => [("hi.tasks.*.*.failed", 2)]
    | Some on_epic => [("hi.pipeline.epic.*.registered", 3)]
    | None => []
    end.
Proof.
  unfold event_of, subject_matches.
  change (imap (fun i s => (s.1, i)) kSubscriptions) with
    [("hi.tasks.*.*.completed", 0); ("hi.tasks.*.*.started", 1); ("hi.tasks.*.*.failed", 2);
     ("hi.pipeline.epic.*.registered", 3)].
  cbn [List.filter fst].
  change (tokens "hi.tasks.*.*.completed") with ["hi"; "tasks"; "*"; "*"; "completed"].
  change (tokens "hi.tasks.*.*.started") with ["hi"; "tasks"; "*"; "*"; "started"].
  change (tokens "hi.tasks.*.*.failed") with ["hi"; "tasks"; "*"; "*"; "failed"].
  change (tokens "hi.pipeline.epic.*.registered") with ["hi"; "pipeline"; "epic"; "*"; "registered"].
  destruct (match_events (tokens subject)) as (-> & -> & -> & ->).
  destruct (tokens subject) as [|a [|b [|c [|d [|e [|f r]]]]]]; try done.
  destruct (str_eqb "hi" a); [|done]. cbn [andb].
  destruct (str_eqb "tasks" b) eqn:Eb; cbn [andb].
  - apply str_eqb_true in Eb as <-. literal_tests.
    destruct (str_eqb "completed" e) eqn:E1; [apply str_eqb_true in E1 as <-; literal_tests; done|].
    destruct (str_eqb "started" e) eqn:E2; [apply str_eqb_true in E2 as <-; literal_tests; done|].
    by destruct (str_eqb "failed" e).
  - by destruct (str_eqb "pipeline" b), (str_eqb "epic" c), (str_eqb "registered" e).
Qed.

Lemma run_handler_subscribed gh i s subject data w :
  subscribed (w_nats w) -> kSubscriptions !! i = Some s ->
  nats_msg_handler (run_callback lib getenv gh) i subject data w
  = run_callback lib getenv gh s.2 subject (default "" data) (received subject w).
Proof.
  intros [_ Hc] Hi. unfold nats_msg_handler. rewrite run_bind, run_gets. cbv beta iota.
  rewrite (Hc i s Hi). simpl. by rewrite run_bind, run_modify.
Qed.

Lemma run_on_message `{!NatsLibLaws lib} gh subject data w : subscribed (w_nats w) ->
  on_message lib getenv gh subject data w =
  match event_of subject with
  | Some cb => run_callback lib getenv gh cb subject (default "" data) (received subject w)
  | None => (w, inr tt)
  end.
Proof.
  intros Hs. unfold on_message, deliver. rewrite run_bind, run_gets. cbv beta iota.
  rewrite (proj1 Hs).
  rewrite (List.filter_ext (fun s => lib_matches lib s.1 subject) (fun s => subject_matches s.1 subject))
    by (intros; apply lib_matches_subject).
  rewrite taken_by. destruct (event_of subject) as [[]|]; cbn [for_each snd]; [..|done]; rewrite run_bind.
  - rewrite (run_handler_subscribed gh 0 _ subject data w Hs eq_refl).
    by destruct (run_callback _ _ _ _ _ _ _) as [w1 [e|[]]].
  - rewrite (run_handler_subscribed gh 1 _ subject data w Hs eq_refl).
    by destruct (run_callback _ _ _ _ _ _ _) as [w1 [e|[]]].
  - rewrite (run_handler_subscribed gh 2 _ subject data w Hs eq_refl).
    by destruct (run_callback _ _ _ _ _ _ _) as [w1 [e|[]]].
  - rewrite (run_handler_subscribed gh 3 _ subject data w Hs eq_refl).
    by destruct (run_callback _ _ _ _ _ _ _) as [w1 [e|[]]].
Qed.

(** ** Going online *)

(** The connection's pointers, metrics and books. *)
Definition same_link w w' : Prop :=
  conn_ (client (w_nats w')) = conn_ (client (w_nats w)) /\
  connected_ (client (w_nats w')) = connected_ (client (w_nats w)) /\
  nats_metrics_ (w_nats w') = nats_metrics_ (w_nats w) /\ same_books (w_nats w) (w_nats w').

#[local] Instance same_link_preorder : PreOrder same_link.
Proof.
  split; [by intros w; repeat split|]. intros w1 w2 w3 (? & ? & ? & ? & ? & ? & ?) (? & ? & ? & ? & ? & ? & ?).
  repeat split; congruence.
Qed.

Lemma link_lib {A} (f : B -> B * A) : moves same_link (call_lib f : M W A).
Proof. intros w. unfold call_lib. destruct (f _) as [b r]. by repeat split. Qed.
Lemma link_streams : moves same_link (ensure_streams lib getenv : M W unit).
Proof. unfold ensure_streams. moves; [by apply link_lib|]. apply moves_modify. by repeat split. Qed.

Lemma run_connected w w' : connect lib w = (w', inr true) ->
  conn_ (client (w_nats w')) = true /\ connected_ (client (w_nats w')) = true /\
  nats_metrics_ (w_nats w') = nats_metrics_ (w_nats w) /\ contexts (w_nats w') = contexts (w_nats w) /\
  next_context (w_nats w') = next_context (w_nats w) /\ subscriptions (w_nats w') = [] /\
  orphaned (w_nats w') = orphaned (w_nats w) ++ subscriptions (w_nats w).
Proof.
  unfold connect, call_lib, upd_nats, metric_connected, when, mbind, M_bind, modify, gets, mret, M_ret. simpl.
  destruct (lib_connect lib _) as [b1 s1]. simpl.
  destruct (is_ok s1) eqn:E1; simpl; [|destruct (lib_connect_to lib _ _) as [b2 s2]; simpl;
    destruct (is_ok s2) eqn:E2; simpl; [|done]]; rewrite ?E1; simpl;
    destruct (nats_metrics_ (w_nats w)) eqn:Em; simpl; rewrite ?Em;
    destruct (lib_jetstream lib _) as [b3 s3]; simpl; destruct (is_ok s3); intros [= <-]; by repeat split.
Qed.

Lemma run_subscribe_ok subject cb w : (forall s b, is_ok (lib_subscribe lib s b).2 = true) ->
  connected_ (client (w_nats w)) = true -> conn_ (client (w_nats w)) = true ->
  exists w', subscribe lib subject cb w = (w', inr true) /\
    conn_ (client (w_nats w')) = true /\ connected_ (client (w_nats w')) = true /\
    nats_metrics_ (w_nats w') = nats_metrics_ (w_nats w) /\
    next_context (w_nats w') = S (next_context (w_nats w)) /\ orphaned (w_nats w') = orphaned (w_nats w) /\
    subscriptions (w_nats w') = subscriptions (w_nats w) ++ [(subject, next_context (w_nats w))] /\
    contexts (w_nats w') = <[next_context (w_nats w) := {| cc_cb := cb; cc_metrics := nats_metrics_ (w_nats w) |}]>
                             (contexts (w_nats w)).
Proof.
  intros Hok H1 H2. destruct (lib_subscribe lib subject (broker (client (w_nats w)))) as [b s] eqn:Es.
  pose proof (Hok subject (broker (client (w_nats w)))) as Hs. rewrite Es in Hs. simpl in Hs.
  rewrite (run_subscribe lib subject cb w b s H1 H2 Es). rewrite Hs. eexists. split; [done|]. by repeat split.
Qed.

(** The loop of subscriptions, from any number of contexts. *)
Lemma run_subscriptions l : (forall s b, is_ok (lib_subscribe lib s b).2 = true) -> forall w,
  connected_ (client (w_nats w)) = true -> conn_ (client (w_nats w)) = true ->
  nats_metrics_ (w_nats w) = true ->
  exists w', for_each l (fun s => subscribe lib s.1 s.2 ;; mret tt) w = (w', inr tt) /\
    connected_ (client (w_nats w')) = true /\ orphaned (w_nats w') = orphaned (w_nats w) /\
    subscriptions (w_nats w') = subscriptions (w_nats w) ++ imap (fun i s => (s.1, i + next_context (w_nats w))) l /\
    (forall i s, l !! i = Some s ->
       contexts (w_nats w') !! (i + next_context (w_nats w)) = Some {| cc_cb := s.2; cc_metrics := true |}) /\
    (forall k, k < next_context (w_nats w) -> contexts (w_nats w') !! k = contexts (w_nats w) !! k).
Proof.
  intros Hok. induction l as [|s l IH]; intros w H1 H2 Hm.
  - exists w. split; [done|]. split; [done|]. split; [done|]. split; [by rewrite app_nil_r|]. done.
  - destruct (run_subscribe_ok s.1 s.2 w Hok H1 H2) as (w1 & E1 & Hc & Hd & Hm1 & Hn & Ho & Hs & Hx).
    rewrite Hm in *. destruct (IH w1 Hd Hc Hm1) as (w' & E' & Hd' & Ho' & Hs' & Hx' & Hk').
    exists w'. simpl. rewrite run_bind, run_bind, E1. cbv beta iota. rewrite run_ret. cbv beta iota.
    split; [done|]. split; [done|]. split; [congruence|]. split.
    + rewrite Hs', Hs, <- app_assoc. simpl. do 2 f_equal. apply imap_ext. intros i x _. simpl. f_equal. lia.
    + split.
      * intros [|i] x Hi; simpl in Hi.
        -- injection Hi as <-. simpl. rewrite Hk' by lia. rewrite Hx. apply lookup_insert_eq.
        -- simpl. rewrite <- (Hx' i x Hi). f_equal. lia.
      * intros k Hk. rewrite Hk' by lia. rewrite Hx. apply lookup_insert_ne. lia.
Qed.

Lemma online_subscribed e g url b st wl w :
  (forall s b, is_ok (lib_subscribe lib s b).2 = true) ->
  go_online lib getenv (boot e g true (new_conn url b st wl)) = (w, inr tt) ->
  connected_ (client (w_nats w)) = true -> subscribed (w_nats w).
Proof.
  intros Hok. unfold go_online. rewrite run_bind.
  destruct (connect lib _) as [w1 [x|ok]] eqn:E1; [done|]. destruct ok.
  2:{ simpl. intros [= <-]. revert E1. intros E1 Hd. exfalso. revert Hd.
      assert (Hf : connected_ (client (w_nats w1)) = false).
      { revert E1. unfold connect, call_lib, upd_nats, metric_connected, when, mbind, M_bind, modify, gets, mret, M_ret.
        simpl. destruct (lib_connect lib _) as [b1 s1]. simpl. destruct (is_ok s1) eqn:Es; simpl.
        - rewrite Es. simpl. destruct (lib_jetstream lib _) as [b3 s3]; simpl. by destruct (is_ok s3).
        - destruct (lib_connect_to lib _ _) as [b2 s2]; simpl. destruct (is_ok s2) eqn:Es2; simpl.
          + destruct (lib_jetstream lib _) as [b3 s3]; simpl. by destruct (is_ok s3).
          + by intros [= <-]. }
      by rewrite Hf. }
  apply run_connected in E1 as (Hc & Hd & Hm & Hb1 & Hb2 & Hb3 & Hb4). rewrite run_when_true, run_bind.
  pose proof (link_streams w1) as (Hc2 & Hd2 & Hm2 & Hx1 & Hx2 & Hx3 & Hx4).
  destruct (ensure_streams lib getenv w1) as [w2 [x|[]]] eqn:E2; [done|]. simpl in Hc2, Hd2, Hm2, Hx1, Hx2, Hx3, Hx4, Hm, Hb2, Hb3, Hb4. cbv beta iota.
  destruct (run_subscriptions kSubscriptions Hok w2) as (w' & E' & Hd' & Ho' & Hs' & Hx' & _); [congruence..|].
  rewrite E'. intros [= <-] _. rewrite Hx2, Hb2 in *. rewrite Hx3, Hb3 in Hs'. split.
  - rewrite Hs', Ho', Hx4, Hb4. simpl. done.
  - intros i s Hi. rewrite <- (Hx' i s Hi). f_equal. simpl. lia.
Qed.
End server.

(** ** Start-up *)

(** A computation that never throws. *)
Definition always {S A} (m : M S A) : Prop := forall s, returns m s.

Lemma always_bind {S A B} (m : M S A) (f : A -> M S B) : always m -> (forall a, always (f a)) -> always (m ≫= f).
Proof. intros Hm Hf s. apply returns_bind; [apply Hm|]. intros s' a _. apply Hf. Qed.
Lemma always_ret {S A} (a : A) : always (mret (M := M S) a).
Proof. intros s. by eexists _, _. Qed.
Lemma always_gets {S A} (f : S -> A) : always (gets f).
Proof. intros s. by eexists _, _. Qed.
Lemma always_modify {S} (f : S -> S) : always (modify f).
Proof. intros s. by eexists _, _. Qed.
Lemma always_for_each {S A} (l : list A) (body : A -> M S unit) : (forall x, always (body x)) -> always (for_each l body).
Proof. intros Hb. induction l; simpl; [apply always_ret|]. by apply always_bind. Qed.
Lemma always_when {S} b (m : M S unit) : always m -> always (when b m).
Proof. intros Hm. destruct b; [done|apply always_ret]. Qed.
Lemma always_if {S A} (b : bool) (m m' : M S A) : always m -> always m' -> always (if b then m else m').
Proof. by destruct b. Qed.

Ltac always_step :=
  lazymatch goal with
  | |- always (mbind _ _) => apply always_bind; [|intros ?]
  | |- always (mret _) => apply always_ret
  | |- always (gets _) => apply always_gets
  | |- always (modify _) => apply always_modify
  | |- always (when _ _) => apply always_when
  | |- always (for_each _ _) => apply always_for_each; intros ?
  | |- always (if _ then _ else _) => apply always_if
  | |- always (let _ := _ in _) => cbv zeta
  end.

Section startup.
Context {G B : Type} (lib : NatsLib B) (getenv : string -> option string).
Context (gh_of : string -> string -> IGitHubClient G) (discovered : string) (stod : string -> result Q).
Abbreviation W := (World G (Conn B Callback)).

Lemma always_lib {A} (f : B -> B * A) : always (call_lib f : M W A).
Proof. intros w. unfold call_lib, returns. destruct (f _) as [b r]. by eexists _, _. Qed.
Lemma always_close : always (close lib : M W unit).
Proof. unfold close, upd_nats, metric_connected. repeat always_step; apply always_lib. Qed.

Lemma server_port_bounds : (1 <= server_port getenv <= 65535)%Z.
Proof.
  unfold server_port. destruct (getenv "PORT") as [p|]; [|lia].
  destruct (Port.parse_port (Some p)) as [port|e] eqn:E; [|lia].
  revert E. unfold Port.parse_port. destruct p as [|c p]; [done|].
  destruct (Port.from_chars_all _) as [v|]; [|done].
  destruct ((v <? 1)%Z || (65535 <? v)%Z) eqn:Eb; [done|]. intros [= <-].
  apply orb_false_iff in Eb as [?%Z.ltb_ge ?%Z.ltb_ge]. lia.
Qed.

(** What a running server was configured with. *)
Record configured (rn : Running G) : Prop := {
  cf_key : getenv "AGAMEMNON_API_KEY" = Some (rn_api_key rn) /\ rn_api_key rn <> "";
  cf_port : (1 <= rn_port rn <= 65535)%Z /\ rn_port rn = server_port getenv;
  cf_gh : rn_gh rn = gh_client getenv gh_of;
  cf_read : stoi_env getenv "SERVER_READ_TIMEOUT_SEC" 10 = inr (rn_read_timeout rn);
  cf_write : stoi_env getenv "SERVER_WRITE_TIMEOUT_SEC" 10 = inr (rn_write_timeout rn);
  cf_limiter : exists rps burst, stod_env getenv stod "RATE_LIMIT_RPS" 60 = inr rps /\
    stod_env getenv stod "RATE_LIMIT_BURST" 120 = inr burst /\ rn_limiter rn = RateLimit.new_limiter rps burst;
  cf_reconcile : exists sec, stoi_env getenv "GITHUB_RECONCILE_INTERVAL_SEC" 300 = inr sec /\
    rn_reconcile rn = if decide (is_Some (rn_gh rn) /\ (0 < sec)%Z) then Some sec else None;
}.

Lemma close_disconnects (w : W) : connected_ (client (w_nats (close lib w).1)) = false.
Proof.
  unfold close, upd_nats, metric_connected, call_lib, when, mbind, M_bind, modify, gets. simpl.
  by destruct (conn_ (client (w_nats w))); simpl; destruct (nats_metrics_ (w_nats w)).
Qed.

Lemma startup_inv w w' r :
  start_up lib getenv gh_of discovered stod w = (w', inr r) ->
  match r with
  | inl code => code = 1%Z /\ connected_ (client (w_nats w')) = false /\
      (getenv "AGAMEMNON_API_KEY" = None \/ getenv "AGAMEMNON_API_KEY" = Some "")
  | inr rn => configured rn /\ rn_payload_max rn = 1048576%Z
  end.
Proof.
  unfold start_up. intros H. rewrite run_bind, run_of_result in H.
  destruct (stoi_env getenv "GITHUB_RECONCILE_INTERVAL_SEC" 300) as [e|sec] eqn:Esec; [done|]. cbv beta iota zeta in H.
  unfold upd_nats in H. rewrite run_bind, run_modify in H. cbv beta iota in H. rewrite run_bind in H.
  destruct (go_online lib getenv _) as [w1 [e|[]]]; [done|]. cbv beta iota in H.
  rewrite run_bind, run_of_result in H. destruct (stod_env getenv stod "RATE_LIMIT_RPS" 60) as [e|rps] eqn:Erps; [done|].
  cbv beta iota in H. rewrite run_bind, run_of_result in H.
  destruct (stod_env getenv stod "RATE_LIMIT_BURST" 120) as [e|burst] eqn:Eb; [done|]. cbv beta iota in H.
  assert (Hrefuse : (close lib ;; mret (inl 1%Z)) w1 = (w', inr r) -> r = inl 1%Z /\ connected_ (client (w_nats w')) = false).
  { rewrite run_bind. destruct (always_close w1) as (w2 & [] & Hc). rewrite Hc. intros [= <- <-].
    split; [done|]. pose proof (close_disconnects w1) as Hd. by rewrite Hc in Hd. }
  destruct (getenv "AGAMEMNON_API_KEY") as [[|c key]|] eqn:Ek.
  - apply Hrefuse in H as [-> ?]. auto.
  - clear Hrefuse. rewrite run_bind, run_of_result in H.
    destruct (stoi_env getenv "SERVER_READ_TIMEOUT_SEC" 10) as [e|read] eqn:Er; [done|]. cbv beta iota in H.
    rewrite run_bind, run_of_result in H.
    destruct (stoi_env getenv "SERVER_WRITE_TIMEOUT_SEC" 10) as [e|write] eqn:Ew; [done|]. cbv beta iota in H.
    rewrite run_bind, run_of_result in H.
    destruct (stoi_env getenv "SERVER_REQUEST_SIZE_LIMIT_MB" 4) as [e|mb] eqn:Em; [done|]. cbv beta iota in H.
    injection H as <- <-. split; [|done]. split; simpl; try done.
    + pose proof server_port_bounds. done.
    + eauto.
    + exists sec. split; [done|]. destruct (gh_client getenv gh_of) as [gh|].
      * destruct (decide _) as [[_ Hs]|Hn]; destruct (0 <? sec)%Z eqn:E0; try done;
          [apply Z.ltb_ge in E0; lia|]. apply Z.ltb_lt in E0. destruct Hn. eauto.
      * destruct (decide _) as [[[? ?] _]|]; done.
  - apply Hrefuse in H as [-> ?]. auto.
Qed.

End startup.

(** ** The life of the process *)

Section process.
Context (reconcile_sec : Z) (early_stop : bool).

Inductive reachable (start : Process) : Process -> Prop :=
| reachable_start : reachable start start
| reachable_step p p' : reachable start p -> process_step reconcile_sec early_stop p p' -> reachable start p'.

(** The pointers are set exactly while the server may be stopped. *)
Definition pointers_ok (p : Process) : Prop :=
  pointers p = match main_pc p with armed | listening | leaving => true | _ => false end /\
  (match main_pc p with joining | exited _ => stop_requested p = true /\ nats_closed p = true | _ => True end) /\
  (match main_pc p with exited c => c = 0%Z /\ joined p = true | _ => True end).

Lemma pointers_ok_step p p' : pointers_ok p -> process_step reconcile_sec early_stop p p' -> pointers_ok p'.
Proof.
  intros (Hp & Hs & He) Hstep. destruct Hstep as [p|p Hm|p p' Hm|p p' Hm].
  - unfold shutdown_handler, pointers_ok in *. destruct (pointers p) eqn:E; [|by rewrite E].
    simpl. by destruct (main_pc p).
  - unfold pointers_ok in *. simpl. by rewrite Hm in *.
  - unfold main_step in Hm. destruct (main_pc p) eqn:E; try done.
    + injection Hm as <-. done.
    + injection Hm as <-. by repeat split.
    + destruct (server_stopped p); [|done]. injection Hm as <-. by repeat split.
    + injection Hm as <-. by repeat split.
    + injection Hm as <-. by repeat split.
    + destruct (joined p) eqn:Ej; [|done]. injection Hm as <-. unfold pointers_ok; simpl. done.
  - assert (Hj : joined p = false /\ exists pc k, p' = set_reconciler pc k p).
    { unfold reconciler_step in Hm. unfold joined. destruct (reconciler p) eqn:E; try done; injection Hm as <-;
        split; try done; repeat case_match; eauto. }
    destruct Hj as (Hj & pc & k & ->). unfold pointers_ok. simpl. split; [done|]. split; [done|].
    destruct (main_pc p); try done. destruct He; congruence.
Qed.

Lemma reachable_ok r p : reachable (process_start r) p -> pointers_ok p.
Proof. induction 1 as [|p p' _ IH Hstep]; [by repeat split|]. by eapply pointers_ok_step. Qed.

(** Stopping: the server is told to return and the thread to end. *)
Definition stopping (p : Process) : Prop := server_stopped p = true /\ stop_requested p = true.

Definition main_weight (pc : MainPc) : nat :=
  match pc with
  | wiring => 6 | armed => 5 | listening => 4 | leaving => 3 | closing => 2 | joining => 1 | exited _ => 0
  end.
Definition reconciler_weight (pc : ReconcilerPc) : nat :=
  match pc with no_thread | thread_done => 0 | loop_top => 1 | sleeping _ => 2 | reconciling => 3 end.
Definition process_weight (p : Process) : nat := main_weight (main_pc p) + reconciler_weight (reconciler p).

(** [k] steps of the program, with any number of further signals among them. *)
Inductive winding_down : nat -> Process -> Process -> Prop :=
| wind_refl p : winding_down 0 p p
| wind_signal k p p' : winding_down k (shutdown_handler early_stop p) p' -> winding_down k p p'
| wind_step k p p1 p' : program_step reconcile_sec p p1 -> winding_down k p1 p' -> winding_down (S k) p p'.

Lemma stopping_step p p' : stopping p -> program_step reconcile_sec p p' ->
  stopping p' /\ process_weight p' < process_weight p /\ rounds p' = rounds p.
Proof.
  intros [Hs Hr] Hstep. unfold stopping, process_weight. destruct Hstep as [p p' Hm|p p' Hm].
  - unfold main_step in Hm. destruct (main_pc p) eqn:E; try done; rewrite ?Hs in Hm.
    1-5: injection Hm as <-; simpl; repeat split; try done; lia.
    destruct (joined p); [|done]. injection Hm as <-. simpl. repeat split; try done; lia.
  - unfold reconciler_step in Hm. destruct (reconciler p) as [| | |i|] eqn:E; try done; rewrite ?Hr in Hm;
      rewrite ?andb_false_r in Hm; injection Hm as <-; simpl; repeat split; try done; lia.
Qed.

Lemma stopping_signal p : stopping p ->
  stopping (shutdown_handler early_stop p) /\ process_weight (shutdown_handler early_stop p) = process_weight p /\
  rounds (shutdown_handler early_stop p) = rounds p.
Proof.
  intros [Hs Hr]. unfold shutdown_handler. destruct (pointers p); [|done].
  unfold stopping, process_weight; simpl. by rewrite Hs.
Qed.

Lemma winding_weight k p p' : winding_down k p p' -> stopping p ->
  stopping p' /\ k + process_weight p' <= process_weight p /\ rounds p' = rounds p.
Proof.
  induction 1 as [p|k p p' _ IH|k p p1 p' Hstep _ IH]; intros Hp; [by split_and!|..].
  - destruct (stopping_signal p Hp) as (H1 & H2 & H3). destruct (IH H1) as (? & ? & ?). split_and!; [done|lia|congruence].
  - destruct (stopping_step p p1 Hp Hstep) as (H1 & H2 & H3). destruct (IH H1) as (? & ? & ?).
    split_and!; [done|lia|congruence].
Qed.

Lemma winding_reachable start k p p' : winding_down k p p' -> reachable start p -> reachable start p'.
Proof.
  induction 1 as [p|k p p' _ IH|k p p1 p' Hstep _ IH]; intros Hp; [done|apply IH..].
  - eapply reachable_step; [done|]. apply signal_arrives.
  - eapply reachable_step; [done|]. destruct Hstep; [by apply main_moves|by apply reconciler_moves].
Qed.

(** A stopping process that cannot move has exited. *)
Lemma stopped_exited p : stopping p -> (forall p', ~ program_step reconcile_sec p p') ->
  exists c, main_pc p = exited c.
Proof.
  intros [Hs Hr] Hstop. destruct (main_pc p) eqn:E.
  1,2,4,5: exfalso; eapply Hstop; apply program_main; unfold main_step; by rewrite E.
  - exfalso. eapply Hstop. apply program_main. unfold main_step. by rewrite E, Hs.
  - destruct (joined p) eqn:Ej.
    + exfalso. eapply Hstop. apply program_main. unfold main_step. by rewrite E, Ej.
    + exfalso. unfold joined in Ej. destruct (reconciler p) as [| | |i|] eqn:Er; try done;
        eapply Hstop; apply program_reconciler; unfold reconciler_step; by rewrite Er.
  - by exists code.
Qed.

(** A whole round of the thread: one reconciliation, then one second per step of its sleep. *)
Fixpoint reconciler_run (k : nat) (p : Process) : Process :=
  match k with
  | O => p
  | S k => match reconciler_step reconcile_sec p with Some p' => reconciler_run k p' | None => p end
  end.

Lemma reconciler_sleeps k i p : reconciler p = sleeping i -> stop_requested p = false ->
  (i + Z.of_nat k = reconcile_sec)%Z -> reconciler_run (S k) p = set_reconciler loop_top 0 p.
Proof.
  revert i p. induction k as [|k IH]; intros i p Hr Hs Hi.
  - simpl. unfold reconciler_step. rewrite Hr, Hs. destruct (i <? reconcile_sec)%Z eqn:E; [lia|done].
  - simpl. unfold reconciler_step at 1. rewrite Hr, Hs. destruct (i <? reconcile_sec)%Z eqn:E; [|lia]. simpl.
    specialize (IH (i + 1)%Z (set_reconciler (sleeping (i + 1)) 0 p) eq_refl Hs ltac:(lia)). simpl in IH.
    rewrite IH. by destruct p.
Qed.

(** Left alone for [reconcile_sec + 3] steps, the thread has reconciled once and is back. *)
Lemma reconciler_round p : reconciler p = loop_top -> stop_requested p = false -> (0 <= reconcile_sec)%Z ->
  reconciler_run (S (S (S (Z.to_nat reconcile_sec)))) p = set_reconciler loop_top 1 p.
Proof.
  intros Hr Hs Hn. cbn [reconciler_run]. unfold reconciler_step at 1. rewrite Hr, Hs. simpl.
  change (reconciler_run (S (Z.to_nat reconcile_sec)) (set_reconciler (sleeping 0) 0 (set_reconciler reconciling 1 p))
          = set_reconciler loop_top 1 p).
  rewrite (reconciler_sleeps (Z.to_nat reconcile_sec) 0); [by destruct p|done|done|lia].
Qed.
End process.

(** ** Theorems *)

(** The body limit of a running server is 1 MiB whatever SERVER_REQUEST_SIZE_LIMIT_MB says (the
    README documents the variable, with a default of 4, as the limit). *)
Lemma payload_limit_fixed {G B} (lib : NatsLib B) (getenv : string -> option string)
    (gh_of : string -> string -> IGitHubClient G) (discovered : string) (stod : string -> result Q)
    (w w' : World G (Conn B Callback)) (rn : Running G) :
  start_up lib getenv gh_of discovered stod w = (w', inr (inr rn)) -> rn_payload_max rn = 1048576%Z.
Proof. intros H%startup_inv. exact (proj2 H). Qed.


(** C17: Once main is online (connected, and the library accepted its subscriptions), each
    message from the broker runs exactly the handler of its subject, once, with its payload and
    after counting it as received; any other subject changes nothing.  In particular a
    "completed" message for any team and task completes the task its payload names. *)
Theorem events_dispatched {G B} (lib : NatsLib B) (getenv : string -> option string) `{!JsonText, !HashOrder}
    `{!NatsLibLaws lib} (gh : option (IGitHubClient G)) e g url b st wl (w0 : World G (Conn B Callback)) :
  (forall s b, is_ok (lib_subscribe lib s b).2 = true) ->
  go_online lib getenv (boot e g true (new_conn url b st wl)) = (w0, inr tt) ->
  connected_ (client (w_nats w0)) = true ->
  forall w, same_books (w_nats w0) (w_nats w) ->
  (forall subject data, on_message lib getenv gh subject data w =
     match event_of subject with
     | Some cb => run_callback lib getenv gh cb subject (default "" data) (received subject w)
     | None => (w, inr tt)
     end) /\
  (forall team task payload msg id t,
     let subject := "hi.tasks." +:+ team +:+ "." +:+ task +:+ ".completed" in
     tokens team = [team] -> tokens task = [task] ->
     hmas_inv w -> jparse payload = inr msg -> completion_task_id msg = inr id -> id <> "" ->
     task_at w id = Some t -> terminal (t_state t) = false ->
     exists w', on_message lib getenv gh subject (Some payload) w = (w', inr tt) /\
       completes id t (received subject w) w').
Proof.
  intros Hok Hgo Hc w (Hb1 & Hb2 & Hb3 & Hb4). pose proof (online_subscribed lib getenv e g url b st wl w0 Hok Hgo Hc) as [Hs Hx].
  assert (Hw : subscribed (w_nats w)) by (split; [by rewrite Hb3, Hb4|by rewrite Hb1]).
  split; [intros subject data; by apply run_on_message|].
  intros team task payload msg id t subject Ht Hk Hi Hp Hm Hne Hta Htm.
  rewrite run_on_message by done.
  assert (event_of subject = Some on_completed) as ->.
  { unfold event_of, subject.
    change ("hi.tasks." +:+ team +:+ "." +:+ task +:+ ".completed")
      with ("hi" +:+ String "." ("tasks" +:+ String "." (team +:+ String "." (task +:+ String "." "completed")))).
    by rewrite !tokens_app, Ht, Hk. }
  simpl. by apply (run_completion gh (ConnPublisher lib getenv) payload msg id t (received subject w)).
Qed.

(** C21: A SIGTERM or SIGINT while the server listens ends the process: after it, whatever
    further signals arrive and however the threads interleave, main and the reconciliation
    thread together take at most seven more steps, start no further reconciliation, and when
    neither can move main has returned 0, the thread is joined and NATS is closed. *)
Theorem signal_shuts_down (reconcile_sec : Z) (early_stop : bool) (r : option Z) (p : Process) :
  reachable reconcile_sec early_stop (process_start r) p -> main_pc p = listening ->
  forall k p', winding_down reconcile_sec early_stop k (shutdown_handler early_stop p) p' ->
    k <= 7 /\ rounds p' = rounds p /\
    ((forall p'', ~ program_step reconcile_sec p' p'') ->
     main_pc p' = exited 0 /\ joined p' = true /\ nats_closed p' = true).
Proof.
  intros Hr Hm k p' Hk. pose proof (reachable_ok _ _ _ _ Hr) as (Hp & _ & _). rewrite Hm in Hp.
  assert (Hstop : stopping (shutdown_handler early_stop p)).
  { unfold shutdown_handler, stopping, stops. rewrite Hp, Hm. simpl. by rewrite orb_true_r. }
  assert (Hpc : main_pc (shutdown_handler early_stop p) = listening
                /\ rounds (shutdown_handler early_stop p) = rounds p
                /\ reconciler (shutdown_handler early_stop p) = reconciler p).
  { unfold shutdown_handler. rewrite Hp. done. }
  destruct Hpc as (Hpc & Hrd & Hre).
  destruct (winding_weight _ _ _ _ _ Hk Hstop) as (Hs' & Hw & Hrounds).
  assert (Hr' : reachable reconcile_sec early_stop (process_start r) p').
  { eapply winding_reachable; [done|]. eapply reachable_step; [done|]. apply signal_arrives. }
  split; [|split; [congruence|]].
  - unfold process_weight in Hw. rewrite Hpc, Hre in Hw. simpl in Hw.
    assert (reconciler_weight (reconciler p) <= 3) by (destruct (reconciler p); simpl; lia). lia.
  - intros Hend. destruct (stopped_exited _ _ Hs' Hend) as [c Hexit].
    pose proof (reachable_ok _ _ _ _ Hr') as (_ & H1 & H2). rewrite Hexit in H1, H2. naive_solver.
Qed.

(** The port cannot be bound: [listen] returns at once and main reports success. *)
Lemma bind_failure_exits_zero reconcile_sec early_stop : exists p,
  reachable reconcile_sec early_stop (process_start None) p /\ main_pc p = exited 0 /\ shutdown_requested p = false.
Proof.
  set (start := process_start None).
  assert (Hmain : forall p p', reachable reconcile_sec early_stop start p -> main_step p = Some p' ->
            reachable reconcile_sec early_stop start p').
  { intros p p' Hp Hm. eapply reachable_step; [done|]. by apply main_moves. }
  pose proof (reachable_start reconcile_sec early_stop start) as H.
  eapply Hmain in H; [|reflexivity]. eapply Hmain in H; [|reflexivity].
  eapply reachable_step in H; [|by apply listen_fails].
  do 4 (eapply Hmain in H; [|reflexivity]). eexists. split; [exact H|]. done.
Qed.

(** A signal between the installation of the handler and [listen]: when httplib forgets a stop
    that comes early, the server goes on listening with its reconciliation stopped. *)
Lemma early_signal_lost reconcile_sec : exists p,
  reachable reconcile_sec false (process_start None) p /\ shutdown_requested p = true /\ main_pc p = listening /\
  forall p', ~ program_step reconcile_sec p p'.
Proof.
  pose proof (reachable_start reconcile_sec false (process_start None)) as H.
  eapply reachable_step in H; [|apply main_moves; reflexivity].
  eapply reachable_step in H; [|apply signal_arrives].
  eapply reachable_step in H; [|apply main_moves; reflexivity].
  eexists. split; [exact H|]. split; [done|]. split; [done|]. intros p' Hp. inversion Hp; done.
Qed.

(** ** The health check *)

(** Digits select the whole string in [atoi]. *)
Lemma atoi_digits ds : ds <> "" -> str_forall isdigit ds = true -> (digits_value 0 ds < 2 ^ 31)%Z ->
  atoi ds = digits_value 0 ds.
Proof.
  intros Hne Hd Hlt. pose proof (digits_value_nonneg 0 ds Hd ltac:(lia)) as Hge. destruct ds as [|c r]; [done|].
  assert (Hc : isdigit c = true) by (simpl in Hd; by apply andb_prop in Hd as [? _]).
  assert (Hsp : isspace c = false) by (unfold isdigit, isspace in *; lia).
  unfold atoi. simpl (skip_while isspace (String c r)). rewrite Hsp.
  assert (match String c r with
          | String "-" r => (true, r) | String "+" r => (false, r)
          | _ => (false, String c r) end = (false, String c r)) as ->.
  { clear -Hc. destruct c as [[] [] [] [] [] [] [] []]; try reflexivity; discriminate Hc. }
  rewrite take_digits_all by done. cbn [fst].
  rewrite Z.min_r, Z.max_r by lia. apply wrap32_small. lia.
Qed.

Lemma valid_port_atoi p port : Port.parse_port (Some p) = inl port -> atoi p = port.
Proof.
  unfold Port.parse_port. destruct p as [|c r]; [done|].
  destruct (Port.from_chars_all (String c r)) as [v|] eqn:E; [|done].
  destruct ((v <? 1)%Z || (65535 <? v)%Z) eqn:Eb; [done|]. intros [= <-].
  apply orb_false_iff in Eb as [H1%Z.ltb_ge H2%Z.ltb_ge]. revert E. unfold Port.from_chars_all.
  destruct (match String c r with String "-" r => (true, r) | _ => (false, String c r) end) as [neg ds] eqn:En.
  destruct (str_empty ds || negb (str_forall isdigit ds)) eqn:Ed; [done|].
  apply orb_false_iff in Ed as [Hne Hd%negb_false_iff].
  destruct (_ || _) eqn:Er; [done|]. intros [= <-].
  pose proof (digits_value_nonneg 0 ds Hd ltac:(lia)) as Hnn.
  destruct neg; [lia|]. assert (ds = String c r) as ->.
  { revert En. destruct c as [[] [] [] [] [] [] [] []]; congruence. }
  apply atoi_digits; [done|done|lia].
Qed.

(** When PORT is unset or valid, the health check asks the port the server listens on: it
    succeeds exactly when the server there answers 200. *)
Lemma healthcheck_asks_server getenv answer :
  (forall p, getenv "PORT" = Some p -> exists port, Port.parse_port (Some p) = inl port) ->
  healthcheck getenv answer = if decide (answer (server_port getenv) = Some 200%Z) then 0%Z else 1%Z.
Proof.
  intros Hp. assert (E : match getenv "PORT" with Some p => atoi p | None => 8080%Z end = server_port getenv).
  { unfold server_port. destruct (getenv "PORT") as [p|]; [|done]. destruct (Hp p eq_refl) as [port Hport].
    rewrite Hport. by apply valid_port_atoi. }
  unfold healthcheck. rewrite E. destruct (answer (server_port getenv)) as [st|]; [|by rewrite decide_False].
  destruct (Z.eqb_spec st 200) as [->|Hne]; [by rewrite decide_True|]. rewrite decide_False; [done|congruence].
Qed.

(** When PORT is not a number the server listens on 8080 and the health check asks port 0. *)
Lemma healthcheck_diverges :
  let getenv name := if str_eqb name "PORT" then Some "http" else None in
  server_port getenv = 8080%Z /\
  healthcheck getenv (fun port => if (port =? 8080)%Z then Some 200%Z else None) = 1%Z.
Proof. by vm_compute. Qed.

(** ** Instances *)

#[local] Existing Instances codec list_order.

(** An environment with a key, and a process that goes online in it. *)
Definition some_env (name : string) : option string :=
  if str_eqb name "AGAMEMNON_API_KEY" then Some "key" else if str_eqb name "PORT" then Some "9090" else None.
Definition offline_world : World MockGitHub (Conn (list string) Callback) :=
  boot env0 mock0 true (new_conn "nats://n1:4222" [] Z.of_nat (fun _ => (0, 0)%Z)).
Definition online_world : World MockGitHub (Conn (list string) Callback) := (go_online easy_lib some_env offline_world).1.


Lemma events_dispatched_witness :
  let subject := "hi.tasks.athens.t1.started" in
  on_message easy_lib some_env None subject None online_world =
  run_callback easy_lib some_env None on_started subject "" (received subject online_world).
Proof.
  refine (proj1 (events_dispatched easy_lib some_env None env0 mock0 "nats://n1:4222" [] Z.of_nat (fun _ => (0, 0)%Z)
    online_world _ _ _ online_world _) "hi.tasks.athens.t1.started" None).
  - intros s b. reflexivity.
  - unfold online_world, offline_world. rewrite (surjective_pairing (go_online _ _ _)) at 1.
    assert ((go_online easy_lib some_env offline_world).2 = inr tt) as E by (vm_compute; reflexivity).
    unfold offline_world in E. rewrite E. reflexivity.
  - vm_compute. reflexivity.
  - by repeat split.
Defined.

(** The process serving, with its thread asleep. *)
Definition serving : Process :=
  {| main_pc := listening; pointers := true; shutdown_requested := false; server_stopped := false;
     stop_requested := false; reconciler := sleeping 1; rounds := 1; nats_closed := false |}.

Lemma signal_shuts_down_witness :
  main_pc serving = listening /\
  forall k p', winding_down 300 true k (shutdown_handler true serving) p' ->
    k <= 7 /\ rounds p' = rounds serving /\
    ((forall p'', ~ program_step 300 p' p'') ->
     main_pc p' = exited 0 /\ joined p' = true /\ nats_closed p' = true).
Proof.
  split; [reflexivity|]. apply (signal_shuts_down 300 true (Some 300%Z) serving); [|reflexivity].
  pose proof (reachable_start 300 true (process_start (Some 300%Z))) as H.
  do 2 (eapply reachable_step in H; [|apply main_moves; reflexivity]).
  do 3 (eapply reachable_step in H; [|apply reconciler_moves; reflexivity]). exact H.
Defined.
