(* ===== verification/PublishFacts.v ===== *)
(** * PublishFacts: what the server says on NATS

    Every call the handlers and the orchestrator make on their publisher names a subject of the
    streams the server creates, and none that the server itself subscribes to.  The lemmas go
    through every operation of the store, the orchestrator and the routes. *)

From S2P Require Import Prelude Effects Text Json JsonCodec HmasTypes StateMachine Metrics World Planning.
From S2P Require Import Store HmasStore Orchestrator Messaging Guards Http Routes NatsConnection NatsTheorems.
From S2P Require Import ServerMain ServerTheorems.
From Stdlib Require Import QArith.
Close Scope Q_scope.

(** ** The subjects *)

(** In a stream of [ensure_streams], and not one of the server's own events. *)
Definition own_subject (s : string) : Prop :=
  (exists sd, sd ∈ kStreams /\ subject_matches sd.2 s = true) /\ event_of s = None.

Lemma tokens_plain a : str_forall (fun c => negb (bool_decide ("."%char = c))) a = true -> tokens a = [a].
Proof.
  induction a as [|c a IH]; [done|]. simpl. intros [Hc Ha]%andb_true_iff. rewrite (IH Ha).
  apply negb_true_iff, bool_decide_eq_false in Hc. by destruct (decide (c = "."%char)); [congruence|].
Qed.

Lemma hi_tokens a r : str_forall (fun c => negb (bool_decide ("."%char = c))) a = true ->
  tokens ("hi." +:+ a +:+ "." +:+ r) = "hi" :: a :: tokens r.
Proof.
  intros Ha. change ("hi." +:+ a +:+ "." +:+ r) with ("hi" +:+ String "." (a +:+ String "." r)).
  by rewrite !tokens_app, (tokens_plain a Ha).
Qed.

Lemma in_stream name a r : (name, "hi." +:+ a +:+ ".>") ∈ kStreams ->
  str_forall (fun c => negb (bool_decide ("."%char = c))) a = true -> str_eqb a ">" = false ->
  exists sd, sd ∈ kStreams /\ subject_matches sd.2 ("hi." +:+ a +:+ "." +:+ r) = true.
Proof.
  intros Hin Ha Hne. exists (name, "hi." +:+ a +:+ ".>"). split; [done|]. unfold subject_matches. simpl (_.2).
  change (".>") with ("." +:+ ">"). rewrite !hi_tokens by done. cbn [tokens_match].
  rewrite !str_eqb_refl, Hne. destruct (tokens r) eqn:E; [by apply tokens_nonempty in E|]. simpl. by rewrite orb_true_r.
Qed.

Lemma own_agents r : own_subject ("hi.agents." +:+ r).
Proof.
  split; [apply (in_stream "homeric-agents" "agents"); [set_solver|done|done]|].
  unfold event_of. change ("hi.agents." +:+ r) with ("hi." +:+ "agents" +:+ "." +:+ r). rewrite hi_tokens by done.
  destruct (tokens r) as [|b [|c [|d []]]]; done.
Qed.
Lemma own_myrmidon r : own_subject ("hi.myrmidon." +:+ r).
Proof.
  split; [apply (in_stream "homeric-myrmidon" "myrmidon"); [set_solver|done|done]|].
  unfold event_of. change ("hi.myrmidon." +:+ r) with ("hi." +:+ "myrmidon" +:+ "." +:+ r). rewrite hi_tokens by done.
  destruct (tokens r) as [|b [|c [|d []]]]; done.
Qed.
Lemma own_logs r : own_subject ("hi.logs." +:+ r).
Proof.
  split; [apply (in_stream "homeric-logs" "logs"); [set_solver|done|done]|].
  unfold event_of. change ("hi.logs." +:+ r) with ("hi." +:+ "logs" +:+ "." +:+ r). rewrite hi_tokens by done.
  destruct (tokens r) as [|b [|c [|d []]]]; done.
Qed.
Lemma own_tasks r : event_of ("hi.tasks." +:+ r) = None -> own_subject ("hi.tasks." +:+ r).
Proof. intros He. split; [|done]. apply (in_stream "homeric-tasks" "tasks"); [set_solver|done|done]. Qed.

(** A task's state is one token, so its announcement is no worker event. *)
Lemma own_state t : own_subject ("hi.tasks." +:+ lower_state (t_state t)).
Proof. apply own_tasks. by destruct (t_state t). Qed.

(** A route's task update ends in "updated", whatever dots the ids have. *)
Lemma own_updated team task : own_subject ("hi.tasks." +:+ team +:+ "." +:+ task +:+ ".updated").
Proof.
  apply own_tasks. unfold event_of.
  replace ("hi.tasks." +:+ team +:+ "." +:+ task +:+ ".updated")
    with ("hi." +:+ "tasks" +:+ "." +:+ ((team +:+ "." +:+ task) +:+ String "." "updated"))
    by (simpl; by rewrite <- !str_app_assoc).
  rewrite hi_tokens by done. rewrite tokens_app. simpl (tokens "updated").
  destruct (tokens (team +:+ "." +:+ task)) as [|a [|b [|c l]]]; simpl; try done. by destruct l.
Qed.

(** ** The operations *)

Section says.
Context {G N : Type} (gh_ : option (IGitHubClient G)) (np : NatsPublisher N) (admin : NatsAdmin N).
Context `{JT : !JsonText, HO : !HashOrder}.
Abbreviation W := (World G N).
(** A property of the publisher that publishing on the server's own subjects keeps. *)
Context (I : N -> Prop).
Hypothesis I_publish : forall s p n, own_subject s -> I n -> I (publish np s p n).1.
Hypothesis I_log : forall s l m d n, own_subject s -> I n -> I (publish_log np s l m d n).1.
Hypothesis I_queue : forall q n, I n -> I (put_dead_letter_queue admin q n).

Abbreviation Says := (keeping (fun w : W => I (w_nats w))).

(** Steps that leave the publisher alone. *)
Lemma says_quiet {A} (m : M W A) : (forall w, w_nats (m w).1 = w_nats w) -> moves Says m.
Proof. intros H w Hw. by rewrite H. Qed.

Lemma says_gh {A} (m : M G A) : moves Says (call_gh (N := N) m).
Proof. apply says_quiet. intros w. unfold call_gh, zoom. by destruct (m (w_gh w)). Qed.
Lemma says_metric f : moves Says (@record_metric G N f).
Proof. apply says_quiet. intros w. unfold record_metric. simpl. by destruct (metrics_ (w_store w)). Qed.
Lemma says_uuid : moves Says (generate_uuid : M W string).
Proof. apply says_quiet. intros w. by rewrite run_generate_uuid. Qed.
Lemma says_now : moves Says (now_iso8601 : M W string).
Proof. by apply says_quiet. Qed.
Lemma says_publish s p : own_subject s -> moves Says (Orchestrator.nats_publish np s p : M W unit).
Proof.
  intros Hs. unfold Orchestrator.nats_publish. moves. intros w Hw. unfold call_nats, zoom.
  specialize (I_publish s p (w_nats w) Hs Hw). by destruct (publish np s p (w_nats w)).
Qed.
Lemma says_log s l m d : own_subject s -> moves Says (Orchestrator.nats_log np s l m d : M W unit).
Proof.
  intros Hs w Hw. unfold Orchestrator.nats_log, call_nats, zoom.
  specialize (I_log s l m d (w_nats w) Hs Hw). by destruct (publish_log np s l m d (w_nats w)).
Qed.
#[local] Hint Resolve says_gh says_metric says_uuid says_now : agamemnon.
#[local] Hint Resolve says_publish says_log own_agents own_myrmidon own_logs own_state own_updated : agamemnon.

(** Go through an operation; a write of the store leaves the publisher alone. *)
Ltac silent := apply moves_modify; intros ? ?; assumption.
Ltac says := moves; try silent.

(** *** The store *)

Lemma says_ensure c : moves Says (ensure_loaded_ gh_ c : M W unit).
Proof. unfold ensure_loaded_, hydrate_issue. destruct gh_; says. Qed.
Lemma says_create_remote c t id j : moves Says (create_remote gh_ c t id j : M W json).
Proof. unfold create_remote. destruct gh_; says. Qed.
Lemma says_update_remote c id : moves Says (update_remote gh_ c id : M W unit).
Proof. unfold update_remote, entity_at. destruct gh_; says. Qed.
Lemma says_close_remote c id : moves Says (close_remote gh_ c id : M W unit).
Proof. unfold close_remote, entity_at. destruct gh_; says. Qed.
Lemma says_assign c id k v : moves Says (assign c id k v : M W unit).
Proof. unfold assign, entity_at. says. Qed.
Lemma says_erase c id : moves Says (erase_entity c id : M W unit).
Proof. unfold erase_entity. says. Qed.
#[local] Hint Resolve says_ensure says_create_remote says_update_remote says_close_remote says_assign says_erase : agamemnon.
Lemma says_merge c id ks f : moves Says (merge_fields c id ks f : M W unit).
Proof. unfold merge_fields. says. Qed.
Lemma says_list c k l o : moves Says (list_collection c k l o : M W json).
Proof. unfold list_collection. says. Qed.
#[local] Hint Resolve says_merge says_list : agamemnon.

Ltac store_op := unfold ensure_agents_loaded_, ensure_teams_loaded_, ensure_tasks_loaded_, ensure_faults_loaded_, entity_at; says.

Lemma says_create_agent b : moves Says (create_agent gh_ b : M W json).
Proof. unfold create_agent. store_op. Qed.
Lemma says_get_agent id : moves Says (get_agent gh_ id : M W json).
Proof. unfold get_agent. store_op. Qed.
Lemma says_agent_by_name id : moves Says (get_agent_by_name gh_ id : M W json).
Proof. unfold get_agent_by_name. store_op. Qed.
Lemma says_list_agents l o : moves Says (list_agents gh_ l o : M W json).
Proof. unfold list_agents. store_op. Qed.
Lemma says_update_agent id f : moves Says (update_agent gh_ id f : M W json).
Proof. unfold update_agent. store_op. Qed.
Lemma says_delete_agent id : moves Says (delete_agent gh_ id : M W bool).
Proof. unfold delete_agent. store_op. Qed.
Lemma says_agent_status s id : moves Says (set_agent_status gh_ s id : M W json).
Proof. unfold set_agent_status. store_op. Qed.
Lemma says_create_team b : moves Says (create_team gh_ b : M W json).
Proof. unfold create_team. store_op. Qed.
Lemma says_get_team id : moves Says (get_team gh_ id : M W json).
Proof. unfold get_team. store_op. Qed.
Lemma says_list_teams l o : moves Says (list_teams gh_ l o : M W json).
Proof. unfold list_teams. store_op. Qed.
Lemma says_update_team id f : moves Says (update_team gh_ id f : M W json).
Proof. unfold update_team. store_op. Qed.
Lemma says_delete_team id : moves Says (delete_team gh_ id : M W bool).
Proof. unfold delete_team. store_op. Qed.
Lemma says_create_task t b : moves Says (create_task gh_ t b : M W json).
Proof. unfold create_task. store_op. Qed.
Lemma says_get_task t id : moves Says (get_task gh_ t id : M W json).
Proof. unfold get_task. store_op. Qed.
Lemma says_update_task t id f : moves Says (update_task gh_ t id f : M W json).
Proof. unfold update_task. store_op. Qed.
Lemma says_list_team_tasks t l o : moves Says (list_tasks_for_team gh_ t l o : M W json).
Proof. unfold list_tasks_for_team. store_op. Qed.
Lemma says_list_tasks l o : moves Says (list_all_tasks gh_ l o : M W json).
Proof. unfold list_all_tasks. store_op. Qed.
Lemma says_mark_completed id : moves Says (mark_task_completed gh_ id : M W unit).
Proof. unfold mark_task_completed. store_op. Qed.
Lemma says_list_faults l o : moves Says (list_faults gh_ l o : M W json).
Proof. unfold list_faults. store_op. Qed.
Lemma says_create_fault t : moves Says (create_fault gh_ t : M W json).
Proof. unfold create_fault. store_op. Qed.
Lemma says_remove_fault id : moves Says (remove_fault gh_ id : M W bool).
Proof. unfold remove_fault. store_op. Qed.
Lemma says_pick l : moves Says (pick_collection_ gh_ l : M W (option Collection)).
Proof. unfold pick_collection_. store_op. Qed.
Lemma says_apply_locked c a id e u : moves Says (apply_locked c a id e u : M W bool).
Proof. unfold apply_locked. says. Qed.
#[local] Hint Resolve says_pick says_apply_locked : agamemnon.
Lemma says_apply l a i u : moves Says (apply_github_event gh_ l a i u : M W bool).
Proof. unfold apply_github_event. says. Qed.
#[local] Hint Resolve says_create_agent says_get_agent says_agent_by_name says_list_agents says_update_agent
  says_delete_agent says_agent_status says_create_team says_get_team says_list_teams says_update_team
  says_delete_team says_create_task says_get_task says_update_task says_list_team_tasks says_list_tasks
  says_mark_completed says_list_faults says_create_fault says_remove_fault says_apply : agamemnon.

(** *** Plans *)

Lemma says_ensure_hmas : moves Says (ensure_hmas_tasks_loaded_ gh_ : M W unit).
Proof. unfold ensure_hmas_tasks_loaded_, hydrate_hmas. destruct gh_; says. Qed.
Lemma says_ensure_briefs : moves Says (ensure_briefs_loaded_ gh_ : M W unit).
Proof. unfold ensure_briefs_loaded_, hydrate_brief. destruct gh_; says. Qed.
Lemma says_hmas_remote id t : moves Says (update_hmas_remote gh_ id t : M W unit).
Proof. unfold update_hmas_remote. destruct gh_; says. Qed.
#[local] Hint Resolve says_ensure_hmas says_ensure_briefs says_hmas_remote : agamemnon.
Lemma says_hmas_create t : moves Says (create_hmas_remote gh_ t : M W unit).
Proof. unfold create_hmas_remote. destruct gh_; says. Qed.
#[local] Hint Resolve says_hmas_create : agamemnon.
Lemma says_create_hmas t : moves Says (create_hmas_task gh_ t : M W unit).
Proof. unfold create_hmas_task. says. Qed.
Lemma says_get_hmas id : moves Says (get_hmas_task gh_ id : M W (option HmasTask)).
Proof. unfold get_hmas_task. says. Qed.
Lemma says_update_hmas t : moves Says (update_hmas_task gh_ t : M W bool).
Proof. unfold update_hmas_task. says. Qed.
Lemma says_by_brief id : moves Says (list_hmas_tasks_by_brief gh_ id : M W (list HmasTask)).
Proof. unfold list_hmas_tasks_by_brief. says. Qed.
Lemma says_create_brief b : moves Says (create_task_brief gh_ b : M W unit).
Proof.
  unfold create_task_brief. moves_step; [apply says_ensure_briefs|]. intros _. moves_step; [|says]. destruct gh_; says.
Qed.
Lemma says_get_brief id : moves Says (get_task_brief gh_ id : M W (option TaskBrief)).
Proof. unfold get_task_brief. says. Qed.
Lemma says_transition t e : moves Says (try_transition t e : M W (HmasTask * bool)).
Proof.
  unfold try_transition. destruct (t_state t), e; simpl; unfold stamp_completed; says.
Qed.
#[local] Hint Resolve says_create_hmas says_get_hmas says_update_hmas says_by_brief says_create_brief
  says_get_brief says_transition : agamemnon.

Lemma says_decompose b : moves Says (decompose b : M W (list HmasTask)).
Proof.
  assert (Hi : forall ts r md l2 ix xs p k, moves Says (impl_loop b ts r md l2 ix xs p k : M W _)).
  { intros ts r md l2 ix xs. induction xs; simpl; says. }
  assert (Hm : forall ts r l1 ix ms p k, moves Says (module_loop b ts r l1 ix ms p k : M W _)).
  { intros ts r l1 ix ms. induction ms; simpl; says. }
  assert (Hr : forall ts root rs k, moves Says (repo_loop b ts root rs k : M W _)).
  { intros ts root rs. induction rs; simpl; says. }
  unfold decompose. says.
Qed.
#[local] Hint Resolve says_decompose : agamemnon.

(** *** The orchestrator *)

Lemma says_state t : moves Says (publish_task_state np t : M W unit).
Proof. unfold publish_task_state. says. Qed.
Lemma says_dispatch t p : moves Says (dispatch_task np t p : M W unit).
Proof. unfold dispatch_task, myrmidon_subject, mesh_dispatch_subject. says. Qed.
#[local] Hint Resolve says_state says_dispatch : agamemnon.
Lemma says_log_agamemnon x l m d : moves Says (Orchestrator.nats_log np ("hi.logs.agamemnon." +:+ x) l m d : M W unit).
Proof. apply says_log. exact (own_logs ("agamemnon." +:+ x)). Qed.
Ltac says_o := says; try (match goal with
  | |- moves _ (Orchestrator.nats_log _ _ _ _ _) => refine (says_log_agamemnon _ _ _ _)
  | |- moves _ (Orchestrator.nats_publish _ _ _) => apply says_publish;
      first [refine (own_agents _) | refine (own_myrmidon _) | refine (own_updated _ _)]
  end).

Lemma says_submit b : moves Says (submit gh_ np b : M W string).
Proof. unfold submit. says_o. Qed.
Lemma says_delegate id : moves Says (delegate gh_ np id : M W bool).
Proof. unfold delegate, delegate_walk. says_o. Qed.
Lemma says_escalate id r : moves Says (escalate gh_ np id r : M W bool).
Proof. unfold escalate, myrmidon_subject, mesh_dispatch_subject. says_o. Qed.
Lemma says_all_clear bs : moves Says (all_clear gh_ bs : M W bool).
Proof. induction bs; simpl; says_o. Qed.
#[local] Hint Resolve says_submit says_delegate says_escalate says_all_clear : agamemnon.
Lemma says_children id : moves Says (delegate_unblocked_children gh_ np id : M W unit).
Proof. unfold delegate_unblocked_children, delegate_if_clear. says_o. Qed.
#[local] Hint Resolve says_children : agamemnon.
Lemma says_completion p : moves Says (on_myrmidon_completion gh_ np p : M W unit).
Proof. unfold on_myrmidon_completion, completion_walk, step_from, step_pending. says_o. Qed.
Lemma says_started p : moves Says (on_myrmidon_started gh_ np p : M W unit).
Proof. unfold on_myrmidon_started, started_walk, step_from, step_pending. says_o. Qed.
Lemma says_failed p : moves Says (on_myrmidon_failed gh_ np p : M W unit).
Proof. unfold on_myrmidon_failed, failed_walk, step_from, step_pending. says_o. Qed.
Lemma says_epic p : moves Says (on_epic_registered gh_ np p : M W string).
Proof. unfold on_epic_registered. says_o. Qed.
Lemma says_split id js : moves Says (split_task gh_ np id js : M W json).
Proof.
  assert (Hl : forall l ts p o c, moves Says (split_loop gh_ ts p o c l : M W _)).
  { induction l; simpl; says_o. }
  unfold split_task. says_o.
Qed.
Lemma says_plan id : moves Says (get_plan gh_ id : M W json).
Proof. unfold get_plan. says_o. Qed.
#[local] Hint Resolve says_completion says_started says_failed says_epic says_split says_plan : agamemnon.

(** *** The routes *)

Context (parse_what : string -> string) (what : exn -> string)
  (Serialize : MetricsRegistry -> string) (HMAC : string -> string -> option (list Z))
  (secret_env : option string).

Lemma says_guarded v (k : M W Response) : moves Says k -> moves Says (guarded v k).
Proof. intros Hk. unfold guarded. says. Qed.
Lemma says_or_reply {A} m (k : A -> M W Response) : (forall a, moves Says (k a)) -> moves Says (or_reply m k).
Proof. intros Hk. unfold or_reply. says. Qed.
Lemma says_updated j : moves Says (publish_agent_updated np j : M W unit).
Proof. unfold publish_agent_updated. says_o. Qed.
#[local] Hint Resolve says_updated : agamemnon.

Ltac says_route :=
  repeat first
    [ progress moves
    | apply says_guarded | apply says_or_reply; intros ?
    | silent | progress (cbv zeta beta)
    | apply moves_modify; intros ? ?; apply I_queue; assumption ]; says_o.

Lemma says_table :
  Forall (fun r => forall req c, moves Says (r_handler r req c))
    (table gh_ np admin parse_what what Serialize HMAC secret_env).
Proof.
  unfold table.
  repeat apply Forall_cons_2; [..|apply Forall_nil_2]; intros req c; cbn [r_handler on0 on1 on2].
  all: unfold get_metrics, get_health, get_v1_health, get_dead_letter, delete_dead_letter, get_version,
    get_agents, post_agents, post_agent_start, post_agent_stop, start_agent, stop_agent,
    get_agent_by_name_route, get_agent_route, patch_agent, delete_agent_route, get_teams, post_teams,
    get_team_route, put_team, delete_team_route, get_tasks, get_team_tasks, post_team_tasks,
    get_task_route, update_task_handler, get_chaos, post_chaos, delete_chaos, post_briefs,
    get_brief_plan, post_task_escalate, post_task_split, post_task_complete, get_task_state,
    post_webhook, with_body, with_page, reply, not_found, mesh_dispatch_subject; says_route.
  all: try (apply says_publish; exact (own_tasks "created" eq_refl)).
Qed.

Lemma says_dispatch_route req :
  moves Says (dispatch gh_ np admin parse_what what Serialize HMAC secret_env req).
Proof.
  unfold dispatch. pose proof says_table as Ht. revert Ht. generalize (table gh_ np admin parse_what what Serialize HMAC secret_env).
  intros t Ht. destruct (find_route t (handlers_of (req_method req)) (req_path req)) as [[h c]|] eqn:E; [|says].
  induction Ht as [|r t Hr _ IH]; simpl in E; [done|].
  destruct (bool_decide _); [|by apply IH]. destruct (match_path _ _) as [k|]; [|by apply IH].
  injection E as <- <-. apply Hr.
Qed.

Lemma says_reconcile : moves Says (reconcile_round gh_ : M W unit).
Proof.
  unfold reconcile_round, reconcile_from_github.
  assert (Hi : forall label is_ k, moves Says (reconcile_issues gh_ label is_ k : M W Z)).
  { intros label is_. induction is_; simpl; says. }
  assert (Hl : forall gh ls k, moves Says (reconcile_labels gh_ gh ls k : M W Z)).
  { intros gh ls. induction ls; simpl; says. }
  moves.
Qed.
End says.

(** Authentication and rate limiting leave the world alone. *)
Definition same_world {G N} (s s' : Server (G := G) (N := N)) : Prop := sv_world s' = sv_world s.
#[local] Instance same_world_preorder {G N} : PreOrder (@same_world G N).
Proof. split; [done|]. unfold same_world. intros s1 s2 s3 H1 H2. by rewrite H2. Qed.

Lemma pre_routing_world {G N} rnd key req (sv : Server (G := G) (N := N)) :
  same_world sv (pre_routing rnd key req sv).1.
Proof.
  revert sv. change (moves same_world (pre_routing (G := G) (N := N) rnd key req)).
  unfold pre_routing, steady_now. moves; try (by intros sv); by apply moves_modify.
Qed.

(** C22: Every message the server sends, on any request (accepted or not, also when a handler
    throws), on any worker event and in any reconciliation round, goes to a subject inside one of
    the streams it creates, and to none that it subscribes to: nothing is refused for want of a
    stream and no event of its own comes back to it.  Stated for every property of the publisher
    that publishing on such subjects (and draining the dead letters) keeps. *)
Theorem publishes_own_subjects {G N : Type} (gh : option (IGitHubClient G)) (np : NatsPublisher N)
    (admin : NatsAdmin N) `{!JsonText, !HashOrder} (I : N -> Prop) parse_what what Serialize HMAC secret rnd key :
  (forall s p n, own_subject s -> I n -> I (publish np s p n).1) ->
  (forall s l m d n, own_subject s -> I n -> I (publish_log np s l m d n).1) ->
  (forall q n, I n -> I (put_dead_letter_queue admin q n)) ->
  (forall req (sv : Server (G := G)), I (w_nats (sv_world sv)) ->
     I (w_nats (sv_world (serve gh np admin parse_what what Serialize HMAC secret rnd key req sv).1))) /\
  (forall payload (w : World G N), I (w_nats w) ->
     I (w_nats (on_myrmidon_completion gh np payload w).1) /\
     I (w_nats (on_myrmidon_started gh np payload w).1) /\
     I (w_nats (on_myrmidon_failed gh np payload w).1) /\
     I (w_nats (on_epic_registered gh np payload w).1)) /\
  (forall w : World G N, I (w_nats w) -> I (w_nats (reconcile_round gh w).1)).
Proof.
  intros Hp Hl Hq. split; [|split].
  - intros req sv Hsv. unfold serve. rewrite run_bind.
    pose proof (pre_routing_world rnd key req sv) as Hw.
    destruct (pre_routing rnd key req sv) as [sv1 [e|[res|]]]; simpl in *; [by rewrite Hw..|].
    unfold zoom. pose proof (says_dispatch_route gh np admin I Hp Hl Hq parse_what what Serialize HMAC secret req
      (sv_world sv1)) as Hd. destruct (dispatch _ _ _ _ _ _ _ _ _ _) as [w' r]. simpl in *. apply Hd. by rewrite Hw.
  - intros payload w Hw. split_and!; [by apply (says_completion gh np I)|by apply (says_started gh np I)
      |by apply (says_failed gh np I)|by apply (says_epic gh np I)].
  - intros w Hw. by apply (says_reconcile gh I).
Qed.

(** The subjects of everything a recording publisher was given. *)
Definition all_own (n : FakeNats) : Prop := Forall own_subject ((published n).*1 ++ log_calls n).

#[local] Existing Instances codec list_order.

Definition post_agent : Request :=
  {| req_method := Post; req_path := "/v1/agents"; req_header := fun _ => Some "Bearer key"; req_param := fun _ => None;
     req_body := default "" (dump (-1) (jobj [("name", JStr "odysseus")])); remote_addr := "10.0.0.1" |}.
Definition recorder : Server (G := MockGitHub) (N := FakeNats) :=
  {| sv_world := boot env0 mock0 true nats0; sv_limiter := RateLimit.new_limiter 60 120; sv_steady := fun _ => 0%Z;
     sv_steady_i := 0 |}.
Definition after_post : Server :=
  (serve (Some MockGitHubClient) FakeNatsPublisher FakeNatsAdmin (fun _ => "") (fun _ => "") (fun _ => "")
     (fun _ _ => None) None id "key" post_agent recorder).1.

Lemma publishes_own_subjects_witness :
  all_own (w_nats (sv_world after_post)) /\
  (published (w_nats (sv_world after_post))).*1 = ["hi.agents.local.odysseus.created"].
Proof.
  split.
  - refine (proj1 (publishes_own_subjects (Some MockGitHubClient) FakeNatsPublisher FakeNatsAdmin all_own
      (fun _ => "") (fun _ => "") (fun _ => "") (fun _ _ => None) None id "key" _ _ _) post_agent recorder _).
    + intros s p n Hs Hn. unfold all_own in *. simpl. rewrite fmap_app, !Forall_app in *. naive_solver.
    + intros s l m d n Hs Hn. unfold all_own in *. simpl. rewrite !Forall_app in *. naive_solver.
    + intros q n Hn. exact Hn.
    + apply Forall_nil_2.
  - vm_compute. reflexivity.
Defined.
