(* ===== verification/Coroutine.v ===== *)
(** * Coroutine: the task type of the agent runtime

    concurrency/task.hpp and concurrency/scheduler_accessor.hpp: [Task<T>], [Task<void>] and the
    thread-local scheduler pointer.  A coroutine frame holds its promise and where it is
    suspended; the code between suspension points is a tree [Code]; threads resume handles, run
    code and sit in the loop of [get()] on a native stack.  What C++ leaves undefined (resuming a
    coroutine that runs, has ended or was destroyed) is the control state [Undefined].

    A piece of code creates a task and awaits it in one expression ([co_await f()]), which is
    how the runtime uses tasks; the temporary is destroyed when the expression ends. *)

From S2P Require Import Prelude Effects.

Section coroutine.
(** [S]: the objects the code of coroutines works on; [V]: the values tasks return, with what
    [std::move] leaves behind. *)
Context {S V : Type} (moved : V -> V).

(** ** Frames *)

(** The primary template and its specialization for [void]. *)
Inductive kind := task_value | task_void.

(** What [get()] gives: an exception, a value, or nothing ([void get()]). *)
Definition gotten : Type := exn + option V.

(** The body of a coroutine: [co_return v;], an exception that leaves the body, code without
    suspension, and [co_await f()] with the rest of the body, which sees what [await_resume]
    returns or throws.  The rest after local code depends on the state that code started in. *)
Inductive Code :=
| co_return (v : option V)
| co_throw (e : exn)
| local (f : S -> S) (rest : S -> Code)
| co_await (q : kind) (callee : Code) (rest : gotten -> Code).

Record promise_type := {
  kind_ : kind;
  result_ : option V;
  exception_ : option exn;
  continuation : option nat;
}.

Inductive Status :=
| Initial (b : Code)
| Awaiting (c : nat) (rest : gotten -> Code)
| Running
| Final.

Record Frame := { promise : promise_type; status : Status }.

Definition set_status (st : Status) (f : Frame) : Frame := {| promise := promise f; status := st |}.

(** The frames alive, by handle; addresses are not reused, so that a dangling handle shows. *)
Record Heap := { frames : gmap nat Frame; next_handle : nat }.

Definition update_frames (g : gmap nat Frame -> gmap nat Frame) (H : Heap) : Heap :=
  {| frames := g (frames H); next_handle := next_handle H |}.

(** ** The promise *)

Definition new_promise (q : kind) : promise_type :=
  {| kind_ := q; result_ := None; exception_ := None; continuation := None |}.

(** Calling a coroutine: the frame is created, [get_return_object] makes the task that owns it
    and [initial_suspend] is [suspend_always]. *)
Definition get_return_object (q : kind) (b : Code) (H : Heap) : Heap * nat :=
  let h := next_handle H in
  ({| frames := <[h := {| promise := new_promise q; status := Initial b |}]> (frames H);
      next_handle := Datatypes.S h |}, h).

Definition return_value (v : V) (p : promise_type) : promise_type :=
  {| kind_ := kind_ p; result_ := Some v; exception_ := exception_ p; continuation := continuation p |}.

Definition return_void (p : promise_type) : promise_type := p.

Definition unhandled_exception (e : exn) (p : promise_type) : promise_type :=
  {| kind_ := kind_ p; result_ := result_ p; exception_ := Some e; continuation := continuation p |}.

(** Which of the two functions [co_return] calls is a matter of the promise's class.  A body of
    [Task<T>] that flows off its end has no defined behaviour in C++, since that promise has no
    [return_void]; no body of the repository does.  Here such a body leaves the result empty, so
    that [get] throws "No result available". *)
Definition do_return (v : option V) (p : promise_type) : promise_type :=
  match kind_ p, v with
  | task_value, Some v => return_value v p
  | _, _ => return_void p
  end.

Definition set_continuation (h : nat) (p : promise_type) : promise_type :=
  {| kind_ := kind_ p; result_ := result_ p; exception_ := exception_ p; continuation := Some h |}.

(** ** The task object *)

(** [handle_]; a moved-from task has none. *)
Definition Task : Type := option nat.

(** [handle_.done()] of a live frame. *)
Definition is_final (f : Frame) : bool := match status f with Final => true | _ => false end.
Definition handle_done (h : nat) (H : Heap) : bool :=
  match frames H !! h with Some f => is_final f | None => false end.

Definition task_done (t : Task) (H : Heap) : bool :=
  match t with Some h => handle_done h H | None => false end.

Definition await_ready (t : Task) (H : Heap) : bool :=
  match t with Some h => handle_done h H | None => false end.

(** [handle_.destroy()]: the frame is freed with its locals, among them the temporary task it
    awaits, which destroys its own frame.  [fuel] bounds the chain. *)
Fixpoint destroy (fuel : nat) (h : nat) (m : gmap nat Frame) : gmap nat Frame :=
  match fuel, m !! h with
  | Datatypes.S fuel, Some f =>
      match status f with
      | Awaiting c _ => destroy fuel c (delete h m)
      | _ => delete h m
      end
  | _, _ => m
  end.

Definition handle_destroy (h : nat) (H : Heap) : Heap :=
  update_frames (fun m => destroy (size m) h m) H.

Definition task_dtor (t : Task) (H : Heap) : Heap :=
  match t with Some h => handle_destroy h H | None => H end.

(** [Task(Task&& other)]: the new task and what is left of [other]. *)
Definition task_move (other : Task) : Task * Task := (other, None).

(** [operator=(Task&& other)]; [same] is [this == &other].  The result: the heap, [*this] and
    [other]. *)
Definition task_assign (same : bool) (this other : Task) (H : Heap) : Heap * Task * Task :=
  if same then (H, this, other)
  else (match this with Some h => handle_destroy h H | None => H end, other, None).

(** The end of [get()], once the coroutine is done: the exception is rethrown, the value moved
    out of the promise. *)
Definition take_result (p : promise_type) : promise_type * gotten :=
  match exception_ p with
  | Some e => (p, inl e)
  | None =>
      match kind_ p with
      | task_void => (p, inr None)
      | task_value =>
          match result_ p with
          | None => (p, inl (runtime_error "Task: No result available"))
          | Some v => (return_value (moved v) p, inr (Some v))
          end
      end
  end.

(** ** Threads *)

(** A native activation of [get()]: of the task [c] awaited by [h] ([await_resume]), or of a
    task by ordinary code. *)
Inductive Native :=
| get_in (h c : nat) (rest : gotten -> Code)
| get_top (t : Task).

Inductive Control :=
| Resuming (h : nat)
| Executing (h : nat) (b : Code)
| Returning                     (* back in the native caller: a loop of get(), or the worker *)
| Returned (r : gotten)         (* the outermost get() has returned or thrown *)
| Undefined.

(** [current_scheduler] of scheduler_accessor.cpp (whether it is set), the activation in
    progress and the native stack below it. *)
Record Thread := { current_scheduler : bool; control : Control; native : list Native }.

(** What the threads share: the frames, the handles submitted to the scheduler and not taken
    yet, and the objects the code works on. *)
Record Shared := { heap : Heap; submitted : list nat; objects : S }.

Definition getCurrentScheduler (t : Thread) : bool := current_scheduler t.
Definition setCurrentScheduler (b : bool) (t : Thread) : Thread :=
  {| current_scheduler := b; control := control t; native := native t |}.

Definition goto (c : Control) (t : Thread) : Thread :=
  {| current_scheduler := current_scheduler t; control := c; native := native t |}.
Definition push_native (n : Native) (t : Thread) : Thread :=
  {| current_scheduler := current_scheduler t; control := Returning; native := n :: native t |}.
Definition pop_native (c : Control) (t : Thread) : Thread :=
  {| current_scheduler := current_scheduler t; control := c; native := tail (native t) |}.

Definition on_heap (g : Heap -> Heap) (sh : Shared) : Shared :=
  {| heap := g (heap sh); submitted := submitted sh; objects := objects sh |}.
Definition put_frame (h : nat) (f : Frame) (sh : Shared) : Shared :=
  on_heap (update_frames (<[h := f]>)) sh.
Definition submit_handle (h : nat) (sh : Shared) : Shared :=
  {| heap := heap sh; submitted := submitted sh ++ [h]; objects := objects sh |}.
Definition set_objects (s : S) (sh : Shared) : Shared :=
  {| heap := heap sh; submitted := submitted sh; objects := s |}.

(** [final_suspend]: the frame stops for good, and control goes to the continuation by
    symmetric transfer, or back to the caller ([noop_coroutine]). *)
Definition final_suspend (h : nat) (p : promise_type) (t : Thread) (sh : Shared) : Thread * Shared :=
  (goto (match continuation p with Some k => Resuming k | None => Returning end) t,
   put_frame h {| promise := p; status := Final |} sh).

(** [await_suspend(awaiting)] of the task [c]. *)
Definition await_suspend (c awaiting : nat) (t : Thread) (sh : Shared) : Thread * Shared :=
  match frames (heap sh) !! c with
  | None => (goto Undefined t, sh)
  | Some f =>
      let sh := put_frame c {| promise := set_continuation awaiting (promise f); status := status f |} sh in
      if getCurrentScheduler t then (goto Returning t, submit_handle c sh)
      else (goto (Resuming c) t, sh)
  end.

(** One suspension-free stretch of the body of [h]. *)
Definition execute (h : nat) (b : Code) (t : Thread) (sh : Shared) : Thread * Shared :=
  match frames (heap sh) !! h with
  | None => (goto Undefined t, sh)
  | Some f =>
      match b with
      | co_return v => final_suspend h (do_return v (promise f)) t sh
      | co_throw e => final_suspend h (unhandled_exception e (promise f)) t sh
      | local g rest => (goto (Executing h (rest (objects sh))) t, set_objects (g (objects sh)) sh)
      | co_await q callee rest =>
          let '(H, c) := get_return_object q callee (heap sh) in
          let sh := on_heap (fun _ => H) sh in
          if await_ready (Some c) (heap sh) then (push_native (get_in h c rest) t, sh)
          else await_suspend c h t (put_frame h (set_status (Awaiting c rest) f) sh)
      end
  end.

(** [handle.resume()]: a suspended coroutine goes on, after an await with [await_resume()],
    that is [get()]; anything else is undefined. *)
Definition resume (h : nat) (t : Thread) (sh : Shared) : Thread * Shared :=
  match frames (heap sh) !! h with
  | None => (goto Undefined t, sh)
  | Some f =>
      match status f with
      | Initial b => (goto (Executing h b) t, put_frame h (set_status Running f) sh)
      | Awaiting c rest => (push_native (get_in h c rest) t, put_frame h (set_status Running f) sh)
      | Running | Final => (goto Undefined t, sh)
      end
  end.

(** One turn of the loop of [get()]: [while (handle_ && !handle_.done()) handle_.resume();],
    then the result; the temporary awaited by [h] dies with its expression. *)
Definition get_turn (n : Native) (t : Thread) (sh : Shared) : Thread * Shared :=
  match n with
  | get_in h c rest =>
      match frames (heap sh) !! c with
      | None => (goto Undefined t, sh)
      | Some f =>
          if is_final f
          then (pop_native (Executing h (rest (take_result (promise f)).2)) t,
                on_heap (task_dtor (Some c)) sh)
          else (goto (Resuming c) t, sh)
      end
  | get_top None => (pop_native (Returned (inl (runtime_error "Task: Invalid coroutine handle"))) t, sh)
  | get_top (Some c) =>
      match frames (heap sh) !! c with
      | None => (goto Undefined t, sh)
      | Some f =>
          if is_final f
          then (pop_native (Returned (take_result (promise f)).2) t,
                put_frame c {| promise := (take_result (promise f)).1; status := status f |} sh)
          else (goto (Resuming c) t, sh)
      end
  end.

(** One step of a thread; an idle worker takes the [pick]-th handle submitted, by
    [WorkItem::execute]. *)
Definition thread_step (pick : nat) (t : Thread) (sh : Shared) : option (Thread * Shared) :=
  match control t with
  | Returned _ | Undefined => None
  | Resuming h => Some (resume h t sh)
  | Executing h b => Some (execute h b t sh)
  | Returning =>
      match native t with
      | n :: _ => Some (get_turn n t sh)
      | [] =>
          h ← submitted sh !! pick;
          Some (goto (Resuming h) t,
                {| heap := heap sh; submitted := delete pick (submitted sh); objects := objects sh |})
      end
  end.

(** [Task::resume()] by ordinary code: nothing unless the coroutine is suspended. *)
Definition task_resume (k : Task) (t : Thread) (sh : Shared) : Thread * Shared :=
  match k with
  | Some h => if handle_done h (heap sh) then (t, sh) else (goto (Resuming h) t, sh)
  | None => (t, sh)
  end.

(** A call of [get()] by ordinary code. *)
Definition task_get (k : Task) (t : Thread) : Thread := push_native (get_top k) t.

(** A thread that runs by itself, and a pool of threads under any schedule. *)
Fixpoint run_alone (n : nat) (c : Thread * Shared) : Thread * Shared :=
  match n with
  | O => c
  | Datatypes.S n => match thread_step 0 c.1 c.2 with Some c' => run_alone n c' | None => c end
  end.

Inductive pool_step : list Thread * Shared -> list Thread * Shared -> Prop :=
| pool_thread_step ts sh i pick t t' sh' :
    ts !! i = Some t ->
    thread_step pick t sh = Some (t', sh') ->
    pool_step (ts, sh) (<[i := t']> ts, sh').

(** Ordinary code that holds tasks in its variables, on a thread without scheduler: it calls
    coroutines, moves and assigns tasks, gets results, and leaves scopes (the last variable
    dies first). *)
Record Scope := { vars : list Task; scope_heap : Heap; scope_objects : S }.

Definition plain_thread : Thread := {| current_scheduler := false; control := Returning; native := [] |}.

Inductive scope_step : Scope -> Scope -> Prop :=
| scope_call vs H s q b H' h :
    get_return_object q b H = (H', h) ->
    scope_step {| vars := vs; scope_heap := H; scope_objects := s |}
               {| vars := vs ++ [Some h]; scope_heap := H'; scope_objects := s |}
| scope_move vs H s i other t other' :
    vs !! i = Some other -> task_move other = (t, other') ->
    scope_step {| vars := vs; scope_heap := H; scope_objects := s |}
               {| vars := <[i := other']> vs ++ [t]; scope_heap := H; scope_objects := s |}
| scope_assign vs H s i j this other H' this' other' :
    vs !! i = Some this -> vs !! j = Some other ->
    task_assign (bool_decide (i = j)) this other H = (H', this', other') ->
    scope_step {| vars := vs; scope_heap := H; scope_objects := s |}
               {| vars := <[i := this']> (<[j := other']> vs); scope_heap := H'; scope_objects := s |}
| scope_get vs H s i t k th sh r :
    vs !! i = Some t ->
    run_alone k (task_get t plain_thread, {| heap := H; submitted := []; objects := s |}) = (th, sh) ->
    control th = Returned r ->
    scope_step {| vars := vs; scope_heap := H; scope_objects := s |}
               {| vars := vs; scope_heap := heap sh; scope_objects := objects sh |}
| scope_exit vs H s t :
    scope_step {| vars := vs ++ [t]; scope_heap := H; scope_objects := s |}
               {| vars := vs; scope_heap := task_dtor t H; scope_objects := s |}.

(** ** The reference: the same code as ordinary nested calls *)

(** What the body of a coroutine of kind [q] ends with, [co_await] being a call. *)
Definition observe (q : kind) (v : option V) : gotten :=
  match q, v with
  | task_void, _ => inr None
  | task_value, Some v => inr (Some v)
  | task_value, None => inl (runtime_error "Task: No result available")
  end.

Fixpoint call (q : kind) (b : Code) (s : S) : S * gotten :=
  match b with
  | co_return v => (s, observe q v)
  | co_throw e => (s, inl e)
  | local f rest => call q (rest s) (f s)
  | co_await q' callee rest =>
      let '(s, r) := call q' callee s in call q (rest r) s
  end.

(** Whether the calls of [b] from [s] await anything. *)
Fixpoint awaits (b : Code) (s : S) : bool :=
  match b with
  | co_return _ | co_throw _ => false
  | local f rest => awaits (rest s) (f s)
  | co_await _ _ _ => true
  end.
End coroutine.

Arguments Code : clear implicits.
Arguments Frame : clear implicits.
Arguments Heap : clear implicits.
Arguments Thread : clear implicits.
Arguments Shared : clear implicits.
Arguments gotten : clear implicits.
Arguments promise_type : clear implicits.
Arguments Scope : clear implicits.
