(* ===== verification/CoroutineTheorems.v ===== *)
(** * CoroutineTheorems: tasks compute what nested calls compute

    Lemmas and theorems about [Coroutine]: without a scheduler, and on the workers of a pool, a
    task ends with the outcome of its body read as ordinary calls, whatever the nesting; every
    frame has one owner; and [get()] on a worker thread resumes a running coroutine as soon as
    the body awaits something. *)

From S2P Require Import Prelude Effects Coroutine.
From stdpp Require Import relations.

Section facts.
Context {S V : Type} (moved : V -> V).
Abbreviation Code := (Code S V).
Abbreviation Frame := (Frame S V).
Abbreviation Heap := (Heap S V).
Abbreviation Thread := (Thread S V).
Abbreviation Shared := (Shared S V).
Implicit Types (b : Code) (m : gmap nat Frame) (H : Heap) (N : list (@Native S V)) (s : S).

Definition mk_thread (sched : bool) (c : Control) N : Thread :=
  {| current_scheduler := sched; control := c; native := N |}.
Definition mk_heap m (n : nat) : Heap := {| frames := m; next_handle := n |}.
Definition mk_shared m (n : nat) (q : list nat) s : Shared :=
  {| heap := mk_heap m n; submitted := q; objects := s |}.
Definition running (p : promise_type V) : Frame := {| promise := p; status := Running |}.
Definition final (p : promise_type V) : Frame := {| promise := p; status := Final |}.

(** Handles not handed out yet have no frame. *)
Definition fresh_from (n : nat) m : Prop := forall h, n <= h -> m !! h = None.

Definition unsettled (p : promise_type V) : Prop := result_ p = None /\ exception_ p = None.
Definition after (p : promise_type V) : @Control S V :=
  match continuation p with Some k => Resuming k | None => Returning end.

Definition alone (c c' : Thread * Shared) : Prop := thread_step moved 0 c.1 c.2 = Some c'.

Lemma fresh_from_insert n m h f : fresh_from n m -> h < n -> fresh_from n (<[h := f]> m).
Proof. intros Hf Hh k Hk. rewrite lookup_insert_ne by lia. by apply Hf. Qed.
Lemma fresh_from_le n n' m : fresh_from n m -> n <= n' -> fresh_from n' m.
Proof. intros Hf Hn k Hk. apply Hf. lia. Qed.
Lemma fresh_from_live n m h f : fresh_from n m -> m !! h = Some f -> h < n.
Proof. intros Hf Hh. destruct (decide (h < n)) as [|Hge]; [done|]. rewrite Hf in Hh by lia. done. Qed.

Lemma destroy_final m h p : m !! h = Some (final p) -> destroy (size m) h m = delete h m.
Proof.
  intros Hh. destruct (size m) as [|k] eqn:E.
  - apply map_size_empty_inv in E. subst. done.
  - simpl. by rewrite Hh.
Qed.

(** ** The steps of one thread *)

Lemma step_return sched h v p N m n q s : m !! h = Some (running p) ->
  alone (mk_thread sched (Executing h (co_return v)) N, mk_shared m n q s)
        (mk_thread sched (after p) N, mk_shared (<[h := final (do_return v p)]> m) n q s).
Proof.
  intros Hh. unfold alone, thread_step. simpl. unfold execute. simpl. rewrite Hh. simpl.
  unfold final_suspend, after. destruct p as [[] ? ? ?], v; done.
Qed.

Lemma step_throw sched h e p N m n q s : m !! h = Some (running p) ->
  alone (mk_thread sched (Executing h (co_throw e)) N, mk_shared m n q s)
        (mk_thread sched (after p) N, mk_shared (<[h := final (unhandled_exception e p)]> m) n q s).
Proof. intros Hh. unfold alone, thread_step. simpl. unfold execute. simpl. by rewrite Hh. Qed.

Lemma step_local sched h f rest p N m n q s : m !! h = Some (running p) ->
  alone (mk_thread sched (Executing h (local f rest)) N, mk_shared m n q s)
        (mk_thread sched (Executing h (rest s)) N, mk_shared m n q (f s)).
Proof. intros Hh. unfold alone, thread_step. simpl. unfold execute. simpl. by rewrite Hh. Qed.

(** The promise of a task awaited by [h]. *)
Definition awaited_by (h : nat) (k : kind) : promise_type V :=
  set_continuation h (new_promise k).
Definition waiting (p : promise_type V) (c : nat) (rest : gotten V -> Code) : Frame :=
  {| promise := p; status := Awaiting c rest |}.
Definition initial (p : promise_type V) b : Frame := {| promise := p; status := Initial b |}.

Lemma step_await sched h k callee rest p N m n q s :
  m !! h = Some (running p) -> fresh_from n m ->
  alone (mk_thread sched (Executing h (co_await k callee rest)) N, mk_shared m n q s)
        (mk_thread sched (if sched then Returning else Resuming n) N,
         mk_shared (<[n := initial (awaited_by h k) callee]> (<[h := waiting p n rest]> m)) (Datatypes.S n)
           (if sched then q ++ [n] else q) s).
Proof.
  intros Hh Hf. pose proof (fresh_from_live _ _ _ _ Hf Hh) as Hlt.
  unfold alone, thread_step. simpl. unfold execute. simpl. rewrite Hh. simpl.
  unfold await_ready, handle_done. simpl. rewrite lookup_insert_eq. simpl.
  unfold await_suspend, put_frame, on_heap, update_frames. simpl.
  rewrite lookup_insert_ne by lia. rewrite lookup_insert_eq. simpl.
  rewrite (insert_insert_ne m h n) by lia. rewrite insert_insert_eq.
  by destruct sched.
Qed.

Lemma step_start sched h p b N m n q s : m !! h = Some (initial p b) ->
  alone (mk_thread sched (Resuming h) N, mk_shared m n q s)
        (mk_thread sched (Executing h b) N, mk_shared (<[h := running p]> m) n q s).
Proof. intros Hh. unfold alone, thread_step. simpl. unfold resume. simpl. by rewrite Hh. Qed.

Lemma step_wake sched h p c rest N m n q s : m !! h = Some (waiting p c rest) ->
  alone (mk_thread sched (Resuming h) N, mk_shared m n q s)
        (mk_thread sched Returning (get_in h c rest :: N), mk_shared (<[h := running p]> m) n q s).
Proof. intros Hh. unfold alone, thread_step. simpl. unfold resume. simpl. by rewrite Hh. Qed.

Lemma step_taken sched h c p rest N m n q s : m !! c = Some (final p) ->
  alone (mk_thread sched Returning (get_in h c rest :: N), mk_shared m n q s)
        (mk_thread sched (Executing h (rest (take_result moved p).2)) N, mk_shared (delete c m) n q s).
Proof.
  intros Hc. unfold alone, thread_step. simpl. rewrite Hc. simpl.
  do 3 f_equal. unfold on_heap, handle_destroy, update_frames, mk_shared, mk_heap. simpl.
  f_equal. unfold handle_destroy, update_frames. simpl. f_equal. by apply (destroy_final m c p).
Qed.

Lemma step_pick h N m n q s : N = [] ->
  alone (mk_thread true Returning N, mk_shared m n (h :: q) s)
        (mk_thread true (Resuming h) N, mk_shared m n q s).
Proof. by intros ->. Qed.

(** ** A task ends with the outcome of the call *)

Lemma settled_return p v : unsettled p ->
  (take_result moved (do_return v p)).2 = observe (kind_ p) v.
Proof. intros [Hr He]. destruct p as [[] ? ? ?], v; simpl in *; by subst. Qed.

Definition can_await (sched : bool) b s N (q : list nat) : Prop :=
  sched = false \/ awaits b s = false \/ (N = [] /\ q = []).

(** A worker with nothing to do. *)
Definition idle : Thread := mk_thread true Returning [].

(** A step from a state in which a handle is submitted beyond [q] only while the thread is an
    idle worker. *)
Definition tidy (q : list nat) (c c' : Thread * Shared) : Prop :=
  alone c c' /\ (submitted c.2 = q \/ exists x, submitted c.2 = q ++ [x] /\ c.1 = idle).

Lemma tidy_l q c c1 c' : alone c c1 -> submitted c.2 = q -> rtc (tidy q) c1 c' -> rtc (tidy q) c c'.
Proof. intros H1 Hq. apply rtc_l. split; [done|by left]. Qed.

Lemma tidy_pick x c c1 c' : alone c c1 -> submitted c.2 = [x] -> c.1 = idle ->
  rtc (tidy []) c1 c' -> rtc (tidy []) c c'.
Proof. intros H1 Hq Hi. apply rtc_l. split; [done|]. right. by exists x. Qed.

(** From the start of an awaited task to the code after the await, given how its body ends. *)
Lemma await_returns sched h n n1 k callee rest p p1 N m q s s1 :
  m !! h = Some (running p) -> fresh_from n m ->
  rtc (tidy q)
    (mk_thread sched (Executing n callee) N,
     mk_shared (<[n := running (awaited_by h k)]> (<[h := waiting p n rest]> m)) (Datatypes.S n) q s)
    (mk_thread sched (after (awaited_by h k)) N,
     mk_shared (<[n := final p1]> (<[n := running (awaited_by h k)]> (<[h := waiting p n rest]> m))) n1 q s1) ->
  rtc (tidy q)
    (mk_thread sched (Resuming n) N,
     mk_shared (<[n := initial (awaited_by h k) callee]> (<[h := waiting p n rest]> m)) (Datatypes.S n) q s)
    (mk_thread sched (Executing h (rest (take_result moved p1).2)) N, mk_shared m n1 q s1).
Proof.
  intros Hh Hf Hs1. pose proof (fresh_from_live _ _ _ _ Hf Hh) as Hlt.
  eapply tidy_l; [apply step_start, lookup_insert_eq|done|]. rewrite insert_insert_eq.
  etrans; [exact Hs1|]. rewrite insert_insert_eq. unfold after. simpl.
  eapply tidy_l; [apply step_wake; by rewrite lookup_insert_ne, lookup_insert_eq by lia|done|].
  eapply tidy_l; [apply step_taken; rewrite lookup_insert_ne by lia; apply lookup_insert_eq|done|].
  rewrite (insert_insert_ne _ h n) by lia. rewrite insert_insert_eq.
  rewrite delete_insert_id; [|by rewrite lookup_insert_ne by lia; apply Hf].
  rewrite insert_id by done. apply rtc_refl.
Qed.

Lemma body_runs sched b : forall h p N m n q s,
  m !! h = Some (running p) -> unsettled p -> fresh_from n m -> can_await sched b s N q ->
  exists n' p', n <= n' /\ (take_result moved p').2 = (call (kind_ p) b s).2
    /\ rtc (tidy q) (mk_thread sched (Executing h b) N, mk_shared m n q s)
         (mk_thread sched (after p) N, mk_shared (<[h := final p']> m) n' q (call (kind_ p) b s).1).
Proof.
  induction b as [v|e|f rest IH|k callee IHc rest IH]; intros h p N m n q s Hh Hp Hf Hc.
  - exists n, (do_return v p). split; [done|]. split; [by apply settled_return|].
    eapply tidy_l; [by apply step_return|done|apply rtc_refl].
  - exists n, (unhandled_exception e p). do 2 (split; [done|]).
    eapply tidy_l; [by apply step_throw|done|apply rtc_refl].
  - destruct (IH s h p N m n q (f s)) as (n' & p' & Hn & Hr & Hs); [done..|].
    exists n', p'. do 2 (split; [done|]). eapply tidy_l; [by eapply step_local|done|]. done.
  - assert (Hc' : sched = false \/ (N = [] /\ q = [])) by (by destruct Hc as [|[|]]; auto).
    pose proof (fresh_from_live _ _ _ _ Hf Hh) as Hlt.
    destruct (IHc n (awaited_by h k) N (<[n := running (awaited_by h k)]> (<[h := waiting p n rest]> m))
      (Datatypes.S n) q s) as (n1 & p1 & Hn1 & Hr1 & Hs1).
    + apply lookup_insert_eq.
    + done.
    + apply fresh_from_insert; [apply fresh_from_insert|]; [by eapply fresh_from_le, Nat.le_succ_diag_r|lia..].
    + unfold can_await. tauto.
    + simpl in Hr1, Hs1 |- *. destruct (call k callee s) as [s1 r1]. simpl in *. subst r1.
      apply await_returns in Hs1 as Hback; [|done..].
      destruct (IH (take_result moved p1).2 h p N m n1 q s1) as (n' & p' & Hn & Hr & Hs); [done|done| |
        unfold can_await; tauto|].
      { eapply fresh_from_le; [done|lia]. }
      exists n', p'. split; [lia|]. split; [done|].
      eapply tidy_l; [by apply step_await|done|].
      destruct sched; simpl; [|etrans; [exact Hback|exact Hs]].
      destruct Hc' as [|[-> ->]]; [done|]. simpl.
      eapply tidy_pick; [by apply step_pick|done|done|]. etrans; [exact Hback|exact Hs].
Qed.

(** ** [get()] by ordinary code *)

Lemma tidy_alone q c c' : rtc (tidy q) c c' -> rtc alone c c'.
Proof. induction 1 as [|c c1 c' [H1 _] _ IH]; [apply rtc_refl|by eapply rtc_l]. Qed.

Lemma run_alone_rtc c c' : rtc alone c c' -> thread_step moved 0 c'.1 c'.2 = None ->
  exists k, forall j, k <= j -> run_alone moved j c = c'.
Proof.
  induction 1 as [c|c c1 c' H1 _ IH]; intros Hend.
  - exists 0. intros [|j] _; simpl; [done|]. by rewrite Hend.
  - destruct (IH Hend) as [k Hk]. exists (Datatypes.S k). intros [|j] Hj; [lia|]. simpl.
    rewrite H1. apply Hk. lia.
Qed.

Lemma step_loop sched L h f N m n q s :
  L = get_top (Some h) \/ (exists g rest, L = get_in g h rest) ->
  m !! h = Some f -> is_final f = false ->
  alone (mk_thread sched Returning (L :: N), mk_shared m n q s)
        (mk_thread sched (Resuming h) (L :: N), mk_shared m n q s).
Proof.
  intros HL Hh Hf. unfold alone, thread_step. simpl.
  destruct HL as [->|(g & rest & ->)]; simpl; by rewrite Hh, Hf.
Qed.

(** The frame left by [get()]: its value was moved out. *)
Definition emptied (p : promise_type V) : Frame :=
  {| promise := (take_result moved p).1; status := Final |}.

Lemma step_got sched h p N m n q s : m !! h = Some (final p) ->
  alone (mk_thread sched Returning (get_top (Some h) :: N), mk_shared m n q s)
        (mk_thread sched (Returned (take_result moved p).2) N, mk_shared (<[h := emptied p]> m) n q s).
Proof. intros Hh. unfold alone, thread_step. simpl. by rewrite Hh. Qed.

Lemma get_runs sched q b h m n Q s :
  m !! h = Some (initial (new_promise q) b) -> fresh_from n m ->
  sched = false \/ awaits b s = false ->
  exists n' p', n <= n' /\ rtc alone (task_get (Some h) (mk_thread sched Returning []), mk_shared m n Q s)
    (mk_thread sched (Returned (call q b s).2) [],
     mk_shared (<[h := emptied p']> m) n' Q (call q b s).1).
Proof.
  intros Hh Hf Hs. pose proof (fresh_from_live _ _ _ _ Hf Hh) as Hlt.
  destruct (body_runs sched b h (new_promise q) [get_top (Some h)] (<[h := running (new_promise q)]> m) n Q s)
    as (n' & p' & Hn & Hr & Hrun); [apply lookup_insert_eq|done|by apply fresh_from_insert|
    unfold can_await; tauto|].
  exists n', p'. split; [done|]. simpl in *. rewrite <- Hr.
  eapply rtc_l; [eapply step_loop; [by left|done|done]|].
  eapply rtc_l; [by apply step_start|].
  etrans; [eapply tidy_alone, Hrun|]. unfold after. simpl. rewrite insert_insert_eq.
  eapply rtc_l; [apply step_got, lookup_insert_eq|]. rewrite insert_insert_eq. apply rtc_refl.
Qed.
(** ** A pool of workers *)

(** The pool does what the thread of [c] does: one worker may be at work, the others are idle. *)
Definition follows (P : list Thread * Shared) (c : Thread * Shared) : Prop :=
  P.2 = c.2 /\ exists i, P.1 !! i = Some c.1 /\ forall j t, j <> i -> P.1 !! j = Some t -> t = idle.

Lemma idle_stays pick (sh : Shared) : submitted sh = [] -> thread_step moved pick idle sh = None.
Proof. intros Hq. unfold thread_step. simpl. by rewrite Hq. Qed.

(** Only an idle worker looks at the choice. *)
Lemma step_pick_irrelevant pick (t : Thread) (sh : Shared) r : thread_step moved pick t sh = Some r ->
  submitted sh = [] -> thread_step moved 0 t sh = Some r.
Proof.
  unfold thread_step. destruct (control t), (native t); try done. intros H Hq. by rewrite Hq in *.
Qed.

Lemma follows_step P P' c c' : follows P c -> tidy [] c c' -> pool_step moved P P' -> follows P' c'.
Proof.
  intros [Hsh (i & Hi & Hrest)] [Hc Hq] Hp. destruct Hp as [ts sh j pick t t' sh' Hj Ht].
  destruct c as [t0 sh0], c' as [t1 sh1]. unfold alone in Hc. simpl in *. subst sh0.
  assert (Hcase : t = t0 /\ thread_step moved 0 t sh = Some (t', sh')
                  /\ forall l t, l <> j -> ts !! l = Some t -> t = idle).
  { destruct Hq as [Hq|(x & Hq & ->)].
    - destruct (decide (j = i)) as [->|Hne].
      + assert (t = t0) as -> by congruence. split; [done|]. split; [|done].
        by eapply step_pick_irrelevant.
      + rewrite (Hrest _ _ Hne Hj), idle_stays in Ht by done. done.
    - assert (t = idle) as ->.
      { destruct (decide (j = i)) as [->|Hne]; [congruence|by eapply Hrest]. }
      split; [done|]. split.
      + revert Ht. unfold thread_step. simpl. rewrite Hq. destruct pick; [done|by destruct pick].
      + intros l u Hl Hu. destruct (decide (l = i)) as [->|Hne]; [congruence|by eapply Hrest]. }
  destruct Hcase as (-> & Ht0 & Hothers). rewrite Hc in Ht0. injection Ht0 as -> ->.
  split; [done|]. exists j. simpl. split; [apply list_lookup_insert_eq; by eapply lookup_lt_Some|].
  intros l u Hl Hu. rewrite list_lookup_insert_ne in Hu by done. by eapply Hothers.
Qed.

(** A pool that follows a run with an end cannot step more often, and stays on the run. *)
Lemma follows_run c cN : rtc (tidy []) c cN -> cN.1 = idle -> submitted cN.2 = [] ->
  exists K, forall P, follows P c -> forall k P', nsteps (pool_step moved) k P P' ->
    k <= K /\ exists c', follows P' c' /\ rtc (tidy []) c' cN.
Proof.
  intros Hrun Hend Hq. induction Hrun as [c|c c1 cN Hc Hrun IH].
  - exists 0. intros P HP k P' Hk. destruct Hk as [|k P P1 P' H1 _].
    + split; [done|]. exists c. split; [done|apply rtc_refl].
    + exfalso. destruct HP as [Hsh (i & Hi & Hrest)]. destruct H1 as [ts sh j pick t t' sh' Hj Ht]. simpl in *.
      assert (t = idle) as ->.
      { destruct (decide (j = i)) as [->|Hne]; [congruence|by eapply Hrest]. }
      rewrite idle_stays in Ht; [done|]. congruence.
  - destruct (IH Hend Hq) as [K HK]. exists (Datatypes.S K). intros P HP k P' Hk.
    destruct Hk as [|k P P1 P' H1 Hk].
    + split; [lia|]. exists c. split; [done|]. by eapply rtc_l.
    + destruct (HK P1 (follows_step _ _ _ _ HP Hc H1) k P' Hk) as [? ?]. split; [lia|done].
Qed.

Lemma follows_defined P c cN : follows P c -> rtc (tidy []) c cN -> cN.1 = idle ->
  Forall (fun t => control t <> Undefined) P.1.
Proof.
  intros [_ (i & Hi & Hrest)] Hrun Hend. apply Forall_lookup. intros j t Hj.
  destruct (decide (j = i)) as [->|Hne]; [|by rewrite (Hrest _ _ Hne Hj)].
  assert (t = c.1) as -> by congruence.
  destruct Hrun as [c|c c1 cN [Hc _] _]; [by rewrite Hend|].
  intros E. unfold alone, thread_step in Hc. by rewrite E in Hc.
Qed.

Lemma follows_stops P c cN : follows P c -> rtc (tidy []) c cN ->
  (forall P', ~ pool_step moved P P') -> P.2 = cN.2.
Proof.
  intros [Hsh (i & Hi & _)] Hrun Hstop. destruct Hrun as [c|c c1 cN [Hc _] _]; [done|].
  destruct P as [ts sh], c1 as [t1 sh1]. simpl in *. subst sh.
  destruct (Hstop _ (pool_thread_step moved ts c.2 i 0 c.1 t1 sh1 Hi Hc)).
Qed.

(** The run of a submitted task by one worker. *)
Lemma worker_runs q b h m n s :
  m !! h = Some (initial (new_promise q) b) -> fresh_from n m ->
  exists n' p', (take_result moved p').2 = (call q b s).2
    /\ rtc (tidy []) (idle, mk_shared m n [h] s) (idle, mk_shared (<[h := final p']> m) n' [] (call q b s).1).
Proof.
  intros Hh Hf. pose proof (fresh_from_live _ _ _ _ Hf Hh) as Hlt.
  destruct (body_runs true b h (new_promise q) [] (<[h := running (new_promise q)]> m) n [] s)
    as (n' & p' & Hn & Hr & Hrun); [apply lookup_insert_eq|done|by apply fresh_from_insert|
    unfold can_await; tauto|].
  exists n', p'. split; [done|]. eapply tidy_pick; [by apply step_pick|done|done|].
  eapply tidy_l; [by apply step_start|done|]. rewrite insert_insert_eq in Hrun. exact Hrun.
Qed.

(** ** [get()] on a worker thread *)

Lemma worker_stuck b : forall h p L N m n q s,
  m !! h = Some (running p) -> fresh_from n m ->
  L = get_top (Some h) \/ (exists g rest, L = get_in g h rest) -> awaits b s = true ->
  exists c', rtc alone (mk_thread true (Executing h b) (L :: N), mk_shared m n q s) c'
    /\ control c'.1 = Undefined.
Proof.
  induction b as [v|e|f rest IH|k callee IHc rest _]; intros h p L N m n q s Hh Hf HL Ha; [done|done| |].
  - destruct (IH s h p L N m n q (f s)) as (c' & Hrun & Hc'); [done..|].
    exists c'. split; [|done]. eapply rtc_l; [by eapply step_local|done].
  - pose proof (fresh_from_live _ _ _ _ Hf Hh) as Hlt. clear Ha.
    set (m1 := <[h := running p]> (<[n := initial (awaited_by h k) callee]> (<[h := waiting p n rest]> m))).
    set (m2 := <[n := running (awaited_by h k)]> m1).
    assert (Hm2 : m2 !! h = Some (running p)).
    { unfold m2, m1. rewrite lookup_insert_ne by lia. apply lookup_insert_eq. }
    assert (Hf2 : fresh_from (Datatypes.S n) m2).
    { unfold m2, m1. repeat (apply fresh_from_insert; [|lia]). eapply fresh_from_le; [done|lia]. }
    assert (Hrun : rtc alone (mk_thread true (Executing h (co_await k callee rest)) (L :: N), mk_shared m n q s)
      (mk_thread true (Executing n callee) (get_in h n rest :: L :: N), mk_shared m2 (Datatypes.S n) (q ++ [n]) s)).
    { eapply rtc_l; [by apply step_await|].
      eapply rtc_l; [eapply step_loop; [done| |]; [rewrite lookup_insert_ne by lia; apply lookup_insert_eq|done]|].
      eapply rtc_l; [apply step_wake; rewrite lookup_insert_ne by lia; apply lookup_insert_eq|].
      eapply rtc_l; [eapply step_loop; [right; by eexists _, _| |];
        [rewrite lookup_insert_ne by lia; apply lookup_insert_eq|done]|].
      eapply rtc_l; [apply step_start; rewrite lookup_insert_ne by lia; apply lookup_insert_eq|].
      apply rtc_refl. }
    destruct (awaits callee s) eqn:Ea.
    + destruct (IHc n (awaited_by h k) (get_in h n rest) (L :: N) m2 (Datatypes.S n) (q ++ [n]) s)
        as (c' & Hc & Hu); [apply lookup_insert_eq|done|right; by eexists _, _|done|].
      exists c'. split; [by etrans|done].
    + destruct (body_runs true callee n (awaited_by h k) (get_in h n rest :: L :: N) m2 (Datatypes.S n)
        (q ++ [n]) s) as (n' & p' & _ & _ & Hc); [apply lookup_insert_eq|done|done|unfold can_await; tauto|].
      eexists. split.
      * etrans; [exact Hrun|]. etrans; [eapply tidy_alone, Hc|]. unfold after. simpl.
        apply rtc_once. unfold alone, thread_step. simpl. unfold resume. simpl.
        rewrite lookup_insert_ne by lia. rewrite Hm2. done.
      * done.
Qed.
(** ** Ownership of frames *)

(** A frame between statements of ordinary code: not started, or done. *)
Definition settled_frame (f : Frame) : Prop :=
  (exists q b, f = initial (new_promise q) b) \/ exists p, f = final p.

Record owned (sc : Scope S V) : Prop := {
  owned_once : NoDup (omap id (vars sc));
  owned_all h : is_Some (frames (scope_heap sc) !! h) <-> h ∈ omap id (vars sc);
  owned_settled h f : frames (scope_heap sc) !! h = Some f -> settled_frame f;
  owned_fresh : fresh_from (next_handle (scope_heap sc)) (frames (scope_heap sc));
}.

Lemma destroy_settled m h f : m !! h = Some f -> settled_frame f -> destroy (size m) h m = delete h m.
Proof.
  intros Hh Hf. destruct (size m) as [|k] eqn:E.
  - apply map_size_empty_inv in E. subst. done.
  - simpl. rewrite Hh. by destruct Hf as [(q & b & ->)|[p ->]].
Qed.

(** Writing a variable: what it held is replaced among the handles held. *)
Lemma held_insert (l : list Task) i t u : l !! i = Some t ->
  option_list t ++ omap id (<[i := u]> l) ≡ₚ option_list u ++ omap id l.
Proof.
  intros Hi. assert (E : omap id l = omap id (take i l) ++ option_list t ++ omap id (drop (Datatypes.S i) l)).
  { rewrite <- (take_drop_middle l i t Hi) at 1. rewrite omap_app. by destruct t. }
  rewrite insert_take_drop by (by eapply lookup_lt_Some). rewrite omap_app, E. simpl.
  destruct t, u; simpl; solve_Permutation.
Qed.

(** The variables change, the handles they hold only move among them. *)
Lemma owned_permuted vs vs' H s : omap id vs' ≡ₚ omap id vs ->
  owned {| vars := vs; scope_heap := H; scope_objects := s |} ->
  owned {| vars := vs'; scope_heap := H; scope_objects := s |}.
Proof.
  intros Hp [Hn Ha Hs Hf]. split; simpl in *; [by rewrite Hp| |done|done].
  intros h. by rewrite Ha, Hp.
Qed.

(** A variable is destroyed. *)
Lemma owned_destroyed vs vs' t H s : omap id vs ≡ₚ option_list t ++ omap id vs' ->
  owned {| vars := vs; scope_heap := H; scope_objects := s |} ->
  owned {| vars := vs'; scope_heap := task_dtor t H; scope_objects := s |}.
Proof.
  intros Hp [Hn Ha Hs Hf]. simpl in *. destruct t as [h|]; simpl in Hp.
  2:{ split; simpl; [by rewrite <- Hp| |done|done]. intros h. by rewrite Ha, Hp. }
  rewrite Hp in Hn. apply NoDup_cons in Hn as [Hh Hn].
  destruct (proj2 (Ha h)) as [f Hfh]; [rewrite Hp; by left|].
  unfold task_dtor, handle_destroy, update_frames.
  split; simpl; rewrite ?(destroy_settled _ _ _ Hfh (Hs _ _ Hfh)).
  - done.
  - intros k. rewrite lookup_delete_is_Some, Ha, Hp, elem_of_cons. naive_solver.
  - intros k g Hk. apply lookup_delete_Some in Hk as [_ Hk]. by eapply Hs.
  - intros k Hk. apply lookup_delete_None. right. by apply Hf.
Qed.

(** A frame is replaced by a settled one. *)
Lemma owned_updated vs H s h f n' s' :
  owned {| vars := vs; scope_heap := H; scope_objects := s |} ->
  is_Some (frames H !! h) -> settled_frame f -> next_handle H <= n' ->
  owned {| vars := vs; scope_heap := mk_heap (<[h := f]> (frames H)) n'; scope_objects := s' |}.
Proof.
  intros [Hn Ha Hs Hf] Hh Hset Hn'. simpl in *. split; simpl.
  - done.
  - intros k. rewrite lookup_insert_is_Some, Ha. split; [|by intros; destruct (decide (h = k)); auto].
    intros [<-|[_ Hk]]; [by apply Ha|done].
  - intros k g Hk. apply lookup_insert_Some in Hk as [[<- <-]|[_ Hk]]; [done|by eapply Hs].
  - destruct Hh as [g Hg]. apply fresh_from_insert; [by eapply fresh_from_le|].
    pose proof (fresh_from_live _ _ _ _ Hf Hg). lia.
Qed.

Lemma run_alone_end k (c : Thread * Shared) : thread_step moved 0 (run_alone moved k c).1 (run_alone moved k c).2 = None ->
  forall j, k <= j -> run_alone moved j c = run_alone moved k c.
Proof.
  revert c. induction k as [|k IH]; intros c Hend j Hj; simpl in *.
  - destruct j; simpl; [done|]. by rewrite Hend.
  - destruct j as [|j]; [lia|]. simpl. destruct (thread_step moved 0 c.1 c.2) as [c'|] eqn:E; [|done].
    apply IH; [done|lia].
Qed.

Lemma run_alone_unique k (c c' : Thread * Shared) r : control (run_alone moved k c).1 = Returned r ->
  rtc alone c c' -> thread_step moved 0 c'.1 c'.2 = None -> run_alone moved k c = c'.
Proof.
  intros Hk Hrun Hend. destruct (run_alone_rtc _ _ Hrun Hend) as [k' Hk'].
  rewrite <- (run_alone_end k c) with (j := k + k'); [apply Hk'; lia| |lia].
  unfold thread_step. by rewrite Hk.
Qed.

Lemma owned_got vs H s i t k th sh r :
  owned {| vars := vs; scope_heap := H; scope_objects := s |} -> vs !! i = Some t ->
  run_alone moved k (task_get t plain_thread, {| heap := H; submitted := []; objects := s |}) = (th, sh) ->
  control th = Returned r ->
  owned {| vars := vs; scope_heap := heap sh; scope_objects := objects sh |}.
Proof.
  intros Ho Hi Hrun Hr. pose proof Ho as [_ Ha Hs Hf]. simpl in *. destruct H as [m n]. simpl in *.
  assert (Hend : forall th' sh', rtc alone (task_get t plain_thread, mk_shared m n [] s) (th', sh') ->
    thread_step moved 0 th' sh' = None -> sh = sh').
  { intros th' sh' Hrtc Hn. enough ((th, sh) = (th', sh')) by congruence. rewrite <- Hrun.
    eapply run_alone_unique; [|exact Hrtc|done]. by rewrite Hrun. }
  destruct t as [h|].
  2:{ assert (sh = mk_shared m n [] s) as ->.
      { eapply Hend; [by apply rtc_once|done]. }
      destruct Ho as [? ? ? ?]. by split. }
  assert (Hown : h ∈ omap id vs) by (apply list_elem_of_omap; exists (Some h); split; [by eapply list_elem_of_lookup_2|done]).
  destruct (proj2 (Ha h) Hown) as [f Hfh].
  destruct (Hs _ _ Hfh) as [(q & b & ->)|[p ->]].
  - destruct (get_runs false q b h m n [] s) as (n' & p' & Hn & Hg); [done|done|by left|].
    apply Hend in Hg as ->; [|done]. simpl.
    apply (owned_updated _ _ _ h _ n' _ Ho); [by eexists|right; by eexists|done].
  - pose proof (step_got false h p [] m n [] s Hfh) as Hg. apply rtc_once, Hend in Hg as ->; [|done]. simpl.
    apply (owned_updated _ _ _ h _ n _ Ho); [by eexists|right; by eexists|done].
Qed.

Lemma owned_step sc sc' : owned sc -> scope_step moved sc sc' -> owned sc'.
Proof.
  intros Ho Hstep.
  destruct Hstep as [vs H s q b H' h E|vs H s i other t other' Hi E|vs H s i j this other H' this' other' Hi Hj E
    |vs H s i t k th sh r Hi Hrun Hr|vs H s t].
  - injection E as <- <-. destruct Ho as [Hn Ha Hs Hf]. simpl in *.
    assert (Hnew : next_handle H ∉ omap id vs).
    { intros Hin. apply Ha in Hin as [f Hfr]. by rewrite Hf in Hfr by done. }
    split; simpl; rewrite ?omap_app; simpl.
    + apply NoDup_app. split; [done|]. split; [|apply NoDup_singleton]. set_solver.
    + intros k. rewrite lookup_insert_is_Some, Ha, elem_of_app, list_elem_of_singleton.
      destruct (decide (next_handle H = k)); naive_solver.
    + intros k f Hk. apply lookup_insert_Some in Hk as [[<- <-]|[_ Hk]]; [left; by eexists _, _|by eapply Hs].
    + apply fresh_from_insert; [|lia]. eapply fresh_from_le; [done|lia].
  - injection E as <- <-. revert Ho. apply owned_permuted.
    rewrite omap_app, (comm (++)). etrans; [|exact (held_insert vs i other None Hi)]. by destruct other.
  - unfold task_assign in E. destruct (bool_decide_reflect (i = j)) as [->|Hne].
    + injection E as <- <- <-. rewrite (list_insert_id vs j other) by done. by rewrite list_insert_id.
    + injection E as <- <- <-. change (match this with Some h => _ | None => _ end) with (task_dtor this H).
      revert Ho. apply owned_destroyed.
      symmetry. etrans; [apply held_insert; by rewrite list_lookup_insert_ne|].
      exact (held_insert vs j other None Hj).
  - by eapply owned_got.
  - revert Ho. apply owned_destroyed. rewrite omap_app. simpl. rewrite (comm (++)). by destruct t.
Qed.
End facts.

(** ** Theorems *)

(** [co_return co_await f();], the shape of [ChiefArchitectAgent::sendCommand]. *)
Definition forward {S V} (q : kind) (callee : Code S V) : Code S V :=
  co_await q callee (fun r => match r with inr v => co_return v | inl e => co_throw e end).

(** C18: A task whose body awaits other tasks to any depth, got by code on a thread without a
    scheduler, ends: from some number of steps on, the thread has returned from get() with
    exactly the outcome (value, exception, or the missing-result error) that the body has when
    every co_await is read as a nested call, with the same effect on the objects; every frame
    created on the way has been destroyed, and no undefined resumption happens.  On a thread
    with a scheduler the same holds when the body awaits nothing. *)
Theorem task_get_is_call {S V} (moved : V -> V) (sched : bool) (q : kind) (b : Code S V)
    (m : gmap nat (Frame S V)) (n : nat) (Q : list nat) (s : S) :
  fresh_from n m -> sched = false \/ awaits b s = false ->
  exists k n' p', forall j, k <= j ->
    run_alone moved j
      (task_get (Some n) (mk_thread sched Returning []),
       {| heap := (get_return_object q b (mk_heap m n)).1; submitted := Q; objects := s |})
    = (mk_thread sched (Returned (call q b s).2) [],
       mk_shared (<[n := {| promise := p'; status := Final |}]> m) n' Q (call q b s).1).
Proof.
  intros Hf Hs.
  destruct (get_runs moved sched q b n (<[n := initial (new_promise q) b]> m) (Datatypes.S n) Q s)
    as (n' & p' & _ & Hrun); [apply lookup_insert_eq| |done|].
  { apply fresh_from_insert; [|lia]. eapply fresh_from_le; [done|lia]. }
  apply run_alone_rtc in Hrun as [k Hk]; [|done]. exists k, n', (take_result moved p').1.
  intros j Hj. specialize (Hk j Hj). rewrite insert_insert_eq in Hk. exact Hk.
Qed.

Lemma task_get_is_call_witness :
  exists k n' p', forall j, k <= j ->
    run_alone (fun _ => 0%Z) j
      (task_get (Some 0) (mk_thread false Returning []),
       {| heap := (get_return_object task_value
            (forward task_value (local (Z.add 1) (fun s => co_return (Some s)))) (mk_heap ∅ 0)).1;
          submitted := []; objects := 41%Z |})
    = (mk_thread false (Returned (inr (Some 41%Z))) [],
       mk_shared {[0 := {| promise := p'; status := Final |}]} n' [] 42%Z).
Proof.
  apply (task_get_is_call (fun _ => 0%Z) false task_value
    (forward task_value (local (Z.add 1) (fun s => co_return (Some s)))) ∅ 0 [] 41%Z).
  - intros h _. reflexivity.
  - left. reflexivity.
Defined.

(** C19: A task submitted to a pool of idle workers is run to its end under every schedule:
    the number of steps the pool can take is bounded, no thread ever resumes a coroutine that
    is running, done or destroyed, and when no worker can move the task is done with the
    outcome of its body read as nested calls, the objects are as those calls leave them, every
    awaited frame is destroyed and nothing is left in the scheduler. *)
Theorem pool_runs_task {S V} (moved : V -> V) (q : kind) (b : Code S V)
    (m : gmap nat (Frame S V)) (n : nat) (s : S) (ts : list (Thread S V)) :
  fresh_from n m -> ts <> [] -> Forall (eq idle) ts ->
  exists K n' p', (take_result moved p').2 = (call q b s).2 /\
    forall k P, nsteps (pool_step moved) k
        (ts, {| heap := (get_return_object q b (mk_heap m n)).1; submitted := [n]; objects := s |}) P ->
      k <= K /\ Forall (fun t => control t <> Undefined) P.1 /\
      ((forall P', ~ pool_step moved P P') ->
       P.2 = mk_shared (<[n := {| promise := p'; status := Final |}]> m) n' [] (call q b s).1).
Proof.
  intros Hf Hne Hidle.
  destruct (worker_runs moved q b n (<[n := initial (new_promise q) b]> m) (Datatypes.S n) s)
    as (n' & p' & Hr & Hrun); [apply lookup_insert_eq| |].
  { apply fresh_from_insert; [|lia]. eapply fresh_from_le; [done|lia]. }
  rewrite insert_insert_eq in Hrun.
  destruct (follows_run moved _ _ Hrun) as [K HK]; [done|done|].
  exists K, n', p'. split; [done|]. intros k P HP.
  edestruct HK as (Hk & c' & Hfol & Hc'); [|exact HP|].
  { split; [done|]. destruct ts as [|t ts]; [done|]. exists 0. rewrite Forall_forall in Hidle. simpl.
    split; [f_equal; symmetry; apply Hidle; by left|].
    intros j u _ Hj. symmetry. apply Hidle. by eapply list_elem_of_lookup_2. }
  split; [done|]. split; [by eapply follows_defined|]. intros Hstop.
  by rewrite (follows_stops moved _ _ _ Hfol Hc' Hstop).
Qed.

Lemma pool_runs_task_witness :
  exists K n' p', (take_result (fun _ => 0%Z) p').2 = inr (Some 41%Z) /\
    forall k P, nsteps (pool_step (fun _ => 0%Z)) k
        ([idle; idle], {| heap := (get_return_object task_value
            (forward task_value (local (Z.add 1) (fun s => co_return (Some s)))) (mk_heap ∅ 0)).1;
            submitted := [0]; objects := 41%Z |}) P ->
      k <= K /\ Forall (fun t => control t <> Undefined) P.1 /\
      ((forall P', ~ pool_step (fun _ => 0%Z) P P') ->
       P.2 = mk_shared {[0 := {| promise := p'; status := Final |}]} n' [] 42%Z).
Proof.
  apply (pool_runs_task (fun _ => 0%Z) task_value
    (forward task_value (local (Z.add 1) (fun s => co_return (Some s)))) ∅ 0 41%Z [idle; idle]).
  - intros h _. reflexivity.
  - discriminate.
  - repeat constructor.
Defined.

(** Flaw: on a thread with a scheduler (every worker) get() on a task whose body awaits
    anything resumes a coroutine that is already running, which is undefined: the awaited task
    is submitted, get() resumes the suspended body at once, await_resume() runs the awaited
    task itself, and its final_suspend transfers to the body that is still on the stack. *)
Lemma get_on_worker_undefined {S V} (moved : V -> V) (q : kind) (b : Code S V)
    (m : gmap nat (Frame S V)) (n : nat) (Q : list nat) (s : S) :
  fresh_from n m -> awaits b s = true ->
  exists k, control (run_alone moved k
    (task_get (Some n) (mk_thread true Returning []),
     {| heap := (get_return_object q b (mk_heap m n)).1; submitted := Q; objects := s |})).1 = Undefined.
Proof.
  intros Hf Ha. set (m' := <[n := initial (new_promise q) b]> m).
  assert (Hf' : fresh_from (Datatypes.S n) m').
  { apply fresh_from_insert; [|lia]. eapply fresh_from_le; [done|lia]. }
  destruct (worker_stuck moved b n (new_promise q) (get_top (Some n)) [] (<[n := running (new_promise q)]> m')
    (Datatypes.S n) Q s) as (c' & Hrun & Hc'); [apply lookup_insert_eq| |by left|done|].
  { apply fresh_from_insert; [done|lia]. }
  assert (Hall : rtc (alone moved) (task_get (Some n) (mk_thread true Returning []), mk_shared m' (Datatypes.S n) Q s) c').
  { eapply rtc_l; [eapply step_loop; [by left|apply lookup_insert_eq|done]|].
    eapply rtc_l; [apply step_start, lookup_insert_eq|]. done. }
  apply run_alone_rtc in Hall as [k Hk]; [|unfold thread_step; by rewrite Hc'].
  exists k. specialize (Hk k (le_n k)). rewrite <- Hc', <- Hk. reflexivity.
Qed.

Lemma get_on_worker_undefined_witness :
  exists k, control (run_alone (fun _ => 0%Z) k
    (task_get (Some 0) (mk_thread true Returning []),
     {| heap := (get_return_object task_value (forward task_value (co_return (Some 7%Z))) (mk_heap ∅ 0)).1;
        submitted := []; objects := tt |})).1 = Undefined.
Proof.
  apply (get_on_worker_undefined (fun _ => 0%Z) task_value (forward task_value (co_return (Some 7%Z))) ∅ 0 [] tt).
  - intros h _. reflexivity.
  - reflexivity.
Defined.

(** C24: Whatever tasks code without a scheduler creates, moves (self-assignment included), gets
    and drops, every frame alive is held by exactly one task variable, every handle held is
    alive, and when the last variable is gone no frame is left: no leak, no double destroy, no
    dangling handle. *)
Theorem frames_owned_once {S V} (moved : V -> V) (s : S) (sc : Scope S V) :
  rtc (scope_step moved) {| vars := []; scope_heap := mk_heap ∅ 0; scope_objects := s |} sc ->
  NoDup (omap id (vars sc)) /\
  (forall h, is_Some (frames (scope_heap sc) !! h) <-> h ∈ omap id (vars sc)) /\
  (vars sc = [] -> frames (scope_heap sc) = ∅).
Proof.
  intros Hr. assert (Ho : owned sc).
  { remember {| vars := []; scope_heap := _; scope_objects := s |} as sc0 eqn:E0.
    assert (H0 : owned sc0).
    { subst. split; simpl; [constructor| |done|done]. intros h. rewrite lookup_empty, is_Some_alt. set_solver. }
    clear E0. induction Hr as [|sc0 sc1 sc H1 _ IH]; [done|]. apply IH. by eapply owned_step. }
  destruct Ho as [Hn Ha _ _]. split; [done|]. split; [done|]. intros Hv. rewrite Hv in Ha.
  apply map_eq. intros h. rewrite lookup_empty. apply eq_None_not_Some. intros Hh. apply Ha in Hh. set_solver.
Qed.

Lemma frames_owned_once_witness :
  let sc : Scope unit Z := {| vars := [None; Some 0]; scope_heap := (get_return_object task_value (co_return (Some 7%Z)) (mk_heap ∅ 0)).1;
             scope_objects := tt |} in
  NoDup (omap id (vars sc)) /\
  (forall h, is_Some (frames (scope_heap sc) !! h) <-> h ∈ omap id (vars sc)) /\
  (vars sc = [] -> frames (scope_heap sc) = ∅).
Proof.
  intros sc. apply (frames_owned_once (fun _ => 0%Z) tt sc).
  eapply rtc_l; [eapply (scope_call (fun _ => 0%Z) [] (mk_heap ∅ 0) tt task_value (co_return (Some 7%Z))); reflexivity|].
  eapply rtc_l; [eapply (scope_move (fun _ => 0%Z) _ _ _ 0); reflexivity|]. apply rtc_refl.
Defined.
