(* ===== verification/GrpcAgents.v ===== *)
(** * GrpcAgents: the distributed variant of the agents

    What src/agents and include/agamemnon_agents/agents hold under ENABLE_GRPC: registration with
    the service registry, the heartbeat threads, the submission of a user goal by the chief, the
    YAML path of the leads with the threads that poll for results, and the YAML path of task
    agents.  The namespace [network] (clients, YAML parser) and the protobuf messages of [hmas]
    are not in the repository: the messages are records of the fields the agents use, parsing and
    printing are parameters, and a call to a service is answered by a function of every call made
    so far ([Network]), so that any behaviour of the services is covered. *)

From S2P Require Import Prelude Effects Text AgentMessages Commands Runtime.

(** ** Messages *)

(** [network::HierarchicalTaskSpec], by the groups of fields the agents read or write. *)
Record Metadata := {
  md_name : string;
  md_task_id : string;
  md_parent_task_id : option string;
  md_session_id : option string;
  md_created_at : option string;
  md_deadline : option string;
}.
Record Routing := {
  ro_origin_node : string;
  ro_target_level : Z;
  ro_target_agent_type : string;
  ro_target_agent_id : string;
}.
Record Hierarchy := {
  level0_goal : option string;
  level1_directive : option string;
  level2_module : option string;
  level3_task : option string;
}.
Record Action := { ac_type : string; ac_priority : string }.
Record Aggregation := { ag_strategy : string; ag_timeout : string }.
Record SpecStatus := {
  st_phase : string;
  st_result : option string;
  st_error : option string;
  st_start_time : option string;
  st_completion_time : option string;
}.
Record TaskSpec := {
  api_version : string;
  spec_kind : string;
  metadata : Metadata;
  routing : Routing;
  hierarchy : Hierarchy;
  action : Action;
  payload_command : string;
  aggregation : Aggregation;
  spec_status : SpecStatus;
}.

Record AgentRegistration := {
  ar_agent_id : string;
  ar_agent_type : string;
  ar_level : Z;                        (* uint8_t *)
  ar_capabilities : list string;
  ar_max_concurrent_tasks : Z;
}.
Record AgentQuery := { aq_agent_type : string; aq_level : option Z; aq_require_healthy : bool; aq_only_alive : bool }.
Record TaskResult := { tr_task_id : string; tr_result_yaml : string; tr_success : bool; tr_error_message : string }.

(** The calls to the two services. *)
Inductive NetCall :=
| call_register (r : AgentRegistration)
| call_query (q : AgentQuery)
| call_send_heartbeat (agent_id : string) (timestamp : Z) (active_tasks : nat)
| call_heartbeat (agent_id : string)                         (* heartbeat(id, 0.0f, 0.0f, 0) *)
| call_unregister (agent_id reason : string)
| call_submit_task (yaml session_id : string) (deadline_ms : Z) (parent_task_id : string)
| call_get_result (task_id : string) (timeout_ms : Z)
| call_submit_result (r : TaskResult).

(** What the agents get from outside; the answers depend on the calls so far, the one answered
    last. *)
Record Network := {
  parseTaskSpec : string -> option TaskSpec;
  generateTaskSpec : TaskSpec -> string;
  parseDuration : string -> option Z;                        (* ms *)
  fresh_spec : TaskSpec;                                     (* a default-constructed spec *)
  on_register : list NetCall -> result (bool * string);      (* success(), message() *)
  on_query : list NetCall -> result (list string);           (* the agent ids *)
  on_submit : list NetCall -> result string;                 (* task_id() *)
  on_result : list NetCall -> result TaskResult;
  on_notice : list NetCall -> result unit;                   (* heartbeats, unregistering, results *)
}.

(** ** An agent and its links *)

(** The heartbeat thread: none, at the test of its loop, about to send, asleep, returned but
    not joined. *)
Inductive HeartbeatPc := hb_none | hb_test | hb_send | hb_sleep | hb_exited.

Record Link := {
  agent_type_ : string;
  agent_level_ : Z;
  coordinator_client_ : option nat;      (* which client object, by number of creation *)
  registry_client_ : bool;
  clients_made : nat;
  heartbeat_running_ : bool;
  heartbeat_thread_ : HeartbeatPc;
  terminated : bool;                     (* std::terminate was called *)
  use_after_free : bool;                 (* a destroyed client was used *)
}.

Definition new_link (agent_type : string) (level : Z) : Link :=
  {| agent_type_ := agent_type; agent_level_ := level; coordinator_client_ := None; registry_client_ := false;
     clients_made := 0; heartbeat_running_ := false; heartbeat_thread_ := hb_none; terminated := false;
     use_after_free := false |}.

Definition set_clients (agent_type : string) (level : Z) (l : Link) : Link :=
  {| agent_type_ := agent_type; agent_level_ := level; coordinator_client_ := Some (clients_made l);
     registry_client_ := true; clients_made := S (clients_made l); heartbeat_running_ := heartbeat_running_ l;
     heartbeat_thread_ := heartbeat_thread_ l; terminated := terminated l; use_after_free := use_after_free l |}.
Definition reset_clients (l : Link) : Link :=
  {| agent_type_ := agent_type_ l; agent_level_ := agent_level_ l; coordinator_client_ := None;
     registry_client_ := false; clients_made := clients_made l; heartbeat_running_ := heartbeat_running_ l;
     heartbeat_thread_ := heartbeat_thread_ l; terminated := terminated l; use_after_free := use_after_free l |}.
Definition set_heartbeat (running : bool) (pc : HeartbeatPc) (l : Link) : Link :=
  {| agent_type_ := agent_type_ l; agent_level_ := agent_level_ l; coordinator_client_ := coordinator_client_ l;
     registry_client_ := registry_client_ l; clients_made := clients_made l; heartbeat_running_ := running;
     heartbeat_thread_ := pc; terminated := terminated l; use_after_free := use_after_free l |}.
Definition call_terminate (l : Link) : Link :=
  {| agent_type_ := agent_type_ l; agent_level_ := agent_level_ l; coordinator_client_ := coordinator_client_ l;
     registry_client_ := registry_client_ l; clients_made := clients_made l;
     heartbeat_running_ := heartbeat_running_ l; heartbeat_thread_ := heartbeat_thread_ l; terminated := true;
     use_after_free := use_after_free l |}.
Definition use_freed (l : Link) : Link :=
  {| agent_type_ := agent_type_ l; agent_level_ := agent_level_ l; coordinator_client_ := coordinator_client_ l;
     registry_client_ := registry_client_ l; clients_made := clients_made l;
     heartbeat_running_ := heartbeat_running_ l; heartbeat_thread_ := heartbeat_thread_ l;
     terminated := terminated l; use_after_free := true |}.

(** An agent [A] with its links, the calls it has made, the clock and the error log. *)
Record Node (A : Type) := {
  nd_id : string;
  nd_self : A;
  nd_link : Link;
  nd_calls : list NetCall;
  nd_env : Env;
  nd_logged : list string;
}.
Arguments nd_id {A}.
Arguments nd_self {A}.
Arguments nd_link {A}.
Arguments nd_calls {A}.
Arguments nd_env {A}.
Arguments nd_logged {A}.

Section node.
Context {A : Type} (net : Network).
Abbreviation NM := (M (Node A)).

Definition set_self (x : A) (n : Node A) : Node A :=
  {| nd_id := nd_id n; nd_self := x; nd_link := nd_link n; nd_calls := nd_calls n; nd_env := nd_env n;
     nd_logged := nd_logged n |}.
Definition set_node_link (x : Link) (n : Node A) : Node A :=
  {| nd_id := nd_id n; nd_self := nd_self n; nd_link := x; nd_calls := nd_calls n; nd_env := nd_env n;
     nd_logged := nd_logged n |}.
Definition set_calls (x : list NetCall) (n : Node A) : Node A :=
  {| nd_id := nd_id n; nd_self := nd_self n; nd_link := nd_link n; nd_calls := x; nd_env := nd_env n;
     nd_logged := nd_logged n |}.
Definition set_node_env (x : Env) (n : Node A) : Node A :=
  {| nd_id := nd_id n; nd_self := nd_self n; nd_link := nd_link n; nd_calls := nd_calls n; nd_env := x;
     nd_logged := nd_logged n |}.
(** [Logger::error(...)]. *)
Definition log_error (line : string) (n : Node A) : Node A :=
  {| nd_id := nd_id n; nd_self := nd_self n; nd_link := nd_link n; nd_calls := nd_calls n; nd_env := nd_env n;
     nd_logged := nd_logged n ++ [line] |}.

Definition upd_self (f : A -> A) : NM unit := modify (fun n => set_self (f (nd_self n)) n).
Definition upd_link (f : Link -> Link) : NM unit := modify (fun n => set_node_link (f (nd_link n)) n).

(** A call to a service. *)
Definition ask {B} (answer : list NetCall -> result B) (c : NetCall) : NM B := fun n =>
  let h := nd_calls n ++ [c] in (set_calls h n, answer h).

(** [system_clock::now()] in nanoseconds, and its text by [strftime] and [gmtime]. *)
Definition system_now : NM Z := fun n =>
  let e := nd_env n in (set_node_env (clock_next e) n, inr (clock e (clock_i e))).
Definition time_text : NM string := t ← system_now; mret (iso8601 (t / 1000000000)%Z).

(** ** Heartbeats *)

(** Assigning to a [std::thread] that is joinable calls [std::terminate]. *)
Definition assign_thread (l : Link) : Link :=
  match heartbeat_thread_ l with
  | hb_none => set_heartbeat true hb_test l
  | _ => call_terminate (set_heartbeat true (heartbeat_thread_ l) l)
  end.

(** [CoordinationState::startHeartbeat] of the leads, and [startHeartbeat] of task agents and
    the chief, which first looks at [heartbeat_running_]. *)
Definition lead_startHeartbeat : NM unit := upd_link assign_thread.
Definition agent_startHeartbeat : NM unit :=
  upd_link (fun l => if heartbeat_running_ l then l else assign_thread l).

(** One step of the thread: [beat] makes the message, [failed] handles an exception. *)
Context (beat : NM NetCall) (failed : exn -> NM unit).

Definition heartbeat_step : NM unit :=
  l ← gets nd_link;
  match heartbeat_thread_ l with
  | hb_none | hb_exited => mret tt
  | hb_test =>
      upd_link (fun l => set_heartbeat (heartbeat_running_ l) (if heartbeat_running_ l then hb_send else hb_exited) l)
  | hb_send =>
      try_catch (when (registry_client_ l) (c ← beat; ask (on_notice net) c)) failed ;;
      upd_link (fun l => set_heartbeat (heartbeat_running_ l) hb_sleep l)
  | hb_sleep => upd_link (fun l => set_heartbeat (heartbeat_running_ l) hb_test l)
  end.

(** [join()]: the thread goes on until it returns, which takes at most three steps once
    [heartbeat_running_] is false. *)
Definition join_heartbeat : NM unit :=
  heartbeat_step ;; heartbeat_step ;; heartbeat_step ;;
  upd_link (fun l => set_heartbeat (heartbeat_running_ l) hb_none l).

Definition join_if_joinable : NM unit :=
  l ← gets nd_link;
  match heartbeat_thread_ l with hb_none => mret tt | _ => join_heartbeat end.

Definition lead_stopHeartbeat : NM unit :=
  upd_link (fun l => set_heartbeat false (heartbeat_thread_ l) l) ;; join_if_joinable.
Definition agent_stopHeartbeat : NM unit :=
  l ← gets nd_link;
  if negb (heartbeat_running_ l) then mret tt else
  upd_link (fun l => set_heartbeat false (heartbeat_thread_ l) l) ;; join_if_joinable.

(** ** Registration *)

(** The body of the four [initializeGrpc]. *)
Definition initialize (startHeartbeat : NM unit) (agent_type : string) (level : Z) (capabilities : list string)
    (max_concurrent_tasks : Z) : NM unit :=
  upd_link (set_clients agent_type level) ;;
  id ← gets nd_id;
  let registration := {| ar_agent_id := id; ar_agent_type := agent_type; ar_level := level;
                         ar_capabilities := capabilities; ar_max_concurrent_tasks := max_concurrent_tasks |} in
  try_catch
    (ask (on_register net) (call_register registration) ≫= fun response : bool * string =>
     if fst response then startHeartbeat
     else throw (runtime_error ("Failed to register with ServiceRegistry: " +:+ snd response)))
    (fun e => throw (runtime_error ("gRPC registration failed: " +:+ std_what e))).

(** [shutdown()] of task agents and the chief. *)
Definition agent_shutdown : NM unit :=
  agent_stopHeartbeat ;;
  l ← gets nd_link;
  id ← gets nd_id;
  when (registry_client_ l)
    (try_catch (ask (on_notice net) (call_unregister id "Shutdown requested"))
       (fun e => modify (log_error ("Failed to unregister agent: " +:+ std_what e)))) ;;
  upd_link reset_clients.

(** [CoordinationState::shutdownGrpc]. *)
Definition shutdownGrpc : NM unit := lead_stopHeartbeat ;; upd_link reset_clients.
End node.

(** The message of task agents and the chief. *)
Definition agent_beat {A} : M (Node A) NetCall := id ← gets nd_id; mret (call_heartbeat id).
Definition agent_beat_failed {A} (e : exn) : M (Node A) unit :=
  modify (log_error ("Heartbeat failed: " +:+ std_what e)).

(** ** Task agents *)

Section task_agent.
Context {OS : Type} (net : Network) (command_order : list string).
Context (popen : string -> OS -> OS * option (string * Z)).
Abbreviation TM := (M (Node OS)).

Definition task_initializeGrpc (agent_type : string) (level : Z) : TM unit :=
  initialize net agent_startHeartbeat agent_type level ["bash_execution"] 1.

Definition with_status (st : SpecStatus) (s : TaskSpec) : TaskSpec :=
  {| api_version := api_version s; spec_kind := spec_kind s; metadata := metadata s; routing := routing s;
     hierarchy := hierarchy s; action := action s; payload_command := payload_command s;
     aggregation := aggregation s; spec_status := st |}.

(** The status after the command: [COMPLETED] with its output, or [FAILED] with the message. *)
Definition command_status (r : exn + string) (st : SpecStatus) : SpecStatus :=
  match r with
  | inr out => {| st_phase := "COMPLETED"; st_result := Some out; st_error := st_error st;
                  st_start_time := st_start_time st; st_completion_time := st_completion_time st |}
  | inl e => {| st_phase := "FAILED"; st_result := st_result st; st_error := Some (std_what e);
                st_start_time := st_start_time st; st_completion_time := st_completion_time st |}
  end.
Definition stamp_status (now : string) (st : SpecStatus) : SpecStatus :=
  {| st_phase := st_phase st; st_result := st_result st; st_error := st_error st;
     st_start_time := Some (default now (st_start_time st)); st_completion_time := Some now |}.

Definition task_result (s : TaskSpec) : TaskResult :=
  {| tr_task_id := md_task_id (metadata s); tr_result_yaml := generateTaskSpec net s;
     tr_success := str_eqb (st_phase (spec_status s)) "COMPLETED";
     tr_error_message := default "" (st_error (spec_status s)) |}.

Definition processYamlTask (yaml_spec : string) : TM unit :=
  match parseTaskSpec net yaml_spec with
  | None => throw (runtime_error "Failed to parse YAML task specification")
  | Some spec =>
      r ← zoom nd_self set_self (fun os => let '(os, r) := executeBash command_order popen (payload_command spec) os in
                                           (os, inr r));
      let spec := with_status (command_status r (spec_status spec)) spec in
      now ← time_text;
      let spec := with_status (stamp_status now (spec_status spec)) spec in
      l ← gets nd_link;
      match coordinator_client_ l, md_parent_task_id (metadata spec) with
      | Some _, Some _ =>
          try_catch (ask (on_notice net) (call_submit_result (task_result spec)))
            (fun e => modify (log_error ("Failed to submit result via gRPC: " +:+ std_what e)))
      | _, _ => mret tt
      end
  end.

Definition task_heartbeat : TM unit := heartbeat_step net agent_beat agent_beat_failed.
Definition task_shutdown : TM unit := agent_shutdown net agent_beat agent_beat_failed.
End task_agent.

(** ** The leads *)

(** How a poll ended: the task succeeded, it failed and that was recorded, or the call threw. *)
Inductive PollOutcome := poll_succeeded | poll_failed | poll_threw.

(** A detached thread that polls for a result: in [getTaskResult], after [recordFailure], after
    [getCurrentState], about to turn to ERROR, returned. *)
Inductive PollerPc (St : Type) :=
| polling
| failure_recorded
| state_read (s : St)
| deciding
| returned (o : PollOutcome).
Arguments polling {St}.
Arguments failure_recorded {St}.
Arguments state_read {St}.
Arguments deciding {St}.
Arguments returned {St}.

Record Poller (St : Type) := {
  po_client : nat;             (* the captured coordinator_client *)
  po_task : string;
  po_deadline : Z;
  po_pc : PollerPc St;
}.
Arguments po_client {St}.
Arguments po_task {St}.
Arguments po_deadline {St}.
Arguments po_pc {St}.

(** The members a lead adds: [result_aggregator_] by the arguments it is made with. *)
Record LeadSelf (St : Type) := {
  ls_coord : CoordinationState St;
  current_task_id_ : string;
  ls_available : list string;
  result_aggregator_ : option (string * Z * nat);
  ls_pollers : list (Poller St);
}.
Arguments ls_coord {St}.
Arguments current_task_id_ {St}.
Arguments ls_available {St}.
Arguments result_aggregator_ {St}.
Arguments ls_pollers {St}.

(** What the two leads differ in. *)
Record YamlTier (St : Type) := {
  yt_planning : St;
  yt_waiting : St;
  yt_error : St;
  yt_name : St -> string;                                    (* stateToString *)
  yt_what : string;                                          (* in messages *)
  yt_goal : TaskSpec -> option string;
  yt_decompose : string -> list string;                      (* decomposeGoal *)
  yt_child_type : string;
  yt_children : string;                                      (* in messages *)
  yt_child : TaskSpec -> TaskSpec -> string -> nat -> string -> TaskSpec;
  yt_result_log : string;
  yt_submit_log : string;
}.
Arguments yt_planning {St}.
Arguments yt_waiting {St}.
Arguments yt_error {St}.
Arguments yt_name {St}.
Arguments yt_what {St}.
Arguments yt_goal {St}.
Arguments yt_decompose {St}.
Arguments yt_child_type {St}.
Arguments yt_children {St}.
Arguments yt_child {St}.
Arguments yt_result_log {St}.
Arguments yt_submit_log {St}.

(** [child_spec.metadata] with the fields not set left as constructed. *)
Definition child_metadata (fresh spec : TaskSpec) (name suffix : string) (i : nat) : Metadata :=
  {| md_name := name +:+ to_string (Z.of_nat i);
     md_task_id := md_task_id (metadata spec) +:+ suffix +:+ to_string (Z.of_nat i);
     md_parent_task_id := Some (md_task_id (metadata spec));
     md_session_id := md_session_id (metadata spec);
     md_created_at := md_created_at (metadata fresh); md_deadline := md_deadline (metadata fresh) |}.
Definition child_routing (fresh : TaskSpec) (level : Z) (agent_type agent_id : string) : Routing :=
  {| ro_origin_node := ro_origin_node (routing fresh); ro_target_level := level;
     ro_target_agent_type := agent_type; ro_target_agent_id := agent_id |}.

Definition module_child (fresh spec : TaskSpec) (agent_id : string) (i : nat) (task : string) : TaskSpec :=
  {| api_version := "v1"; spec_kind := "HierarchicalTask";
     metadata := child_metadata fresh spec "task-" "-subtask-" i;
     routing := child_routing fresh 3 "TaskAgent" agent_id;
     hierarchy := {| level0_goal := level0_goal (hierarchy spec);
                     level1_directive := level1_directive (hierarchy fresh);
                     level2_module := level2_module (hierarchy spec); level3_task := Some task |};
     action := {| ac_type := "EXECUTE"; ac_priority := ac_priority (action fresh) |};
     payload_command := task; aggregation := aggregation fresh; spec_status := spec_status fresh |}.

Definition component_child (fresh spec : TaskSpec) (agent_id : string) (i : nat) (goal : string) : TaskSpec :=
  {| api_version := "v1"; spec_kind := "HierarchicalTask";
     metadata := child_metadata fresh spec "module-" "-module-" i;
     routing := child_routing fresh 2 "ModuleLeadAgent" agent_id;
     hierarchy := {| level0_goal := level0_goal (hierarchy spec);
                     level1_directive := level1_directive (hierarchy spec);
                     level2_module := Some goal; level3_task := level3_task (hierarchy fresh) |};
     action := {| ac_type := "DECOMPOSE"; ac_priority := ac_priority (action fresh) |};
     payload_command := payload_command fresh; aggregation := aggregation spec; spec_status := spec_status fresh |}.

Definition module_tier : YamlTier ModuleLeadState :=
  {| yt_planning := M_PLANNING; yt_waiting := M_WAITING_FOR_TASKS; yt_error := M_ERROR;
     yt_name := module_stateToString; yt_what := "module";
     yt_goal := fun s => level2_module (hierarchy s); yt_decompose := module_decomposeGoal;
     yt_child_type := "TaskAgent"; yt_children := "TaskAgents"; yt_child := module_child;
     yt_result_log := "Failed to get result for task "; yt_submit_log := "Failed to submit task: " |}.

Definition component_tier : YamlTier ComponentLeadState :=
  {| yt_planning := C_PLANNING; yt_waiting := C_WAITING_FOR_MODULES; yt_error := C_ERROR;
     yt_name := component_stateToString; yt_what := "component";
     yt_goal := fun s => level1_directive (hierarchy s); yt_decompose := component_decomposeGoal;
     yt_child_type := "ModuleLeadAgent"; yt_children := "ModuleLeadAgents"; yt_child := component_child;
     yt_result_log := "Failed to get result for module task "; yt_submit_log := "Failed to submit module: " |}.

Definition DEFAULT_TASK_TIMEOUT_MS : Z := 25 * 60 * 1000.

Section leads.
Context {St : Type} `{!EqDecision St} (net : Network) (tier : YamlTier St).
Abbreviation LM := (M (Node (LeadSelf St))).

Definition upd_coordination (f : CoordinationState St -> CoordinationState St) : LM unit :=
  upd_self (fun s => {| ls_coord := f (ls_coord s); current_task_id_ := current_task_id_ s;
                        ls_available := ls_available s; result_aggregator_ := result_aggregator_ s;
                        ls_pollers := ls_pollers s |}).
Definition lead_transitionTo (s : St) : LM unit := upd_coordination (coord_transitionTo s (yt_name tier s)).
Definition setCurrentTaskId (id : string) : LM unit :=
  upd_self (fun s => {| ls_coord := ls_coord s; current_task_id_ := id; ls_available := ls_available s;
                        result_aggregator_ := result_aggregator_ s; ls_pollers := ls_pollers s |}).
Definition setAvailable (l : list string) : LM unit :=
  upd_self (fun s => {| ls_coord := ls_coord s; current_task_id_ := current_task_id_ s; ls_available := l;
                        result_aggregator_ := result_aggregator_ s; ls_pollers := ls_pollers s |}).
Definition setAggregator (a : option (string * Z * nat)) : LM unit :=
  upd_self (fun s => {| ls_coord := ls_coord s; current_task_id_ := current_task_id_ s;
                        ls_available := ls_available s; result_aggregator_ := a; ls_pollers := ls_pollers s |}).
Definition setPollers (f : list (Poller St) -> list (Poller St)) : LM unit :=
  upd_self (fun s => {| ls_coord := ls_coord s; current_task_id_ := current_task_id_ s;
                        ls_available := ls_available s; result_aggregator_ := result_aggregator_ s;
                        ls_pollers := f (ls_pollers s) |}).

(** [CoordinationState::heartbeatLoop] sends the number of results received. *)
Definition lead_beat : LM NetCall :=
  id ← gets nd_id;
  t ← system_now;
  k ← gets (fun n => ls_coord (nd_self n));
  mret (call_send_heartbeat id t (received_results_ k)).
Definition lead_heartbeat : LM unit := heartbeat_step net lead_beat (fun _ => mret tt).

Definition queryAvailableChildren (child_agent_type : string) : LM (list string) :=
  l ← gets nd_link;
  if negb (registry_client_ l) then mret [] else
  try_catch (ask (on_query net) (call_query {| aq_agent_type := child_agent_type; aq_level := None;
                                               aq_require_healthy := true; aq_only_alive := false |}))
    (fun _ => mret []).

Definition failed_status (error : string) (st : SpecStatus) : SpecStatus :=
  {| st_phase := "FAILED"; st_result := st_result st; st_error := Some error; st_start_time := st_start_time st;
     st_completion_time := st_completion_time st |}.

Definition submitFailureResult (spec : TaskSpec) (error : string) : LM unit :=
  let spec := with_status (failed_status error (spec_status spec)) spec in
  lead_transitionTo (yt_error tier) ;;
  l ← gets nd_link;
  match coordinator_client_ l, md_parent_task_id (metadata spec) with
  | Some _, Some _ =>
      ask (on_notice net)
        (call_submit_result {| tr_task_id := md_task_id (metadata spec); tr_result_yaml := generateTaskSpec net spec;
                               tr_success := false; tr_error_message := error |})
  | _, _ => mret tt
  end.

(** [processYamlModule] and [processYamlComponent] up to their loop: nothing when the goal was
    refused, or the spec with its subtasks. *)
Definition prepare (yaml_spec : string) : LM (option (TaskSpec * list string)) :=
  match parseTaskSpec net yaml_spec with
  | None => throw (runtime_error ("Failed to parse YAML " +:+ yt_what tier +:+ " specification"))
  | Some spec =>
      setCurrentTaskId (md_task_id (metadata spec)) ;;
      lead_transitionTo (yt_planning tier) ;;
      let tasks := yt_decompose tier (default "" (yt_goal tier spec)) in
      match tasks with
      | [] => submitFailureResult spec ("Failed to decompose " +:+ yt_what tier +:+ " goal") ;; mret None
      | _ =>
          avail ← queryAvailableChildren (yt_child_type tier);
          setAvailable avail ;;
          match avail with
          | [] => submitFailureResult spec ("No " +:+ yt_children tier +:+ " available") ;; mret None
          | _ =>
              let timeout := default DEFAULT_TASK_TIMEOUT_MS (parseDuration net (ag_timeout (aggregation spec))) in
              setAggregator (Some (ag_strategy (aggregation spec), timeout, length tasks)) ;;
              lead_transitionTo (yt_waiting tier) ;;
              upd_coordination (initializeCoordination (length tasks)) ;;
              mret (Some (spec, tasks))
          end
      end
  end.

(** One turn of the loop: the child is submitted, tracked and polled for; a failed submission
    is logged. *)
Definition submit_child (spec : TaskSpec) (task : nat * string) : LM unit :=
  s ← gets nd_self;
  match ls_available s !! (task.1 mod length (ls_available s)) with
  | None => mret tt
  | Some agent_id =>
      let child_spec := yt_child tier (fresh_spec net) spec agent_id task.1 task.2 in
      let child_yaml := generateTaskSpec net child_spec in
      let deadline_ms := default DEFAULT_TASK_TIMEOUT_MS
                           (parseDuration net (default "25m" (md_deadline (metadata spec)))) in
      l ← gets nd_link;
      match coordinator_client_ l with
      | None => upd_link use_freed                             (* a null client is called *)
      | Some client =>
          try_catch
            (task_id ← ask (on_submit net)
               (call_submit_task child_yaml (default "" (md_session_id (metadata spec))) deadline_ms
                  (current_task_id_ s));
             upd_coordination (trackPendingSubordinate (md_task_id (metadata child_spec)) agent_id) ;;
             setPollers (fun ps => ps ++ [{| po_client := client; po_task := task_id; po_deadline := deadline_ms;
                                             po_pc := polling |}]))
            (fun e => modify (log_error (yt_submit_log tier +:+ std_what e)))
      end
  end.

Definition number_tasks (tasks : list string) : list (nat * string) := zip (seq 0 (length tasks)) tasks.

Definition processYaml (yaml_spec : string) : LM unit :=
  r ← prepare yaml_spec;
  match r with
  | None => mret tt
  | Some (spec, tasks) => for_each (number_tasks tasks) (submit_child spec)
  end.

(** ** The polling threads *)

Definition set_poller_pc (pc : PollerPc St) (p : Poller St) : Poller St :=
  {| po_client := po_client p; po_task := po_task p; po_deadline := po_deadline p; po_pc := pc |}.
Definition poller_goto (j : nat) (pc : PollerPc St) : LM unit := setPollers (alter (set_poller_pc pc) j).

(** One step of the [j]-th thread; every member of the coordination state is called under its
    lock. *)
Definition poller_step (j : nat) : LM unit :=
  n ← get;
  match ls_pollers (nd_self n) !! j with
  | None => mret tt
  | Some p =>
      match po_pc p with
      | polling =>
          if decide (coordinator_client_ (nd_link n) = Some (po_client p)) then
            try_catch
              (result ← ask (on_result net) (call_get_result (po_task p) (po_deadline p));
               if tr_success result then poller_goto j (returned poll_succeeded)
               else upd_coordination (fun k => (recordFailure (tr_error_message result) k).1) ;;
                    poller_goto j failure_recorded)
              (fun e => modify (log_error (yt_result_log tier +:+ po_task p +:+ ": " +:+ std_what e)) ;;
                        poller_goto j (returned poll_threw))
          else upd_link use_freed
      | failure_recorded => poller_goto j (state_read (current_state_ (ls_coord (nd_self n))))
      | state_read s =>
          poller_goto j (if isComplete (ls_coord (nd_self n)) && bool_decide (s = yt_waiting tier)
                         then deciding else returned poll_failed)
      | deciding => lead_transitionTo (yt_error tier) ;; poller_goto j (returned poll_failed)
      | returned _ => mret tt
      end
  end.

(** A lead inside the loop of [processYaml], with the subtasks not submitted yet. *)
Definition LeadRun : Type := Node (LeadSelf St) * list (nat * string).

(** The lead submits the next subtask, a thread that has not returned moves, or the heartbeat
    thread does. *)
Inductive lead_step (spec : TaskSpec) : LeadRun -> LeadRun -> Prop :=
| lead_submits n task todo : lead_step spec (n, task :: todo) ((submit_child spec task n).1, todo)
| poller_moves n todo j p :
    ls_pollers (nd_self n) !! j = Some p -> (forall o, po_pc p <> returned o) ->
    lead_step spec (n, todo) ((poller_step j n).1, todo).
Inductive beat_step : LeadRun -> LeadRun -> Prop :=
| heartbeat_moves n todo : beat_step (n, todo) ((lead_heartbeat n).1, todo).

(** ** The rest of the members *)

Definition lead_shutdown : LM unit :=
  shutdownGrpc net lead_beat (fun _ => mret tt) ;; setAggregator None.
End leads.

Definition module_initializeGrpc (net : Network) (agent_type : string) (level : Z)
    : M (Node (LeadSelf ModuleLeadState)) unit :=
  initialize net lead_startHeartbeat agent_type level ["task_coordination"; "result_synthesis"] 5.
Definition component_initializeGrpc (net : Network) (agent_type : string) (level : Z)
    : M (Node (LeadSelf ComponentLeadState)) unit :=
  initialize net lead_startHeartbeat agent_type level ["module_coordination"; "component_synthesis"] 10.

Definition processYamlModule (net : Network) : string -> M (Node (LeadSelf ModuleLeadState)) unit :=
  processYaml net module_tier.
Definition processYamlComponent (net : Network) : string -> M (Node (LeadSelf ComponentLeadState)) unit :=
  processYaml net component_tier.

(** ** The chief *)

Section chief.
Context (net : Network).
Abbreviation HM := (M (Node unit)).

Definition chief_initializeGrpc (agent_type : string) (level : Z) : HM unit :=
  initialize net agent_startHeartbeat agent_type level ["strategic_orchestration"] 1.

Definition queryComponentLeadAgent : HM string :=
  l ← gets nd_link;
  if negb (registry_client_ l) then mret "" else
  try_catch
    (ids ← ask (on_query net) (call_query {| aq_agent_type := "ComponentLeadAgent"; aq_level := Some 1%Z;
                                             aq_require_healthy := false; aq_only_alive := true |});
     mret (default "" (head ids)))
    (fun e => modify (log_error ("Failed to query ComponentLeadAgent: " +:+ std_what e)) ;; mret "").

Definition goal_spec (id component_agent_id user_goal session_id now : string) : TaskSpec :=
  let fresh := fresh_spec net in
  {| api_version := "v1"; spec_kind := "HierarchicalTask";
     metadata := {| md_name := "user-goal"; md_task_id := "chief-" +:+ session_id;
                    md_parent_task_id := md_parent_task_id (metadata fresh); md_session_id := Some session_id;
                    md_created_at := Some now; md_deadline := Some "25m" |};
     routing := {| ro_origin_node := id; ro_target_level := 1; ro_target_agent_type := "ComponentLeadAgent";
                   ro_target_agent_id := component_agent_id |};
     hierarchy := {| level0_goal := Some user_goal; level1_directive := Some user_goal;
                     level2_module := level2_module (hierarchy fresh); level3_task := level3_task (hierarchy fresh) |};
     action := {| ac_type := "DECOMPOSE"; ac_priority := "NORMAL" |};
     payload_command := payload_command fresh;
     aggregation := {| ag_strategy := "WAIT_ALL"; ag_timeout := "25m" |}; spec_status := spec_status fresh |}.

Definition submitUserGoal (user_goal session_id : string) : HM string :=
  component_agent_id ← queryComponentLeadAgent;
  if str_empty component_agent_id then throw (runtime_error "No ComponentLeadAgent available") else
  now ← time_text;
  id ← gets nd_id;
  let yaml_spec := generateTaskSpec net (goal_spec id component_agent_id user_goal session_id now) in
  l ← gets nd_link;
  match coordinator_client_ l with
  | None => upd_link use_freed ;; mret ""                       (* a null client is called *)
  | Some _ =>
      try_catch
        (task_id ← ask (on_submit net) (call_submit_task yaml_spec session_id (25 * 60 * 1000) "");
         result ← ask (on_result net) (call_get_result task_id (25 * 60 * 1000));
         if tr_success result then
           mret (match parseTaskSpec net (tr_result_yaml result) with
                 | Some s => default (tr_result_yaml result) (st_result (spec_status s))
                 | None => tr_result_yaml result
                 end)
         else mret ("ERROR: " +:+ tr_error_message result))
        (fun e => throw (runtime_error ("Failed to submit/receive task: " +:+ std_what e)))
  end.

Definition chief_heartbeat : HM unit := heartbeat_step net agent_beat agent_beat_failed.
Definition chief_shutdown : HM unit := agent_shutdown net agent_beat agent_beat_failed.
End chief.
