(* ===== verification/GrpcTheorems.v ===== *)
(** * GrpcTheorems: properties of the distributed agents

    About [GrpcAgents]: what the leads submit and to whom, what comes of the polls under every
    interleaving, what the chief submits and what a task agent reports, and the life of the
    heartbeat threads.  The YAML parser and the services are not in the repository: nothing is
    assumed of them but the answer at hand. *)

From S2P Require Import Prelude Effects Text AgentMessages Commands Runtime GrpcAgents.

(** ** Delegation *)

Section delegation.
Context {St : Type} `{!EqDecision St} (net : Network) (tier : YamlTier St).
Abbreviation LeadNode := (Node (LeadSelf St)).
Implicit Types n : LeadNode.

(** The [i]-th subtask goes to the agents in turn. *)
Definition agent_for (agents : list string) (i : nat) : string := agents !!! (i mod length agents).
Definition child_of (spec : TaskSpec) (agents : list string) (task : nat * string) : TaskSpec :=
  yt_child tier (fresh_spec net) spec (agent_for agents task.1) task.1 task.2.
Definition deadline_of (spec : TaskSpec) : Z :=
  default DEFAULT_TASK_TIMEOUT_MS (parseDuration net (default "25m" (md_deadline (metadata spec)))).
Definition submission (spec : TaskSpec) (agents : list string) (parent : string) (task : nat * string) : NetCall :=
  call_submit_task (generateTaskSpec net (child_of spec agents task))
    (default "" (md_session_id (metadata spec))) (deadline_of spec) parent.
Definition children_query : NetCall :=
  call_query {| aq_agent_type := yt_child_type tier; aq_level := None; aq_require_healthy := true;
                aq_only_alive := false |}.

(** The thread started for a submission that was accepted. *)
Definition poller_for (spec : TaskSpec) (client : nat) (r : result string) : list (Poller St) :=
  match r with
  | inr id => [{| po_client := client; po_task := id; po_deadline := deadline_of spec; po_pc := polling |}]
  | inl _ => []
  end.

Lemma agent_for_lookup agents i : agents <> [] -> agents !! (i mod length agents) = Some (agent_for agents i).
Proof.
  intros Hne. unfold agent_for. apply list_lookup_lookup_total_lt, Nat.mod_upper_bound.
  by destruct agents.
Qed.

Lemma run_submit_child spec task n agents client :
  ls_available (nd_self n) = agents -> agents <> [] -> coordinator_client_ (nd_link n) = Some client ->
  let h := nd_calls n ++ [submission spec agents (current_task_id_ (nd_self n)) task] in
  exists n', submit_child net tier spec task n = (n', inr tt) /\
    nd_link n' = nd_link n /\ nd_calls n' = h /\
    ls_available (nd_self n') = agents /\ current_task_id_ (nd_self n') = current_task_id_ (nd_self n) /\
    ls_coord (nd_self n') = match on_submit net h with
                            | inr _ => trackPendingSubordinate (md_task_id (metadata (child_of spec agents task)))
                                         (agent_for agents task.1) (ls_coord (nd_self n))
                            | inl _ => ls_coord (nd_self n)
                            end /\
    ls_pollers (nd_self n') = ls_pollers (nd_self n) ++ poller_for spec client (on_submit net h).
Proof.
  intros Ha Hne Hc h. unfold submit_child. mstep. rewrite Ha, agent_for_lookup by done. mstep. rewrite Hc.
  unfold try_catch, ask. mstep. fold (child_of spec agents task). fold (deadline_of spec).
  fold (submission spec agents (current_task_id_ (nd_self n)) task). fold h.
  destruct (on_submit net h) as [e|id] eqn:E; unfold upd_coordination, setPollers, upd_self; mstep;
    eexists; (split; [reflexivity|]); simpl; rewrite ?app_nil_r; done.
Qed.

(** The calls before and in the loop, up to the [k]-th submission. *)
Fixpoint loop_pollers (spec : TaskSpec) (client : nat) (agents : list string) (parent : string)
    (h : list NetCall) (tasks : list (nat * string)) : list (Poller St) :=
  match tasks with
  | [] => []
  | t :: tasks =>
      let h := h ++ [submission spec agents parent t] in
      poller_for spec client (on_submit net h) ++ loop_pollers spec client agents parent h tasks
  end.
Fixpoint loop_coord (spec : TaskSpec) (agents : list string) (parent : string) (h : list NetCall)
    (tasks : list (nat * string)) (k : CoordinationState St) : CoordinationState St :=
  match tasks with
  | [] => k
  | t :: tasks =>
      let h := h ++ [submission spec agents parent t] in
      loop_coord spec agents parent h tasks
        match on_submit net h with
        | inr _ => trackPendingSubordinate (md_task_id (metadata (child_of spec agents t))) (agent_for agents t.1) k
        | inl _ => k
        end
  end.

Lemma run_submit_loop spec agents client tasks n :
  ls_available (nd_self n) = agents -> agents <> [] -> coordinator_client_ (nd_link n) = Some client ->
  let parent := current_task_id_ (nd_self n) in
  exists n', for_each tasks (submit_child net tier spec) n = (n', inr tt) /\
    nd_link n' = nd_link n /\ nd_calls n' = nd_calls n ++ map (submission spec agents parent) tasks /\
    ls_coord (nd_self n') = loop_coord spec agents parent (nd_calls n) tasks (ls_coord (nd_self n)) /\
    ls_pollers (nd_self n') = ls_pollers (nd_self n) ++ loop_pollers spec client agents parent (nd_calls n) tasks.
Proof.
  intros Ha Hne Hc parent. revert n Ha Hc parent. induction tasks as [|t tasks IH]; intros n Ha Hc parent.
  - exists n. simpl. by rewrite !app_nil_r.
  - destruct (run_submit_child spec t n agents client Ha Hne Hc) as (n1 & E1 & Hl & Hcalls & Ha1 & Hp & Hk & Hps).
    destruct (IH n1) as (n' & E & Hl' & Hcalls' & Hk' & Hps'); [done|by rewrite Hl|].
    exists n'. simpl. rewrite (run_bind_inr _ _ _ _ _ E1), E. split; [done|]. split; [by rewrite Hl'|].
    subst parent. rewrite Hcalls', Hk', Hps', Hcalls, Hk, Hps, Hp. by rewrite <- !app_assoc.
Qed.

(** The loop only adds to the subordinates tracked. *)
Definition same_counts (k k' : CoordinationState St) : Prop :=
  current_state_ k' = current_state_ k /\ expected_results_ k' = expected_results_ k /\
  received_results_ k' = received_results_ k /\ failed_results_ k' = failed_results_ k /\
  results_ k' = results_ k.

Lemma loop_coord_counts spec agents parent h tasks k : same_counts k (loop_coord spec agents parent h tasks k).
Proof.
  revert h k. induction tasks as [|t tasks IH]; intros h k; [done|]. simpl.
  destruct (IH (h ++ [submission spec agents parent t])
    match on_submit net (h ++ [submission spec agents parent t]) with
    | inr _ => trackPendingSubordinate (md_task_id (metadata (child_of spec agents t))) (agent_for agents t.1) k
    | inl _ => k
    end) as (H1 & H2 & H3 & H4 & H5).
  repeat split; etrans; try eassumption; by destruct (on_submit net _).
Qed.

(** What makes a tier's children tell-apart and addressed. *)
Class YamlTierLaws : Prop := {
  child_id_inj fresh spec a a' i j t t' :
    md_task_id (metadata (yt_child tier fresh spec a i t)) = md_task_id (metadata (yt_child tier fresh spec a' j t')) ->
    i = j;
  child_parent fresh spec a i t :
    md_parent_task_id (metadata (yt_child tier fresh spec a i t)) = Some (md_task_id (metadata spec));
  child_session fresh spec a i t :
    md_session_id (metadata (yt_child tier fresh spec a i t)) = md_session_id (metadata spec);
  child_agent fresh spec a i t : ro_target_agent_id (routing (yt_child tier fresh spec a i t)) = a;
}.

Context `{!YamlTierLaws}.

Lemma loop_coord_frame spec agents parent h tasks k id :
  (forall t, t ∈ tasks -> md_task_id (metadata (child_of spec agents t)) <> id) ->
  pending_subordinates_ (loop_coord spec agents parent h tasks k) !! id = pending_subordinates_ k !! id.
Proof.
  revert h k. induction tasks as [|t tasks IH]; intros h k Hid; [done|]. simpl. rewrite IH by set_solver.
  destruct (on_submit net _); [done|]. simpl. apply lookup_insert_ne, Hid. set_solver.
Qed.

Lemma loop_coord_tracks spec agents parent h tasks k i t :
  NoDup tasks.*1 -> tasks !! i = Some t ->
  pending_subordinates_ (loop_coord spec agents parent h tasks k)
    !! md_task_id (metadata (child_of spec agents t)) =
  match on_submit net (h ++ map (submission spec agents parent) (take (S i) tasks)) with
  | inr _ => Some (agent_for agents t.1)
  | inl _ => pending_subordinates_ k !! md_task_id (metadata (child_of spec agents t))
  end.
Proof.
  revert i h k. induction tasks as [|t' tasks IH]; intros i h k Hnd Hi; [done|].
  apply NoDup_cons in Hnd as [Hni Hnd]. destruct i as [|i]; simpl in Hi.
  - injection Hi as ->. simpl. rewrite loop_coord_frame.
    + destruct (on_submit net _); [done|]. simpl. by rewrite lookup_insert_eq.
    + intros t' Ht' E. apply child_id_inj in E. apply Hni. rewrite <- E. by apply list_elem_of_fmap_2.
  - simpl. rewrite (IH i) by done. rewrite <- app_assoc. simpl. destruct (on_submit net (_ ++ _ :: _)); [|done].
    destruct (on_submit net _); [done|]. simpl. apply lookup_insert_ne. intros E. apply child_id_inj in E.
    apply Hni. rewrite E. apply list_elem_of_fmap_2. by eapply list_elem_of_lookup_2.
Qed.

Lemma loop_pollers_length spec client agents parent h tasks :
  length (loop_pollers spec client agents parent h tasks) <= length tasks.
Proof.
  revert h. induction tasks as [|t tasks IH]; intros h; [done|]. simpl. rewrite length_app.
  specialize (IH (h ++ [submission spec agents parent t])). destruct (on_submit net _); simpl; lia.
Qed.

(** The threads of the loop, submission by submission. *)
Lemma loop_pollers_each spec client agents parent h tasks :
  loop_pollers spec client agents parent h tasks =
  concat (map (fun i => poller_for spec client
                 (on_submit net (h ++ map (submission spec agents parent) (take (S i) tasks))))
            (seq 0 (length tasks))).
Proof.
  revert h. induction tasks as [|t tasks IH]; intros h; [done|]. cbn [loop_pollers length seq map concat].
  rewrite IH, <- seq_shift, map_map. f_equal. f_equal. apply map_ext. intros i. do 2 f_equal.
  by rewrite <- app_assoc.
Qed.

Definition subtasks_of (spec : TaskSpec) : list string := yt_decompose tier (default "" (yt_goal tier spec)).

(** A lead that is registered, and whose registry answers the query with [agents]. *)
Record can_delegate n (client : nat) (agents : list string) : Prop := {
  cd_registry : registry_client_ (nd_link n) = true;
  cd_coordinator : coordinator_client_ (nd_link n) = Some client;
  cd_answer : on_query net (nd_calls n ++ [children_query]) = inr agents;
  cd_some : agents <> [];
}.

(** The state of the lead when it enters its loop. *)
Record prepared n (spec : TaskSpec) (agents : list string) n' : Prop := {
  pr_link : nd_link n' = nd_link n;
  pr_calls : nd_calls n' = nd_calls n ++ [children_query];
  pr_available : ls_available (nd_self n') = agents;
  pr_parent : current_task_id_ (nd_self n') = md_task_id (metadata spec);
  pr_pollers : ls_pollers (nd_self n') = ls_pollers (nd_self n);
  pr_state : current_state_ (ls_coord (nd_self n')) = yt_waiting tier;
  pr_expected : expected_results_ (ls_coord (nd_self n')) = length (subtasks_of spec);
  pr_received : received_results_ (ls_coord (nd_self n')) = 0;
  pr_failed : failed_results_ (ls_coord (nd_self n')) = 0;
  pr_results : results_ (ls_coord (nd_self n')) = [];
  pr_pending : pending_subordinates_ (ls_coord (nd_self n')) = ∅;
}.

Lemma run_query n client agents :
  can_delegate n client agents ->
  queryAvailableChildren net (yt_child_type tier) n = (set_calls (nd_calls n ++ [children_query]) n, inr agents).
Proof.
  intros [Hr _ Hq _]. unfold queryAvailableChildren. mstep. rewrite Hr. simpl. unfold try_catch, ask.
  fold children_query. by rewrite Hq.
Qed.

Lemma can_delegate_self n x client agents :
  can_delegate n client agents -> can_delegate (set_self x n) client agents.
Proof. by intros []. Qed.

Lemma run_prepare yaml spec n client agents :
  parseTaskSpec net yaml = Some spec -> subtasks_of spec <> [] -> can_delegate n client agents ->
  exists n', prepare net tier yaml n = (n', inr (Some (spec, subtasks_of spec))) /\ prepared n spec agents n'.
Proof.
  intros Hy Ht Hd. unfold prepare. rewrite Hy. fold (subtasks_of spec). unfold subtasks_of in *.
  unfold setCurrentTaskId, lead_transitionTo, upd_coordination, upd_self. mstep.
  destruct (yt_decompose tier _) as [|t ts] eqn:E; [done|].
  rewrite run_bind, (run_query _ client agents) by (by do 2 apply can_delegate_self). cbv beta iota.
  unfold setAvailable, setAggregator, upd_self. mstep. destruct agents as [|a agents]; [by destruct Hd|]. mstep.
  eexists. split; [reflexivity|]. split; simpl; try done. unfold subtasks_of. by rewrite E.
Qed.

Lemma run_processYaml yaml spec n client agents :
  parseTaskSpec net yaml = Some spec -> subtasks_of spec <> [] -> can_delegate n client agents ->
  let parent := md_task_id (metadata spec) in
  let h := nd_calls n ++ [children_query] in
  let tasks := number_tasks (subtasks_of spec) in
  exists n0 n', prepared n spec agents n0 /\ processYaml net tier yaml n = (n', inr tt) /\
    nd_link n' = nd_link n /\ nd_calls n' = h ++ map (submission spec agents parent) tasks /\
    ls_coord (nd_self n') = loop_coord spec agents parent h tasks (ls_coord (nd_self n0)) /\
    ls_pollers (nd_self n') = ls_pollers (nd_self n) ++ loop_pollers spec client agents parent h tasks.
Proof.
  intros Hy Ht Hd parent h tasks. destruct (run_prepare yaml spec n client agents Hy Ht Hd) as (n0 & E0 & Hp).
  destruct (run_submit_loop spec agents client tasks n0) as (n' & E & Hl & Hc & Hk & Hps).
  { apply Hp. }
  { apply Hd. }
  { rewrite (pr_link _ _ _ _ Hp). apply Hd. }
  exists n0, n'. split; [done|]. unfold processYaml. rewrite (run_bind_inr _ _ _ _ _ E0). cbv beta iota.
  split; [exact E|]. split; [by rewrite Hl, (pr_link _ _ _ _ Hp)|].
  rewrite Hc, Hk, Hps, (pr_calls _ _ _ _ Hp), (pr_parent _ _ _ _ Hp), (pr_pollers _ _ _ _ Hp). done.
Qed.

Lemma number_tasks_fst tasks : (number_tasks tasks).*1 = seq 0 (length tasks).
Proof. apply fst_zip. by rewrite length_seq. Qed.

Lemma number_tasks_lookup tasks i t : tasks !! i = Some t -> number_tasks tasks !! i = Some (i, t).
Proof.
  intros Hi. apply lookup_zip_with_Some. exists i, t. split; [done|]. split; [|done].
  apply lookup_seq. split; [done|]. by eapply lookup_lt_Some.
Qed.

Lemma number_tasks_lookup_inv tasks i x :
  number_tasks tasks !! i = Some x -> exists t, tasks !! i = Some t /\ x = (i, t).
Proof.
  intros (j & t & -> & [-> Hj]%lookup_seq & Ht)%lookup_zip_with_Some. exists t. split; [done|by simpl].
Qed.

Lemma children_distinct spec agents :
  NoDup (map (fun t => md_task_id (metadata (child_of spec agents t))) (number_tasks (subtasks_of spec))).
Proof.
  apply NoDup_fmap_2_strong.
  - intros x y Hx Hy E. apply child_id_inj in E.
    apply list_elem_of_lookup in Hx as (i & Hx), Hy as (j & Hy).
    apply number_tasks_lookup_inv in Hx as (t & Hx & ->), Hy as (u & Hy & ->). simpl in E. subst. congruence.
  - apply (NoDup_fmap_1 fst). rewrite number_tasks_fst. apply NoDup_seq.
Qed.
End delegation.

Lemma numbered_inj (a b : string) i j :
  a +:+ b +:+ to_string (Z.of_nat i) = a +:+ b +:+ to_string (Z.of_nat j) -> i = j.
Proof. intros E. apply (inj (String.append a)), (inj (String.append b)), (inj pretty) in E. lia. Qed.

#[global] Instance module_tier_laws : YamlTierLaws module_tier.
Proof. split; simpl; try done. intros. by eapply numbered_inj. Qed.
#[global] Instance component_tier_laws : YamlTierLaws component_tier.
Proof. split; simpl; try done. intros. by eapply numbered_inj. Qed.

(** The two agents that take YAML goals. *)
Inductive YamlLead := a_module_lead | a_component_lead.
Definition lead_state (l : YamlLead) : Type :=
  match l with a_module_lead => ModuleLeadState | a_component_lead => ComponentLeadState end.
Definition tier_of (l : YamlLead) : YamlTier (lead_state l) :=
  match l with a_module_lead => module_tier | a_component_lead => component_tier end.
#[global] Instance lead_state_eq_dec l : EqDecision (lead_state l).
Proof. destruct l; simpl; apply _. Defined.
#[global] Instance tier_of_laws l : YamlTierLaws (tier_of l).
Proof. destruct l; simpl; apply _. Qed.

(** ** Polling *)

Section polling.
Context {St : Type} `{!EqDecision St} (net : Network) (tier : YamlTier St) (spec : TaskSpec).
Context (agents : list string) (client : nat) (total : nat).
Hypothesis some_agents : agents <> [].
Abbreviation LeadNode := (Node (LeadSelf St)).
Implicit Types (n : LeadNode) (p : Poller St).

(** The failures recorded are those of the threads past [recordFailure]. *)
Definition recorded p : bool :=
  match po_pc p with polling | returned poll_succeeded | returned poll_threw => false | _ => true end.
Definition recorded_count (ps : list (Poller St)) : nat := length (List.filter recorded ps).

(** A thread that will still look, or has looked and will turn the lead to ERROR. *)
Definition will_decide p : Prop :=
  po_pc p = failure_recorded \/ po_pc p = state_read (yt_waiting tier) \/ po_pc p = deciding.

Record poll_ok (r : LeadRun (St := St)) : Prop := {
  pk_client : coordinator_client_ (nd_link r.1) = Some client;
  pk_available : ls_available (nd_self r.1) = agents;
  pk_clients : Forall (fun p => po_client p = client) (ls_pollers (nd_self r.1));
  pk_expected : expected_results_ (ls_coord (nd_self r.1)) = total;
  pk_received : received_results_ (ls_coord (nd_self r.1)) = recorded_count (ls_pollers (nd_self r.1));
  pk_failed : failed_results_ (ls_coord (nd_self r.1)) = recorded_count (ls_pollers (nd_self r.1));
  pk_results : results_ (ls_coord (nd_self r.1)) = [];
  pk_bound : length (ls_pollers (nd_self r.1)) + length r.2 <= total;
  pk_state : current_state_ (ls_coord (nd_self r.1)) = yt_waiting tier \/
             current_state_ (ls_coord (nd_self r.1)) = yt_error tier /\
             recorded_count (ls_pollers (nd_self r.1)) = total;
  pk_deciding : Exists (fun p => po_pc p = deciding) (ls_pollers (nd_self r.1)) ->
                recorded_count (ls_pollers (nd_self r.1)) = total;
  pk_decides : recorded_count (ls_pollers (nd_self r.1)) = total ->
               current_state_ (ls_coord (nd_self r.1)) = yt_error tier \/
               Exists will_decide (ls_pollers (nd_self r.1));
  pk_alive : use_after_free (nd_link r.1) = false;
}.

Lemma recorded_count_le ps : recorded_count ps <= length ps.
Proof. unfold recorded_count. induction ps as [|p ps IH]; simpl; [lia|]. destruct (recorded p); simpl; lia. Qed.

Lemma recorded_count_app ps qs : recorded_count (ps ++ qs) = recorded_count ps + recorded_count qs.
Proof. unfold recorded_count. by rewrite List.filter_app, length_app. Qed.

(** Moving one thread changes the count by that thread alone. *)
Lemma recorded_count_alter ps j p pc :
  ps !! j = Some p ->
  recorded_count (alter (set_poller_pc pc) j ps) + (if recorded p then 1 else 0) =
  recorded_count ps + (if recorded (set_poller_pc pc p) then 1 else 0).
Proof.
  revert j. induction ps as [|q ps IH]; intros j Hj; [done|]. destruct j as [|j]; simpl in Hj.
  - injection Hj as ->. change (alter (set_poller_pc pc) 0 (p :: ps)) with (set_poller_pc pc p :: ps).
    unfold recorded_count. cbn [List.filter].
    destruct (recorded (set_poller_pc pc p)), (recorded p); simpl; lia.
  - specialize (IH j Hj). change (alter (set_poller_pc pc) (S j) (q :: ps)) with (q :: alter (set_poller_pc pc) j ps).
    unfold recorded_count in *. cbn [List.filter]. destruct (recorded q); simpl; lia.
Qed.

Lemma exists_alter_ne {P : Poller St -> Prop} ps j p f :
  ps !! j = Some p -> ~ P p -> Exists P ps -> Exists P (alter f j ps).
Proof.
  intros Hj Hp (q & Hq & HP)%Exists_exists. apply list_elem_of_lookup in Hq as (i & Hi).
  apply Exists_exists. exists q. split; [|done]. apply list_elem_of_lookup. exists i.
  rewrite list_lookup_alter_ne; [done|]. intros ->. congruence.
Qed.

Lemma exists_alter_eq {P : Poller St -> Prop} ps j p f :
  ps !! j = Some p -> P (f p) -> Exists P (alter f j ps).
Proof.
  intros Hj HP. apply Exists_exists. exists (f p). split; [|done]. apply list_elem_of_lookup. exists j.
  by rewrite list_lookup_alter_eq, Hj.
Qed.

Lemma exists_alter_inv {P : Poller St -> Prop} ps j p f :
  ps !! j = Some p -> ~ P (f p) -> Exists P (alter f j ps) -> Exists P ps.
Proof.
  intros Hj Hf (q & Hq & HP)%Exists_exists. apply list_elem_of_lookup in Hq as (i & Hi).
  apply Exists_exists. exists q. split; [|done]. apply list_elem_of_lookup. exists i.
  destruct (decide (i = j)) as [->|Hne]; [|by rewrite list_lookup_alter_ne in Hi].
  rewrite list_lookup_alter_eq, Hj in Hi. simpl in Hi. congruence.
Qed.

Lemma forall_alter_pc ps j pc :
  Forall (fun p => po_client p = client) ps ->
  Forall (fun p => po_client p = client) (alter (set_poller_pc pc) j ps).
Proof. intros H. apply Forall_alter; [done|]. intros p _ Hp. exact Hp. Qed.

Lemma poll_ok_submit n task todo :
  poll_ok (n, task :: todo) -> poll_ok ((submit_child net tier spec task n).1, todo).
Proof.
  intros [Hc Ha Hcl He Hr Hf Hres Hb Hs Hd Hdec Hal]; simpl in *.
  destruct (run_submit_child net tier spec task n agents client Ha some_agents Hc)
    as (n' & -> & Hl & _ & Ha' & _ & Hk & Hps). simpl.
  assert (Hcount : recorded_count (ls_pollers (nd_self n')) = recorded_count (ls_pollers (nd_self n))).
  { rewrite Hps, recorded_count_app. destruct (on_submit net _); simpl; unfold recorded_count; simpl; lia. }
  assert (Hlt : recorded_count (ls_pollers (nd_self n)) <> total).
  { pose proof (recorded_count_le (ls_pollers (nd_self n))). lia. }
  assert (Hkk : same_counts (ls_coord (nd_self n)) (ls_coord (nd_self n'))).
  { rewrite Hk. by destruct (on_submit net _). }
  destruct Hkk as (H1 & H2 & H3 & H4 & H5).
  split; simpl; rewrite ?Hl, ?H1, ?H2, ?H3, ?H4, ?H5, ?Hcount; try done.
  - rewrite Hps. apply Forall_app. split; [done|]. destruct (on_submit net _); simpl; [done|]. by constructor.
  - rewrite Hps, length_app. destruct (on_submit net _); simpl; lia.
  - rewrite Hps, Exists_app. intros [Hx|Hx]; [auto|]. destruct (on_submit net _); simpl in Hx; [by inversion Hx|].
    inversion Hx as [? ? Hx'|? ? Hx']; subst; [done|by inversion Hx'].
Qed.

(** A thread moves without touching the coordination state. *)
Lemma poll_ok_goto n n' todo j p pc :
  poll_ok (n, todo) -> ls_pollers (nd_self n) !! j = Some p ->
  nd_link n' = nd_link n -> ls_available (nd_self n') = ls_available (nd_self n) ->
  ls_coord (nd_self n') = ls_coord (nd_self n) ->
  ls_pollers (nd_self n') = alter (set_poller_pc pc) j (ls_pollers (nd_self n)) ->
  recorded (set_poller_pc pc p) = recorded p ->
  (pc = deciding -> recorded_count (ls_pollers (nd_self n)) = total) ->
  (recorded_count (ls_pollers (nd_self n)) = total -> will_decide p ->
   will_decide (set_poller_pc pc p) \/ current_state_ (ls_coord (nd_self n)) = yt_error tier) ->
  poll_ok (n', todo).
Proof.
  intros [Hc Ha Hcl He Hr Hf Hres Hb Hs Hd Hdec Hal] Hj Hl Hav Hk Hps Hrec Hpd Hw; simpl in *.
  assert (Hcount : recorded_count (ls_pollers (nd_self n')) = recorded_count (ls_pollers (nd_self n))).
  { pose proof (recorded_count_alter _ j p pc Hj) as H. rewrite Hrec in H. rewrite Hps. lia. }
  split; simpl; rewrite ?Hl, ?Hav, ?Hk, ?Hcount; try done.
  - rewrite Hps. by apply forall_alter_pc.
  - by rewrite Hps, length_alter.
  - rewrite Hps. intros Hx. destruct pc; try (apply Hd; eapply exists_alter_inv in Hx; [exact Hx|exact Hj|done]).
    by apply Hpd.
  - intros Ht. destruct (Hdec Ht) as [|Hx]; [by left|]. rewrite Hps.
    apply Exists_exists in Hx as (q & Hq & Hwq). apply list_elem_of_lookup in Hq as (i & Hi).
    destruct (decide (j = i)) as [->|Hne].
    + replace q with p in * by congruence. destruct (Hw Ht Hwq) as [Hw'|]; [|by left]. right. by eapply exists_alter_eq.
    + right. apply Exists_exists. exists q. split; [|done]. apply list_elem_of_lookup. exists i.
      by rewrite list_lookup_alter_ne.
Qed.

Lemma poll_ok_failure n n' todo j p msg :
  poll_ok (n, todo) -> ls_pollers (nd_self n) !! j = Some p -> po_pc p = polling ->
  nd_link n' = nd_link n -> ls_available (nd_self n') = ls_available (nd_self n) ->
  ls_coord (nd_self n') = (recordFailure msg (ls_coord (nd_self n))).1 ->
  ls_pollers (nd_self n') = alter (set_poller_pc failure_recorded) j (ls_pollers (nd_self n)) ->
  poll_ok (n', todo).
Proof.
  intros [Hc Ha Hcl He Hr Hf Hres Hb Hs Hd Hdec Hal] Hj Hpc Hl Hav Hk Hps; simpl in *.
  assert (Hcount : recorded_count (ls_pollers (nd_self n')) = S (recorded_count (ls_pollers (nd_self n)))).
  { pose proof (recorded_count_alter _ j p failure_recorded Hj) as H. unfold recorded in H. rewrite Hpc in H.
    simpl in H. rewrite Hps. lia. }
  pose proof (recorded_count_le (ls_pollers (nd_self n'))) as Hle. rewrite Hps, length_alter, <- Hps, Hcount in Hle.
  assert (Hlt : recorded_count (ls_pollers (nd_self n)) <> total) by lia.
  split; simpl; rewrite ?Hl, ?Hav, ?Hk, ?Hcount; simpl; rewrite ?Hr, ?Hf; try done.
  - rewrite Hps. by apply forall_alter_pc.
  - by rewrite Hps, length_alter.
  - destruct Hs as [|[_ ?]]; [by left|done].
  - rewrite Hps. intros Hx. exfalso. apply Hlt, Hd. eapply exists_alter_inv in Hx; [exact Hx|exact Hj|done].
  - intros _. right. rewrite Hps. eapply exists_alter_eq; [exact Hj|]. by left.
Qed.

Lemma poll_ok_error n n' todo j p :
  poll_ok (n, todo) -> ls_pollers (nd_self n) !! j = Some p -> po_pc p = deciding ->
  nd_link n' = nd_link n -> ls_available (nd_self n') = ls_available (nd_self n) ->
  ls_coord (nd_self n') = coord_transitionTo (yt_error tier) (yt_name tier (yt_error tier)) (ls_coord (nd_self n)) ->
  ls_pollers (nd_self n') = alter (set_poller_pc (returned poll_failed)) j (ls_pollers (nd_self n)) ->
  poll_ok (n', todo).
Proof.
  intros [Hc Ha Hcl He Hr Hf Hres Hb Hs Hd Hdec Hal] Hj Hpc Hl Hav Hk Hps; simpl in *.
  assert (Hcount : recorded_count (ls_pollers (nd_self n')) = recorded_count (ls_pollers (nd_self n))).
  { pose proof (recorded_count_alter _ j p (returned poll_failed) Hj) as H. unfold recorded in H.
    rewrite Hpc in H. simpl in H. rewrite Hps. lia. }
  assert (Ht : recorded_count (ls_pollers (nd_self n)) = total).
  { apply Hd, Exists_exists. exists p. split; [|done]. by eapply list_elem_of_lookup_2. }
  split; simpl; rewrite ?Hl, ?Hav, ?Hk, ?Hcount; simpl; try done.
  - rewrite Hps. by apply forall_alter_pc.
  - by rewrite Hps, length_alter.
  - by right.
  - by left.
Qed.

Lemma poll_ok_poller n todo j : poll_ok (n, todo) -> poll_ok ((poller_step net tier j n).1, todo).
Proof.
  intros H. unfold poller_step. rewrite run_bind. change (get n) with (n, @inr exn _ n). cbv beta iota.
  pose proof H as [Hc _ _ He Hr _ _ Hb Hs _ _ _]; simpl in Hc, He, Hr, Hb, Hs.
  destruct (ls_pollers (nd_self n) !! j) as [p|] eqn:Hj; [|done].
  assert (Hcl : po_client p = client).
  { exact (Forall_lookup_1 _ _ _ _ (pk_clients _ H) Hj). }
  destruct (po_pc p) as [| |s| |o] eqn:Hpc; [| | | |done].
  - rewrite Hc, Hcl, decide_True by done. unfold try_catch, ask. mstep.
    destruct (on_result net _) as [e|res].
    + unfold poller_goto, setPollers, upd_self. mstep. eapply poll_ok_goto; try done; [|by intros _ [?|[?|?]]; congruence].
      unfold recorded. by rewrite Hpc.
    + destruct (tr_success res); unfold poller_goto, setPollers, upd_coordination, upd_self; mstep.
      * eapply poll_ok_goto; try done; [|by intros _ [?|[?|?]]; congruence]. unfold recorded. by rewrite Hpc.
      * by eapply poll_ok_failure.
  - unfold poller_goto, setPollers, upd_self. mstep. eapply poll_ok_goto; try done.
    + unfold recorded. by rewrite Hpc.
    + intros _ _. destruct Hs as [E|[E _]]; rewrite E; [|by right].
      left. right. by left.
  - unfold poller_goto, setPollers, upd_self. mstep. eapply poll_ok_goto; try done.
    + unfold recorded. rewrite Hpc. by destruct (_ && _).
    + destruct (isComplete _) eqn:Hic; [|done]. intros _. apply bool_decide_eq_true in Hic.
      rewrite He, Hr in Hic. pose proof (recorded_count_le (ls_pollers (nd_self n))). lia.
    + intros Ht [?|[E|?]]; [congruence| |congruence]. rewrite Hpc in E. injection E as ->.
      rewrite bool_decide_true, andb_true_r by done. left. right. right.
      replace (isComplete _) with true; [done|]. symmetry. apply bool_decide_eq_true.
      by rewrite He, Hr, Ht.
  - unfold lead_transitionTo, poller_goto, setPollers, upd_coordination, upd_self. mstep. by eapply poll_ok_error.
Qed.

(** The heartbeat thread leaves alone what the polls are about. *)
Lemma run_lead_heartbeat n :
  exists n', lead_heartbeat net n = (n', inr tt) /\ nd_self n' = nd_self n /\
    coordinator_client_ (nd_link n') = coordinator_client_ (nd_link n) /\
    use_after_free (nd_link n') = use_after_free (nd_link n).
Proof.
  unfold lead_heartbeat, heartbeat_step. mstep.
  destruct (heartbeat_thread_ (nd_link n)); unfold upd_link; mstep; try (by eexists).
  unfold try_catch. destruct (registry_client_ (nd_link n)); unfold lead_beat, system_now, ask; mstep; [|by eexists].
  destruct (on_notice net _) as [e|[]]; mstep; by eexists.
Qed.

Lemma poll_ok_heartbeat n todo : poll_ok (n, todo) -> poll_ok ((lead_heartbeat net n).1, todo).
Proof.
  intros []. destruct (run_lead_heartbeat n) as (n' & -> & Hs & Hc & Hu). simpl in *.
  split; simpl; rewrite ?Hs, ?Hc, ?Hu; done.
Qed.

(** Work left. *)
Definition pc_weight (pc : PollerPc St) : nat :=
  match pc with polling => 4 | failure_recorded => 3 | state_read _ => 2 | deciding => 1 | returned _ => 0 end.
Definition run_weight (r : LeadRun (St := St)) : nat :=
  5 * length r.2 + sum_list_with (fun p => pc_weight (po_pc p)) (ls_pollers (nd_self r.1)).

Lemma sum_weight_alter ps j p pc :
  ps !! j = Some p -> pc_weight pc < pc_weight (po_pc p) ->
  sum_list_with (fun p => pc_weight (po_pc p)) (alter (set_poller_pc pc) j ps)
    < sum_list_with (fun p => pc_weight (po_pc p)) ps.
Proof.
  intros Hj Hlt. revert j Hj. induction ps as [|q ps IH]; intros j Hj; [done|]. destruct j as [|j]; simpl in Hj.
  - injection Hj as ->. change (alter (set_poller_pc pc) 0 (p :: ps)) with (set_poller_pc pc p :: ps). simpl. lia.
  - change (alter (set_poller_pc pc) (S j) (q :: ps)) with (q :: alter (set_poller_pc pc) j ps). simpl.
    specialize (IH j Hj). lia.
Qed.

Lemma poller_step_pollers n todo j p :
  poll_ok (n, todo) -> ls_pollers (nd_self n) !! j = Some p -> (forall o, po_pc p <> returned o) ->
  exists pc, ls_pollers (nd_self (poller_step net tier j n).1) = alter (set_poller_pc pc) j (ls_pollers (nd_self n)) /\
    pc_weight pc < pc_weight (po_pc p).
Proof.
  intros [Hc _ Hcls _ _ _ _ _ _ _ _ _] Hj Hn; simpl in *. pose proof (Forall_lookup_1 _ _ _ _ Hcls Hj) as Hcl.
  unfold poller_step. rewrite run_bind. change (get n) with (n, @inr exn _ n). cbv beta iota. rewrite Hj.
  destruct (po_pc p) as [| |s| |o] eqn:Hpc; [| | | |by destruct (Hn o)].
  - rewrite Hc, Hcl, decide_True by done. unfold try_catch, ask. mstep.
    destruct (on_result net _) as [e|res]; [|destruct (tr_success res)];
      unfold poller_goto, setPollers, upd_coordination, upd_self; mstep; eexists; (split; [reflexivity|simpl; lia]).
  - unfold poller_goto, setPollers, upd_self; mstep; eexists; (split; [reflexivity|simpl; lia]).
  - unfold poller_goto, setPollers, upd_self; mstep; eexists; (split; [reflexivity|destruct (_ && _); simpl; lia]).
  - unfold lead_transitionTo, poller_goto, setPollers, upd_coordination, upd_self; mstep; eexists; (split; [reflexivity|simpl; lia]).
Qed.

Lemma lead_step_ok r r' : poll_ok r -> lead_step net tier spec r r' -> poll_ok r' /\ run_weight r' < run_weight r.
Proof.
  intros Hk Hs. destruct Hs as [n task todo|n todo j p Hj Hp].
  - split; [by apply poll_ok_submit|]. destruct (run_submit_child net tier spec task n agents client) as
      (n' & E & _ & _ & _ & _ & _ & Hps); [apply Hk|done|apply Hk|]. unfold run_weight. rewrite E. simpl. rewrite Hps.
    rewrite sum_list_with_app. destruct (on_submit net _); simpl; lia.
  - split; [by apply poll_ok_poller|]. destruct (poller_step_pollers n todo j p Hk Hj Hp) as (pc & Hps & Hlt).
    unfold run_weight. simpl. rewrite Hps. pose proof (sum_weight_alter _ _ _ _ Hj Hlt). lia.
Qed.

(** A step of the lead or of a thread, with heartbeats before it. *)
Definition works (r r' : LeadRun (St := St)) : Prop :=
  exists r1, rtc (beat_step net) r r1 /\ lead_step net tier spec r1 r'.

Lemma beats_ok r r' : poll_ok r -> rtc (beat_step net) r r' -> poll_ok r' /\ run_weight r' = run_weight r.
Proof.
  intros Hk Hr. induction Hr as [|r r1 r' Hb _ IH]; [done|]. destruct Hb as [n todo].
  destruct (run_lead_heartbeat n) as (n' & E & Hs & _). destruct IH as [Hk' Hw]; [by apply poll_ok_heartbeat|].
  split; [done|]. rewrite Hw. unfold run_weight. rewrite E. simpl. by rewrite Hs.
Qed.

Lemma works_ok k r r' : poll_ok r -> nsteps works k r r' -> poll_ok r' /\ k + run_weight r' <= run_weight r.
Proof.
  intros Hk Hr. induction Hr as [|k r r1 r' (r0 & Hb & Hs) _ IH]; [by split|].
  destruct (beats_ok r r0 Hk Hb) as [Hk0 Hw0]. destruct (lead_step_ok r0 r1 Hk0 Hs) as [Hk1 Hw1].
  destruct (IH Hk1) as [Hk' Hw]. split; [done|lia].
Qed.

(** Nothing can move any more: every subtask was submitted and every thread has returned. *)
Definition settled (r : LeadRun (St := St)) : Prop :=
  r.2 = [] /\ Forall (fun p => exists o, po_pc p = returned o) (ls_pollers (nd_self r.1)).

Lemma stuck_settled r : (forall r', ~ lead_step net tier spec r r') -> settled r.
Proof.
  intros Hs. destruct r as [n [|t todo]]; [|by destruct (Hs _ (lead_submits net tier spec n t todo))].
  split; [done|]. apply Forall_lookup_2. intros j p Hj. simpl in Hj.
  destruct (po_pc p) as [| |s| |o] eqn:E; [| | | |by exists o];
    (exfalso; eapply Hs, poller_moves; [exact Hj|congruence]).
Qed.

Definition failed_polls (ps : list (Poller St)) : nat :=
  length (List.filter (fun p => match po_pc p with returned poll_failed => true | _ => false end) ps).

Lemma settled_count ps :
  Forall (fun p => exists o, po_pc p = returned o) ps -> recorded_count ps = failed_polls ps.
Proof.
  unfold recorded_count, failed_polls. induction 1 as [|p ps [o Ho] _ IH]; [done|]. simpl.
  unfold recorded at 1. rewrite Ho. destruct o; simpl; lia.
Qed.

Lemma settled_outcome r : poll_ok r -> settled r ->
  let k := ls_coord (nd_self r.1) in
  let ps := ls_pollers (nd_self r.1) in
  received_results_ k = failed_polls ps /\ failed_results_ k = failed_polls ps /\ results_ k = [] /\
  (failed_polls ps = total /\ current_state_ k = yt_error tier \/
   failed_polls ps < total /\ current_state_ k = yt_waiting tier).
Proof.
  intros [_ _ _ _ Hr Hf Hres Hb Hs _ Hd _] [Ht Hret]. simpl.
  rewrite (settled_count _ Hret) in *. rewrite Hr, Hf, Hres. do 3 (split; [done|]).
  pose proof (recorded_count_le (ls_pollers (nd_self r.1))) as Hle. rewrite (settled_count _ Hret), Ht in *. simpl in *.
  destruct (decide (failed_polls (ls_pollers (nd_self r.1)) = total)) as [E|Hne].
  - left. split; [done|]. destruct (Hd E) as [|Hx]; [done|]. exfalso.
    apply Exists_exists in Hx as (p & Hp & Hw). rewrite Forall_forall in Hret. destruct (Hret p Hp) as [o Ho].
    destruct Hw as [|[|]]; congruence.
  - right. split; [lia|]. destruct Hs as [|[_ ?]]; [done|]. lia.
Qed.
End polling.

Lemma poll_ok_start {St} `{!EqDecision St} (net : Network) (tier : YamlTier St) spec n n0 client agents :
  can_delegate net tier n client agents -> ls_pollers (nd_self n) = [] -> use_after_free (nd_link n) = false ->
  subtasks_of tier spec <> [] -> prepared tier n spec agents n0 ->
  poll_ok tier agents client (length (subtasks_of tier spec)) (n0, number_tasks (subtasks_of tier spec)).
Proof.
  intros [_ Hc _ _] Hps Hu Ht [Hl _ Ha _ Hp Hs He Hr Hf Hres _]. rewrite Hps in Hp.
  assert (Hlen : length (number_tasks (subtasks_of tier spec)) = length (subtasks_of tier spec)).
  { unfold number_tasks. rewrite length_zip_with, length_seq. lia. }
  split; simpl; rewrite ?Hl, ?Hp, ?Hlen; try done.
  - by left.
  - intros H. by inversion H.
  - intros E. by destruct (subtasks_of tier spec).
Qed.

(** C25: A module lead or a component lead that receives a YAML goal it can decompose, with both
    clients connected and at least one subordinate answered by the registry, makes exactly these
    calls: one query, then one submission per subtask, in order, each to the answered agents in
    turn, as a child of the goal's task and session and with an id of its own.  A submission the
    coordinator accepts is tracked under the child's id and one thread is started that polls, on
    the lead's coordinator client, for the id the coordinator gave it, with the goal's deadline; a
    refused one is neither tracked nor polled for.  The lead then waits for as many results as
    there are subtasks, none received yet. *)
Theorem yaml_delegation (lead : YamlLead) (net : Network) yaml spec n client agents :
  let tier := tier_of lead in
  parseTaskSpec net yaml = Some spec -> subtasks_of tier spec <> [] -> can_delegate net tier n client agents ->
  let parent := md_task_id (metadata spec) in
  let tasks := number_tasks (subtasks_of tier spec) in
  let calls_to i := nd_calls n ++ children_query tier :: map (submission net tier spec agents parent) (take i tasks) in
  exists n', processYaml net tier yaml n = (n', inr tt) /\
    nd_calls n' = calls_to (length tasks) /\
    (forall i t, subtasks_of tier spec !! i = Some t ->
       let child := child_of net tier spec agents (i, t) in
       md_parent_task_id (metadata child) = Some parent /\
       md_session_id (metadata child) = md_session_id (metadata spec) /\
       ro_target_agent_id (routing child) = agent_for agents i /\
       pending_subordinates_ (ls_coord (nd_self n')) !! md_task_id (metadata child) =
         match on_submit net (calls_to (S i)) with inr _ => Some (agent_for agents i) | inl _ => None end) /\
    NoDup (map (fun t => md_task_id (metadata (child_of net tier spec agents t))) tasks) /\
    ls_pollers (nd_self n') = ls_pollers (nd_self n) ++
      concat (map (fun i => match on_submit net (calls_to (S i)) with
                            | inr id => [{| po_client := client; po_task := id; po_deadline := deadline_of net spec;
                                            po_pc := polling |}]
                            | inl _ => []
                            end) (seq 0 (length tasks))) /\
    current_state_ (ls_coord (nd_self n')) = yt_waiting tier /\
    expected_results_ (ls_coord (nd_self n')) = length (subtasks_of tier spec) /\
    received_results_ (ls_coord (nd_self n')) = 0.
Proof.
  intros tier Hy Ht Hd parent tasks calls_to. assert (Hlaws : YamlTierLaws tier) by apply tier_of_laws.
  destruct (run_processYaml net tier yaml spec n client agents Hy Ht Hd) as (n0 & n' & Hp & E & _ & Hc & Hk & Hps).
  destruct (loop_coord_counts net tier spec agents parent (nd_calls n ++ [children_query tier]) tasks
              (ls_coord (nd_self n0))) as (H1 & H2 & H3 & _ & _).
  exists n'. split; [exact E|]. unfold calls_to. split; [rewrite Hc, <- app_assoc, take_ge by done; done|].
  split; [|split; [by apply children_distinct|split]].
  - intros i t Hi. unfold child_of at 1 2 3. rewrite child_parent, child_session, child_agent by done.
    do 3 (split; [done|]).
    rewrite Hk, (loop_coord_tracks net tier spec agents _ _ _ _ i (i, t)).
    + rewrite <- app_assoc. simpl. destruct (on_submit net _); [|done]. by rewrite (pr_pending _ _ _ _ _ Hp).
    + rewrite number_tasks_fst. apply NoDup_seq.
    + by apply number_tasks_lookup.
  - rewrite Hps, loop_pollers_each. do 2 f_equal. apply map_ext. intros i. by rewrite <- app_assoc.
  - rewrite Hk. repeat split; (etrans; [eassumption|apply Hp]).
Qed.

(** The run of a delegated goal stays in [poll_ok], and its weight bounds it. *)
Lemma polls_run {St} `{!EqDecision St} (net : Network) (tier : YamlTier St) yaml spec n client agents :
  parseTaskSpec net yaml = Some spec -> subtasks_of tier spec <> [] -> can_delegate net tier n client agents ->
  ls_pollers (nd_self n) = [] -> use_after_free (nd_link n) = false ->
  exists n0, prepare net tier yaml n = (n0, inr (Some (spec, subtasks_of tier spec))) /\
    forall k r, nsteps (works net tier spec) k (n0, number_tasks (subtasks_of tier spec)) r ->
      poll_ok tier agents client (length (subtasks_of tier spec)) r /\ k <= 5 * length (subtasks_of tier spec).
Proof.
  intros Hy Ht Hd Hps Hu. destruct (run_prepare net tier yaml spec n client agents Hy Ht Hd) as (n0 & E & Hp).
  exists n0. split; [exact E|]. intros k r Hr.
  pose proof (poll_ok_start net tier spec n n0 client agents Hd Hps Hu Ht Hp) as Hok.
  eapply works_ok in Hr as [Hk Hw]; [|apply Hd|exact Hok]. split; [exact Hk|].
  unfold run_weight in Hw. simpl in Hw. rewrite (pr_pollers _ _ _ _ _ Hp), Hps in Hw. simpl in Hw.
  unfold number_tasks in Hw. rewrite length_zip_with, length_seq in Hw. lia.
Qed.

Lemma waiting_not_error lead : yt_waiting (tier_of lead) <> yt_error (tier_of lead).
Proof. by destruct lead. Qed.

(** C26: What comes of the failures of a delegated YAML goal, under every interleaving of the
    loop of a module or component lead, its polling threads and its heartbeat thread, and
    whatever the coordinator answers (the lead starts with no polling thread of an earlier goal,
    and no result is delivered by another way meanwhile): together they take at most five steps
    per subtask, heartbeats apart; when none of them can move every subtask has been submitted
    and every poll has returned, each poll answered with a failure has been recorded exactly
    once as received and as failed, and nothing else has; and the lead is in ERROR exactly when
    the failures are as many as the subtasks. *)
Theorem polls_settle (lead : YamlLead) (net : Network) yaml spec n client agents :
  let tier := tier_of lead in
  parseTaskSpec net yaml = Some spec -> subtasks_of tier spec <> [] -> can_delegate net tier n client agents ->
  ls_pollers (nd_self n) = [] -> use_after_free (nd_link n) = false ->
  exists n0, prepare net tier yaml n = (n0, inr (Some (spec, subtasks_of tier spec))) /\
    forall k n' todo,
      nsteps (works net tier spec) k (n0, number_tasks (subtasks_of tier spec)) (n', todo) ->
      k <= 5 * length (subtasks_of tier spec) /\
      ((forall r', ~ lead_step net tier spec (n', todo) r') ->
       let c := ls_coord (nd_self n') in
       let failures := failed_polls (ls_pollers (nd_self n')) in
       todo = [] /\ Forall (fun p => exists o, po_pc p = returned o) (ls_pollers (nd_self n')) /\
       received_results_ c = failures /\ failed_results_ c = failures /\ results_ c = [] /\
       (current_state_ c = yt_error tier <-> failures = length (subtasks_of tier spec))).
Proof.
  intros tier Hy Ht Hd Hps Hu. destruct (polls_run net tier yaml spec n client agents Hy Ht Hd Hps Hu) as (n0 & E & H).
  exists n0. split; [exact E|]. intros k n' todo Hr. destruct (H k _ Hr) as [Hok Hk]. split; [exact Hk|].
  intros Hst%stuck_settled. pose proof Hst as [Htodo Hret].
  destruct (settled_outcome _ _ _ _ _ Hok Hst) as (H1 & H2 & H3 & H4).
  do 5 (split; [done|]). pose proof (waiting_not_error lead) as Hne. destruct H4 as [[? ?]|[Hlt Hw]]; [done|].
  split; [intros He; destruct Hne; etrans; [symmetry; exact Hw|exact He]|simpl in *; lia].
Qed.

(** Flaw: what is not a failed poll is recorded nowhere.  A success, a refused submission and a
    poll that throws leave the lead in its waiting state once all threads have returned. *)
Lemma unrecorded_outcomes_wait (lead : YamlLead) (net : Network) yaml spec n client agents :
  let tier := tier_of lead in
  parseTaskSpec net yaml = Some spec -> subtasks_of tier spec <> [] -> can_delegate net tier n client agents ->
  ls_pollers (nd_self n) = [] -> use_after_free (nd_link n) = false ->
  exists n0, prepare net tier yaml n = (n0, inr (Some (spec, subtasks_of tier spec))) /\
    forall k n' todo,
      nsteps (works net tier spec) k (n0, number_tasks (subtasks_of tier spec)) (n', todo) ->
      (forall r', ~ lead_step net tier spec (n', todo) r') ->
      failed_polls (ls_pollers (nd_self n')) < length (subtasks_of tier spec) ->
      current_state_ (ls_coord (nd_self n')) = yt_waiting tier.
Proof.
  intros tier Hy Ht Hd Hps Hu. destruct (polls_run net tier yaml spec n client agents Hy Ht Hd Hps Hu) as (n0 & E & H).
  exists n0. split; [exact E|]. intros k n' todo Hr Hst%stuck_settled Hf. destruct (H k _ Hr) as [Hok _].
  destruct (settled_outcome _ _ _ _ _ Hok Hst) as (_ & _ & _ & [[? ?]|[? ?]]); [simpl in *; lia|done].
Qed.

(** ** The chief and the task agents *)

(** The YAML texts submitted as tasks, and those an operation submits. *)
Definition submitted (calls : list NetCall) : list string :=
  omap (fun c => match c with call_submit_task yaml _ _ _ => Some yaml | _ => None end) calls.
Definition submissions_of {A B} (m : M (Node A) B) (n : Node A) : list string :=
  submitted (drop (length (nd_calls n)) (nd_calls (m n).1)).

Lemma submissions_of_calls {A B} (m : M (Node A) B) n calls :
  nd_calls (m n).1 = nd_calls n ++ calls -> submissions_of m n = submitted calls.
Proof. intros E. unfold submissions_of. by rewrite E, drop_app_length. Qed.

(** A chief that is registered and finds a component lead. *)
Record can_submit (net : Network) (n : Node unit) (agent : string) : Prop := {
  cs_registry : registry_client_ (nd_link n) = true;
  cs_coordinator : is_Some (coordinator_client_ (nd_link n));
  cs_answer : exists ids, on_query net (nd_calls n ++ [call_query
    {| aq_agent_type := "ComponentLeadAgent"; aq_level := Some 1%Z; aq_require_healthy := false; aq_only_alive := true |}])
    = inr (agent :: ids);
  cs_named : agent <> "";
}.

Lemma chief_submissions net n agent goal session :
  can_submit net n agent ->
  submissions_of (submitUserGoal net goal session) n =
  [generateTaskSpec net (goal_spec net (nd_id n) agent goal session
     (iso8601 (clock (nd_env n) (clock_i (nd_env n)) / 1000000000)))].
Proof.
  intros [Hr [c Hc] (ids & Hq) Hne].
  assert (Hs : exists rest, submitted rest = [] /\ nd_calls (submitUserGoal net goal session n).1 = nd_calls n ++
    [call_query {| aq_agent_type := "ComponentLeadAgent"; aq_level := Some 1%Z; aq_require_healthy := false;
                   aq_only_alive := true |};
     call_submit_task (generateTaskSpec net (goal_spec net (nd_id n) agent goal session
       (iso8601 (clock (nd_env n) (clock_i (nd_env n)) / 1000000000)))) session (25 * 60 * 1000) ""] ++ rest).
  { unfold submitUserGoal, queryComponentLeadAgent. mstep. rewrite Hr. simpl. unfold try_catch, ask. mstep. rewrite Hq.
    mstep. simpl. rewrite (proj2 (str_empty_false _) Hne). unfold time_text, system_now. mstep. simpl. rewrite Hc. mstep.
    destruct (on_submit net _) as [e|id]; mstep.
    - exists []. split; [done|]. simpl. by rewrite <- app_assoc.
    - destruct (on_result net _) as [e|res]; [|destruct (tr_success res)]; mstep; simpl; eexists [_];
        (split; [|rewrite <- !app_assoc; reflexivity]); done. }
  destruct Hs as (rest & Hrest & E). rewrite (submissions_of_calls _ _ _ E). simpl. by f_equal.
Qed.

(** What a task agent does with a YAML task: the command is run once, and its outcome submitted
    under the task's id. *)
Lemma run_processYamlTask {OS} (net : Network) (command_order : list string)
    (popen : string -> OS -> OS * option (string * Z)) yaml spec (n : Node OS) parent :
  parseTaskSpec net yaml = Some spec -> is_Some (coordinator_client_ (nd_link n)) ->
  md_parent_task_id (metadata spec) = Some parent -> st_error (spec_status spec) = None ->
  let run := executeBash command_order popen (payload_command spec) (nd_self n) in
  exists n' r, processYamlTask net command_order popen yaml n = (n', inr tt) /\
    nd_self n' = run.1 /\ nd_calls n' = nd_calls n ++ [call_submit_result r] /\
    tr_task_id r = md_task_id (metadata spec) /\
    match run.2 with
    | inr out => tr_success r = true /\ tr_error_message r = ""
    | inl e => tr_success r = false /\ tr_error_message r = std_what e
    end.
Proof.
  intros Hy [c Hc] Hp Hst. cbv zeta. unfold processYamlTask. rewrite Hy. rewrite run_bind. unfold zoom at 1.
  destruct (executeBash command_order popen (payload_command spec) (nd_self n)) as [os r]. cbv beta iota.
  unfold time_text, system_now. mstep. simpl. rewrite Hc, Hp. unfold try_catch, ask.
  destruct (on_notice net _) as [e|[]]; mstep; do 2 eexists; (split; [reflexivity|]); simpl;
    do 2 (split; [reflexivity|]); destruct r as [e'|out]; simpl; rewrite ?Hst; done.
Qed.

(** ** Refused goals *)

(** Without a subtask, or without an agent for it, the lead turns to ERROR and reports a failed
    result to the coordinator, if the task has a parent. *)
Lemma refusal_reported {St} `{!EqDecision St} (net : Network) (tier : YamlTier St) spec error n client :
  coordinator_client_ (nd_link n) = Some client ->
  exists n' r, submitFailureResult net tier spec error n = (n', r) /\
    current_state_ (ls_coord (nd_self n')) = yt_error tier /\
    nd_calls n' = nd_calls n ++
      match md_parent_task_id (metadata spec) with
      | Some _ => [call_submit_result
          {| tr_task_id := md_task_id (metadata spec);
             tr_result_yaml := generateTaskSpec net (with_status (failed_status error (spec_status spec)) spec);
             tr_success := false; tr_error_message := error |}]
      | None => []
      end.
Proof.
  intros Hc. unfold submitFailureResult, lead_transitionTo, upd_coordination, upd_self. mstep. simpl. rewrite Hc.
  destruct (md_parent_task_id (metadata spec)); unfold ask; mstep; do 2 eexists; (split; [reflexivity|]); simpl;
    rewrite ?app_nil_r; done.
Qed.

(** A goal from the chief has no parent, so its refusal is reported to nobody: the chief waits
    for a result until the time limit. *)
Lemma refused_goal_unreported (net : Network) id agent goal session now yaml n :
  md_parent_task_id (metadata (fresh_spec net)) = None -> component_decomposeGoal goal = [] ->
  parseTaskSpec net yaml = Some (goal_spec net id agent goal session now) ->
  exists n', processYamlComponent net yaml n = (n', inr tt) /\
    current_state_ (ls_coord (nd_self n')) = C_ERROR /\ nd_calls n' = nd_calls n.
Proof.
  intros Hp Hg Hy. unfold processYamlComponent, processYaml, prepare. rewrite Hy.
  unfold setCurrentTaskId, lead_transitionTo, upd_coordination, upd_self. simpl. rewrite Hg. mstep.
  unfold submitFailureResult, lead_transitionTo, upd_coordination, upd_self. mstep. simpl. rewrite Hp.
  destruct (coordinator_client_ (nd_link n)); mstep; by eexists.
Qed.

(** ** Heartbeats *)

(** What holds between the operations of a task agent or the chief: the thread exists exactly
    while it is to run, and the two clients exist together. *)
Record link_ok (l : Link) : Prop := {
  lk_thread : heartbeat_running_ l = match heartbeat_thread_ l with hb_none => false | _ => true end;
  lk_alive : heartbeat_thread_ l <> hb_exited;
  lk_clients : registry_client_ l = bool_decide (is_Some (coordinator_client_ l));
  lk_terminated : terminated l = false;
  lk_freed : use_after_free l = false;
}.

Section heartbeats.
Context {A : Type} (net : Network).
Abbreviation beats := (heartbeat_step net (agent_beat (A := A)) agent_beat_failed).
Implicit Types n : Node A.

(** One step of the thread on the links. *)
Definition beat_link (l : Link) : Link :=
  set_heartbeat (heartbeat_running_ l)
    match heartbeat_thread_ l with
    | hb_none => hb_none | hb_exited => hb_exited
    | hb_test => if heartbeat_running_ l then hb_send else hb_exited
    | hb_send => hb_sleep | hb_sleep => hb_test
    end l.

Lemma run_beat n : exists n', beats n = (n', inr tt) /\ nd_link n' = beat_link (nd_link n).
Proof.
  unfold heartbeat_step. mstep. unfold beat_link.
  destruct (heartbeat_thread_ (nd_link n)) eqn:E; unfold upd_link; mstep.
  - exists n. split; [done|]. destruct n as [? ? [] ? ? ?]; simpl in *. by rewrite E.
  - by eexists.
  - unfold try_catch. destruct (registry_client_ (nd_link n)); unfold agent_beat, agent_beat_failed, ask; mstep; [|by eexists].
    destruct (on_notice net _) as [e|[]]; mstep; by eexists.
  - by eexists.
  - exists n. split; [done|]. destruct n as [? ? [] ? ? ?]; simpl in *. by rewrite E.
Qed.

(** Once it is to stop, three steps bring the thread to its end, as [join_heartbeat] assumes. *)
Lemma join_suffices n : heartbeat_running_ (nd_link n) = false -> heartbeat_thread_ (nd_link n) <> hb_none ->
  exists n', (beats ;; beats ;; beats) n = (n', inr tt) /\ heartbeat_thread_ (nd_link n') = hb_exited.
Proof.
  intros Hr Hn. destruct (run_beat n) as (n1 & E1 & H1), (run_beat n1) as (n2 & E2 & H2), (run_beat n2) as (n3 & E3 & H3).
  exists n3. rewrite run_bind, E1. cbv beta iota. rewrite run_bind, E2. cbv beta iota. split; [exact E3|].
  rewrite H3, H2, H1. unfold beat_link, set_heartbeat. simpl. rewrite Hr.
  by destruct (heartbeat_thread_ (nd_link n)).
Qed.

Lemma run_join n : heartbeat_running_ (nd_link n) = false ->
  exists n', join_if_joinable net (agent_beat (A := A)) agent_beat_failed n = (n', inr tt) /\
    nd_link n' = set_heartbeat false hb_none (nd_link n).
Proof.
  intros Hr. unfold join_if_joinable. mstep. destruct (heartbeat_thread_ (nd_link n)) eqn:E.
  { exists n. split; [done|]. destruct n as [? ? [] ? ? ?]; simpl in *. by rewrite E, Hr. }
  all: unfold join_heartbeat; destruct (run_beat n) as (n1 & E1 & H1), (run_beat n1) as (n2 & E2 & H2),
    (run_beat n2) as (n3 & E3 & H3); rewrite run_bind, E1; cbv beta iota; rewrite run_bind, E2; cbv beta iota;
    rewrite run_bind, E3; cbv beta iota; unfold upd_link; mstep; eexists; (split; [reflexivity|]); simpl;
    rewrite H3, H2, H1; unfold beat_link, set_heartbeat; simpl; by rewrite Hr.
Qed.
End heartbeats.

(** What can happen to a task agent or the chief. *)
Inductive AgentOp :=
| op_initialize (agent_type : string) (level : Z) (capabilities : list string) (max_concurrent_tasks : Z)
| op_start
| op_stop
| op_beat
| op_shutdown.

Definition agent_op {A} (net : Network) (o : AgentOp) : M (Node A) unit :=
  match o with
  | op_initialize ty lv caps k => initialize net agent_startHeartbeat ty lv caps k
  | op_start => agent_startHeartbeat
  | op_stop => agent_stopHeartbeat net agent_beat agent_beat_failed
  | op_beat => heartbeat_step net agent_beat agent_beat_failed
  | op_shutdown => agent_shutdown net agent_beat agent_beat_failed
  end.

Lemma link_ok_start l : link_ok l -> link_ok (if heartbeat_running_ l then l else assign_thread l).
Proof.
  intros [H1 H2 H3 H4 H5]. destruct (heartbeat_running_ l) eqn:E; [by split; rewrite ?E|].
  unfold assign_thread. destruct (heartbeat_thread_ l); [by split|done..].
Qed.

Lemma run_agent_stop {A} (net : Network) (n : Node A) : link_ok (nd_link n) ->
  exists n', agent_stopHeartbeat net agent_beat agent_beat_failed n = (n', inr tt) /\
    nd_link n' = set_heartbeat false hb_none (nd_link n).
Proof.
  intros [H1 H2 H3 H4 H5]. unfold agent_stopHeartbeat. mstep. destruct (heartbeat_running_ (nd_link n)) eqn:E.
  - simpl. rewrite run_bind. unfold upd_link. mstep.
    destruct (run_join net (set_node_link (set_heartbeat false (heartbeat_thread_ (nd_link n)) (nd_link n)) n)) as (n' & En & Hn);
      [done|]. exists n'. split; [exact En|]. by rewrite Hn.
  - exists n. split; [done|]. destruct n as [? ? [? ? ? ? ? ? t ? ?] ? ? ?]; simpl in *. subst. by destruct t.
Qed.

(** Whatever is done with a task agent or the chief and whatever the registry answers: the
    process is not terminated by a second thread, the thread exists while it is to run, and the
    clients come and go together; after [shutdown] neither thread nor client is left. *)
Lemma agent_links_kept {A} (net : Network) (o : AgentOp) (n : Node A) :
  link_ok (nd_link n) -> let n' := (agent_op net o n).1 in
  link_ok (nd_link n') /\
  (o = op_shutdown -> heartbeat_thread_ (nd_link n') = hb_none /\ coordinator_client_ (nd_link n') = None).
Proof.
  intros Hk. destruct o as [ty lv caps k| | | |]; simpl.
  - split; [|done]. unfold initialize, upd_link. mstep. unfold try_catch, ask. mstep.
    assert (Hk' : link_ok (set_clients ty lv (nd_link n))).
    { destruct Hk as [H1 H2 H3 H4 H5]. split; try done. }
    destruct (on_register net _) as [e|[[] msg]]; mstep; simpl; [done| |done].
    by apply (link_ok_start (set_clients ty lv (nd_link n))).
  - split; [|done]. by apply link_ok_start.
  - split; [|done]. destruct (run_agent_stop net n Hk) as (n' & -> & Hn). simpl. rewrite Hn. by destruct Hk.
  - split; [|done]. destruct (run_beat net n) as (n' & -> & Hn). simpl. rewrite Hn. destruct Hk as [H1 H2 H3 H4 H5].
    unfold beat_link. split; simpl; try done; destruct (heartbeat_thread_ (nd_link n)) eqn:E; rewrite ?H1; done.
  - destruct (run_agent_stop net n Hk) as (n1 & E1 & Hn). unfold agent_shutdown. rewrite run_bind, E1. mstep.
    unfold when, upd_link, try_catch, ask. destruct (registry_client_ (nd_link n1)); mstep;
      [destruct (on_notice net _) as [e|[]]; mstep|]; simpl; rewrite Hn; (split; [by destruct Hk|done]).
Qed.

(** Flaw: [startHeartbeat] of a lead does not look whether the thread is there, so that calling
    it after [initializeGrpc], which has started it, terminates the process. *)
Lemma lead_second_heartbeat_terminates (net : Network) ty lv (n : Node (LeadSelf ModuleLeadState)) msg :
  nd_link n = new_link "" 0 ->
  (forall h, on_register net h = inr (true, msg)) ->
  let n1 := (module_initializeGrpc net ty lv n).1 in
  terminated (nd_link n1) = false /\ terminated (nd_link (lead_startHeartbeat n1).1) = true.
Proof.
  intros Hl Hr. unfold module_initializeGrpc, initialize, upd_link. mstep. unfold try_catch, ask. mstep. rewrite Hr.
  mstep. unfold lead_startHeartbeat, upd_link. rewrite !run_modify. simpl. by rewrite Hl.
Qed.

(** Flaw: a polling thread keeps the address of the client it was started with, which
    [shutdown] destroys. *)
Lemma poll_after_shutdown {St} `{!EqDecision St} (net : Network) (tier : YamlTier St) (n : Node (LeadSelf St)) j p :
  ls_pollers (nd_self n) !! j = Some p -> po_pc p = polling ->
  coordinator_client_ (nd_link n) = None -> use_after_free (nd_link (poller_step net tier j n).1) = true.
Proof.
  intros Hj Hp Hc. unfold poller_step. rewrite run_bind. change (get n) with (n, @inr exn _ n). cbv beta iota.
  rewrite Hj, Hp, Hc, decide_False by done. done.
Qed.

(** ** Instances *)

(** A text form of specs that parses back: the stdpp code of the record in binary. *)
#[local] Instance metadata_eq_dec : EqDecision Metadata.
Proof. solve_decision. Defined.
#[local] Instance metadata_countable : Countable Metadata.
Proof.
  refine (inj_countable' (fun m => (md_name m, md_task_id m, md_parent_task_id m, md_session_id m, md_created_at m, md_deadline m))
    (fun '(a, b, c, d, e, f) => {| md_name := a; md_task_id := b; md_parent_task_id := c; md_session_id := d;
                                   md_created_at := e; md_deadline := f |}) _). by intros [].
Defined.
#[local] Instance routing_eq_dec : EqDecision Routing.
Proof. solve_decision. Defined.
#[local] Instance routing_countable : Countable Routing.
Proof.
  refine (inj_countable' (fun m => (ro_origin_node m, ro_target_level m, ro_target_agent_type m, ro_target_agent_id m))
    (fun '(a, b, c, d) => {| ro_origin_node := a; ro_target_level := b; ro_target_agent_type := c; ro_target_agent_id := d |}) _).
  by intros [].
Defined.
#[local] Instance hierarchy_eq_dec : EqDecision Hierarchy.
Proof. solve_decision. Defined.
#[local] Instance hierarchy_countable : Countable Hierarchy.
Proof.
  refine (inj_countable' (fun m => (level0_goal m, level1_directive m, level2_module m, level3_task m))
    (fun '(a, b, c, d) => {| level0_goal := a; level1_directive := b; level2_module := c; level3_task := d |}) _).
  by intros [].
Defined.
#[local] Instance status_eq_dec : EqDecision SpecStatus.
Proof. solve_decision. Defined.
#[local] Instance status_countable : Countable SpecStatus.
Proof.
  refine (inj_countable' (fun m => (st_phase m, st_result m, st_error m, st_start_time m, st_completion_time m))
    (fun '(a, b, c, d, e) => {| st_phase := a; st_result := b; st_error := c; st_start_time := d; st_completion_time := e |}) _).
  by intros [].
Defined.
#[local] Instance action_eq_dec : EqDecision Action.
Proof. solve_decision. Defined.
#[local] Instance aggregation_eq_dec : EqDecision Aggregation.
Proof. solve_decision. Defined.
#[local] Instance spec_eq_dec : EqDecision TaskSpec.
Proof. solve_decision. Defined.
#[local] Instance spec_countable : Countable TaskSpec.
Proof.
  refine (inj_countable' (fun s => (api_version s, spec_kind s, metadata s, routing s, hierarchy s,
      (ac_type (action s), ac_priority (action s)), payload_command s,
      (ag_strategy (aggregation s), ag_timeout (aggregation s)), spec_status s))
    (fun '(a, b, c, d, e, (f1, f2), g, (h1, h2), i) =>
       {| api_version := a; spec_kind := b; metadata := c; routing := d; hierarchy := e;
          action := {| ac_type := f1; ac_priority := f2 |}; payload_command := g;
          aggregation := {| ag_strategy := h1; ag_timeout := h2 |}; spec_status := i |}) _).
  by intros [? ? ? ? ? [] ? [] ?].
Defined.

Fixpoint binary (p : positive) : string :=
  match p with
  | xH => ""
  | xO p => String "0" (binary p)
  | xI p => String "1" (binary p)
  end.
Fixpoint of_binary (s : string) : positive :=
  match s with
  | "" => xH
  | String c s => if decide (c = "0"%char) then xO (of_binary s) else xI (of_binary s)
  end.

Lemma of_binary_binary p : of_binary (binary p) = p.
Proof. induction p as [p IH|p IH|]; simpl; [by rewrite IH..|done]. Qed.

Definition blank_spec : TaskSpec :=
  {| api_version := ""; spec_kind := "";
     metadata := {| md_name := ""; md_task_id := ""; md_parent_task_id := None; md_session_id := None;
                    md_created_at := None; md_deadline := None |};
     routing := {| ro_origin_node := ""; ro_target_level := 0; ro_target_agent_type := ""; ro_target_agent_id := "" |};
     hierarchy := {| level0_goal := None; level1_directive := None; level2_module := None; level3_task := None |};
     action := {| ac_type := ""; ac_priority := "" |}; payload_command := "";
     aggregation := {| ag_strategy := ""; ag_timeout := "" |};
     spec_status := {| st_phase := ""; st_result := None; st_error := None; st_start_time := None;
                       st_completion_time := None |} |}.

(** Services that register everybody, know two agents, accept every task and report it failed. *)
Definition some_net : Network :=
  {| parseTaskSpec := fun s => decode (of_binary s); generateTaskSpec := fun s => binary (encode s);
     parseDuration := fun _ => None; fresh_spec := blank_spec; on_register := fun _ => inr (true, "");
     on_query := fun _ => inr ["a1"; "a2"]; on_submit := fun h => inr (to_string (Z.of_nat (length h)));
     on_result := fun _ => inr {| tr_task_id := ""; tr_result_yaml := ""; tr_success := false; tr_error_message := "no" |};
     on_notice := fun _ => inr tt |}.

Lemma some_net_parses s : parseTaskSpec some_net (generateTaskSpec some_net s) = Some s.
Proof. simpl. by rewrite of_binary_binary, decode_encode. Qed.

Definition some_node {A} (x : A) : Node A :=
  {| nd_id := "n"; nd_self := x; nd_link := set_clients "" 0 (new_link "" 0); nd_calls := [];
     nd_env := {| draws := Z.of_nat; draw_i := 0; clock := Z.of_nat; clock_i := 0 |}; nd_logged := [] |}.
Definition some_lead : Node (LeadSelf ModuleLeadState) :=
  some_node {| ls_coord := new_coordination M_IDLE; current_task_id_ := ""; ls_available := [];
               result_aggregator_ := None; ls_pollers := [] |}.
Definition some_goal : TaskSpec :=
  component_child blank_spec blank_spec "n" 0 "Calculate Core: 10+20+30".

Lemma yaml_delegation_witness :
  exists n', processYaml some_net module_tier (generateTaskSpec some_net some_goal) some_lead = (n', inr tt) /\
    length (nd_calls n') = 4 /\ length (ls_pollers (nd_self n')) = 3 /\
    current_state_ (ls_coord (nd_self n')) = M_WAITING_FOR_TASKS /\
    expected_results_ (ls_coord (nd_self n')) = 3.
Proof.
  destruct (yaml_delegation a_module_lead some_net (generateTaskSpec some_net some_goal) some_goal some_lead 0
              ["a1"; "a2"]) as (n' & E & Hc & _ & _ & Hp & Hs & He & _).
  - apply some_net_parses.
  - by vm_compute.
  - by split.
  - exists n'. split; [exact E|]. split; [etrans; [exact (f_equal length Hc)|by vm_compute]|].
    split; [etrans; [exact (f_equal length Hp)|by vm_compute]|].
    split; [exact Hs|]. etrans; [exact He|by vm_compute].
Defined.

Lemma polls_settle_witness :
  exists n0, prepare some_net module_tier (generateTaskSpec some_net some_goal) some_lead =
      (n0, inr (Some (some_goal, subtasks_of module_tier some_goal))) /\
    forall k n' todo,
      nsteps (works some_net module_tier some_goal) k (n0, number_tasks (subtasks_of module_tier some_goal)) (n', todo) ->
      k <= 15.
Proof.
  destruct (polls_settle a_module_lead some_net (generateTaskSpec some_net some_goal) some_goal some_lead 0 ["a1"; "a2"])
    as (n0 & E & H).
  - apply some_net_parses.
  - by vm_compute.
  - by split.
  - reflexivity.
  - reflexivity.
  - exists n0. split; [exact E|]. intros k n' todo Hk. destruct (H k n' todo Hk) as [Hle _].
    change (length (subtasks_of (tier_of a_module_lead) some_goal))
      with (length (module_decomposeGoal "Calculate Core: 10+20+30")) in Hle.
    replace (length (module_decomposeGoal "Calculate Core: 10+20+30")) with 3 in Hle by (by vm_compute). exact Hle.
Defined.
