(* ===== verification/Housekeeping.v ===== *)
(** * Housekeeping: correlation ids, reports and timers

    Smaller operations beside the components: [generateCorrelationId] (concurrency/logger.cpp)
    and the level of the logger, [Metrics::generateReport] (core/metrics.cpp), the destructor and
    CPU pinning of the scheduler (concurrency/work_stealing_scheduler.cpp), and of the server
    [RequestTimer] (metrics.hpp) and the reset of the recording publisher
    (fake_nats_publisher.hpp). *)

From S2P Require Import Prelude Effects Text Json Metrics World Logging CoreMetrics AgentMessages AgentCore Scheduler Stamps.
From Stdlib Require Import QArith.
Close Scope Q_scope.

(** ** Correlation ids *)

(** [%0nx] of a value below [16 ^ n]. *)
Fixpoint hexn (n : nat) (v : Z) : string :=
  match n with
  | O => ""
  | Datatypes.S n => String (hex (Z.land (Z.shiftr v (4 * Z.of_nat n)) 15)) (hexn n v)
  end.

(** The version and variant bits. *)
Definition set_version (b : Z) : Z := Z.lor (Z.land b 4294905855) 16384.               (* & 0xFFFF0FFF | 0x4000 *)
Definition set_variant (c : Z) : Z := Z.lor (Z.land c 1073741823) 2147483648.          (* & 0x3FFFFFFF | 0x80000000 *)

Definition correlation_text (a b c d : Z) : string :=
  hexn 8 a +:+ "-" +:+ hexn 4 (Z.land (Z.shiftr b 16) 65535) +:+ "-" +:+ hexn 4 (Z.land b 65535) +:+ "-"
  +:+ hexn 4 (Z.land (Z.shiftr c 16) 65535) +:+ "-" +:+ hexn 4 (Z.land c 65535) +:+ hexn 8 d.

Definition generateCorrelationId {S} `{!HasEnv S} : M S string :=
  a ← uniform 0 4294967295;
  b ← uniform 0 4294967295;
  c ← uniform 0 4294967295;
  d ← uniform 0 4294967295;
  mret (correlation_text a (set_version b) (set_variant c) d).

(** [CorrelationScope()]. *)
Definition scope_enter_new {S} `{!HasEnv S} (c : LogContext) : M S (LogContext * string) :=
  id ← generateCorrelationId; mret (scope_enter id c).

(** [Logger::init] and [Logger::setLevel] store the level, [Logger::log] looks at it. *)
Definition logger_setLevel (level level_ : LogLevel) : LogLevel := level.
Definition logger_init (level level_ : LogLevel) : LogLevel := logger_setLevel level level_.

(** ** The metrics report *)

Definition newline : string := String "010" "".

(** [ss << x] of a double under [std::fixed] and [std::setprecision(2)] is [fixed2]. *)
Definition priority_line (rnd : Q -> Q) (fixed2 : Q -> string) (label : string) (count total : Z) : string :=
  label +:+ to_string count
  +:+ (if (0 <? total)%Z
       then " (" +:+ fixed2 (fdiv rnd (fmul rnd (inject_Z 100) (to_double rnd count)) (to_double rnd total)) +:+ "%)"
       else "").

Definition generateReport (rnd : Q -> Q) (fixed2 : Q -> string) (now : Z) (m : CoreMetrics) : string :=
  let '(high, normal, low) := getPriorityStats m in
  let total_priority := add64 (add64 high normal) low in
  newline +:+ "=== HMAS Performance Metrics ===" +:+ newline +:+ newline
  +:+ "Throughput:" +:+ newline
  +:+ "  Messages Sent:      " +:+ to_string (messages_sent_ m) +:+ newline
  +:+ "  Messages Processed: " +:+ to_string (messages_processed_ m) +:+ newline
  +:+ "  Messages/Second:    " +:+ fixed2 (getMessagesPerSecond rnd now m) +:+ newline +:+ newline
  +:+ "Latency:" +:+ newline
  +:+ match getAverageLatencyUs rnd m with
      | Some l => "  Average Latency:    " +:+ fixed2 l +:+ " μs" +:+ newline
      | None => "  Average Latency:    No data" +:+ newline
      end
  +:+ newline
  +:+ "Priority Distribution:" +:+ newline
  +:+ priority_line rnd fixed2 "  HIGH:    " high total_priority +:+ newline
  +:+ priority_line rnd fixed2 "  NORMAL:  " normal total_priority +:+ newline
  +:+ priority_line rnd fixed2 "  LOW:     " low total_priority +:+ newline +:+ newline
  +:+ "Queue Management:" +:+ newline
  +:+ "  Max Queue Depth:    " +:+ to_string (max_queue_depth_ m) +:+ newline +:+ newline
  +:+ "Worker Utilization:" +:+ newline
  +:+ "  Utilization:        " +:+ fixed2 (getWorkerUtilization rnd m) +:+ "%" +:+ newline +:+ newline
  +:+ "Deadline Tracking:" +:+ newline
  +:+ "  Deadline Misses:    " +:+ to_string (deadline_misses_ m) +:+ newline
  +:+ match getAverageDeadlineMissMs rnd m with
      | Some d => "  Avg Late By:        " +:+ fixed2 d +:+ " ms" +:+ newline
      | None => "  Avg Late By:        No data" +:+ newline
      end
  +:+ newline +:+ "================================" +:+ newline.

(** ** The scheduler *)

(** [setCPUAffinity]: the core a worker is pinned to; the remainder by zero is undefined
    ([hardware_concurrency()] may return 0). *)
Definition cpu_of (hardware_concurrency worker_index : nat) : option nat :=
  match hardware_concurrency with
  | O => None
  | _ => Some (worker_index mod hardware_concurrency)
  end.

(** [~WorkStealingScheduler] up to the joins of [shutdown()]. *)
Definition scheduler_destroy {J} `{!ConcurrentQueue (WorkItem J)} (s : Scheduler J) : Scheduler J :=
  if running_ s then shutdown_request s else s.

(** ** The server's request timer and test double *)

Record RequestTimer := { rt_method : string; rt_path : string; rt_start : Z; rt_status_code : Z }.

Definition new_timer (method path : string) (now : Z) : RequestTimer :=
  {| rt_method := method; rt_path := path; rt_start := now; rt_status_code := 200 |}.
Definition timer_set_status (code : Z) (t : RequestTimer) : RequestTimer :=
  {| rt_method := rt_method t; rt_path := rt_path t; rt_start := rt_start t; rt_status_code := code |}.

(** [~RequestTimer]; the steady clock counts nanoseconds, [rnd] rounds the seconds to a double. *)
Definition timer_destroy (rnd : Q -> Q) (now : Z) (t : RequestTimer) : MetricsRegistry -> MetricsRegistry :=
  record_request (rt_method t) (rt_path t) (rt_status_code t)
    (rnd (inject_Z (now - rt_start t) / inject_Z 1000000000))%Q.

(** [FakeNatsPublisher::clear()]. *)
Definition fake_clear (n : FakeNats) : FakeNats := {| published := []; log_calls := [] |}.

(** ** Lemmas *)

(** A timer counts its request once, under the status set last, and as an error from 400 on. *)
Lemma timer_counts rnd now start method path codes r :
  let t := foldl (fun t c => timer_set_status c t) (new_timer method path start) codes in
  let code := default 200%Z (last codes) in
  let key := (method, path, to_string code) in
  http_requests_total_ (timer_destroy rnd now t r) = bump key (http_requests_total_ r) /\
  http_errors_total_ (timer_destroy rnd now t r) =
    if (400 <=? code)%Z then bump key (http_errors_total_ r) else http_errors_total_ r.
Proof.
  intros t code key.
  assert (H : rt_method t = method /\ rt_path t = path /\ rt_status_code t = code).
  { subst t code. induction codes as [|c codes IH] using rev_ind; [done|]. rewrite foldl_app, last_snoc. simpl.
    by destruct IH as (? & ? & _). }
  destruct H as (H1 & H2 & H3). unfold timer_destroy, record_request. rewrite H1, H2, H3. by split.
Qed.

Lemma land15_bounds v : (0 <= Z.land v 15 <= 15)%Z.
Proof.
  change (Z.land v 15) with (Z.land v (Z.ones 4)). rewrite Z.land_ones by lia. change (2 ^ 4)%Z with 16%Z.
  pose proof (Z.mod_pos_bound v 16). lia. Qed.

Lemma fits_hexn n v : fits_template (xs n) (hexn n v) = true.
Proof.
  induction n as [|n IH]; [done|]. cbn [xs hexn fits_template]. rewrite fits_hex by apply land15_bounds. exact IH.
Qed.

(** The four bits of [x] from the [k]-th on, as a number, when they are known. *)
Lemma nibble_eq x k v :
  (0 <= k)%Z -> (0 <= v < 16)%Z ->
  (forall i, (0 <= i < 4)%Z -> Z.testbit x (i + k) = Z.testbit v i) -> Z.land (Z.shiftr x k) 15 = v.
Proof.
  intros Hk Hv H. apply Z.bits_inj'. intros i Hi. change 15%Z with (Z.ones 4).
  rewrite Z.land_spec, Z.shiftr_spec, Z.testbit_ones by lia.
  destruct (Z.ltb_spec i 4).
  - rewrite (proj2 (Z.leb_le 0 i)) by lia. rewrite H by lia. by rewrite andb_true_r.
  - rewrite andb_false_r, andb_false_r. symmetry. destruct (Z.eq_dec v 0) as [->|]; [apply Z.bits_0|].
    apply Z.bits_above_log2; [lia|]. apply Z.log2_lt_pow2; [lia|]. pose proof (Z.pow_le_mono_r 2 4 i). lia.
Qed.

Ltac four_bits i Hi :=
  let H := fresh in
  assert (i = 0 \/ i = 1 \/ i = 2 \/ i = 3)%Z as H by lia; destruct H as [->|H]; [|destruct H as [->|H]; [|destruct H as [->| ->]]].

Lemma version_nibble b : Z.land (Z.shiftr (Z.land (set_version b) 65535) 12) 15 = 4%Z.
Proof.
  apply nibble_eq; [lia|lia|]. intros i Hi. unfold set_version. rewrite !Z.land_spec, Z.lor_spec, Z.land_spec.
  four_bits i Hi; simpl Z.add; rewrite ?andb_false_r; reflexivity.
Qed.

Lemma variant_nibble c : (8 <= Z.land (Z.shiftr (Z.land (Z.shiftr (set_variant c) 16) 65535) 12) 15 <= 11)%Z.
Proof.
  assert (H : forall x y, Z.testbit c 28 = x -> Z.testbit c 29 = y ->
    Z.land (Z.shiftr (Z.land (Z.shiftr (set_variant c) 16) 65535) 12) 15
    = (8 + (if x then 1 else 0) + (if y then 2 else 0))%Z).
  { intros x y Hx Hy. apply nibble_eq; [lia|by destruct x, y|]. unfold set_variant. intros i Hi.
    rewrite Z.land_spec, Z.shiftr_spec, Z.lor_spec, Z.land_spec by lia.
    four_bits i Hi; [change (0 + 12 + 16)%Z with 28%Z|change (1 + 12 + 16)%Z with 29%Z|change (2 + 12 + 16)%Z with 30%Z
                    |change (3 + 12 + 16)%Z with 31%Z]; rewrite ?Hx, ?Hy; destruct x, y; rewrite ?andb_false_r; reflexivity. }
  rewrite (H _ _ eq_refl eq_refl). by destruct (Z.testbit c 28), (Z.testbit c 29).
Qed.

(** Whatever the random engine yields, a correlation id is a version 4 UUID in its canonical
    text form. *)
Lemma correlation_id_v4 {S} `{!HasEnv S} (s : S) :
  exists s' u, generateCorrelationId s = (s', inr u) /\
    fits_template "xxxxxxxx-xxxx-4xxx-yxxx-xxxxxxxxxxxx" u = true.
Proof.
  unfold generateCorrelationId. repeat (rewrite run_bind, run_uniform; cbv beta iota). rewrite run_ret.
  eexists _, _. split; [reflexivity|]. unfold correlation_text.
  set (a := draw_at _ _ _ _). set (b := draw_at _ _ _ _). set (c := draw_at _ _ _ _). set (d := draw_at _ _ _ _).
  change "xxxxxxxx-xxxx-4xxx-yxxx-xxxxxxxxxxxx"
    with (xs 8 +:+ "-" +:+ xs 4 +:+ "-" +:+ String "4" (xs 3) +:+ "-" +:+ String "y" (xs 3) +:+ "-" +:+ xs 4 +:+ xs 8).
  repeat (apply fits_app; [first [apply fits_hexn|reflexivity]|]).
  apply fits_app.
  { cbn [hexn fits_template]. change (4 * Z.of_nat 3)%Z with 12%Z. rewrite version_nibble. apply (fits_hexn 3). }
  apply fits_app; [reflexivity|]. apply fits_app.
  { cbn [hexn fits_template]. change (4 * Z.of_nat 3)%Z with 12%Z. rewrite fits_variant by apply variant_nibble.
    apply (fits_hexn 3). }
  repeat (apply fits_app; [first [apply fits_hexn|reflexivity]|]). apply fits_hexn.
Qed.

(** The report of metrics that were just reset: no averages, no percentages. *)
Lemma report_after_reset now m :
  generateReport id (fun _ => "0.00") now (metrics_reset now m) =
  join newline
    [""; "=== HMAS Performance Metrics ==="; ""; "Throughput:"; "  Messages Sent:      0"; "  Messages Processed: 0";
     "  Messages/Second:    0.00"; ""; "Latency:"; "  Average Latency:    No data"; ""; "Priority Distribution:";
     "  HIGH:    0"; "  NORMAL:  0"; "  LOW:     0"; ""; "Queue Management:"; "  Max Queue Depth:    0"; "";
     "Worker Utilization:"; "  Utilization:        0.00%"; ""; "Deadline Tracking:"; "  Deadline Misses:    0";
     "  Avg Late By:        No data"; ""; "================================"; ""].
Proof. by vm_compute. Qed.

(** A worker is pinned to an existing core whenever the number of cores is known. *)
Lemma cpu_of_core hw w c : cpu_of hw w = Some c -> c < hw.
Proof.
  intros H. assert (c = w mod hw /\ hw <> 0) as [-> Hne] by (destruct hw; [done|]; injection H as <-; done).
  by apply Nat.mod_upper_bound.
Qed.
