(* ===== verification/Concurrency.v ===== *)
(** * Concurrency of the orchestrator's handlers

    The orchestrator (src/orchestrator.cpp) has no lock of its own.  [server_main] gives each
    worker-event subject its own NATS subscription, whose callbacks run on threads of the NATS
    library, while the routes run on the HTTP server's thread pool; all of them call the same
    [Orchestrator].  What is atomic is one call of the store (each takes the collection's mutex
    once, src/store.cpp) or of the publisher.  Here a handler is the tree of the atomic actions it
    performs, with the local computation between them ([prog]); [run] executes it alone, and
    [pool_step] interleaves any number of them action by action.

    The handlers below are those of Orchestrator.v cut at their atomic actions; that running one
    alone is the definition of Orchestrator.v is proved in ConcurrencyTheorems.v.  A publish is
    one action: nothing it touches is read by the handlers. *)

From S2P Require Import Prelude Effects Text Json HmasTypes StateMachine Metrics World Planning.
From S2P Require Import Store HmasStore Orchestrator.

(** ** Programs *)

(** Finished with a value or an exception, or about to perform an atomic action whose outcome,
    a value or an exception, decides what follows. *)
Inductive prog (S A : Type) : Type :=
| Done (r : exn + A)
| Act {B : Type} (m : M S B) (k : exn + B -> prog S A).
Arguments Done {S A}. Arguments Act {S A B}.

Fixpoint prog_bind {S A B} (f : A -> prog S B) (p : prog S A) : prog S B :=
  match p with
  | Done (inl e) => Done (inl e)
  | Done (inr a) => f a
  | Act m k => Act m (fun r => prog_bind f (k r))
  end.

#[global] Instance prog_mret S : MRet (prog S) := fun A a => Done (inr a).
#[global] Instance prog_mbind S : MBind (prog S) := fun A B => prog_bind.

(** One call that is atomic, and a local computation. *)
Definition atom {S A} (m : M S A) : prog S A := Act m Done.
Definition local {S A} (r : result A) : prog S A := Done r.

(** [try { p } catch (const std::exception& e) { h(e) }]. *)
Fixpoint catching {S A} (h : exn -> prog S A) (p : prog S A) : prog S A :=
  match p with
  | Done (inl e) => h e
  | Done (inr a) => Done (inr a)
  | Act m k => Act m (fun r => catching h (k r))
  end.

Fixpoint each {S A} (l : list A) (body : A -> prog S unit) : prog S unit :=
  match l with
  | [] => mret tt
  | x :: l => body x ;; each l body
  end.

(** A program executed with nothing in between. *)
Fixpoint run {S A} (p : prog S A) : M S A := fun s =>
  match p with
  | Done r => (s, r)
  | Act m k => let '(s', r) := m s in run (k r) s'
  end.

(** ** Interleaving *)

(** The next atomic action of a thread. *)
Definition advance {S A} (p : prog S A) (s : S) : option (S * prog S A) :=
  match p with
  | Done _ => None
  | Act m k => let '(s', r) := m s in Some (s', k r)
  end.

Definition finished {S A} (p : prog S A) : bool := match p with Done _ => true | Act _ _ => false end.

(** Some thread of the pool performs its next action. *)
Inductive pool_step {S A} : S * list (prog S A) -> S * list (prog S A) -> Prop :=
| pool_step_intro s ps i p s' p' :
    ps !! i = Some p -> advance p s = Some (s', p') -> pool_step (s, ps) (s', <[i := p']> ps).

(** A schedule: the thread that moves at each turn; a finished one stays. *)
Fixpoint schedule {S A} (turns : list nat) (c : S * list (prog S A)) : S * list (prog S A) :=
  match turns with
  | [] => c
  | i :: turns =>
      schedule turns
        match c.2 !! i ≫= (fun p => advance p c.1) with
        | Some (s', p') => (s', <[i := p']> c.2)
        | None => c
        end
  end.

(** A schedule in which the threads [0 .. n-1] take turns, [k] times. *)
Definition rounds (n k : nat) : list nat := mjoin (replicate k (seq 0 n)).

(** ** The handlers *)

Section handlers.
Context {G N : Type} (gh_ : option (IGitHubClient G)) (nats_ : NatsPublisher N).
Context `{JT : !JsonText, HO : !HashOrder}.
Abbreviation W := (World G N).
Abbreviation prog := (prog W).

Definition dispatch_thread (task : HmasTask) (payload : json) : prog unit :=
  payload ← local (dispatch_payload task payload);
  dumped ← local (jdump (-1) payload);
  atom (nats_publish nats_ (myrmidon_subject (t_layer task) (t_id task)) dumped) ;;
  atom (nats_publish nats_
    (mesh_dispatch_subject "pipeline" (mesh_role_name (t_layer task)) (t_id task)) dumped).

Definition delegate_thread (task_id : string) : prog bool :=
  task_opt ← atom (get_hmas_task gh_ task_id);
  match task_opt with
  | None => mret false
  | Some task =>
      r ← atom (delegate_walk task);
      if negb r.2 then mret false else
      atom (update_hmas_task gh_ r.1) ;;
      atom (publish_task_state nats_ r.1) ;;
      dispatch_thread r.1 (hmas_task_to_json r.1) ;;
      mret true
  end.

Definition escalate_thread (task_id reason : string) : prog bool :=
  task_opt ← atom (get_hmas_task gh_ task_id);
  match task_opt with
  | None => mret false
  | Some task =>
      r ← atom (try_transition task Escalate);
      if negb r.2 then mret false else
      now ← atom now_iso8601;
      let rec := {| e_task_id := task_id; e_reason := reason; e_escalated_at := now;
                    e_from_layer := t_layer r.1 |} in
      let task := set_escalations (t_escalations r.1 ++ [rec]) r.1 in
      atom (update_hmas_task gh_ task) ;;
      atom (publish_task_state nats_ task) ;;
      let parent_layer := layer_above (t_layer task) in
      payload ← local (set_key "escalation_reason" (JStr reason) (hmas_task_to_json task));
      dumped ← local (jdump (-1) payload);
      atom (nats_publish nats_ (myrmidon_subject parent_layer (t_id task)) dumped) ;;
      atom (nats_publish nats_
        (mesh_dispatch_subject "pipeline" (mesh_role_name parent_layer) (t_id task)) dumped) ;;
      atom (nats_log nats_ "hi.logs.agamemnon.task_escalated" "warn" ("Task escalated: " +:+ task_id)
        (jobj [("task_id", JStr task_id); ("reason", JStr reason);
               ("from_layer", JStr (hmas_layer_to_string (t_layer task)))])) ;;
      mret true
  end.

Fixpoint all_clear_thread (blockers : list string) : prog bool :=
  match blockers with
  | [] => mret true
  | blocker_id :: blockers =>
      blocker_opt ← atom (get_hmas_task gh_ blocker_id);
      match blocker_opt with
      | Some b => if bool_decide (t_state b = Completed) then all_clear_thread blockers else mret false
      | None => mret false
      end
  end.

Definition delegate_if_clear_thread (child_id : string) : prog unit :=
  candidate_opt ← atom (get_hmas_task gh_ child_id);
  match candidate_opt with
  | None => mret tt
  | Some candidate =>
      if negb (bool_decide (t_state candidate = Pending)) then mret tt else
      clear ← all_clear_thread (t_blocked_by candidate);
      if clear : bool then delegate_thread (t_id candidate) ;; mret tt else mret tt
  end.

Definition delegate_unblocked_children_thread (completed_task_id : string) : prog unit :=
  completed_opt ← atom (get_hmas_task gh_ completed_task_id);
  match completed_opt with
  | None => mret tt
  | Some completed => each (t_child_task_ids completed) delegate_if_clear_thread
  end.

Definition completion_thread (payload : string) : prog unit :=
  catching (fun _ => mret tt)
    (msg ← local (jparse payload);
     task_id ← local (completion_task_id msg);
     if str_empty task_id then mret tt else
     task_opt ← atom (get_hmas_task gh_ task_id);
     match task_opt with
     | None => atom (mark_task_completed gh_ task_id)
     | Some task =>
         task ← atom (completion_walk task);
         atom (update_hmas_task gh_ task) ;;
         atom (publish_task_state nats_ task) ;;
         delegate_unblocked_children_thread task_id ;;
         if bool_decide (t_layer task = L0_ChiefArchitect)
         then atom (nats_log nats_ "hi.logs.agamemnon.brief_completed" "info"
                ("Brief completed: " +:+ t_brief_id task)
                (jobj [("brief_id", JStr (t_brief_id task)); ("root_task_id", JStr task_id)]))
         else mret tt
     end).

Definition started_thread (payload : string) : prog unit :=
  catching (fun _ => mret tt)
    (msg ← local (jparse payload);
     task_id ← local (value_str "task_id" "" msg);
     if str_empty task_id then mret tt else
     task_opt ← atom (get_hmas_task gh_ task_id);
     match task_opt with
     | None => mret tt
     | Some task =>
         task ← atom (started_walk task);
         agent_id ← local (value_str "agent_id" "" msg);
         exec_host ← local (value_str "exec_host" "" msg);
         let task :=
           if str_empty agent_id then task
           else set_lead (if str_empty exec_host then agent_id
                          else agent_id +:+ "@" +:+ exec_host) task in
         atom (update_hmas_task gh_ task) ;;
         atom (publish_task_state nats_ task) ;;
         atom (nats_log nats_ "hi.logs.agamemnon.task_started" "info" ("Task started: " +:+ task_id)
           (jobj [("task_id", JStr task_id); ("agent_id", JStr agent_id);
                  ("exec_host", JStr exec_host)]))
     end).

Definition failed_thread (payload : string) : prog unit :=
  catching (fun _ => mret tt)
    (msg ← local (jparse payload);
     task_id ← local (value_str "task_id" "" msg);
     if str_empty task_id then mret tt else
     task_opt ← atom (get_hmas_task gh_ task_id);
     match task_opt with
     | None => mret tt
     | Some task =>
         task ← atom (failed_walk task);
         atom (update_hmas_task gh_ task) ;;
         atom (publish_task_state nats_ task) ;;
         error ← local (value_json "error" (JObj []) msg);
         atom (nats_log nats_ "hi.logs.agamemnon.task_failed" "warn" ("Task failed: " +:+ task_id)
           (jobj [("task_id", JStr task_id); ("error", error)]))
     end).

(** ** Handlers that create tasks *)

Definition submit_thread (brief : TaskBrief) : prog string :=
  id ← (if str_empty (b_id brief) then atom generate_uuid else mret (b_id brief));
  let brief := {| b_id := id; b_title := b_title brief; b_description := b_description brief;
                  b_repos := b_repos brief; b_modules := b_modules brief;
                  b_impls := b_impls brief |} in
  atom (create_task_brief gh_ brief) ;;
  tasks ← atom (decompose brief);
  each tasks (fun t => atom (create_hmas_task gh_ t)) ;;
  match tasks with
  | [] => mret tt
  | t0 :: _ =>
      root_opt ← atom (get_hmas_task gh_ (t_id t0));
      match root_opt with
      | None => mret tt
      | Some root =>
          r ← atom (try_transition root Submit);
          r ← atom (try_transition r.1 Delegate);
          let root := r.1 in
          atom (update_hmas_task gh_ root) ;;
          atom (publish_task_state nats_ root) ;;
          payload ← local (set_key "brief_id" (JStr id) (hmas_task_to_json root));
          dispatch_thread root payload ;;
          atom (nats_log nats_ "hi.logs.agamemnon.brief_submitted" "info" ("Brief submitted: " +:+ id)
            (jobj [("brief_id", JStr id); ("root_task_id", JStr (t_id root));
                   ("task_count", JInt (Z.of_nat (length tasks)))]))
      end
  end ;;
  mret id.

Definition epic_thread (payload : string) : prog string :=
  catching (fun _ => mret "")
    (msg ← local (jparse payload);
     epic ← local (value_json "epic" (JObj []) msg);
     repo ← local (value_str "repo" "" epic);
     key ← local (value_str "key" "" epic);
     issue ← local (value_int "issue" 0 epic);
     if str_empty repo || str_empty key || (issue =? 0)%Z then mret "" else
     brief_id ← atom generate_uuid;
     let brief := {| b_id := brief_id; b_title := "[epic] " +:+ key;
                     b_description := "Decompose epic " +:+ repo +:+ "#" +:+ to_string issue;
                     b_repos := []; b_modules := ∅; b_impls := ∅ |} in
     atom (create_task_brief gh_ brief) ;;
     root_id ← atom generate_uuid;
     now ← atom now_iso8601;
     let root := new_task root_id brief_id "" L0_ChiefArchitect repo "" (b_title brief)
                   (b_description brief) issue now in
     atom (create_hmas_task gh_ root) ;;
     r ← atom (try_transition root Submit);
     let root := r.1 in
     atom (update_hmas_task gh_ root) ;;
     atom (publish_task_state nats_ root) ;;
     dispatch ← local (set_key "task_id" (JStr (t_id root)) (hmas_task_to_json root));
     team_id ← local (value_str "team_id" "mesh" msg);
     dispatch ← local (set_key "team_id" (JStr team_id) dispatch);
     dispatch ← local (set_key "epic" epic dispatch);
     dispatch ← local (set_key "brief_id" (JStr brief_id) dispatch);
     dispatch_thread root dispatch ;;
     atom (nats_log nats_ "hi.logs.agamemnon.epic_registered" "info" ("Epic registered: " +:+ key)
       (jobj [("brief_id", JStr brief_id); ("root_task_id", JStr (t_id root));
              ("repo", JStr repo); ("issue", JInt issue)])) ;;
     mret brief_id).

Fixpoint split_loop_thread (ts prev_id : string) (original : HmasTask) (created : list string)
    (subtasks : list json) {struct subtasks} : prog (json + HmasTask * list string) :=
  match subtasks with
  | [] => mret (inr (original, created))
  | sub :: subtasks =>
      let err := split_error "each subtask needs a non-empty 'title'" in
      if negb (is_object sub) then mret (inl err) else
      title ← local (value_str "title" "" sub);
      if str_empty title then mret (inl err) else
      id ← atom generate_uuid;
      issue ← local (value_int "issue" 0 sub);
      description ← local (subtask_description sub);
      let child := new_task id (t_brief_id original) (t_parent_task_id original)
        (t_layer original) (t_repo original) (t_module original) title description issue ts in
      let child := set_edges
        ([t_id original] ++ (if str_empty prev_id then [] else [prev_id]) ++ subtask_blockers sub)
        [] child in
      atom (create_hmas_task gh_ child) ;;
      split_loop_thread ts id (push_child id original) (created ++ [id]) subtasks
  end.

Definition split_thread (task_id : string) (subtasks : json) : prog json :=
  task_opt ← atom (get_hmas_task gh_ task_id);
  match task_opt with
  | None => mret (split_error "task not found")
  | Some original =>
      if negb (is_array subtasks) || jempty subtasks then
        mret (split_error "subtasks must be a non-empty array")
      else
        ts ← atom now_iso8601;
        r ← split_loop_thread ts "" original [] (elements_of subtasks);
        match r with
        | inl err => mret err
        | inr (original, created) =>
            atom (update_hmas_task gh_ original) ;;
            let reply := jobj [("task_id", JStr task_id); ("created", strings_to_json created)] in
            atom (nats_log nats_ "hi.logs.agamemnon.task_split" "info" ("Task split: " +:+ task_id) reply) ;;
            mret reply
        end
  end.

(** ** What the threads of the server are asked *)

Inductive Request :=
| RCompletion (payload : string)
| RStarted (payload : string)
| RFailed (payload : string)
| RDelegate (task_id : string)
| REscalate (task_id reason : string)
| RSubmit (brief : TaskBrief)
| REpic (payload : string)
| RSplit (task_id : string) (subtasks : json).

Definition thread (r : Request) : prog unit :=
  match r with
  | RCompletion p => completion_thread p
  | RStarted p => started_thread p
  | RFailed p => failed_thread p
  | RDelegate id => delegate_thread id ;; mret tt
  | REscalate id why => escalate_thread id why ;; mret tt
  | RSubmit b => submit_thread b ;; mret tt
  | REpic p => epic_thread p ;; mret tt
  | RSplit id subs => split_thread id subs ;; mret tt
  end.

(** The same request served by the handler of Orchestrator.v. *)
Definition serve (r : Request) : M W unit :=
  match r with
  | RCompletion p => on_myrmidon_completion gh_ nats_ p
  | RStarted p => on_myrmidon_started gh_ nats_ p
  | RFailed p => on_myrmidon_failed gh_ nats_ p
  | RDelegate id => delegate gh_ nats_ id ;; mret tt
  | REscalate id why => escalate gh_ nats_ id why ;; mret tt
  | RSubmit b => submit gh_ nats_ b ;; mret tt
  | REpic p => on_epic_registered gh_ nats_ p ;; mret tt
  | RSplit id subs => split_task gh_ nats_ id subs ;; mret tt
  end.

(** Requests that only move existing tasks, and those among them that release children. *)
Definition moves_tasks (r : Request) : bool :=
  match r with RSubmit _ | REpic _ | RSplit _ _ => false | _ => true end.
Definition releases_tasks (r : Request) : bool :=
  match r with RCompletion _ | RDelegate _ | REscalate _ _ => true | _ => false end.
End handlers.
