(* ===== verification/ConcurrencyFacts.v ===== *)
(** * Concurrency: programs alone and in a pool

    A calculus for the programs of Concurrency.v.  [runs_as]: what a program does when it runs
    alone.  [safe]: every action of a program keeps the tasks of the store in shape, whatever the
    other threads did since its previous action.  [pursues]: while a child is ready, the program
    goes on towards delegating it. *)

From S2P Require Import Prelude Effects Text Json HmasTypes StateMachine Metrics World Planning.
From S2P Require Import Store StoreFacts HmasStore HmasFacts Orchestrator OrchestratorFacts Concurrency.

(** ** Running alone *)

Definition runs_as {S A} (p : prog S A) (m : M S A) : Prop := forall s, run p s = m s.

Lemma runs_ret {S A} (a : A) : runs_as (mret a : prog S A) (mret a).
Proof. by intros s. Qed.
Lemma runs_local {S A} (r : result A) : runs_as (local r : prog S A) (of_result r).
Proof. by intros s. Qed.
Lemma runs_atom {S A} (m : M S A) : runs_as (atom m) m.
Proof. intros s. unfold atom. simpl. by destruct (m s). Qed.

Lemma runs_bind {S A B} (p : prog S A) m (f : A -> prog S B) g :
  runs_as p m -> (forall a, runs_as (f a) (g a)) -> runs_as (p ≫= f) (m ≫= g).
Proof.
  intros Hp Hf s. rewrite run_bind, <- Hp. clear Hp m. change (p ≫= f) with (prog_bind f p). revert s.
  induction p as [[e|a]|B' m k IH]; intros s; simpl; [done|apply Hf|].
  destruct (m s) as [s' r]. apply IH.
Qed.

Lemma runs_catching {S A} (p : prog S A) m h g :
  runs_as p m -> (forall e, runs_as (h e) (g e)) -> runs_as (catching h p) (try_catch m g).
Proof.
  intros Hp Hh s. unfold try_catch. rewrite <- Hp. clear Hp m. revert s.
  induction p as [[e|a]|B' m k IH]; intros s; simpl; [apply Hh|done|].
  destruct (m s) as [s' r]. apply IH.
Qed.

Lemma runs_each {S A} (l : list A) (f : A -> prog S unit) g :
  (forall a, runs_as (f a) (g a)) -> runs_as (each l f) (for_each l g).
Proof. intros H. induction l as [|a l IH]; simpl; [apply runs_ret|]. by apply runs_bind. Qed.

(** Follow the two definitions side by side. *)
Ltac runs_step :=
  cbv zeta;
  lazymatch goal with
  | |- runs_as (mret _) _ => apply runs_ret
  | |- runs_as (atom _) _ => apply runs_atom
  | |- runs_as (local _) _ => apply runs_local
  | |- runs_as (each _ _) _ => apply runs_each; intros
  | |- runs_as (catching _ _) _ => apply runs_catching; [|intros]
  | |- runs_as (mbind _ _) _ => apply runs_bind; [|intros]
  | |- runs_as (match _ with _ => _ end) _ => case_match
  | |- _ => solve [auto with agamemnon]
  end.
Ltac runs := repeat runs_step.

Section handlers_alone.
Context {G N : Type} (gh_ : option (IGitHubClient G)) (nats_ : NatsPublisher N).
Context `{JT : !JsonText, HO : !HashOrder}.

Lemma runs_dispatch t p : runs_as (dispatch_thread (G := G) nats_ t p) (dispatch_task nats_ t p).
Proof. unfold dispatch_thread, dispatch_task. runs. Qed.
#[local] Hint Resolve runs_dispatch : agamemnon.

Lemma runs_delegate id : runs_as (delegate_thread gh_ nats_ id) (delegate gh_ nats_ id).
Proof. unfold delegate_thread, delegate. runs. Qed.
Lemma runs_escalate id why : runs_as (escalate_thread gh_ nats_ id why) (escalate gh_ nats_ id why).
Proof. unfold escalate_thread, escalate. runs. Qed.
Lemma runs_all_clear bs : runs_as (all_clear_thread (N := N) gh_ bs) (all_clear gh_ bs).
Proof. induction bs; cbn [all_clear_thread all_clear]; runs. Qed.
#[local] Hint Resolve runs_delegate runs_all_clear : agamemnon.

Lemma runs_delegate_if_clear c :
  runs_as (delegate_if_clear_thread gh_ nats_ c) (delegate_if_clear gh_ nats_ c).
Proof. unfold delegate_if_clear_thread, delegate_if_clear, when. runs. Qed.
#[local] Hint Resolve runs_delegate_if_clear : agamemnon.

Lemma runs_children id :
  runs_as (delegate_unblocked_children_thread gh_ nats_ id) (delegate_unblocked_children gh_ nats_ id).
Proof. unfold delegate_unblocked_children_thread, delegate_unblocked_children. runs. Qed.
#[local] Hint Resolve runs_children : agamemnon.

Lemma runs_completion p : runs_as (completion_thread gh_ nats_ p) (on_myrmidon_completion gh_ nats_ p).
Proof. unfold completion_thread, on_myrmidon_completion, when. runs. Qed.
Lemma runs_started p : runs_as (started_thread gh_ nats_ p) (on_myrmidon_started gh_ nats_ p).
Proof. unfold started_thread, on_myrmidon_started. runs. Qed.
Lemma runs_failed p : runs_as (failed_thread gh_ nats_ p) (on_myrmidon_failed gh_ nats_ p).
Proof. unfold failed_thread, on_myrmidon_failed. runs. Qed.

Lemma runs_submit b : runs_as (submit_thread gh_ nats_ b) (submit gh_ nats_ b).
Proof. unfold submit_thread, submit. runs. Qed.
Lemma runs_epic p : runs_as (epic_thread gh_ nats_ p) (on_epic_registered gh_ nats_ p).
Proof. unfold epic_thread, on_epic_registered. runs. Qed.
Lemma runs_split_loop ts subs : forall prev original created,
  runs_as (split_loop_thread (N := N) gh_ ts prev original created subs)
          (split_loop gh_ ts prev original created subs).
Proof. induction subs as [|sub subs IH]; intros; cbn [split_loop_thread split_loop]; runs. Qed.
#[local] Hint Resolve runs_split_loop : agamemnon.
Lemma runs_split id subs : runs_as (split_thread gh_ nats_ id subs) (split_task gh_ nats_ id subs).
Proof. unfold split_thread, split_task. runs. Qed.

Lemma runs_thread r : runs_as (thread gh_ nats_ r) (serve gh_ nats_ r).
Proof.
  destruct r; unfold thread, serve; [apply runs_completion|apply runs_started|apply runs_failed|..];
    (apply runs_bind; [|intros; apply runs_ret]).
  - apply runs_delegate.
  - apply runs_escalate.
  - apply runs_submit.
  - apply runs_epic.
  - apply runs_split.
Qed.
End handlers_alone.

(** ** Pools *)

Section pools.
Context {S A : Type}.
Implicit Types (p q : prog S A) (ps qs : list (prog S A)).

(** [q] is what is left of [p] after one action. *)
Definition after (q p : prog S A) : Prop := exists s s', advance p s = Some (s', q).
Definition pool_after (qs ps : list (prog S A)) : Prop :=
  exists i p q, ps !! i = Some p /\ after q p /\ qs = <[i := q]> ps.

Lemma after_wf p : Acc after p.
Proof.
  induction p as [r|B m k IH]; constructor; intros q (s & s' & H); [done|].
  simpl in H. destruct (m s) as [s1 r]. injection H as <- <-. apply IH.
Qed.

Lemma pool_after_cons p ps : Acc after p -> Acc pool_after ps -> Acc pool_after (p :: ps).
Proof.
  intros Hp. revert ps. induction Hp as [p _ IHp]. intros ps Hps.
  induction Hps as [ps Hacc IHps]. constructor. intros qs ([|i] & p1 & q & Hi & Hq & ->); simpl in *.
  - injection Hi as ->. apply IHp; [done|]. by constructor.
  - apply IHps. by exists i, p1, q.
Qed.

Lemma pool_after_wf ps : Acc pool_after ps.
Proof.
  induction ps as [|p ps IH]; [|by apply pool_after_cons; [apply after_wf|]].
  constructor. by intros qs (i & p & q & Hi & _).
Qed.

(** No pool runs for ever. *)
Lemma pool_step_wf s ps : Acc (flip pool_step) (s, ps).
Proof.
  revert s. induction (pool_after_wf ps) as [ps _ IH]. intros s. constructor. intros c Hc.
  inversion Hc as [s0 ps0 i p s' p' Hi Ha]; subst. apply IH. exists i, p, p'. split_and!; [done| |done].
  by exists s, s'.
Qed.

(** A pool with an unfinished thread can move: no action waits for another thread. *)
Lemma pool_progress s ps : (exists c, pool_step (s, ps) c) \/ forallb finished ps = true.
Proof.
  destruct (forallb finished ps) eqn:E; [by right|left].
  assert (exists i p, ps !! i = Some p /\ finished p = false) as (i & p & Hi & Hp).
  { clear -E. induction ps as [|p ps IH]; [done|]. simpl in E. destruct (finished p) eqn:Ep.
    - destruct IH as (i & q & ? & ?); [done|]. by exists (Datatypes.S i), q.
    - by exists 0, p. }
  destruct p as [r|B m k]; [done|]. destruct (m s) as [s' r] eqn:Em.
  exists (s', <[i := k r]> ps). apply (pool_step_intro s ps i (Act m k)); [done|]. simpl. by rewrite Em.
Qed.

Lemma finished_stuck s ps c : forallb finished ps = true -> ~ pool_step (s, ps) c.
Proof.
  intros Hf Hs. inversion Hs as [s0 ps0 i p s' p' Hi Ha]; subst. rewrite forallb_forall in Hf.
  specialize (Hf p (proj1 (list_elem_of_In _ _) (list_elem_of_lookup_2 _ _ _ Hi))). by destruct p.
Qed.

Lemma schedule_steps turns (c : S * list (prog S A)) : rtc pool_step c (schedule turns c).
Proof.
  revert c. induction turns as [|i turns IH]; intros [s ps]; [done|]. cbn [schedule fst snd].
  destruct (ps !! i) as [p|] eqn:Ei; simpl; [|apply IH].
  destruct (advance p s) as [[s' p']|] eqn:Ea; [|apply IH].
  eapply rtc_l; [by apply (pool_step_intro s ps i p)|apply IH].
Qed.
End pools.

(** ** Two judgements on programs among other threads *)

Section calculus.
(** [I] holds between any two actions, [K] relates the state before and after each of them, and
    [due s x] says that something is to be done for [x]. *)
Context {S X : Type} (I : S -> Prop) (K : relation S) (due : S -> X -> Prop).

(** While [x] is due the program goes on; it ends, if it does, with an outcome in [Q]. *)
Fixpoint pursues {A} (x : X) (p : prog S A) (Q : exn + A -> Prop) : Prop :=
  match p with
  | Done r => Q r
  | Act m k => forall s, I s -> due s x ->
      let '(s', r) := m s in ~ due s' x \/ pursues x (k r) Q
  end.

(** [Q] holds of the outcome; [O x] is what an [x] that became due on the way can count on at
    the end. *)
Fixpoint safe {A} (p : prog S A) (Q : exn + A -> Prop) (O : X -> exn + A -> Prop) : Prop :=
  match p with
  | Done r => Q r
  | Act m k => forall s, I s ->
      let '(s', r) := m s in
      I s' /\ K s s' /\
      (forall x, due s' x -> due s x \/ pursues x (k r) (O x)) /\
      safe (k r) Q O
  end.

(** An outcome whose value satisfies [f], or an exception allowed by [E]. *)
Definition outcome {A} (E : exn -> Prop) (f : A -> Prop) (r : exn + A) : Prop :=
  match r with inl e => E e | inr a => f a end.

Lemma pursues_mono {A} x (p : prog S A) (Q Q' : exn + A -> Prop) :
  (forall r, Q r -> Q' r) -> pursues x p Q -> pursues x p Q'.
Proof.
  intros H. induction p as [r|B m k IH]; simpl; [apply H|]. intros Hp s Hi0 Hr.
  specialize (Hp s Hi0 Hr). destruct (m s) as [s' r]. destruct Hp as [?|Hp]; [by left|right]. by apply IH.
Qed.

Lemma pursues_bind {A B} x (p : prog S A) (f : A -> prog S B) Q :
  pursues x p (outcome (fun e => Q (inl e)) (fun a => pursues x (f a) Q)) -> pursues x (p ≫= f) Q.
Proof.
  change (p ≫= f) with (prog_bind f p).
  induction p as [[e|a]|B' m k IH]; simpl; [done..|]. intros Hp s Hi0 Hr.
  specialize (Hp s Hi0 Hr). destruct (m s) as [s' r]. destruct Hp as [?|Hp]; [by left|right]. by apply IH.
Qed.

Lemma pursues_end {A B} x (p : prog S A) (f : A -> prog S B) Q :
  pursues x p (fun _ => False) -> pursues x (p ≫= f) Q.
Proof. intros Hp. apply pursues_bind. eapply pursues_mono; [|done]. done. Qed.

Lemma pursues_catching {A} x (p : prog S A) h Q :
  pursues x p (fun _ => False) -> pursues x (catching h p) Q.
Proof.
  induction p as [[e|a]|B' m k IH]; simpl; [done..|]. intros Hp s Hi0 Hr.
  specialize (Hp s Hi0 Hr). destruct (m s) as [s' r]. destruct Hp as [?|Hp]; [by left|right]. by apply IH.
Qed.

Lemma safe_bind {A B} (p : prog S A) (f : A -> prog S B) Q O :
  safe p (outcome (fun e => Q (inl e)) (fun a => safe (f a) Q O))
    (fun x => outcome (fun e => O x (inl e)) (fun a => pursues x (f a) (O x))) ->
  safe (p ≫= f) Q O.
Proof.
  change (p ≫= f) with (prog_bind f p).
  induction p as [[e|a]|B' m k IH]; simpl; [done..|]. intros Hp s Hi0. specialize (Hp s Hi0).
  destruct (m s) as [s' r]. destruct Hp as (Hi & Hk & Hn & Hs). split_and!; [done..| |by apply IH].
  intros x Hc. destruct (Hn x Hc) as [?|Hp]; [by left|right]. by apply pursues_bind.
Qed.

Lemma safe_mono {A} (p : prog S A) (Q Q' : exn + A -> Prop) (O O' : X -> exn + A -> Prop) :
  (forall r, Q r -> Q' r) -> (forall x r, O x r -> O' x r) -> safe p Q O -> safe p Q' O'.
Proof.
  intros HQ HO'. induction p as [r|B' m k IH]; simpl; [apply HQ|]. intros Hp s Hi0.
  specialize (Hp s Hi0). destruct (m s) as [s' r]. destruct Hp as (Hi & Hk & Hn & Hs).
  split_and!; [done..| |by apply IH]. intros x Hc. destruct (Hn x Hc) as [?|Hp]; [by left|right].
  eapply pursues_mono; [|done]. auto.
Qed.

Lemma safe_catching {A} (p : prog S A) (a : A) :
  safe p (fun _ => True) (fun _ _ => False) ->
  safe (catching (fun _ => mret a) p) (fun _ => True) (fun _ _ => False).
Proof.
  induction p as [[e|a']|B' m k IH]; simpl; [done..|]. intros Hp s Hi0. specialize (Hp s Hi0).
  destruct (m s) as [s' r]. destruct Hp as (Hi & Hk & Hn & Hs). split_and!; [done..| |by apply IH].
  intros x Hc. destruct (Hn x Hc) as [?|Hp]; [by left|right]. by apply pursues_catching.
Qed.

(** Single actions. *)
Lemma pursues_atom {A} x (m : M S A) Q :
  (forall s, I s -> due s x -> Q (m s).2) -> pursues x (atom m) Q.
Proof. intros H s Hs Hd. specialize (H s Hs Hd). destruct (m s) as [s' r]. by right. Qed.

Lemma pursues_first {A B} x (m : M S A) (f : A -> prog S B) Q :
  (forall s, I s -> due s x ->
     outcome (fun e => Q (inl e)) (fun a => pursues x (f a) Q) (m s).2) ->
  pursues x (atom m ≫= f) Q.
Proof. intros H. by apply pursues_bind, pursues_atom. Qed.

Lemma pursues_run {A B} x (m : M S A) (f : A -> prog S B) Q :
  (forall s, returns m s) -> (forall a, pursues x (f a) Q) -> pursues x (atom m ≫= f) Q.
Proof. intros Hm Hf. apply pursues_first. intros s _ _. destruct (Hm s) as (s' & a & ->). apply Hf. Qed.

(** A program that ends with a value whatever it finds. *)
Definition returned {A} : exn + A -> Prop := outcome (fun _ => False) (fun _ => True).

Lemma pursues_through {A B} x (p : prog S A) (f : A -> prog S B) Q :
  pursues x p returned -> (forall a, pursues x (f a) Q) -> pursues x (p ≫= f) Q.
Proof. intros Hp Hf. apply pursues_bind. eapply pursues_mono; [|done]. intros [e|a]; [done|intros _; apply Hf]. Qed.

Lemma safe_ret {A} (a : A) O : safe (mret a) (fun _ => True) O.
Proof. done. Qed.
Lemma safe_local {A B} (r : result A) (f : A -> prog S B) O :
  (forall a, safe (f a) (fun _ => True) O) -> safe (local r ≫= f) (fun _ => True) O.
Proof. intros Hf. destruct r; simpl; [done|apply Hf]. Qed.

(** A first part that makes nothing due. *)
Lemma safe_seq {A B} (p : prog S A) (f : A -> prog S B) O :
  (forall O', safe p (fun _ => True) O') -> (forall a, safe (f a) (fun _ => True) O) ->
  safe (p ≫= f) (fun _ => True) O.
Proof.
  intros Hp Hf. apply safe_bind. eapply safe_mono; [| |apply (Hp (fun _ _ => False))].
  - intros [e|a] _; [done|apply Hf].
  - done.
Qed.

(** *** The pool *)

(** Every thread is safe, and whatever is due is pursued by one of them. *)
Definition pool_ok (c : S * list (prog S unit)) : Prop :=
  I c.1 /\ Forall (fun p => safe p (fun _ => True) (fun _ _ => False)) c.2 /\
  forall x, due c.1 x -> exists p, p ∈ c.2 /\ pursues x p (fun _ => False).

Lemma pool_ok_step c c' : pool_ok c -> pool_step c c' -> pool_ok c' /\ K c.1 c'.1.
Proof.
  intros (Hs & Hps & Hd) Hstep. destruct Hstep as [s ps i p s' p' Hi Ha]. simpl in *.
  pose proof (Forall_lookup_1 _ _ _ _ Hps Hi) as Hp. destruct p as [r|B m k]; [done|]. simpl in Ha, Hp.
  specialize (Hp s Hs). destruct (m s) as [s1 r] eqn:Em. injection Ha as <- <-.
  destruct Hp as (Hs1 & Hk & Hn & Hk'). split; [|done]. split_and!; simpl; [done|by apply Forall_insert|].
  intros x Hx. assert (Hlt : i < length ps) by by eapply lookup_lt_Some.
  assert (pursues x (k r) (fun _ => False) -> exists p, p ∈ <[i:=k r]> ps /\ pursues x p (fun _ => False)) as Hme.
  { intros Hp. exists (k r). split; [|done]. apply (list_elem_of_lookup_2 _ i). by apply list_lookup_insert_eq. }
  destruct (Hn x Hx) as [Hold|?]; [|by apply Hme]. destruct (Hd x Hold) as (q & Hq & Hpq).
  apply list_elem_of_lookup in Hq as [j Hj]. destruct (decide (i = j)) as [<-|Hij].
  - rewrite Hi in Hj. injection Hj as <-. simpl in Hpq. specialize (Hpq s Hs Hold). rewrite Em in Hpq.
    destruct Hpq as [?|?]; [done|by apply Hme].
  - exists q. split; [|done]. apply (list_elem_of_lookup_2 _ j). by rewrite list_lookup_insert_ne.
Qed.

Lemma pool_ok_steps `{!PreOrder K} c c' : pool_ok c -> rtc pool_step c c' -> pool_ok c' /\ K c.1 c'.1.
Proof.
  intros Hc Hr. revert Hc. induction Hr as [c|c1 c2 c3 H12 _ IH]; intros Hc; [done|].
  destruct (pool_ok_step _ _ Hc H12) as [H2 H2k]. destruct (IH H2) as [H3 H3k]. split; [done|]. by transitivity c2.1.
Qed.

(** When every thread has finished, nothing is due. *)
Lemma pool_ok_finished s ps x : pool_ok (s, ps) -> forallb finished ps = true -> ~ due s x.
Proof.
  intros (_ & _ & Hd) Hf Hx. destruct (Hd x Hx) as (p & Hp & Hpx). simpl in Hp.
  rewrite forallb_forall in Hf. specialize (Hf p). rewrite <- list_elem_of_In in Hf. specialize (Hf Hp).
  destruct p; [exact Hpx|done].
Qed.
End calculus.

(** ** Counting the actions of a pool *)

Definition total_of (ns : list Z) : Z := foldr Z.add 0%Z ns.

Lemma budget_insert ns i n n' : ns !! i = Some n -> total_of (<[i := n']> ns) = (total_of ns - n + n')%Z.
Proof.
  revert i. induction ns as [|m ns IH]; intros [|i] H; simpl in *; [done..|injection H as ->; lia|].
  rewrite (IH i) by done. lia.
Qed.
Lemma budget_lookup ns i n : Forall (Z.le 0) ns -> ns !! i = Some n -> (n <= total_of ns)%Z.
Proof.
  intros Hf. revert i. induction Hf as [|m ns Hm Hf IH]; intros i H; [done|]. simpl.
  assert (0 <= total_of ns)%Z by (clear -Hf; induction Hf; simpl; lia).
  destruct i as [|i]; simpl in H; [injection H as ->; lia|]. specialize (IH i H). lia.
Qed.

Section budget.
(** [pot] never exceeds [total]; each thread has a budget by which it may still raise it.  [R] is
    equality when every unit is spent, or [<=]. *)
Context {S : Type} (J : S -> Prop) (pot : S -> Z) (R : relation Z) (total : Z).
Context `{!PreOrder R} (Radd : forall a b c, R a b -> R (a + c)%Z (b + c)%Z) (Rle : forall a b, R a b -> (a <= b)%Z).

Fixpoint spends {A} (n : Z) (p : prog S A) : Prop :=
  match p with
  | Done _ => n = 0%Z
  | Act m k => forall s, J s -> (pot s + n <= total)%Z ->
      let '(s', r) := m s in
      J s' /\ exists n', (0 <= n')%Z /\ R (pot s' + n')%Z (pot s + n)%Z /\ spends n' (k r)
  end.

Definition budgeted (c : S * list (prog S unit)) : Prop :=
  J c.1 /\ exists ns, Forall (Z.le 0) ns /\ Forall2 spends ns c.2 /\ R (pot c.1 + total_of ns)%Z total.

Lemma budgeted_step c c' : budgeted c -> pool_step c c' -> budgeted c'.
Proof.
  intros (Hj & ns & Hpos & Hf & Hr) Hstep. destruct Hstep as [s ps i p s' p' Hi Ha]. simpl in *.
  destruct (Forall2_lookup_r _ _ _ _ _ Hf Hi) as (n & Hn & Hp).
  destruct p as [r|B m k]; [done|]. simpl in Ha, Hp. pose proof (budget_lookup _ _ _ Hpos Hn) as Hle.
  apply Rle in Hr as Hr'. specialize (Hp s Hj ltac:(lia)). destruct (m s) as [s1 r]. injection Ha as <- <-.
  destruct Hp as (Hj' & n' & Hn' & Hs & Hk). split; [done|]. exists (<[i := n']> ns). split_and!.
  - by apply Forall_insert.
  - by apply Forall2_insert.
  - simpl. rewrite (budget_insert _ _ n) by done. etransitivity; [|exact Hr].
    replace (pot s1 + (total_of ns - n + n'))%Z with ((pot s1 + n') + (total_of ns - n))%Z by lia.
    replace (pot s + total_of ns)%Z with ((pot s + n) + (total_of ns - n))%Z by lia. by apply Radd.
Qed.

Lemma budgeted_steps c c' : budgeted c -> rtc pool_step c c' -> budgeted c'.
Proof. intros Hc Hr. induction Hr as [|c1 c2 c3 H12 _ IH]; [done|]. by eapply IH, budgeted_step. Qed.

Lemma budgeted_finished s ps : budgeted (s, ps) -> forallb finished ps = true -> R (pot s) total.
Proof.
  intros (_ & ns & _ & Hf & Hr) Hfin. replace (pot s) with (pot s + total_of ns)%Z; [done|].
  simpl in *. assert (total_of ns = 0%Z); [|lia]. clear Hr. induction Hf as [|n p ns ps Hn Hf IH]; [done|]. simpl in *.
  destruct p; [|done]. simpl in Hn, Hfin. rewrite IH by done. lia.
Qed.
End budget.
