(* ===== verification/InterleavingFacts.v ===== *)
(** * Concurrency: the handlers between other threads' actions

    What each action of the handlers of Concurrency.v does to the tasks of the store when any
    other handlers ran since its previous action: [safe] (the shape of every task is kept, no
    task returns to Pending, and a child that becomes ready is pursued by the thread that made
    it so) and [pursues] (a thread on its way to a ready child gets there). *)

From S2P Require Import Prelude Effects Text Json Utf8 HmasTypes StateMachine Metrics World Planning.
From S2P Require Import Utf8Facts Store StoreFacts HmasStore HmasFacts Orchestrator OrchestratorFacts.
From S2P Require Import Concurrency ConcurrencyFacts.

(** What no handler changes: a task but for its state, its assignee, its escalations and its
    completion time. *)
Definition shape (t : HmasTask) : HmasTask :=
  set_state Pending (set_lead "" (set_escalations [] (set_completed_at "" t))).

Definition kept (t t' : HmasTask) : Prop :=
  shape t' = shape t /\ (t_state t' = Pending -> t_state t = Pending).
#[global] Instance kept_preorder : PreOrder kept.
Proof. split; [done|]. intros t1 t2 t3 [H1 S1] [H2 S2]. split; [congruence|auto]. Qed.

(** The text a request puts into a task it releases. *)
Definition request_utf8 (r : Request) : bool :=
  match r with REscalate _ reason => utf8 reason | _ => true end.

Section interleaving.
Context {G N : Type} (gh_ : option (IGitHubClient G)) (nats_ : NatsPublisher N).
Context `{JT : !JsonText, HO : !HashOrder}.
Abbreviation W := (World G N).
Abbreviation prog := (prog W).
Implicit Types (w : W) (t : HmasTask).

(** The same tasks, each kept. *)
Definition tasks_kept (w w' : W) : Prop :=
  forall id, option_Forall2 kept (task_at w id) (task_at w' id).

#[global] Instance tasks_kept_preorder : PreOrder tasks_kept.
Proof.
  split.
  - intros w id. destruct (task_at w id); by constructor.
  - intros w1 w2 w3 H1 H2 id. specialize (H1 id). specialize (H2 id).
    destruct H1 as [t1 t2 K1|]; inversion H2 as [? t3 K2|]; subst; constructor.
    by transitivity t2.
Qed.

Lemma kept_same w w' : same_hmas w w' -> tasks_kept w w'.
Proof. intros Hs id. rewrite (task_at_same _ _ _ Hs). destruct (task_at w id); by constructor. Qed.

(** A pending child with blockers, all of them Completed and listing it. *)
Definition ready (w : W) (c : string) : Prop :=
  exists t, task_at w c = Some t /\ t_state t = Pending /\ t_blocked_by t <> [] /\
       forall b, b ∈ t_blocked_by t ->
         exists bt, task_at w b = Some bt /\ t_state bt = Completed /\ c ∈ t_child_task_ids bt.

Lemma ready_same w w' c : same_hmas w w' -> ready w' c -> ready w c.
Proof.
  intros Hs (t & Ht & Hp & Hne & Hb). rewrite (task_at_same _ _ _ Hs) in Ht.
  exists t. split_and!; [done..|]. intros b (bt & Hbt & ?)%Hb. rewrite (task_at_same _ _ _ Hs) in Hbt.
  by exists bt.
Qed.

(** Whether ready children are followed; then nothing fails: GitHub is off, the publisher
    returns, and every task is UTF-8. *)
Context (w0 : W) (follow : bool).
Context (Htotal : follow = true -> gh_ = None /\ publisher_total nats_ /\ DumpLaw).

Definition texts_ok (t : HmasTask) : Prop := follow = true -> task_utf8 t = true.

Definition followed (w : W) (c : string) : Prop := follow = true /\ ready w c.

(** The tasks of the start, in some later condition. *)
Definition since (w : W) : Prop :=
  hmas_inv w /\ tasks_kept w0 w /\ forall id t, task_at w id = Some t -> texts_ok t.

Abbreviation pursues := (ConcurrencyFacts.pursues since followed).
Abbreviation safe := (ConcurrencyFacts.safe since tasks_kept followed).

(** ** Single actions *)

Lemma since_same w w' : same_hmas w w' -> since w -> since w'.
Proof.
  intros Hs (Hi & Hk & Hu). split_and!; [by eapply same_hmas_ok| |].
  - transitivity w; [done|by apply kept_same].
  - intros id t. rewrite (task_at_same _ _ _ Hs). apply Hu.
Qed.

(** An action that leaves the tasks alone. *)
Lemma safe_atom {A} (m : M W A) Q O :
  (forall w, since w -> same_hmas w (m w).1 /\ Q (m w).2) -> safe (atom m) Q O.
Proof.
  intros Hm w Hw. specialize (Hm w Hw) as [Hm HQ]. destruct (m w) as [w' r]. simpl in *.
  split_and!; [by apply (since_same w)|by apply kept_same| |done].
  intros c [Hf Hc]. left. split; [done|]. by eapply ready_same.
Qed.

(** A task as a thread holds it: the one stored under [id] at the start, in some condition. *)
Definition genuine (id : string) (t : HmasTask) : Prop :=
  t_id t = id /\ exists t0, task_at w0 id = Some t0 /\ shape t = shape t0 /\ texts_ok t.

Lemma since_genuine w id t : since w -> task_at w id = Some t -> genuine id t.
Proof.
  intros (Hi & Hk & Hu) Ht. split; [by apply (ok_keyed _ (proj2 Hi))|]. specialize (Hk id). rewrite Ht in Hk.
  inversion Hk as [t0 t1 [Hs _] E|]; subst. exists t0. split_and!; [done..|]. by eapply Hu.
Qed.

Lemma genuine_shape id t t' : genuine id t -> genuine id t' -> shape t = shape t'.
Proof. intros (_ & t0 & H0 & Hs & _) (_ & t1 & H1 & Hs' & _). congruence. Qed.

Lemma genuine_texts id t : genuine id t -> texts_ok t.
Proof. by intros (_ & t0 & _ & _ & H). Qed.

Lemma genuine_edges id t t' :
  genuine id t -> genuine id t' ->
  t_blocked_by t = t_blocked_by t' /\ t_child_task_ids t = t_child_task_ids t'.
Proof.
  intros H H'. pose proof (genuine_shape _ _ _ H H') as E. split.
  - exact (f_equal t_blocked_by E).
  - exact (f_equal t_child_task_ids E).
Qed.

Lemma genuine_again id t t' :
  genuine id t -> shape t' = shape t -> (follow = true -> task_utf8 t = true -> task_utf8 t' = true) ->
  genuine id t'.
Proof.
  intros (Hid & t0 & H0 & Hs & Hu) E Hu'. split.
  2: { exists t0. split_and!; [congruence..|]. intros Hf. auto. }
  rewrite <- Hid. exact (f_equal t_id E).
Qed.

Lemma genuine_stored id t w : genuine id t -> since w -> exists old, task_at w id = Some old.
Proof.
  intros (_ & t0 & H0 & _) (_ & Hk & _). specialize (Hk id). rewrite H0 in Hk.
  inversion Hk as [? t1 _ E|]; subst. eauto.
Qed.

(** The forms used below: an action, then the rest. *)
Lemma safe_first {A B} (m : M W A) (f : A -> prog B) Q O :
  (forall w, since w -> same_hmas w (m w).1 /\
     outcome (fun e => Q (inl e)) (fun a => safe (f a) Q O) (m w).2) ->
  safe (atom m ≫= f) Q O.
Proof. intros H. by apply safe_bind, safe_atom. Qed.

Lemma safe_get {B} id (f : option HmasTask -> prog B) Q O :
  safe (f None) Q O -> (forall t, genuine id t -> safe (f (Some t)) Q O) ->
  safe (atom (get_hmas_task gh_ id) ≫= f) Q O.
Proof.
  intros Hn Hs. apply safe_first. intros w Hw. rewrite run_get_hmas by apply Hw. split; [done|].
  simpl. destruct (task_at w id) as [t|] eqn:E; [|done]. by eapply Hs, since_genuine.
Qed.

Lemma pursues_get {B} c id (f : option HmasTask -> prog B) Q :
  (forall w, since w -> followed w c -> pursues c (f (task_at w id)) Q) ->
  pursues c (atom (get_hmas_task gh_ id) ≫= f) Q.
Proof. intros H. apply pursues_first. intros w Hw Hc. rewrite run_get_hmas by apply Hw. by apply H. Qed.

(** Publishing, whatever comes of it. *)
Lemma safe_quiet {B A} (m : M W A) (f : A -> prog B) O :
  moves same_hmas m -> (forall a, safe (f a) (fun _ => True) O) ->
  safe (atom m ≫= f) (fun _ => True) O.
Proof.
  intros Hm Hf. apply safe_first. intros w _. split; [apply Hm|]. by destruct (m w) as [w' [e|a]]; simpl.
Qed.

(** A write of a task a thread read before: not Pending any more, its edges as they were.  A
    child it makes ready is one of its children. *)
Lemma written_ready w w' id t' c :
  t_state t' <> Pending ->
  (forall i, task_at w' i = if decide (i = id) then Some t' else task_at w i) ->
  ready w' c -> ready w c \/ (t_state t' = Completed /\ c ∈ t_child_task_ids t').
Proof.
  intros Hs Ht (t & Hc & Hp & Hne & Hb). destruct (decide (c = id)) as [->|Hcid].
  { rewrite Ht, decide_True in Hc by done. congruence. }
  rewrite Ht, decide_False in Hc by done.
  destruct (decide (id ∈ t_blocked_by t)) as [Hin|Hout].
  - right. destruct (Hb id Hin) as (bt & Hbt & Hcm & Hl). rewrite Ht, decide_True in Hbt by done.
    by injection Hbt as <-.
  - left. exists t. split_and!; [done..|]. intros b Hin. destruct (Hb b Hin) as (bt & Hbt & ?).
    exists bt. rewrite Ht, decide_False in Hbt by (by intros ->). done.
Qed.

Lemma kept_write w w' id old t' :
  task_at w id = Some old -> shape t' = shape old -> t_state t' <> Pending ->
  (forall i, task_at w' i = if decide (i = id) then Some t' else task_at w i) -> tasks_kept w w'.
Proof.
  intros Ho Hs Hp Ht i. rewrite Ht. destruct (decide (i = id)) as [->|]; [|by destruct (task_at w i); constructor].
  rewrite Ho. constructor. by split.
Qed.

Lemma update_at w id t' :
  since w -> genuine id t' ->
  exists w' r, update_hmas_task gh_ t' w = (w', r) /\ hmas_inv w' /\ (gh_ = None -> r = inr true) /\
    forall i, task_at w' i = if decide (i = id) then Some t' else task_at w i.
Proof.
  intros Hw Hg. destruct (genuine_stored _ _ _ Hg Hw) as [old Ho]. destruct Hg as [Hid _].
  destruct (run_update_hmas_task gh_ t' old w) as (w' & r & -> & Hs & Hnone);
    [apply Hw|by rewrite Hid|].
  exists w', r. split_and!; [done| |by intros ->; apply Hnone|].
  - eapply same_hmas_ok; [done|]. apply inv_written; [apply Hw|by rewrite Hid].
  - intros i. by rewrite (task_at_same _ _ _ Hs), task_at_written, Hid.
Qed.

Lemma safe_update {B} id t' (f : bool -> prog B) O :
  genuine id t' -> t_state t' <> Pending ->
  (forall c, follow = true -> t_state t' = Completed -> c ∈ t_child_task_ids t' ->
     pursues c (f true) (O c)) ->
  (forall b, safe (f b) (fun _ => True) O) ->
  safe (atom (update_hmas_task gh_ t') ≫= f) (fun _ => True) O.
Proof.
  intros Hg Hs Hch Hf. apply safe_bind. intros w Hw.
  destruct (update_at w id t' Hw Hg) as (w' & r & -> & Hi & Hr & Ht).
  destruct (genuine_stored _ _ _ Hg Hw) as [old Ho].
  assert (tasks_kept w w') as Hk.
  { eapply kept_write; [done| |done..]. eapply genuine_shape; [done|]. by eapply since_genuine. }
  split_and!; [|done| |by destruct r; simpl].
  - split_and!; [done|transitivity w; [apply Hw|done]|]. intros i u. rewrite Ht. destruct (decide (i = id)).
    + intros [= <-]. by eapply genuine_texts.
    + apply (proj2 (proj2 Hw)).
  - intros c [Hfl Hc]. destruct (written_ready w w' id t' c Hs Ht Hc) as [?|[Hcm Hin]]; [by left|right].
    rewrite Hr by apply (Htotal Hfl). simpl. by apply Hch.
Qed.

(** ** The walks, on whatever copy the thread holds *)

Lemma delegate_walk_any t w :
  exists t' ok, delegate_walk t w = (w, inr (t', ok)) /\ shape t' = shape t /\
    (ok = true -> t_state t' = Delegated) /\ task_utf8 t' = task_utf8 t.
Proof.
  destruct (decide (t_state t = Pending)) as [Hp|Hn].
  { rewrite run_delegate_walk by done. by do 2 eexists. }
  unfold delegate_walk. rewrite run_bind, try_transition_spec.
  destruct (t_state t) eqn:E; simpl; rewrite ?E; try done; by do 2 eexists.
Qed.

Lemma walk_any t w :
  (forall m : M W HmasTask, m = completion_walk t \/ m = started_walk t \/ m = failed_walk t ->
   exists w' t', m w = (w', inr t') /\ same_hmas w w' /\ shape t' = shape t /\ t_state t' <> Pending /\
     (task_utf8 t = true -> task_utf8 t' = true)).
Proof.
  destruct (run_walks t w) as (Hc & Hs & Hf).
  intros m [-> | [-> | ->] ]; rewrite ?Hc, ?Hs, ?Hf; destruct (terminal (t_state t)) eqn:E;
    do 2 eexists; split_and!; try done; try (by intros Ep; rewrite Ep in E);
    (intros Hu; apply task_utf8_completed; [apply iso8601_utf8|done]).
Qed.

Lemma safe_walk {B} (m : M W HmasTask) id t (f : HmasTask -> prog B) O :
  m = completion_walk t \/ m = started_walk t \/ m = failed_walk t -> genuine id t ->
  (forall t', genuine id t' -> t_state t' <> Pending -> safe (f t') (fun _ => True) O) ->
  safe (atom m ≫= f) (fun _ => True) O.
Proof.
  intros Hm Hg Hf. apply safe_first. intros w Hw.
  destruct (walk_any t w m Hm) as (w' & t' & -> & Hs & Hsh & Hp & Hu). split; [done|]. apply Hf; [|done].
  by eapply genuine_again.
Qed.

(** ** Every action of every handler is safe *)

Lemma quiet_publish s p : moves same_hmas (nats_publish nats_ s p : M W unit).
Proof. unfold nats_publish. moves. apply hmas_call_nats. Qed.
#[local] Hint Resolve quiet_publish hmas_publish_state hmas_log hmas_call_gh : agamemnon.

Lemma safe_last {A} (m : M W A) O : moves same_hmas m -> safe (atom m) (fun _ => True) O.
Proof. intros Hm. apply safe_atom. by split. Qed.
#[local] Hint Resolve safe_last safe_ret : agamemnon.

(** The parts of a handler after its last write. *)
Ltac quiet := repeat first
  [ solve [eauto with agamemnon]
  | apply safe_quiet; [solve [eauto with agamemnon]|intros]
  | apply safe_local; intros
  | progress cbv zeta
  | case_match ].

Lemma safe_dispatch t p O : safe (dispatch_thread nats_ t p) (fun _ => True) O.
Proof. unfold dispatch_thread. quiet. Qed.

Lemma safe_delegate id O : safe (delegate_thread gh_ nats_ id) (fun _ => True) O.
Proof.
  unfold delegate_thread. apply safe_get; [apply safe_ret|]. intros t Hg. apply safe_first. intros w Hw.
  destruct (delegate_walk_any t w) as (t' & ok & -> & Hsh & Hst & Hu). split; [done|]. simpl.
  destruct ok; [|apply safe_ret]. simpl. specialize (Hst eq_refl).
  apply (safe_update id); [apply (genuine_again id t); [done|done|by rewrite Hu]|by rewrite Hst|intros ? _ E; congruence|intros _].
  apply safe_quiet; [auto with agamemnon|intros _]. apply safe_seq; [apply safe_dispatch|]. intros. apply safe_ret.
Qed.

Lemma safe_escalate id why O :
  (follow = true -> utf8 why = true) -> safe (escalate_thread gh_ nats_ id why) (fun _ => True) O.
Proof.
  intros Hwhy. unfold escalate_thread. apply safe_get; [apply safe_ret|]. intros t Hg. apply safe_first. intros w Hw.
  rewrite try_transition_spec. destruct (t_state t) eqn:Es; try (split; [done|apply safe_ret]).
  split; [done|]. cbn [next_state terminal outcome fst snd negb]. apply safe_first. intros w1 _.
  rewrite run_now. split; [done|]. cbn [outcome snd]. cbv zeta.
  apply (safe_update id); [|done|done|intros _; quiet].
  eapply genuine_again; [exact Hg|done|]. intros Hf Hu. apply task_utf8_escalated; [|done].
  cbn [escalation_texts forallb e_task_id e_reason e_escalated_at]. rewrite (Hwhy Hf).
  rewrite <- (proj1 Hg), (task_utf8_id t Hu). unfold time_of. by rewrite iso8601_utf8.
Qed.

Lemma safe_all_clear bs O : safe (all_clear_thread gh_ bs) (fun _ => True) O.
Proof.
  induction bs as [|b bs IH]; cbn [all_clear_thread]; [apply safe_ret|].
  apply safe_get; [apply safe_ret|]. intros t _. quiet.
Qed.

Lemma safe_delegate_if_clear c O : safe (delegate_if_clear_thread gh_ nats_ c) (fun _ => True) O.
Proof.
  unfold delegate_if_clear_thread. apply safe_get; [apply safe_ret|]. intros t _.
  case_match; [apply safe_ret|]. apply safe_seq; [intros; apply safe_all_clear|]. intros [].
  - apply safe_seq; [intros; apply safe_delegate|]. intros. apply safe_ret.
  - apply safe_ret.
Qed.

Lemma safe_children id O : safe (delegate_unblocked_children_thread gh_ nats_ id) (fun _ => True) O.
Proof.
  unfold delegate_unblocked_children_thread. apply safe_get; [apply safe_ret|]. intros t _.
  induction (t_child_task_ids t) as [|c cs IH]; cbn [each]; [apply safe_ret|].
  apply safe_seq; [intros; apply safe_delegate_if_clear|]. intros _. apply IH.
Qed.

Lemma hmas_metric f : moves same_hmas (@record_metric G N f).
Proof. intros w. unfold record_metric. simpl. by destruct (metrics_ (w_store w)). Qed.
Lemma hmas_mark_completed id : moves same_hmas (mark_task_completed gh_ id : M W unit).
Proof.
  unfold mark_task_completed, ensure_tasks_loaded_, ensure_loaded_, hydrate_issue, assign, update_remote,
    entity_at.
  destruct gh_; moves; try (by apply moves_modify); try apply hmas_call_gh; try apply hmas_metric; done.
Qed.


(** ** A ready child is reached *)

(** Every read succeeds, and so does every write. *)
Lemma pursues_read {B} c id (f : option HmasTask -> prog B) Q :
  pursues c (f None) Q -> (forall t, genuine id t -> pursues c (f (Some t)) Q) ->
  pursues c (atom (get_hmas_task gh_ id) ≫= f) Q.
Proof.
  intros Hn Hs. apply pursues_get. intros w Hw _. destruct (task_at w id) as [t|] eqn:E; [|done].
  by eapply Hs, since_genuine.
Qed.

Section reached.
Context (Hfollow : follow = true).

Lemma pursues_dispatch c t l :
  task_utf8 t = true -> utf8_fields l = true -> pursues c (dispatch_thread nats_ t (JObj l)) returned.
Proof.
  intros Hu Hl. destruct (Htotal Hfollow) as (_ & Hpub & Hdump). unfold dispatch_thread.
  destruct (dispatch_payload_obj t l Hu Hl) as (l' & -> & Hl'). simpl (local _ ≫= _).
  destruct (jdump_utf8 (-1) (JObj l') Hl') as [d ->]. simpl (local _ ≫= _).
  apply pursues_run; [by apply returns_nats_publish|intros _]. apply pursues_atom. intros w _ _.
  destruct (returns_nats_publish nats_ Hpub (mesh_dispatch_subject "pipeline" (mesh_role_name (t_layer t)) (t_id t)) d w)
    as (w' & a & ->). done.
Qed.

Lemma pursues_delegate c id : pursues c (delegate_thread gh_ nats_ id) returned.
Proof.
  destruct (Htotal Hfollow) as (Hgh & Hpub & Hdump). unfold delegate_thread.
  apply pursues_read; [done|]. intros t Hg. apply pursues_first. intros w _ _.
  destruct (delegate_walk_any t w) as (t' & ok & -> & Hsh & _ & Hu). cbn [outcome snd fst].
  destruct ok; [|done]. cbn [negb]. apply pursues_first. intros w1 Hw1 _.
  destruct (update_at w1 id t' Hw1) as (w2 & r & -> & _ & Hr & _); [apply (genuine_again id t); [done|done|by rewrite Hu]|].
  assert (task_utf8 t' = true) as Hu' by (rewrite Hu; by eapply genuine_texts).
  rewrite (Hr Hgh). cbn [outcome snd]. apply pursues_run; [intros w3; by apply returns_publish_state|intros _].
  by apply pursues_through; [apply pursues_dispatch; [done|apply (task_json_utf8 t' Hu')]|].
Qed.

(** Delegating the child itself. *)
Lemma pursues_delegate_self c Q : pursues c (delegate_thread gh_ nats_ c) Q.
Proof.
  unfold delegate_thread. apply pursues_get. intros w Hw [_ (t & Ht & Hp & _)]. rewrite Ht.
  apply pursues_first. intros w1 _ _. rewrite run_delegate_walk by done. cbn [outcome snd fst negb].
  apply pursues_end. intros w2 Hw2 _.
  assert (genuine c (set_state Delegated t)) as Hg.
  { apply (genuine_again c t); [by apply (since_genuine w)|done|done]. }
  destruct (update_at w2 c _ Hw2 Hg) as (w3 & r & -> & _ & _ & Ht3). left.
  intros [_ (t3 & Hc & Hp3 & _)]. rewrite Ht3, decide_True in Hc by done. by injection Hc as <-.
Qed.

(** The blockers of a ready child are found Completed. *)
Lemma pursues_all_clear c t bs :
  genuine c t -> (forall b, b ∈ bs -> b ∈ t_blocked_by t) ->
  pursues c (all_clear_thread gh_ bs) (outcome (fun _ => False) (fun ok => ok = true)).
Proof.
  intros Hg. induction bs as [|b bs IH]; intros Hbs; [done|].
  cbn [all_clear_thread]. apply pursues_get. intros w Hw [_ (t' & Ht' & _ & _ & Hb)].
  destruct (genuine_edges c t t' Hg) as [E _]; [by eapply since_genuine|].
  destruct (Hb b) as (bt & -> & Hs & _); [rewrite <- E; apply Hbs; by left|].
  rewrite bool_decide_true by done. apply IH. intros b' Hb'. apply Hbs. by right.
Qed.

Lemma passes_all_clear c bs : pursues c (all_clear_thread gh_ bs) returned.
Proof.
  induction bs as [|b bs IH]; cbn [all_clear_thread]; [done|].
  apply pursues_read; [done|]. intros t _. by case_match.
Qed.

(** One child of the loop: another one is passed by, [c] itself is delegated. *)
Lemma passes_delegate_if_clear c x : pursues c (delegate_if_clear_thread gh_ nats_ x) returned.
Proof.
  unfold delegate_if_clear_thread. apply pursues_read; [done|]. intros t _. case_match; [done|].
  apply pursues_through; [apply passes_all_clear|]. intros []; [|done].
  by apply pursues_through; [apply pursues_delegate|].
Qed.

Lemma pursues_delegate_if_clear c Q : pursues c (delegate_if_clear_thread gh_ nats_ c) Q.
Proof.
  unfold delegate_if_clear_thread. apply pursues_get. intros w Hw [_ (t & Ht & Hp & _)]. rewrite Ht.
  rewrite bool_decide_true by done. cbn [negb].
  pose proof (since_genuine w c t Hw Ht) as Hg. apply pursues_bind.
  eapply pursues_mono; [|by apply (pursues_all_clear c t)].
  intros [e|ok]; [done|]. intros ->. cbn [outcome]. rewrite (proj1 Hg). apply pursues_end, pursues_delegate_self.
Qed.

Lemma pursues_each c cs Q : c ∈ cs -> pursues c (each cs (delegate_if_clear_thread gh_ nats_)) Q.
Proof.
  induction cs as [|x cs IH]; [by intros ?%not_elem_of_nil|]. intros Hc. cbn [each].
  destruct (decide (x = c)) as [->|Hne]; [apply pursues_end, pursues_delegate_if_clear|].
  apply pursues_through; [apply passes_delegate_if_clear|]. intros _. apply IH.
  apply elem_of_cons in Hc as [->|]; done.
Qed.

Lemma pursues_children c id t Q :
  genuine id t -> c ∈ t_child_task_ids t ->
  pursues c (delegate_unblocked_children_thread gh_ nats_ id) Q.
Proof.
  intros Hg Hc. unfold delegate_unblocked_children_thread. apply pursues_get. intros w Hw _.
  destruct (genuine_stored id t w Hg Hw) as [t' Ht']. rewrite Ht'. apply pursues_each.
  destruct (genuine_edges id t t' Hg) as [_ <-]; [by eapply since_genuine|done].
Qed.
End reached.

(** ** The event handlers *)

Lemma safe_completion p : safe (completion_thread gh_ nats_ p) (fun _ => True) (fun _ _ => False).
Proof.
  unfold completion_thread. apply safe_catching. do 2 (apply safe_local; intros). case_match; [apply safe_ret|].
  apply safe_get; [apply safe_last, hmas_mark_completed|]. intros t Hg.
  eapply safe_walk; [by left|done|]. intros t' Hg' Hp. eapply safe_update; [done|done| |intros _].
  - intros c Hf _ Hc. apply pursues_run; [|intros _].
    { intros w. destruct (Htotal Hf) as (_ & ? & ?). apply returns_publish_state; [done..|].
      by eapply genuine_texts. }
    by eapply pursues_end, pursues_children.
  - apply safe_quiet; [auto with agamemnon|intros _]. apply safe_seq; [intros; apply safe_children|]. quiet.
Qed.

Lemma safe_thread r :
  moves_tasks r = true -> (follow = true -> releases_tasks r && request_utf8 r = true) ->
  safe (thread gh_ nats_ r) (fun _ => True) (fun _ _ => False).
Proof.
  destruct r as [p|p|p|id|id why|b|p|id subs]; intros Hm Hf; try done; unfold thread.
  - apply safe_completion.
  - unfold started_thread. apply safe_catching. do 2 (apply safe_local; intros). case_match; [apply safe_ret|].
    apply safe_get; [apply safe_ret|]. intros t Hg.
    eapply safe_walk; [by right; left|done|]. intros t' Hg' Hp. do 2 (apply safe_local; intros). cbv zeta.
    match goal with |- safe (atom (update_hmas_task _ ?u) ≫= _) _ _ =>
      assert (genuine (t_id t) u /\ t_state u <> Pending) as [Hu Hup]
        by (rewrite (proj1 Hg); case_match; split; try done; by eapply genuine_again; [..|intros ?%Hf]) end.
    eapply safe_update; [done|done|by intros ? ?%Hf|intros _; quiet].
  - unfold failed_thread. apply safe_catching. do 2 (apply safe_local; intros). case_match; [apply safe_ret|].
    apply safe_get; [apply safe_ret|]. intros t Hg.
    eapply safe_walk; [by right; right|done|]. intros t' Hg' Hp.
    eapply safe_update; [done|done|by intros ? ?%Hf|intros _; quiet].
  - apply safe_seq; [intros; apply safe_delegate|]. intros. apply safe_ret.
  - apply safe_seq; [intros; apply safe_escalate; by intros ?%Hf|]. intros. apply safe_ret.
Qed.
End interleaving.
