(* ===== verification/ConcurrencyTheorems.v ===== *)
(** * Concurrency: theorems

    The handlers of the orchestrator in any interleaving of their atomic actions
    (Concurrency.v): alone they are the handlers of Orchestrator.v, every pool of them finishes,
    the tasks keep their shape, and a child whose blockers complete is delegated whichever
    handler completes them and in whatever order.  The two ways the interleaving shows, an update
    that is lost and a child that is dispatched twice, are runs at the end. *)

From S2P Require Import Prelude Effects Text Json Utf8 JsonCodec HmasTypes StateMachine Metrics World.
From S2P Require Import Planning Utf8Facts Store StoreFacts HmasStore HmasFacts Orchestrator OrchestratorFacts.
From S2P Require Import OrchestratorTheorems Concurrency ConcurrencyFacts InterleavingFacts.

(** The pool in which every request has a thread of its own. *)
Definition threads {G N : Type} (gh : option (IGitHubClient G)) (nats : NatsPublisher N)
    `{!JsonText, !HashOrder} (rs : list Request) : list (prog (World G N) unit) :=
  map (thread gh nats) rs.

(** A handler cut at its atomic actions and run with nothing in between does what the
    handler of Orchestrator.v does, exceptions included, for every kind of request. *)
Lemma thread_alone {G N : Type} (gh : option (IGitHubClient G)) (nats : NatsPublisher N)
    `{!JsonText, !HashOrder} (r : Request) (w : World G N) :
  run (thread gh nats r) w = serve gh nats r w.
Proof. apply runs_thread. Qed.

Lemma pool_ok_start {G N : Type} (gh : option (IGitHubClient G)) (nats : NatsPublisher N)
    `{!JsonText, !HashOrder} (follow : bool) (rs : list Request) (w : World G N) :
  (follow = true -> gh = None /\ publisher_total nats /\ DumpLaw) -> hmas_inv w ->
  (follow = true -> forall id t, task_at w id = Some t -> task_utf8 t = true) ->
  Forall (fun r => moves_tasks r = true /\ (follow = true -> releases_tasks r && request_utf8 r = true)) rs ->
  (forall c, ~ followed follow w c) ->
  pool_ok (since w follow) tasks_kept (followed follow) (w, threads gh nats rs).
Proof.
  intros Ht Hw Hu Hrs Hc. split_and!; [split_and!; [done|reflexivity|]| |by intros x ?%Hc].
  { intros id t E Hf. by apply (Hu Hf id). }
  apply Forall_fmap. eapply Forall_impl; [done|]. intros r [Hm Hr]. by apply safe_thread.
Qed.

(** C10: between any two moments of any interleaving of worker events, delegations and
    escalations, whatever GitHub or NATS do,
    no task appears or vanishes, no task changes but in its state, assignee, escalations and
    completion time, no task goes back to Pending, and the index of tasks by brief stays
    consistent. *)
Theorem interleaving_keeps_tasks {G N : Type} (gh : option (IGitHubClient G)) (nats : NatsPublisher N)
    `{!JsonText, !HashOrder} (rs : list Request) (w w1 w2 : World G N) ps1 ps2 :
  hmas_inv w -> forallb moves_tasks rs = true ->
  rtc pool_step (w, threads gh nats rs) (w1, ps1) -> rtc pool_step (w1, ps1) (w2, ps2) ->
  hmas_inv w2 /\ tasks_kept w1 w2.
Proof.
  intros Hw Hm H1 H2.
  assert (pool_ok (since w false) tasks_kept (followed false) (w, threads gh nats rs)) as Hst.
  { apply pool_ok_start; [done|done|done| |by intros c []]. rewrite forallb_forall in Hm.
    apply Forall_forall. intros r Hr%list_elem_of_In. by split; [apply Hm|]. }
  destruct (pool_ok_steps _ _ _ _ _ Hst H1) as [Hok1 _].
  destruct (pool_ok_steps _ _ _ _ _ Hok1 H2) as [[(Hi & _) _] Hk]. done.
Qed.

(** C4: completions, delegations and escalations served at the same time lose no release.
    However their actions are interleaved, no run goes on for ever, and one that cannot go on
    has served every request and leaves no child pending with all its blockers Completed
    (blockers that list it as their child), if there was none before.  This is with GitHub off,
    a store whose tasks are loaded and whose index by brief is consistent, a publisher whose
    [publish] returns and whose [publish_log] returns on UTF-8 text, and UTF-8 strings in the
    stored tasks and in the reasons of the escalations ([json::dump] throws on other text). *)
Theorem no_lost_release {G N : Type} (nats : NatsPublisher N) `{!JsonText, !DumpLaw, !HashOrder}
    (rs : list Request) (w : World G N) :
  publisher_total nats -> hmas_inv w -> (forall id t, task_at w id = Some t -> task_utf8 t = true) ->
  forallb releases_tasks rs = true -> forallb request_utf8 rs = true ->
  (forall c, ~ ready w c) ->
  Acc (flip pool_step) (w, threads None nats rs) /\
  forall w' ps, rtc pool_step (w, threads None nats rs) (w', ps) ->
    (forall c, ~ pool_step (w', ps) c) ->
    forallb finished ps = true /\ forall c, ~ ready w' c.
Proof.
  intros Hp Hw Hu Hrs Hrt Hn. split; [apply pool_step_wf|]. intros w' ps Hr Hstuck.
  destruct (pool_progress w' ps) as [[c Hc]|Hf]; [by destruct (Hstuck c)|]. split; [done|]. intros c Hc.
  assert (pool_ok (since w true) tasks_kept (followed true) (w, threads None nats rs)) as Hst.
  { apply pool_ok_start; [done|done|done| |by intros x [_ ?%Hn]]. rewrite forallb_forall in Hrs, Hrt.
    apply Forall_forall. intros r Hr'%list_elem_of_In. specialize (Hrs r Hr'). specialize (Hrt r Hr').
    split; [by destruct r|]. by rewrite Hrs, Hrt. }
  destruct (pool_ok_steps _ _ _ _ _ Hst Hr) as [Hok _]. by apply (pool_ok_finished _ _ _ _ _ c Hok Hf).
Qed.

(** ** Runs *)

#[local] Existing Instances codec codec_dump_law list_order.

Definition both (r1 r2 : Request) : World MockGitHub FakeNats * list (prog (World MockGitHub FakeNats) unit) :=
  (two_tasks, threads None FakeNatsPublisher [r1; r2]).
Definition state_at (w : World MockGitHub FakeNats) (id : string) : option TaskState :=
  t_state <$> task_at w id.
Definition dispatches (w : World MockGitHub FakeNats) (subject : string) : nat :=
  length (filter (fun m => m.1 = subject) (published (w_nats w))).

Lemma two_tasks_none_ready c : ~ ready two_tasks c.
Proof.
  intros (t & Ht & Hp & Hne & Hb). unfold two_tasks in Ht. rewrite task_at_created in Ht.
  case_decide; [injection Ht as <-|rewrite task_at_created in Ht; case_decide; [by injection Ht as <-|done]].
  destruct (Hb "lead") as (bt & Hbt & Hs & _); [by left|].
  unfold two_tasks in Hbt. rewrite !task_at_created in Hbt. simpl in Hbt. by injection Hbt as <-.
Qed.

(** The lead's completion reported twice, by its worker and through the REST API. *)
Definition twice := both (RCompletion done_payload) (RCompletion done_payload).
Definition midway := schedule (rounds 2 4) twice.
Definition raced := schedule (rounds 2 10) midway.

Lemma interleaving_keeps_tasks_witness : hmas_inv raced.1 /\ tasks_kept midway.1 raced.1.
Proof.
  apply (interleaving_keeps_tasks None FakeNatsPublisher
    [RCompletion done_payload; RCompletion done_payload] two_tasks midway.1 raced.1 midway.2 raced.2
    two_tasks_inv eq_refl); rewrite <- !surjective_pairing; apply schedule_steps.
Defined.

Lemma no_lost_release_witness :
  forallb finished raced.2 = true /\ (forall c, ~ ready raced.1 c) /\
  state_at raced.1 "leaf" = Some Delegated.
Proof.
  assert (forallb finished raced.2 = true) as Hf by (vm_compute; reflexivity).
  destruct (no_lost_release FakeNatsPublisher
    [RCompletion done_payload; RCompletion done_payload] two_tasks fake_total two_tasks_inv)
    as [_ H]; [apply two_tasks_utf8|reflexivity|reflexivity|apply two_tasks_none_ready|].
  destruct (H raced.1 raced.2) as [H1 H2].
  - rewrite <- surjective_pairing. transitivity midway; apply schedule_steps.
  - intros c. by apply finished_stuck.
  - split; [exact H1|]. split; [exact H2|]. vm_compute. reflexivity.
Defined.

(** A child is dispatched twice: both handlers find it pending and its blockers Completed
    before either has written it.  One after the other they dispatch it once. *)
Lemma child_dispatched_twice :
  forallb finished raced.2 = true /\
  dispatches raced.1 "hi.myrmidon.task_agent.leaf" = 2 /\
  dispatches (fst (serve None FakeNatsPublisher (RCompletion done_payload)
    (fst (serve None FakeNatsPublisher (RCompletion done_payload) two_tasks))))
    "hi.myrmidon.task_agent.leaf" = 1.
Proof. vm_compute. by split_and!. Qed.

(** An update is lost: the handler of a "started" event reads the task, the handler of
    the "completed" event completes it and releases its child, and the first one writes its copy
    back.  The task is in progress again, with its child already at work; one after the other,
    in either order, the two handlers leave it Completed. *)
Lemma completion_overwritten :
  let started := RStarted done_payload in
  let completed := RCompletion done_payload in
  let c := schedule ([0; 0] ++ replicate 13 1 ++ replicate 4 0) (both started completed) in
  let after r1 r2 := fst (serve None FakeNatsPublisher r2 (fst (serve None FakeNatsPublisher r1 two_tasks))) in
  forallb finished c.2 = true /\
  state_at c.1 "lead" = Some InProgress /\ state_at c.1 "leaf" = Some Delegated /\
  state_at (after started completed) "lead" = Some Completed /\
  state_at (after completed started) "lead" = Some Completed.
Proof. vm_compute. by split_and!. Qed.

(** [split_task] writes back the copy it read before it created the subtasks: a completion of
    the task meanwhile is lost, and the subtasks, blocked by that task, wait for ever.  And a
    subtask split off a task that is already Completed is not delegated by anyone: no later
    completion visits it. *)
Lemma split_overwrites_completion :
  let split := RSplit "lead" (JArr [JObj [("title", JStr "part two")]]) in
  let completed := RCompletion done_payload in
  let c := schedule ([0; 0] ++ replicate 13 1 ++ replicate 5 0) (both split completed) in
  let after r1 r2 := fst (serve None FakeNatsPublisher r2 (fst (serve None FakeNatsPublisher r1 two_tasks))) in
  forallb finished c.2 = true /\ state_at c.1 "lead" = Some InProgress /\
  state_at (after split completed) "lead" = Some Completed /\
  state_at (after completed split) "lead" = Some Completed /\
  map t_subject (overdue (after split completed)) = [] /\
  map t_subject (overdue (after completed split)) = ["part two"].
Proof. vm_compute. by split_and!. Qed.
