(* ===== verification/BreakerThreads.v ===== *)
(** * The circuit breaker among threads

    src/circuit_breaker.cpp has no lock: [publish] runs on every thread of the server, and the
    breaker's three fields are atomics.  Each function is here the program (Concurrency.v) of its
    loads, stores and read-modify-writes, one per action, on the fields of [Breaker.CircuitBreaker]
    (Messaging.v) and the steady clock; actions of different threads interleave in some order that
    all of them agree on.  Alone each program is the function of Messaging.v; among others the
    breaker neither trips early nor misses a trip.  What the missing lock allows is shown at the
    end. *)

From S2P Require Import Prelude Effects Text Json Metrics World Messaging Concurrency ConcurrencyFacts.
Import Breaker.

(** ** The functions, cut at their atomic operations *)

Definition Shared : Type := CircuitBreaker * Env.

Definition load {A} (f : CircuitBreaker -> A) : M Shared A := fun s => (s, inr (f s.1)).
Definition store (f : CircuitBreaker -> CircuitBreaker) : M Shared unit := fun s => ((f s.1, s.2), inr tt).
Definition set_open_since (t : Z) (b : CircuitBreaker) : CircuitBreaker :=
  {| cfg_ := cfg_ b; state_ := state_ b; failure_count_ := failure_count_ b; open_since_ms_ := t |}.

(** [failure_count_.fetch_add(1)], with its value before. *)
Definition fetch_add_failures : M Shared Z := fun s =>
  ((set_failures (wrap32 (failure_count_ s.1 + 1)) s.1, s.2), inr (failure_count_ s.1)).

(** One reading of the steady clock, in milliseconds. *)
Definition now_ms : M Shared Z := fun s => ((s.1, clock_next s.2), inr (clock s.2 (clock_i s.2))).

Section calls.
(** The configuration, which nothing writes after construction. *)
Context (cfg : Config).

Definition transition_to_open_thread : prog Shared unit :=
  now ← atom now_ms;
  atom (store (set_open_since now)) ;;
  atom (store (set_state Open)).

(** The clock is read before [open_since_ms_]; C++ leaves the order of the two operands open. *)
Definition allow_attempt_thread : prog Shared bool :=
  cur_state ← atom (load state_);
  match cur_state with
  | Closed => mret true
  | Open =>
      now ← atom now_ms;
      since ← atom (load open_since_ms_);
      if (probe_interval cfg <=? now - since)%Z then atom (store (set_state HalfOpen)) ;; mret true
      else mret false
  | HalfOpen => mret true
  end.

Definition record_success_thread : prog Shared unit :=
  atom (load state_) ;;
  atom (store (set_failures 0)) ;;
  atom (store (set_state Closed)).

Definition record_failure_thread : prog Shared unit :=
  before ← atom fetch_add_failures;
  let count := wrap32 (before + 1) in
  cur_state ← atom (load state_);
  match cur_state with
  | HalfOpen => transition_to_open_thread
  | Closed =>
      if (failure_threshold cfg <=? count)%Z then transition_to_open_thread else mret tt
  | Open => mret tt
  end.

(** What a publishing thread asks of the breaker. *)
Inductive Call := CAllow | CSuccess | CFailure.
#[global] Instance Call_eq_dec : EqDecision Call.
Proof. solve_decision. Defined.

Definition call_thread (c : Call) : prog Shared unit :=
  match c with
  | CAllow => allow_attempt_thread ;; mret tt
  | CSuccess => record_success_thread
  | CFailure => record_failure_thread
  end.

(** The same call made with nothing in between, on the functions of Messaging.v: [allow_attempt]
    reads the clock when the circuit is open, [record_failure] when it opens it. *)
Definition call_alone (c : Call) : M Shared unit := fun '(b, e) =>
  let now := clock e (clock_i e) in
  match c with
  | CAllow => ((fst (allow_attempt now b), if decide (state_ b = Open) then clock_next e else e), inr tt)
  | CSuccess => ((record_success b, e), inr tt)
  | CFailure => ((record_failure now b, if opens b then clock_next e else e), inr tt)
  end.

Lemma call_runs c b e : cfg_ b = cfg -> run (call_thread c) (b, e) = call_alone c (b, e).
Proof.
  intros Hc. destruct b as [cf st fc os]. simpl in Hc. subst cf.
  destruct c, st; try reflexivity; unfold call_thread, call_alone, opens, record_failure, allow_attempt; simpl.
  - by destruct (probe_interval cfg <=? _)%Z.
  - by destruct (failure_threshold cfg <=? _)%Z.
Qed.

(** ** Neither early nor missed *)

Definition is_failure (c : Call) : Z := if decide (c = CFailure) then 1%Z else 0%Z.
Definition failures (calls : list Call) : Z := total_of (map is_failure calls).
Definition count (s : Shared) : Z := failure_count_ s.1.

Lemma failures_pos calls : Forall (Z.le 0) (map is_failure calls).
Proof. apply Forall_fmap, Forall_true. intros c. unfold is_failure. simpl. case_decide; lia. Qed.

(** An action that leaves the count alone, and the addition. *)
Ltac spend n := split; [try done|exists n; split; [lia|split; [try done|]]].

(** Below the threshold the circuit stays closed, whatever succeeds meanwhile. *)
Definition closed_below (s : Shared) : Prop := state_ s.1 = Closed /\ (0 <= count s)%Z.

Lemma below_spends total c :
  (total < failure_threshold cfg)%Z -> (total < 2 ^ 31)%Z ->
  spends closed_below count Z.le total (is_failure c) (call_thread c).
Proof.
  intros Hlt Hw. destruct c; unfold is_failure; simpl.
  - intros s [Hs Hp] _. rewrite Hs. by spend 0%Z.
  - intros s Hs _. spend 0%Z. intros s1 [Hs1 Hp1] _. spend 0%Z; [unfold count in *; simpl; lia|].
    intros s2 [Hs2 Hp2] _. by spend 0%Z.
  - intros s [Hs Hp] Ht. unfold count in *. rewrite wrap32_small by lia.
    split; [split; [done|unfold count; simpl; lia]|]. exists 0%Z. split; [lia|]. split; [simpl; lia|].
    intros s' [Hs' Hp'] _. rewrite Hs'. spend 0%Z. rewrite (proj2 (Z.leb_gt _ _)) by lia. done.
Qed.

(** Without a success every failure is counted. *)
Definition counted (s : Shared) : Prop := (0 <= count s)%Z.

Lemma open_spends total : spends counted count eq total 0 transition_to_open_thread.
Proof. intros s Hs _. spend 0%Z. intros s1 Hs1 _. spend 0%Z. intros s2 Hs2 _. by spend 0%Z. Qed.

Lemma counted_spends total c :
  (total < 2 ^ 31)%Z -> c <> CSuccess ->
  spends counted count eq total (is_failure c) (call_thread c).
Proof.
  intros Hw Hc. destruct c; [|done|]; unfold is_failure; simpl.
  - intros s Hs _. spend 0%Z. destruct (state_ s.1); [done| |done].
    intros s1 Hs1 _. spend 0%Z. intros s2 Hs2 _. spend 0%Z.
    case_match; [|done]. intros s3 Hs3 _. by spend 0%Z.
  - intros s Hs Ht. unfold counted, count in *. rewrite wrap32_small by lia.
    split; [simpl; lia|]. exists 0%Z. split; [lia|]. split; [simpl; lia|].
    intros s' Hs' _. spend 0%Z. destruct (state_ s'.1); [case_match; [|done]|done|]; apply open_spends.
Qed.

(** The failure that reaches the threshold opens the circuit, or finds it open. *)
Definition overdue (s : Shared) (_ : unit) : Prop :=
  state_ s.1 = Closed /\ (failure_threshold cfg <= count s)%Z.
Definition any : relation Shared := fun _ _ => True.
#[global] Instance any_preorder : PreOrder any.
Proof. by split. Qed.
Abbreviation pursues := (ConcurrencyFacts.pursues (fun _ => True) overdue).
Abbreviation safe := (ConcurrencyFacts.safe (fun _ => True) any overdue).

Lemma open_pursues Q : pursues tt transition_to_open_thread Q.
Proof.
  intros s _ _. right. intros s1 _ _. right. intros s2 _ _. left. by intros [? _].
Qed.

Lemma open_safe O : safe transition_to_open_thread (fun _ => True) O.
Proof.
  intros s _. split_and!; [done..|intros x Hx; by left|].
  intros s1 _. split_and!; [done..|intros x Hx; by left|].
  intros s2 _. split_and!; [done..|by intros x [? _]|done].
Qed.

Lemma call_safe c : c <> CSuccess -> safe (call_thread c) (fun _ => True) (fun _ _ => False).
Proof.
  intros Hc. destruct c; [|done|]; simpl.
  - intros s _. split_and!; [done..|intros x Hx; by left|]. destruct (state_ s.1); [done| |done].
    intros s1 _. split_and!; [done..|intros x Hx; by left|].
    intros s' _. split_and!; [done..|intros x Hx; by left|]. case_match; [|done].
    intros s2 _. split_and!; [done..|by intros x [? _]|done].
  - intros s _. split_and!; [done..| |].
    + intros [] [_ Hd]. right. intros s' _ [Hc' _]. right. rewrite Hc'.
      rewrite (proj2 (Z.leb_le _ _)) by exact Hd. apply open_pursues.
    + intros s' _. split_and!; [done..|intros x Hx; by left|].
      destruct (state_ s'.1); [case_match; [|done]|done|]; apply open_safe.
Qed.
End calls.

(** C31: publishing threads that call the breaker at the same time trip it exactly when they
    should.  From a closed circuit with no failure counted, as long as fewer than
    [failure_threshold] failures are being recorded, the circuit is closed at every moment,
    whatever successes and attempts happen meanwhile; and when at least that many are recorded
    and nothing succeeds, the circuit is not closed once all calls have returned, in whatever
    order their atomic operations happened. *)
Theorem breaker_trips_exactly (calls : list Call) (b b' : CircuitBreaker) (e e' : Env) ps :
  state_ b = Closed -> failure_count_ b = 0%Z -> (1 <= failure_threshold (cfg_ b))%Z -> (failures calls < 2 ^ 31)%Z ->
  rtc pool_step ((b, e), map (call_thread (cfg_ b)) calls) ((b', e'), ps) ->
  ((failures calls < failure_threshold (cfg_ b))%Z -> state_ b' = Closed) /\
  ((failure_threshold (cfg_ b) <= failures calls)%Z -> CSuccess ∉ calls -> forallb finished ps = true ->
   state_ b' <> Closed).
Proof.
  intros Hs Hc. generalize (cfg_ b). intros cfg Ht Hw Hr. split.
  - intros Hlt.
    assert (budgeted closed_below count Z.le (failures calls) ((b, e), map (call_thread cfg) calls)) as Hst.
    { split; [by split; [|unfold count; simpl; lia]|]. exists (map is_failure calls).
      split_and!; [apply failures_pos| |unfold count, failures; simpl; lia].
      apply Forall2_fmap, Forall_Forall2_diag, Forall_true. intros c. by apply below_spends. }
    destruct (budgeted_steps _ _ Z.le _ ltac:(intros; lia) ltac:(done) _ _ Hst Hr) as [[? _] _]. done.
  - intros Hge Hns Hf Hcl.
    assert (forall c, c ∈ calls -> c <> CSuccess) as Hne by (by intros c Hc' ->).
    assert (budgeted counted count eq (failures calls) ((b, e), map (call_thread cfg) calls)) as Hst.
    { split; [unfold counted, count; simpl; lia|]. exists (map is_failure calls).
      split_and!; [apply failures_pos| |unfold count, failures; simpl; lia].
      apply Forall2_fmap, Forall_Forall2_diag, Forall_forall. intros c Hc'. apply counted_spends; auto. }
    assert (pool_ok (fun _ => True) any (overdue cfg) ((b, e), map (call_thread cfg) calls)) as Hok.
    { split_and!; [done| |]; simpl.
      - apply Forall_fmap, Forall_forall. intros c Hc'. apply call_safe; auto.
      - intros x [_ Hd]. unfold count in Hd. simpl in Hd. lia. }
    pose proof (budgeted_finished _ _ _ _ _ _ (budgeted_steps _ _ eq _ ltac:(congruence) ltac:(intros; lia) _ _ Hst Hr) Hf) as Hcount.
    destruct (pool_ok_steps _ _ _ _ _ Hok Hr) as [Hok' _].
    apply (pool_ok_finished _ _ _ _ _ tt Hok' Hf). split; [done|]. by rewrite Hcount.
Qed.

(** ** Runs *)

Definition ms (readings : list Z) : Env :=
  {| draws := fun _ => 0%Z; draw_i := 0; clock := fun i => nth i readings 0%Z; clock_i := 0 |}.
Definition cfg5 : Config := default_config.
Definition storm : list Call := replicate 5 CFailure ++ [CAllow].
Definition storm_end : Shared * list (prog Shared unit) :=
  schedule (rounds 6 5) ((new_breaker cfg5, ms [7; 8; 9; 10; 11; 12]%Z), map (call_thread cfg5) storm).

Lemma breaker_trips_exactly_witness :
  forallb finished storm_end.2 = true /\ state_ storm_end.1.1 <> Closed /\ state_ storm_end.1.1 = Open.
Proof.
  assert (forallb finished storm_end.2 = true) as Hf by (vm_compute; reflexivity).
  split; [exact Hf|]. split; [|vm_compute; reflexivity].
  refine (proj2 (breaker_trips_exactly storm (new_breaker cfg5) storm_end.1.1
    (ms [7; 8; 9; 10; 11; 12]%Z) storm_end.1.2 storm_end.2 eq_refl eq_refl _ _ _) _ _ Hf).
  - vm_compute. discriminate.
  - vm_compute. reflexivity.
  - rewrite <- !surjective_pairing. apply schedule_steps.
  - vm_compute. discriminate.
  - apply (bool_decide_unpack (CSuccess ∉ storm)). vm_compute. exact I.
Defined.

Definition open_at (t : Z) : CircuitBreaker := transition_to_open t (new_breaker cfg5).

(** "Allow the one probe attempt": once half-open the circuit allows every attempt until an
    outcome is recorded. *)
Lemma half_open_allows_all :
  let step r now := let a := allow_attempt now r.1 in (a.1, r.2 ++ [a.2]) in
  (foldl step (open_at 0, []) [30000; 30001; 30002]%Z).2 = [true; true; true].
Proof. vm_compute. reflexivity. Qed.

(** A stale store: two threads find the interval elapsed; the probe of one succeeds and closes
    the circuit, then the other stores HalfOpen.  The circuit is half-open although nothing failed
    since it closed, and a single failure opens it again. *)
Lemma closed_circuit_half_opened :
  let c := schedule ([0; 0; 0] ++ replicate 4 1 ++ replicate 3 2 ++ [0])
             ((open_at 0, ms [30000; 30001; 30050]%Z), map (call_thread cfg5) [CAllow; CAllow; CSuccess]) in
  forallb finished c.2 = true /\ state_ c.1.1 = HalfOpen /\
  state_ (record_failure 30050 c.1.1) = Open.
Proof. vm_compute. by split_and!. Qed.

(** The other way round: the failure that reaches the threshold opens the circuit after a success
    has reset the count, so that the circuit is open with no failure counted. *)
Lemma opened_after_success :
  let b := set_failures 4 (new_breaker cfg5) in
  let c := schedule ([0; 0] ++ [1; 1; 1] ++ [0; 0; 0])
             ((b, ms [10]%Z), map (call_thread cfg5) [CFailure; CSuccess]) in
  forallb finished c.2 = true /\ state_ c.1.1 = Open /\ failure_count_ c.1.1 = 0%Z.
Proof. vm_compute. by split_and!. Qed.
