(* ===== verification/InboxThreads.v ===== *)
(** * The inboxes of an agent among threads

    src/agents/agent_core.cpp takes no lock around [receiveMessage] and [getMessage]: any number
    of threads deliver to an agent while workers fetch from it.  Each function is here the program
    (Concurrency.v) of its operations on the three queues and on the atomic members, one per
    action.  Of the lock-free queue only what holds with other operations in flight is assumed
    ([ConcurrentQueueLaws]): a dequeue may fail on a queue that is not empty, and the size it
    reports is approximate.  Alone each program is the function of AgentCore.v; among others no
    message is lost or duplicated, and none is dropped while there is room for the error of the
    sizes. *)

From S2P Require Import Prelude Effects AgentMessages AgentCore Concurrency ConcurrencyFacts.

Section programs.
Context `{CQ : !ConcurrentQueue KeystoneMessage}.
Abbreviation prog := (prog AgentCore).

(** ** Operations on one member *)

Definition inbox_of (p : Priority) (c : AgentCore) : cq KeystoneMessage :=
  match p with
  | HIGH => high_priority_inbox_ c
  | NORMAL => normal_priority_inbox_ c
  | LOW => low_priority_inbox_ c
  end.
Definition set_inbox (p : Priority) (q : cq KeystoneMessage) (c : AgentCore) : AgentCore :=
  match p with
  | HIGH => set_inboxes q (normal_priority_inbox_ c) (low_priority_inbox_ c) c
  | NORMAL => set_inboxes (high_priority_inbox_ c) q (low_priority_inbox_ c) c
  | LOW => set_inboxes (high_priority_inbox_ c) (normal_priority_inbox_ c) q c
  end.

Definition read {A} (f : AgentCore -> A) : M AgentCore A := fun c => (c, inr (f c)).
Definition size_of (p : Priority) : M AgentCore nat := read (fun c => size_approx (inbox_of p c)).
Definition enqueue_to (p : Priority) (m : KeystoneMessage) : M AgentCore unit := fun c =>
  (set_inbox p (enqueue m (inbox_of p c)) c, inr tt).
Definition dequeue_from (p : Priority) : M AgentCore (option KeystoneMessage) := fun c =>
  match try_dequeue (inbox_of p c) with
  | Some (m, q) => (set_inbox p q c, inr (Some m))
  | None => (c, inr None)
  end.
(** [backpressure_applied_.compare_exchange_strong(expected, desired)]. *)
Definition exchange_backpressure (expected desired : bool) : M AgentCore bool := fun c =>
  if bool_decide (backpressure_applied_ c = expected) then (set_backpressure desired c, inr true)
  else (c, inr false).

(** ** The two functions *)

(** What becomes of the message of the call; [receiveMessage] itself returns nothing. *)
Inductive Outcome :=
| Accepted
| Dropped (m : KeystoneMessage)
| Got (m : KeystoneMessage)
| Empty.

(** The sum of the three sizes, read one after the other. *)
Definition depth_thread : prog nat :=
  h ← atom (size_of HIGH);
  n ← atom (size_of NORMAL);
  l ← atom (size_of LOW);
  mret (h + n + l).

Definition receive_thread (m : KeystoneMessage) : prog Outcome :=
  total_depth ← depth_thread;
  was_backpressure_applied ← atom (read backpressure_applied_);
  if bool_decide (AGENT_MAX_QUEUE_SIZE <= total_depth) then
    (if was_backpressure_applied : bool then mret true else atom (exchange_backpressure false true)) ;;
    mret (Dropped m)
  else
    (if bool_decide (total_depth < low_watermark) && was_backpressure_applied
     then atom (exchange_backpressure true false) else mret true) ;;
    atom (enqueue_to (priority m) m) ;;
    mret Accepted.

(** The timer, then [updateQueueDepthMetrics], which reads the sizes for the metrics. *)
Definition return_thread (now_ns : Z) (m : KeystoneMessage) : prog Outcome :=
  atom (fun c => (set_last_check now_ns c, inr tt)) ;;
  depth_thread ;;
  mret (Got m).

Definition get_thread (now_ns : Z) : prog Outcome :=
  last_check_ns ← atom (read last_low_priority_check_ns_);
  interval_ns ← atom (read low_priority_check_interval_ns_);
  high ← atom (dequeue_from HIGH);
  match high with
  | Some m =>
      if (negb (last_check_ns =? 0) && (interval_ns <=? now_ns - last_check_ns))%Z then
        normal ← atom (dequeue_from NORMAL);
        match normal with
        | Some f => atom (enqueue_to HIGH m) ;; return_thread now_ns f
        | None =>
            low ← atom (dequeue_from LOW);
            match low with
            | Some f => atom (enqueue_to HIGH m) ;; return_thread now_ns f
            | None => return_thread now_ns m
            end
        end
      else return_thread now_ns m
  | None =>
      normal ← atom (dequeue_from NORMAL);
      match normal with
      | Some m => return_thread now_ns m
      | None =>
          low ← atom (dequeue_from LOW);
          match low with
          | Some m => return_thread now_ns m
          | None => mret Empty
          end
      end
  end.

Definition inbox_thread (o : InboxOp) : prog Outcome :=
  match o with IReceive m => receive_thread m | IGet now_ns => get_thread now_ns end.

(** The same call with nothing in between. *)
Definition inbox_alone (o : InboxOp) (c : AgentCore) : AgentCore * Outcome :=
  match o with
  | IReceive m =>
      (core_receiveMessage m c,
       if bool_decide (AGENT_MAX_QUEUE_SIZE <= total_depth c) then Dropped m else Accepted)
  | IGet now_ns =>
      let '(c, m) := core_getMessage now_ns c in (c, match m with Some m => Got m | None => Empty end)
  end.

Lemma set_inbox_enqueue m c : set_inbox (priority m) (enqueue m (inbox_of (priority m) c)) c = enqueue_by_priority m c.
Proof. unfold enqueue_by_priority. by destruct (priority m). Qed.

Lemma deliver_runs m c :
  run (receive_thread m) c =
  (core_receiveMessage m c,
   inr (if bool_decide (AGENT_MAX_QUEUE_SIZE <= total_depth c) then Dropped m else Accepted)).
Proof.
  unfold receive_thread, core_receiveMessage, total_depth. cbn.
  destruct (bool_decide (AGENT_MAX_QUEUE_SIZE <= _)) eqn:Ed; cbn.
  - destruct (backpressure_applied_ c) eqn:Eb; cbn; [done|].
    unfold exchange_backpressure. rewrite bool_decide_true by done. done.
  - destruct (bool_decide (_ < low_watermark)); cbn; [|by rewrite set_inbox_enqueue].
    destruct (backpressure_applied_ c) eqn:Eb; cbn; [|by rewrite set_inbox_enqueue].
    unfold exchange_backpressure. rewrite bool_decide_true by done. cbn. by rewrite set_inbox_enqueue.
Qed.

Lemma fetch_runs now c :
  run (get_thread now) c =
  ((core_getMessage now c).1, inr (match (core_getMessage now c).2 with Some m => Got m | None => Empty end)).
Proof.
  unfold get_thread, core_getMessage. cbn. unfold dequeue_from at 1. cbn.
  destruct (try_dequeue (high_priority_inbox_ c)) as [[m h]|]; cbn.
  - destruct (_ && _); cbn; [|done]. unfold dequeue_from at 1. cbn.
    destruct (try_dequeue (normal_priority_inbox_ c)) as [[f n]|]; cbn; [done|].
    unfold dequeue_from at 1. cbn.
    destruct (try_dequeue (low_priority_inbox_ c)) as [[f l]|]; done.
  - unfold dequeue_from at 1. cbn. destruct (try_dequeue (normal_priority_inbox_ c)) as [[f n]|]; cbn; [done|].
    unfold dequeue_from at 1. cbn. destruct (try_dequeue (low_priority_inbox_ c)) as [[f l]|]; done.
Qed.

(** Alone, a call does what AgentCore.v says. *)
Lemma inbox_runs o c : run (inbox_thread o) c = ((inbox_alone o c).1, inr (inbox_alone o c).2).
Proof.
  destruct o as [m|now]; [apply deliver_runs|]. unfold inbox_thread, inbox_alone. rewrite fetch_runs.
  by destruct (core_getMessage now c).
Qed.
End programs.

(** ** Nothing lost, nothing duplicated *)

Section conserved.
Context `{CQ : !ConcurrentQueue KeystoneMessage, CL : !ConcurrentQueueLaws KeystoneMessage}.
(** All the messages there are. *)
Context (total : list KeystoneMessage).
Abbreviation prog := (prog AgentCore).
Implicit Types (c : AgentCore) (held rest : list KeystoneMessage).

(** Every message waits in the inbox of its priority. *)
Definition filed (c : AgentCore) : Prop := forall p m, m ∈ contents (inbox_of p c) -> priority m = p.

Lemma inbox_of_set p p' q c : inbox_of p' (set_inbox p q c) = if decide (p' = p) then q else inbox_of p' c.
Proof. by destruct p, p'. Qed.

Lemma pending_split p c : exists others, forall q,
  pending (set_inbox p q c) ≡ₚ contents q ++ others /\ pending c ≡ₚ contents (inbox_of p c) ++ others.
Proof.
  unfold pending. destruct p; simpl.
  - by eexists.
  - exists (contents (high_priority_inbox_ c) ++ contents (low_priority_inbox_ c)). intros q. split; solve_Permutation.
  - exists (contents (high_priority_inbox_ c) ++ contents (normal_priority_inbox_ c)). intros q. split; solve_Permutation.
Qed.

Lemma pending_put p m c : pending (set_inbox p (enqueue m (inbox_of p c)) c) ≡ₚ m :: pending c.
Proof.
  destruct (pending_split p c) as [o Ho]. destruct (Ho (enqueue m (inbox_of p c))) as [-> ->].
  by rewrite contents_enqueue.
Qed.
Lemma filed_put p m c : filed c -> priority m = p -> filed (set_inbox p (enqueue m (inbox_of p c)) c).
Proof.
  intros Hf Hp p' m'. rewrite inbox_of_set. case_decide as E; [subst p'|apply Hf].
  rewrite contents_enqueue. intros [->|H]%elem_of_cons; [done|by apply Hf].
Qed.

Lemma pending_take p m q c :
  try_dequeue (inbox_of p c) = Some (m, q) -> pending c ≡ₚ m :: pending (set_inbox p q c).
Proof.
  intros H%contents_dequeue. destruct (pending_split p c) as [o Ho]. destruct (Ho q) as [-> ->]. by rewrite H.
Qed.
Lemma filed_take p m q c :
  filed c -> try_dequeue (inbox_of p c) = Some (m, q) -> priority m = p /\ filed (set_inbox p q c).
Proof.
  intros Hf H%contents_dequeue. split; [apply (Hf p); rewrite H; by left|].
  intros p' m'. rewrite inbox_of_set. case_decide as E; [subst p'|apply Hf]. intros Hm. apply (Hf p). rewrite H. by right.
Qed.

Lemma filed_new id : filed (new_core id).
Proof. intros p m. destruct p; simpl; rewrite contents_new; by intros ?%not_elem_of_nil. Qed.

(** The part of a list with one priority. *)
Definition lane (p : Priority) (l : list KeystoneMessage) : list KeystoneMessage :=
  filter (fun m => priority m = p) l.

Lemma lanes l : length (lane HIGH l) + length (lane NORMAL l) + length (lane LOW l) = length l.
Proof.
  unfold lane. induction l as [|m l IH]; [done|]. rewrite !filter_cons. destruct (priority m); simpl; lia.
Qed.

Lemma lane_all p l : (forall m, m ∈ l -> priority m = p) -> lane p l = l.
Proof.
  unfold lane. induction l as [|m l IH]; intros H; [done|]. rewrite filter_cons_True by (apply H; by left).
  f_equal. apply IH. intros m' Hm'. apply H. by right.
Qed.

Lemma size_in_lane p c held rest :
  filed c -> pending c ++ held ++ rest ≡ₚ total ->
  length (contents (inbox_of p c)) + length (lane p held) <= length (lane p total).
Proof.
  intros Hf Ht. destruct (pending_split p c) as [o Ho]. destruct (Ho cq_new) as [_ Hp].
  rewrite Hp in Ht. pose proof (lane_all p _ (Hf p)) as E. unfold lane in *.
  rewrite <- Ht, !filter_app, !length_app, E. lia.
Qed.

Definition carried (o : Outcome) : list KeystoneMessage :=
  match o with Dropped m | Got m => [m] | Accepted | Empty => [] end.
(** The sizes a queue reports are above the number of its elements by [slack] at most. *)
Definition size_error (slack : nat) : Prop :=
  forall q : cq KeystoneMessage, size_approx q <= length (contents q) + slack.

(** A message is dropped only when more than the limit, less the error of the three sizes, have
    to fit. *)
Definition permitted (o : Outcome) : Prop :=
  match o with
  | Dropped _ => forall slack, size_error slack -> AGENT_MAX_QUEUE_SIZE < length total + 3 * slack
  | _ => True
  end.

(** A thread with messages in its hands. *)
Fixpoint carries (held : list KeystoneMessage) (p : prog Outcome) : Prop :=
  match p with
  | Done (inl _) => False
  | Done (inr o) => held = carried o /\ permitted o
  | Act m k => forall c rest, filed c -> pending c ++ held ++ rest ≡ₚ total ->
      let '(c', r) := m c in
      filed c' /\ exists held', pending c' ++ held' ≡ₚ pending c ++ held /\ carries held' (k r)
  end.

(** An action that touches no inbox. *)
Ltac leave Hf := split; [exact Hf|eexists; split; [reflexivity|]].

Lemma carries_return now m : carries [m] (return_thread now m).
Proof.
  intros c rest Hf _. leave Hf. intros c1 rest1 Hf1 _. leave Hf1. intros c2 rest2 Hf2 _. leave Hf2.
  intros c3 rest3 Hf3 _. leave Hf3. done.
Qed.

(** Putting a message back, and taking one. *)
Lemma carries_put held held' p m (k : exn + unit -> prog Outcome) :
  held ≡ₚ m :: held' -> priority m = p -> carries held' (k (inr tt)) -> carries held (Act (enqueue_to p m) k).
Proof.
  intros Hh Hp Hk c rest Hf _. simpl. split; [by apply filed_put|]. exists held'. split; [|done].
  rewrite pending_put, Hh. simpl. by rewrite Permutation_middle.
Qed.

Lemma carries_take held p (k : exn + option KeystoneMessage -> prog Outcome) :
  (forall m, priority m = p -> carries (m :: held) (k (inr (Some m)))) -> carries held (k (inr None)) ->
  carries held (Act (dequeue_from p) k).
Proof.
  intros Hs Hn c rest Hf _. unfold dequeue_from. destruct (try_dequeue (inbox_of p c)) as [[m q]|] eqn:E.
  - destruct (filed_take _ _ _ _ Hf E) as [Hp Hf']. split; [done|]. exists (m :: held). split; [|by apply Hs].
    rewrite (pending_take _ _ _ _ E). simpl. by rewrite Permutation_middle.
  - leave Hf. exact Hn.
Qed.

Lemma carries_get now : carries [] (get_thread now).
Proof.
  intros c rest Hf _. leave Hf. intros c1 rest1 Hf1 _. leave Hf1.
  apply carries_take; [intros m Hm|].
  - simpl. destruct (_ && _); [|apply carries_return]. apply carries_take; [intros f _|].
    + apply (carries_put _ [f] _ m); [apply perm_swap|done|apply carries_return].
    + apply carries_take; [intros f _|apply carries_return].
      apply (carries_put _ [f] _ m); [apply perm_swap|done|apply carries_return].
  - apply carries_take; [intros m _; apply carries_return|].
    apply carries_take; [intros m _; apply carries_return|done].
Qed.

Lemma carries_exchange held e d (k : exn + bool -> prog Outcome) :
  (forall b, carries held (k (inr b))) -> carries held (Act (exchange_backpressure e d) k).
Proof.
  intros Hk c rest Hf _. unfold exchange_backpressure. case_bool_decide; leave Hf; apply Hk.
Qed.

(** The sizes read one after the other count no message twice, and not the one in hand. *)
Lemma carries_receive m : carries [m] (receive_thread m).
Proof.
  assert (forall h n l, h + length (lane HIGH [m]) <= length (lane HIGH total) ->
            n + length (lane NORMAL [m]) <= length (lane NORMAL total) ->
            l + length (lane LOW [m]) <= length (lane LOW total) -> h + n + l < length total) as Hsum.
  { intros h n l. pose proof (lanes total). pose proof (lanes [m]) as H1. simpl in H1. lia. }
  intros c rest Hf Ht. leave Hf. intros c1 rest1 Hf1 Ht1. leave Hf1. intros c2 rest2 Hf2 Ht2. leave Hf2.
  specialize (Hsum _ _ _ (size_in_lane HIGH _ _ _ Hf Ht) (size_in_lane NORMAL _ _ _ Hf1 Ht1)
                (size_in_lane LOW _ _ _ Hf2 Ht2)).
  intros c3 rest3 Hf3 Ht3. leave Hf3. simpl. case_bool_decide as Hd.
  - assert (permitted (Dropped m)).
    { intros slack Hsl. pose proof (Hsl (high_priority_inbox_ c)). pose proof (Hsl (normal_priority_inbox_ c1)).
      pose proof (Hsl (low_priority_inbox_ c2)). simpl in *. lia. }
    destruct (backpressure_applied_ c3); [done|]. by apply carries_exchange.
  - assert (carries [m] (atom (enqueue_to (priority m) m) ;; mret Accepted)) as He
      by by apply (carries_put _ [] _ m).
    destruct (_ && _); [|exact He]. by apply carries_exchange.
Qed.

Lemma carries_thread o :
  carries (match o with IReceive m => [m] | IGet _ => [] end) (inbox_thread o).
Proof. destruct o; [apply carries_receive|apply carries_get]. Qed.

(** *** The pool *)

Definition conserved (x : AgentCore * list (prog Outcome)) : Prop :=
  filed x.1 /\ exists hs, Forall2 carries hs x.2 /\ pending x.1 ++ flat_map (fun h => h) hs ≡ₚ total.

Lemma hands_insert (hs : list (list KeystoneMessage)) i h h' :
  hs !! i = Some h ->
  flat_map (fun h => h) (<[i := h']> hs) ≡ₚ h' ++ flat_map (fun h => h) (<[i := []]> hs).
Proof.
  intros Hi. pose proof (flat_map_insert (fun h => h) (<[i := h']> hs) i h' []) as H.
  rewrite list_insert_insert_eq in H. symmetry. apply H. apply list_lookup_insert_eq. by eapply lookup_lt_Some.
Qed.

Lemma hands_step x x' : conserved x -> pool_step x x' -> conserved x'.
Proof.
  intros (Hf & hs & Hc & Ht) Hstep. destruct Hstep as [c ps i p c' p' Hi Ha]. simpl in *.
  destruct (Forall2_lookup_r _ _ _ _ _ Hc Hi) as (h & Hh & Hp).
  destruct p as [r|B m k]; [done|]. simpl in Ha, Hp.
  pose proof (hands_insert hs i h h Hh) as Hold. rewrite (list_insert_id hs i h Hh) in Hold.
  specialize (Hp c (flat_map (fun h => h) (<[i := []]> hs)) Hf). rewrite <- Hold in Hp. specialize (Hp Ht).
  destruct (m c) as [c1 r]. injection Ha as <- <-. destruct Hp as (Hf' & h' & Hperm & Hk).
  split; [done|]. exists (<[i := h']> hs). split; [by apply Forall2_insert|]. simpl.
  rewrite (hands_insert hs i h h' Hh), app_assoc, Hperm, <- app_assoc, <- Hold. done.
Qed.

Lemma hands_steps x x' : conserved x -> rtc pool_step x x' -> conserved x'.
Proof. intros Hx Hr. induction Hr as [|x1 x2 x3 H12 _ IH]; [done|]. by eapply IH, hands_step. Qed.

(** What the finished threads say. *)
Definition handed_out (p : prog Outcome) : list KeystoneMessage :=
  match p with Done (inr (Got m)) => [m] | _ => [] end.
Definition refused (p : prog Outcome) : list KeystoneMessage :=
  match p with Done (inr (Dropped m)) => [m] | _ => [] end.

Lemma hands_finished c ps :
  conserved (c, ps) -> forallb finished ps = true ->
  pending c ++ flat_map handed_out ps ++ flat_map refused ps ≡ₚ total /\
  (forall slack, size_error slack -> length total + 3 * slack <= AGENT_MAX_QUEUE_SIZE -> flat_map refused ps = []).
Proof.
  intros (_ & hs & Hc & Ht) Hfin. simpl in *.
  assert (flat_map (fun h => h) hs ≡ₚ flat_map handed_out ps ++ flat_map refused ps /\
          (forall slack, size_error slack -> length total + 3 * slack <= AGENT_MAX_QUEUE_SIZE -> flat_map refused ps = [])) as [Hh Hd].
  { clear Ht. induction Hc as [|h p hs ps Hp Hc IH]; [done|]. destruct p as [[e|o]|]; [done| |done].
    destruct Hp as [-> Hp]. destruct IH as [IH1 IH2]; [done|]. simpl. rewrite IH1.
    destruct o; simpl in *; split; try done.
    - by rewrite Permutation_middle.
    - intros slack Hs Hl. specialize (Hp slack Hs). lia. }
  split; [|done]. by rewrite <- Hh.
Qed.
End conserved.

(** C28: threads that deliver to an agent and fetch from it at the same time neither lose nor
    duplicate a message, whatever order their queue operations happen in and with fairness
    swaps under way: once all calls have returned, what waits, what was handed out and what was
    refused are together what waited before and what arrived.  And nothing is refused if all of
    that fits the limit with room to spare for the error of the three approximate sizes: three
    times [slack], for any bound [slack] on how far a queue's [size_approx] may be above its
    number of elements (a comment in [receiveMessage] expects about ten messages). *)
Theorem inboxes_conserve_among_threads `{CQ : !ConcurrentQueue KeystoneMessage, CL : !ConcurrentQueueLaws KeystoneMessage}
    (ops : list InboxOp) (c c' : AgentCore) ps :
  filed c -> rtc pool_step (c, map inbox_thread ops) (c', ps) -> forallb finished ps = true ->
  pending c' ++ flat_map handed_out ps ++ flat_map refused ps ≡ₚ pending c ++ arrivals ops /\
  (forall slack, (forall q : cq KeystoneMessage, size_approx q <= length (contents q) + slack) ->
     length (pending c) + length (arrivals ops) + 3 * slack <= AGENT_MAX_QUEUE_SIZE -> flat_map refused ps = []).
Proof.
  intros Hf Hr Hfin. set (total := pending c ++ arrivals ops).
  assert (conserved total (c, map inbox_thread ops)) as H0.
  { split; [done|]. exists (map (fun o => match o with IReceive m => [m] | IGet _ => [] end) ops). split.
    - apply Forall2_fmap, Forall_Forall2_diag, Forall_true. intros o. apply carries_thread.
    - simpl. unfold total. apply Permutation_app_head. clear. induction ops as [|[m|t] ops IH]; simpl; [done|by rewrite IH|done]. }
  destruct (hands_finished total c' ps) as [H1 H2]; [by eapply hands_steps|done|].
  split; [done|]. intros slack Hs Hl. apply (H2 slack Hs). unfold total. by rewrite length_app.
Qed.

(** ** Runs *)

#[local] Existing Instances fifo fifo_laws.

Definition mixed : list InboxOp :=
  [IReceive (sample_message "m1" LOW); IGet 7; IReceive (sample_message "m2" HIGH)].
Definition mixed_end := schedule (rounds 3 10) (new_core "b", map inbox_thread mixed).

Lemma inboxes_conserve_among_threads_witness :
  forallb finished mixed_end.2 = true /\
  pending mixed_end.1 ++ flat_map handed_out mixed_end.2 ++ flat_map refused mixed_end.2
    ≡ₚ [sample_message "m1" LOW; sample_message "m2" HIGH] /\
  flat_map refused mixed_end.2 = [].
Proof.
  assert (forallb finished mixed_end.2 = true) as Hf by (vm_compute; reflexivity).
  destruct (inboxes_conserve_among_threads mixed (new_core "b") mixed_end.1 mixed_end.2) as [H1 H2].
  - apply filed_new.
  - rewrite <- surjective_pairing. apply schedule_steps.
  - exact Hf.
  - split; [exact Hf|]. split; [exact H1|]. apply (H2 10); [intros q; simpl; lia|].
    apply Nat.leb_le. vm_compute. reflexivity.
Defined.

(** The limit is soft: every sender that read the sizes before the others enqueued is let in.
    Twelve senders that find 9,999 messages waiting leave 10,011; the comment in
    [receiveMessage] expects the count to be off by ten at most. *)
Lemma limit_exceeded_by_senders :
  let c := set_inbox NORMAL (replicate (Z.to_nat 9999) (sample_message "m" NORMAL)) (new_core "b") in
  let x := schedule (rounds 12 5) (c, map inbox_thread (replicate 12 (IReceive (sample_message "m" NORMAL)))) in
  forallb finished x.2 = true /\ N.of_nat (total_depth x.1) = 10011%N.
Proof. vm_compute. by split. Qed.
